(** * HD-audio controller (hda_intel.c): command ring, stream setup, DMA position

    A shallow embedding of the codec command transport (CORB/RIRB ring and
    the immediate-command fallback), of the buffer-descriptor-list set-up and
    of the DMA position check of [sound/pci/hda/hda_intel.c].

    Conventions.
    - C integers are [Z] with the wrap-around of their type written out
      ([as_u32], [as_u16], [as_int], [as_ulong]).
    - C arrays and DMA memory are [gmap Z Z]; a cell never written reads 0
      (the structures are allocated zeroed), see [rd].
    - Memory-mapped registers are fields of [azx_regs]; what the hardware does
      on its own (delivering a response, raising the interrupt) is an
      explicit [hw_event] of the environment.
    - Diagnostic printing (snd_printk and friends), delays and locks change
      no modelled state and are left out. *)

From stdpp Require Import gmap list.

Open Scope Z_scope.

(** ** Machine integers *)

Definition as_u8 (x : Z) : Z := x mod 256.
Definition as_u16 (x : Z) : Z := x mod 65536.
Definition as_u32 (x : Z) : Z := x mod 4294967296.
Definition as_int (x : Z) : Z := (x + 2147483648) mod 4294967296 - 2147483648.

#[global] Arguments as_u8 : simpl never.
#[global] Arguments as_u16 : simpl never.
#[global] Arguments as_u32 : simpl never.
#[global] Arguments as_int : simpl never.

(** [(unsigned int)-1], the error value of the response readers. *)
Definition U32_MINUS_1 : Z := 4294967295.

Definition EINVAL : Z := 22.
Definition EIO : Z := 5.

(** ** Arrays and DMA memory *)

Definition rd (m : gmap Z Z) (i : Z) : Z := default 0 (m !! i).
Definition wr (m : gmap Z Z) (i v : Z) : gmap Z Z := <[i := v]> m.

#[global] Arguments rd : simpl never.
#[global] Arguments wr : simpl never.

(** ** Constants of the driver *)

Definition AZX_MAX_CODECS : Z := 8.
Definition ICH6_MAX_CORB_ENTRIES : Z := 256.
Definition ICH6_MAX_RIRB_ENTRIES : Z := 256.
Definition ICH6_RIRB_EX_UNSOL_EV : Z := 16.       (* 1 << 4 *)
Definition ICH6_GCTL_UNSOL : Z := 256.            (* 1 << 8 *)
Definition ICH6_CORBCTL_RUN : Z := 2.
Definition ICH6_RBCTL_IRQ_EN : Z := 1.
Definition ICH6_RBCTL_DMA_EN : Z := 2.
Definition ICH6_IRS_VALID : Z := 2.
Definition ICH6_IRS_BUSY : Z := 1.
Definition BDL_SIZE : Z := 4096.
Definition AZX_MAX_BDL_ENTRIES : Z := BDL_SIZE / 16.

(** ** Data model *)

(** [struct azx_rb]: one record type serves both rings, as in the source;
    [rp], [wp], [cmds] and [res] are only used for the RIRB. *)
Record azx_rb := mk_rb {
  buf : gmap Z Z;      (* ring memory, indexed in 32-bit words *)
  rp : Z;              (* unsigned short *)
  wp : Z;              (* unsigned short *)
  cmds : gmap Z Z;     (* int cmds[AZX_MAX_CODECS]: pending requests *)
  res : gmap Z Z       (* u32 res[AZX_MAX_CODECS]: last read value *)
}.

(** The fields of [struct hda_bus] the controller driver touches; the
    unsolicited-event queue stands for snd_hda_queue_unsol_event. *)
Record hda_bus := mk_bus {
  rirb_error : bool;
  response_reset : bool;
  in_reset : bool;
  allow_bus_reset : bool;
  workq : bool;                 (* bus->workq is set *)
  unsol_queue : list (Z * Z)
}.

(** The controller registers used by the command transport. [CORBWP] and
    [RIRBWP] are the 32-bit words at 0x48 and 0x58; byte reads take the low
    byte. *)
Record azx_regs := mk_regs {
  GCTL : Z;
  CORBWP : Z;
  CORBCTL : Z;
  RIRBWP : Z;
  RIRBCTL : Z;
  IC : Z;
  IRS : Z
}.

(** Position fix mode. *)
Inductive pos_fix :=
  | POS_FIX_AUTO
  | POS_FIX_LPIB
  | POS_FIX_POSBUF
  | POS_FIX_VIACOMBO
  | POS_FIX_COMBO.

Inductive pcm_stream := SNDRV_PCM_STREAM_PLAYBACK | SNDRV_PCM_STREAM_CAPTURE.

(** [struct azx], restricted to the command transport and the position fix. *)
Record azx := mk_azx {
  regs : azx_regs;
  bus : hda_bus;
  corb : azx_rb;
  rirb : azx_rb;
  irq : Z;
  irq_id : Z;
  position_fix : pos_fix * pos_fix;   (* int position_fix[2] *)
  poll_count : Z;
  single_cmd : bool;
  polling_mode : bool;
  msi : bool;
  probing : bool;
  last_cmd : gmap Z Z
}.

(** Field updates. *)

Definition set_buf (b : gmap Z Z) (r : azx_rb) : azx_rb :=
  mk_rb b (rp r) (wp r) (cmds r) (res r).
Definition set_rp (v : Z) (r : azx_rb) : azx_rb :=
  mk_rb (buf r) v (wp r) (cmds r) (res r).
Definition set_wp (v : Z) (r : azx_rb) : azx_rb :=
  mk_rb (buf r) (rp r) v (cmds r) (res r).
Definition set_cmds (m : gmap Z Z) (r : azx_rb) : azx_rb :=
  mk_rb (buf r) (rp r) (wp r) m (res r).
Definition set_res (m : gmap Z Z) (r : azx_rb) : azx_rb :=
  mk_rb (buf r) (rp r) (wp r) (cmds r) m.

Definition set_rirb_error (v : bool) (b : hda_bus) : hda_bus :=
  mk_bus v (response_reset b) (in_reset b) (allow_bus_reset b) (workq b)
    (unsol_queue b).
Definition set_response_reset (v : bool) (b : hda_bus) : hda_bus :=
  mk_bus (rirb_error b) v (in_reset b) (allow_bus_reset b) (workq b)
    (unsol_queue b).
Definition set_unsol_queue (q : list (Z * Z)) (b : hda_bus) : hda_bus :=
  mk_bus (rirb_error b) (response_reset b) (in_reset b) (allow_bus_reset b)
    (workq b) q.

Definition set_GCTL (v : Z) (r : azx_regs) : azx_regs :=
  mk_regs v (CORBWP r) (CORBCTL r) (RIRBWP r) (RIRBCTL r) (IC r) (IRS r).
Definition set_CORBWP (v : Z) (r : azx_regs) : azx_regs :=
  mk_regs (GCTL r) v (CORBCTL r) (RIRBWP r) (RIRBCTL r) (IC r) (IRS r).
Definition set_CORBCTL (v : Z) (r : azx_regs) : azx_regs :=
  mk_regs (GCTL r) (CORBWP r) v (RIRBWP r) (RIRBCTL r) (IC r) (IRS r).
Definition set_RIRBWP (v : Z) (r : azx_regs) : azx_regs :=
  mk_regs (GCTL r) (CORBWP r) (CORBCTL r) v (RIRBCTL r) (IC r) (IRS r).
Definition set_RIRBCTL (v : Z) (r : azx_regs) : azx_regs :=
  mk_regs (GCTL r) (CORBWP r) (CORBCTL r) (RIRBWP r) v (IC r) (IRS r).
Definition set_IC (v : Z) (r : azx_regs) : azx_regs :=
  mk_regs (GCTL r) (CORBWP r) (CORBCTL r) (RIRBWP r) (RIRBCTL r) v (IRS r).
Definition set_IRS (v : Z) (r : azx_regs) : azx_regs :=
  mk_regs (GCTL r) (CORBWP r) (CORBCTL r) (RIRBWP r) (RIRBCTL r) (IC r) v.

Definition upd_regs (f : azx_regs -> azx_regs) (c : azx) : azx :=
  mk_azx (f (regs c)) (bus c) (corb c) (rirb c) (irq c) (irq_id c)
    (position_fix c) (poll_count c) (single_cmd c) (polling_mode c) (msi c)
    (probing c) (last_cmd c).
Definition upd_bus (f : hda_bus -> hda_bus) (c : azx) : azx :=
  mk_azx (regs c) (f (bus c)) (corb c) (rirb c) (irq c) (irq_id c)
    (position_fix c) (poll_count c) (single_cmd c) (polling_mode c) (msi c)
    (probing c) (last_cmd c).
Definition upd_corb (f : azx_rb -> azx_rb) (c : azx) : azx :=
  mk_azx (regs c) (bus c) (f (corb c)) (rirb c) (irq c) (irq_id c)
    (position_fix c) (poll_count c) (single_cmd c) (polling_mode c) (msi c)
    (probing c) (last_cmd c).
Definition upd_rirb (f : azx_rb -> azx_rb) (c : azx) : azx :=
  mk_azx (regs c) (bus c) (corb c) (f (rirb c)) (irq c) (irq_id c)
    (position_fix c) (poll_count c) (single_cmd c) (polling_mode c) (msi c)
    (probing c) (last_cmd c).
Definition set_irq (v : Z) (c : azx) : azx :=
  mk_azx (regs c) (bus c) (corb c) (rirb c) v (irq_id c)
    (position_fix c) (poll_count c) (single_cmd c) (polling_mode c) (msi c)
    (probing c) (last_cmd c).
Definition set_position_fix (v : pos_fix * pos_fix) (c : azx) : azx :=
  mk_azx (regs c) (bus c) (corb c) (rirb c) (irq c) (irq_id c)
    v (poll_count c) (single_cmd c) (polling_mode c) (msi c)
    (probing c) (last_cmd c).
Definition set_poll_count (v : Z) (c : azx) : azx :=
  mk_azx (regs c) (bus c) (corb c) (rirb c) (irq c) (irq_id c)
    (position_fix c) v (single_cmd c) (polling_mode c) (msi c)
    (probing c) (last_cmd c).
Definition set_single_cmd (v : bool) (c : azx) : azx :=
  mk_azx (regs c) (bus c) (corb c) (rirb c) (irq c) (irq_id c)
    (position_fix c) (poll_count c) v (polling_mode c) (msi c)
    (probing c) (last_cmd c).
Definition set_polling_mode (v : bool) (c : azx) : azx :=
  mk_azx (regs c) (bus c) (corb c) (rirb c) (irq c) (irq_id c)
    (position_fix c) (poll_count c) (single_cmd c) v (msi c)
    (probing c) (last_cmd c).
Definition set_msi (v : bool) (c : azx) : azx :=
  mk_azx (regs c) (bus c) (corb c) (rirb c) (irq c) (irq_id c)
    (position_fix c) (poll_count c) (single_cmd c) (polling_mode c) v
    (probing c) (last_cmd c).
Definition set_probing (v : bool) (c : azx) : azx :=
  mk_azx (regs c) (bus c) (corb c) (rirb c) (irq c) (irq_id c)
    (position_fix c) (poll_count c) (single_cmd c) (polling_mode c) (msi c)
    v (last_cmd c).
Definition set_last_cmd (m : gmap Z Z) (c : azx) : azx :=
  mk_azx (regs c) (bus c) (corb c) (rirb c) (irq c) (irq_id c)
    (position_fix c) (poll_count c) (single_cmd c) (polling_mode c) (msi c)
    (probing c) m.

(** Register access. A byte read returns the low byte of the register word. *)
Definition azx_readb (v : Z) : Z := Z.land v 255.

(** ** CORB / RIRB interface *)

(** [azx_init_cmd_io]: the ring set-up. Writing the reset bit to RIRBWP makes
    the hardware write pointer read 0. *)
Definition azx_init_cmd_io (c : azx) : azx :=
  let c := upd_regs (set_CORBWP 0) c in
  let c := upd_regs (set_CORBCTL ICH6_CORBCTL_RUN) c in
  let c := upd_rirb (fun r => set_cmds ∅ (set_rp 0 (set_wp 0 r))) c in
  let c := upd_regs (set_RIRBWP 0) c in
  upd_regs (set_RIRBCTL (Z.lor ICH6_RBCTL_DMA_EN ICH6_RBCTL_IRQ_EN)) c.

(** [azx_free_cmd_io]: disable the ring DMAs. *)
Definition azx_free_cmd_io (c : azx) : azx :=
  upd_regs (set_CORBCTL 0) (upd_regs (set_RIRBCTL 0) c).

Definition azx_command_addr (cmd : Z) : Z :=
  let addr := Z.shiftr cmd 28 in
  if AZX_MAX_CODECS <=? addr then 0 else addr.

Definition azx_response_addr (r_ex : Z) : Z :=
  let addr := Z.land r_ex 15 in
  if AZX_MAX_CODECS <=? addr then 0 else addr.

#[global] Arguments azx_command_addr : simpl never.
#[global] Arguments azx_response_addr : simpl never.

(** [azx_corb_send_cmd]: append a command to the CORB. *)
Definition azx_corb_send_cmd (c : azx) (val : Z) : azx * Z :=
  let addr := azx_command_addr val in
  let w := azx_readb (CORBWP (regs c)) in
  let w := w + 1 in
  let w := w mod ICH6_MAX_CORB_ENTRIES in
  let c := upd_rirb (fun r => set_cmds (wr (cmds r) addr (as_int (rd (cmds r) addr + 1))) r) c in
  let c := upd_corb (fun r => set_buf (wr (buf r) w val) r) c in
  let c := upd_regs (set_CORBWP w) c in
  (c, 0).

(** The dispatch of one response inside [azx_update_rirb]: an unsolicited
    event is queued, a response to a pending command is stored and the
    counter decremented, anything else is a spurious response (printed). *)
Definition rirb_dispatch (r r_ex : Z) (c : azx) : azx :=
  let addr := azx_response_addr r_ex in
  if negb (Z.land r_ex ICH6_RIRB_EX_UNSOL_EV =? 0) then
    upd_bus (fun b => set_unsol_queue (unsol_queue b ++ [(r, r_ex)]) b) c
  else if negb (rd (cmds (rirb c)) addr =? 0) then
    let c := upd_rirb (fun rb => set_res (wr (res rb) addr r) rb) c in
    upd_rirb (fun rb => set_cmds (wr (cmds rb) addr (as_int (rd (cmds rb) addr - 1))) rb) c
  else c.

(** One turn of the loop of [azx_update_rirb]: advance the read pointer and
    dispatch the entry found there (an entry is two 32-bit words). *)
Definition rirb_entry (c : azx) : azx :=
  let c := upd_rirb (fun r => set_rp (as_u16 (rp r + 1)) r) c in
  let c := upd_rirb (fun r => set_rp (rp r mod ICH6_MAX_RIRB_ENTRIES) r) c in
  let i := Z.shiftl (rp (rirb c)) 1 in
  let r_ex := rd (buf (rirb c)) (i + 1) in
  let r := rd (buf (rirb c)) i in
  rirb_dispatch r r_ex c.

(** [while (chip->rirb.rp != wp)]. The read pointer is below 256 after the
    first turn and then reaches any byte value within 256 turns, so 257 turns
    always suffice ([rirb_drain_inv]). *)
Fixpoint rirb_drain (fuel : nat) (w : Z) (c : azx) : azx :=
  match fuel with
  | O => c
  | S n => if rp (rirb c) =? w then c else rirb_drain n w (rirb_entry c)
  end.

(** [azx_update_rirb]: retrieve the new RIRB entries. *)
Definition azx_update_rirb (c : azx) : azx :=
  let w := azx_readb (RIRBWP (regs c)) in
  if w =? wp (rirb c) then c
  else rirb_drain 257 w (upd_rirb (set_wp w) c).

(** ** The environment of the command transport *)

(** What the hardware does on its own while the driver runs.
    - [HwResponse r r_ex]: the RIRB DMA engine advances its write pointer
      (modulo the 256 entries) and stores the response [r] and its extended
      word [r_ex] in that entry.
    - [HwIrq]: the response interrupt is serviced; [azx_interrupt] calls
      [azx_update_rirb] under the register lock. *)
Inductive hw_event :=
  | HwResponse (r r_ex : Z)
  | HwIrq.

Definition hw_step (c : azx) (e : hw_event) : azx :=
  match e with
  | HwResponse r r_ex =>
      let w := (azx_readb (RIRBWP (regs c)) + 1) mod ICH6_MAX_RIRB_ENTRIES in
      let c := upd_rirb (fun rb =>
                 set_buf (wr (wr (buf rb) (Z.shiftl w 1) r) (Z.shiftl w 1 + 1) r_ex) rb) c in
      upd_regs (set_RIRBWP w) c
  | HwIrq => azx_update_rirb c
  end.

(** One turn of the wait loop of [azx_rirb_get_response] as the environment
    sees it: the events that happened since the previous turn, and whether
    [time_after(jiffies, timeout)] holds in this turn. *)
Record tick := mk_tick {
  concurrent : list hw_event;
  expired : bool
}.

(** When the list of turns is used up, the clock has run out and nothing
    happens any more. *)
Definition last_tick : tick := mk_tick [] true.

(** ** Receiving a response over the ring *)

(** The successful exit of the wait loop. *)
Definition rirb_deliver (do_poll : bool) (addr : Z) (c : azx) : azx * Z :=
  let c := upd_bus (set_rirb_error false) c in
  let c := if do_poll then c else set_poll_count 0 c in
  (c, rd (res (rirb c)) addr).

(** One turn of [for (loopcounter = 0;; loopcounter++)]: [inr v] when the
    response is returned, [inl true] on [break], [inl false] to go round. *)
Definition wait_turn (do_poll : bool) (addr : Z) (t : tick) (c : azx)
  : azx * (bool + Z) :=
  let c := fold_left hw_step (concurrent t) c in
  let c := if polling_mode c || do_poll then azx_update_rirb c else c in
  if rd (cmds (rirb c)) addr =? 0 then
    let '(c, v) := rirb_deliver do_poll addr c in (c, inr v)
  else (c, inl (expired t)).

(** The wait loop: the state on leaving it, the turns not used, the events
    that took place meanwhile, and the response if there was one. *)
Fixpoint wait_response (do_poll : bool) (addr : Z) (ts : list tick) (c : azx)
  : azx * list tick * list hw_event * option Z :=
  match ts with
  | [] =>
      match wait_turn do_poll addr last_tick c with
      | (c, inr v) => (c, [], [], Some v)
      | (c, inl _) => (c, [], [], None)
      end
  | t :: ts' =>
      match wait_turn do_poll addr t c with
      | (c, inr v) => (c, ts', concurrent t, Some v)
      | (c, inl true) => (c, ts', concurrent t, None)
      | (c, inl false) =>
          let '(c, rest, evs, r) := wait_response do_poll addr ts' c in
          (c, rest, concurrent t ++ evs, r)
      end
  end.

(** [azx_acquire_irq(chip, 1)]; whether request_irq succeeds is decided by
    the environment. *)
Definition azx_acquire_irq (irq_ok : bool) (c : azx) : azx * Z :=
  if irq_ok then (set_irq (irq_id c) c, 0) else (c, -1).

(** The body of [azx_rirb_get_response] from the label [again]; [fuel] bounds
    the number of passes through the label. *)
Fixpoint rirb_get_response_from (fuel : nat) (do_poll : bool) (addr : Z)
    (irq_ok : bool) (ts : list tick) (c : azx)
  : option (azx * list tick * list hw_event * Z) :=
  match fuel with
  | O => None
  | S n =>
      let '(c, ts, evs, r) := wait_response do_poll addr ts c in
      let again (do_poll : bool) (c : azx) :=
        match rirb_get_response_from n do_poll addr irq_ok ts c with
        | Some (c', ts', evs', v) => Some (c', ts', evs ++ evs', v)
        | None => None
        end in
      match r with
      | Some v => Some (c, ts, evs, v)
      | None =>
          if negb (polling_mode c) && (poll_count c <? 2) then
            again true (set_poll_count (as_int (poll_count c + 1)) c)
          else if negb (polling_mode c) then
            again do_poll (set_polling_mode true c)
          else if msi c then
            let c := set_irq (-1) c in
            let c := set_msi false c in
            match azx_acquire_irq irq_ok c with
            | (c, e) =>
                if e <? 0 then
                  Some (upd_bus (set_rirb_error true) c, ts, evs, U32_MINUS_1)
                else again do_poll c
            end
          else if probing c then
            Some (c, ts, evs, U32_MINUS_1)
          else
            let c := upd_bus (set_rirb_error true) c in
            if allow_bus_reset (bus c) && negb (response_reset (bus c))
               && negb (in_reset (bus c)) then
              Some (upd_bus (set_response_reset true) c, ts, evs, U32_MINUS_1)
            else
              let c := set_single_cmd true c in
              let c := upd_bus (set_response_reset false) c in
              let c := azx_free_cmd_io c in
              let c := upd_regs (fun r => set_GCTL (Z.land (GCTL r) (as_u32 (Z.lnot ICH6_GCTL_UNSOL))) r) c in
              Some (c, ts, evs, U32_MINUS_1)
      end
  end.

(** Passes through [again] are at most: one per increment of the poll count
    up to 2, one for the switch to polling mode, one for disabling MSI. *)
Definition again_budget (c : azx) : nat := Z.to_nat (2 - poll_count c) + 3.

(** [azx_rirb_get_response]: receive a response. *)
Definition azx_rirb_get_response (c : azx) (addr : Z) (irq_ok : bool)
    (ts : list tick) : option (azx * list tick * list hw_event * Z) :=
  rirb_get_response_from (again_budget c) false addr irq_ok ts c.

(** ** The single immediate command *)

(** Reads of the IRS register come from a tape of the values the hardware
    shows at each read (0 once the tape is used up). *)
Definition read_tape (tape : list Z) : Z * list Z := (hd 0 tape, tl tape).

(** [azx_single_wait_for_response]; [timeout] is the loop counter, [ir] the
    value of the IR register. *)
Fixpoint single_wait_loop (timeout : nat) (irs : list Z) (ir : Z) (addr : Z)
    (c : azx) : azx * list Z * Z :=
  match timeout with
  | O => (upd_rirb (fun rb => set_res (wr (res rb) addr U32_MINUS_1) rb) c, irs, - EIO)
  | S n =>
      let '(v, irs) := read_tape irs in
      if negb (Z.land v ICH6_IRS_VALID =? 0) then
        (upd_rirb (fun rb => set_res (wr (res rb) addr ir) rb) c, irs, 0)
      else single_wait_loop n irs ir addr c
  end.

Definition azx_single_wait_for_response (irs : list Z) (ir : Z) (c : azx)
    (addr : Z) : azx * list Z * Z :=
  single_wait_loop 50 irs ir addr c.

Fixpoint single_send_loop (timeout : nat) (irs : list Z) (ir : Z) (addr : Z)
    (val : Z) (c : azx) : azx * list Z * Z :=
  match timeout with
  | O => (c, irs, - EIO)
  | S n =>
      let '(v, irs) := read_tape irs in
      if Z.land v ICH6_IRS_BUSY =? 0 then
        let '(v1, irs) := read_tape irs in
        let c := upd_regs (set_IRS (Z.lor v1 ICH6_IRS_VALID)) c in
        let c := upd_regs (set_IC val) c in
        let '(v2, irs) := read_tape irs in
        let c := upd_regs (set_IRS (Z.lor v2 ICH6_IRS_BUSY)) c in
        azx_single_wait_for_response irs ir c addr
      else single_send_loop n irs ir addr val c
  end.

(** [azx_single_send_cmd]: send a command and wait for its response. *)
Definition azx_single_send_cmd (irs : list Z) (ir : Z) (c : azx) (val : Z)
  : azx * Z :=
  let addr := azx_command_addr val in
  let c := upd_bus (set_rirb_error false) c in
  let '(c, _, e) := single_send_loop 50 irs ir addr val c in
  (c, e).

Definition azx_single_get_response (c : azx) (addr : Z) : Z :=
  rd (res (rirb c)) addr.

(** ** The callbacks of the codec layer *)

(** [azx_send_cmd]: send a command. *)
Definition azx_send_cmd (irs : list Z) (ir : Z) (c : azx) (val : Z) : azx * Z :=
  let c := set_last_cmd (wr (last_cmd c) (azx_command_addr val) val) c in
  if single_cmd c then azx_single_send_cmd irs ir c val
  else azx_corb_send_cmd c val.

(** [azx_get_response]: get a response. *)
Definition azx_get_response (c : azx) (addr : Z) (irq_ok : bool)
    (ts : list tick) : option (azx * list tick * list hw_event * Z) :=
  if single_cmd c then Some (c, ts, [], azx_single_get_response c addr)
  else azx_rirb_get_response c addr irq_ok ts.

(** [probe_codec]: probe the given codec address. [param_verb] stands for
    [(AC_NODE_ROOT << 20) | (AC_VERB_PARAMETERS << 8) | AC_PAR_VENDOR_ID],
    whose constants come from the codec header. *)
Definition probe_codec (param_verb : Z) (irs : list Z) (ir : Z) (irq_ok : bool)
    (ts : list tick) (c : azx) (addr : Z) : option (azx * Z) :=
  let cmd := as_u32 (Z.lor (Z.shiftl addr 28) param_verb) in
  let c := set_probing true c in
  let '(c, _) := azx_send_cmd irs ir c cmd in
  match azx_get_response c addr irq_ok ts with
  | None => None
  | Some (c, _, _, r) =>
      let c := set_probing false c in
      Some (c, if r =? U32_MINUS_1 then - EIO else 0)
  end.

(** ** Sequences of transport operations *)

(** What the codec layer and the hardware do, in order. A send carries the
    IRS tape and the IR value used if it goes over the immediate-command
    registers; a receive carries the turns of its wait loop and the outcome
    of request_irq. *)
Inductive op :=
  | OpSend (val : Z) (irs : list Z) (ir : Z)
  | OpRecv (addr : Z) (irq_ok : bool) (ts : list tick)
  | OpHw (e : hw_event).

(** What can be observed of a run: commands sent, hardware events in the
    order they took place (those during a receive included), and the value
    each receive returned. *)
Inductive obs :=
  | ObsSend (val : Z)
  | ObsHw (e : hw_event)
  | ObsRecv (addr : Z) (v : Z).

Definition run_op (c : azx) (o : op) : option (azx * list obs) :=
  match o with
  | OpSend val irs ir =>
      let '(c, _) := azx_send_cmd irs ir c val in Some (c, [ObsSend val])
  | OpRecv addr irq_ok ts =>
      match azx_get_response c addr irq_ok ts with
      | Some (c, _, evs, v) => Some (c, map ObsHw evs ++ [ObsRecv addr v])
      | None => None
      end
  | OpHw e => Some (hw_step c e, [ObsHw e])
  end.

Fixpoint run (ops : list op) (c : azx) : option (azx * list obs) :=
  match ops with
  | [] => Some (c, [])
  | o :: ops' =>
      match run_op c o with
      | Some (c1, l1) =>
          match run ops' c1 with
          | Some (c2, l2) => Some (c2, l1 ++ l2)
          | None => None
          end
      | None => None
      end
  end.

(** ** Streams: buffer descriptor list *)

Section Streams.

(** Width of [unsigned long] in bits: 32 on the ARM targets of this tree, 64
    on x86-64. *)
Variable BITS_PER_LONG : Z.

Definition as_ulong (x : Z) : Z := x mod 2 ^ BITS_PER_LONG.

#[global] Arguments as_ulong : simpl never.

(** The scatter-gather buffer of the substream, from the PCM core:
    snd_pcm_sgbuf_get_addr and snd_pcm_sgbuf_get_chunk_size. *)
Variable sgbuf_get_addr : Z -> Z.
Variable sgbuf_get_chunk_size : Z -> Z -> Z.

(** The fields of [struct snd_pcm_runtime] read by the driver. *)
Record snd_pcm_runtime := mk_runtime {
  rate : Z;
  period_size : Z;          (* in frames *)
  frame_bits : Z;
  buffer_bytes : Z;         (* snd_pcm_lib_buffer_bytes *)
  lib_period_bytes : Z;     (* snd_pcm_lib_period_bytes *)
  no_period_wakeup : bool
}.

(** [struct azx_dev]. [substream] holds the direction of the assigned
    substream, [bdl] the memory of the descriptor list in 32-bit words. *)
Record azx_dev := mk_dev {
  bdl : gmap Z Z;
  bufsize : Z;
  period_bytes : Z;
  frags : Z;
  fifo_size : Z;
  start_wallclk : Z;        (* unsigned long *)
  period_wallclk : Z;       (* unsigned long *)
  substream : option pcm_stream;
  format_val : Z;
  stream_tag : Z;
  opened : bool;
  running : bool;
  irq_pending : bool;
  insufficient : bool
}.

Definition set_bdl (v : gmap Z Z) (d : azx_dev) : azx_dev :=
  mk_dev v (bufsize d) (period_bytes d) (frags d) (fifo_size d)
    (start_wallclk d) (period_wallclk d) (substream d) (format_val d)
    (stream_tag d) (opened d) (running d) (irq_pending d) (insufficient d).
Definition set_bufsize (v : Z) (d : azx_dev) : azx_dev :=
  mk_dev (bdl d) v (period_bytes d) (frags d) (fifo_size d)
    (start_wallclk d) (period_wallclk d) (substream d) (format_val d)
    (stream_tag d) (opened d) (running d) (irq_pending d) (insufficient d).
Definition set_period_bytes (v : Z) (d : azx_dev) : azx_dev :=
  mk_dev (bdl d) (bufsize d) v (frags d) (fifo_size d)
    (start_wallclk d) (period_wallclk d) (substream d) (format_val d)
    (stream_tag d) (opened d) (running d) (irq_pending d) (insufficient d).
Definition set_frags (v : Z) (d : azx_dev) : azx_dev :=
  mk_dev (bdl d) (bufsize d) (period_bytes d) v (fifo_size d)
    (start_wallclk d) (period_wallclk d) (substream d) (format_val d)
    (stream_tag d) (opened d) (running d) (irq_pending d) (insufficient d).
Definition set_fifo_size (v : Z) (d : azx_dev) : azx_dev :=
  mk_dev (bdl d) (bufsize d) (period_bytes d) (frags d) v
    (start_wallclk d) (period_wallclk d) (substream d) (format_val d)
    (stream_tag d) (opened d) (running d) (irq_pending d) (insufficient d).
Definition set_start_wallclk (v : Z) (d : azx_dev) : azx_dev :=
  mk_dev (bdl d) (bufsize d) (period_bytes d) (frags d) (fifo_size d)
    v (period_wallclk d) (substream d) (format_val d)
    (stream_tag d) (opened d) (running d) (irq_pending d) (insufficient d).
Definition set_period_wallclk (v : Z) (d : azx_dev) : azx_dev :=
  mk_dev (bdl d) (bufsize d) (period_bytes d) (frags d) (fifo_size d)
    (start_wallclk d) v (substream d) (format_val d)
    (stream_tag d) (opened d) (running d) (irq_pending d) (insufficient d).
Definition set_format_val (v : Z) (d : azx_dev) : azx_dev :=
  mk_dev (bdl d) (bufsize d) (period_bytes d) (frags d) (fifo_size d)
    (start_wallclk d) (period_wallclk d) (substream d) v
    (stream_tag d) (opened d) (running d) (irq_pending d) (insufficient d).
Definition set_irq_pending (v : bool) (d : azx_dev) : azx_dev :=
  mk_dev (bdl d) (bufsize d) (period_bytes d) (frags d) (fifo_size d)
    (start_wallclk d) (period_wallclk d) (substream d) (format_val d)
    (stream_tag d) (opened d) (running d) v (insufficient d).
Definition set_insufficient (v : bool) (d : azx_dev) : azx_dev :=
  mk_dev (bdl d) (bufsize d) (period_bytes d) (frags d) (fifo_size d)
    (start_wallclk d) (period_wallclk d) (substream d) (format_val d)
    (stream_tag d) (opened d) (running d) (irq_pending d) v.

(** [upper_32_bits] of a DMA address. *)
Definition upper_32_bits (a : Z) : Z := as_u32 (Z.shiftr a 32).

#[global] Arguments upper_32_bits : simpl never.

(** The loop of [setup_bdle]: [p] is the word index of the next entry in the
    descriptor memory, [ofs] and [size] are C ints. Every turn that does not
    return -EINVAL adds an entry, so the loop is left within 257 turns
    whatever the chunk sizes ([setup_bdle_total]). [None]: fuel used up. *)
Fixpoint setup_bdle_loop (fuel : nat) (d : azx_dev) (p ofs size : Z)
    (with_ioc : bool) : option (azx_dev * Z * Z) :=
  match fuel with
  | O => None
  | S n =>
      if 0 <? size then
        if AZX_MAX_BDL_ENTRIES <=? frags d then Some (d, p, - EINVAL)
        else
          let addr := sgbuf_get_addr ofs in
          let m := wr (bdl d) p (as_u32 addr) in
          let m := wr m (p + 1) (upper_32_bits addr) in
          let chunk := as_int (sgbuf_get_chunk_size ofs size) in
          let m := wr m (p + 2) (as_u32 chunk) in
          let size := as_int (size - chunk) in
          let m := wr m (p + 3)
                     (if negb (size =? 0) || negb with_ioc then 0 else 1) in
          let d := set_frags (as_u32 (frags d + 1)) (set_bdl m d) in
          setup_bdle_loop n d (p + 4) (as_int (ofs + chunk)) size with_ioc
      else Some (d, p, ofs)
  end.

(** [setup_bdle]: set up the entries of one stretch of the buffer. *)
Definition setup_bdle (d : azx_dev) (p ofs size : Z) (with_ioc : bool)
  : option (azx_dev * Z * Z) :=
  setup_bdle_loop 257 d p ofs size with_ioc.

(** [frames_to_bytes] of the PCM core. *)
Definition frames_to_bytes (rt : snd_pcm_runtime) (n : Z) : Z :=
  n * frame_bits rt / 8.

(** The [for (i = 0; i < periods; i++)] loop of [azx_setup_periods]; [n]
    counts the turns left. The result is the state and whether the loop ran
    into [goto error]. *)
Fixpoint setup_periods_loop (n : nat) (i periods pos_adj : Z)
    (rt : snd_pcm_runtime) (d : azx_dev) (p ofs : Z)
  : option (azx_dev * bool) :=
  match n with
  | O => Some (d, false)
  | S n' =>
      let r :=
        if (i =? periods - 1) && negb (pos_adj =? 0) then
          setup_bdle d p ofs (as_int (period_bytes d - pos_adj)) false
        else
          setup_bdle d p ofs (as_int (period_bytes d)) (negb (no_period_wakeup rt)) in
      match r with
      | None => None
      | Some (d, p, ofs) =>
          if ofs <? 0 then Some (d, true)
          else setup_periods_loop n' (i + 1) periods pos_adj rt d p ofs
      end
  end.

(** The position adjustment in bytes computed from [bdl_pos_adj] when it is
    positive. *)
Definition pos_adj_bytes (adj : Z) (rt : snd_pcm_runtime) : Z :=
  let pos_align := adj in
  let a := as_int (as_u32 (adj * rate rt + 47999) / 48000) in
  let a := if a =? 0 then pos_align
           else as_int ((a + pos_align - 1) / pos_align * pos_align) in
  as_int (frames_to_bytes rt a).

(** [azx_setup_periods]: set up the BDL entries. [adj] is
    [bdl_pos_adj[chip->dev_index]]. [None] when the division by the period
    size faults (or, never, when [setup_bdle] lacks fuel). *)
Definition azx_setup_periods (adj : Z) (rt : snd_pcm_runtime) (d : azx_dev)
  : option (azx_dev * Z) :=
  let pb := as_int (period_bytes d) in
  if as_u32 pb =? 0 then None
  else
    let periods := as_int (bufsize d / as_u32 pb) in
    let d := set_frags 0 d in
    let finish (pos_adj : Z) (d : azx_dev) (p ofs : Z) :=
      match setup_periods_loop (Z.to_nat periods) 0 periods pos_adj rt d p ofs with
      | None => None
      | Some (d, true) => Some (d, - EINVAL)
      | Some (d, false) => Some (d, 0)
      end in
    if 0 <? adj then
      let pos_adj := pos_adj_bytes adj rt in
      if pb <=? pos_adj then finish 0 d 0 0
      else
        match setup_bdle d 0 0 pos_adj (negb (no_period_wakeup rt)) with
        | None => None
        | Some (d, p, ofs) =>
            if ofs <? 0 then Some (d, - EINVAL) else finish pos_adj d p ofs
        end
    else finish 0 d 0 0.

(** The period in wall-clock ticks, as [azx_pcm_prepare] computes it
    (24 MHz clock, [unsigned long] arithmetic). *)
Definition period_wallclk_of (rt : snd_pcm_runtime) : Z :=
  as_ulong (as_ulong (period_size rt * 24000) / rate rt * 1000).

(** [azx_pcm_prepare], the part that concerns the stream descriptor.
    [dir] is the direction of the substream being prepared, [fmt] the
    result of snd_hda_calc_stream_format, [fifosize_reg] the
    value of the SD_FIFOSIZE register, [codec_ret] the result of
    snd_hda_codec_prepare. The stream registers written by
    azx_stream_reset and azx_setup_controller are not modelled. *)
Definition azx_pcm_prepare (adj : Z) (dir : pcm_stream) (rt : snd_pcm_runtime)
    (fmt : Z) (fifosize_reg : Z) (codec_ret : Z) (d : azx_dev)
  : option (azx_dev * Z) :=
  if fmt =? 0 then Some (d, - EINVAL)
  else
    let bsz := buffer_bytes rt in
    let pbytes := lib_period_bytes rt in
    let configured :=
      if negb (bsz =? bufsize d) || negb (pbytes =? period_bytes d)
         || negb (fmt =? format_val d) then
        let d := set_bufsize bsz d in
        let d := set_period_bytes pbytes d in
        let d := set_format_val fmt d in
        azx_setup_periods adj rt d
      else Some (d, 0) in
    match configured with
    | None => None
    | Some (d, err) =>
        if err <? 0 then Some (d, err)
        else if rate rt =? 0 then None
        else
          let d := set_period_wallclk (period_wallclk_of rt) d in
          let d := match dir with
                   | SNDRV_PCM_STREAM_PLAYBACK =>
                       set_fifo_size (as_u16 fifosize_reg + 1) d
                   | SNDRV_PCM_STREAM_CAPTURE => set_fifo_size 0 d
                   end in
          Some (d, codec_ret)
    end.

(** ** DMA position *)

(** What the hardware shows when the position is read: the link position
    register of the stream, the stream's cell of the position buffer, the
    input FIFO size register of VIA controllers and the wall clock. *)
Record hw_pos := mk_hw_pos {
  SD_LPIB : Z;
  posbuf : Z;
  VIA_IN_STREAM0_FIFO_SIZE : Z;
  WALLCLK : Z
}.

Definition fix_of (c : azx) (s : pcm_stream) : pos_fix :=
  match s with
  | SNDRV_PCM_STREAM_PLAYBACK => fst (position_fix c)
  | SNDRV_PCM_STREAM_CAPTURE => snd (position_fix c)
  end.

Definition set_fix (s : pcm_stream) (f : pos_fix) (c : azx) : azx :=
  match s with
  | SNDRV_PCM_STREAM_PLAYBACK => set_position_fix (f, snd (position_fix c)) c
  | SNDRV_PCM_STREAM_CAPTURE => set_position_fix (fst (position_fix c), f) c
  end.

(** [azx_via_get_position]: the position with the correction for VIA
    chips. [None]: the remainder by a zero period size faults. *)
Definition azx_via_get_position (s : pcm_stream) (d : azx_dev) (h : hw_pos)
  : option (Z * azx_dev) :=
  let link_pos := SD_LPIB h in
  match s with
  | SNDRV_PCM_STREAM_PLAYBACK => Some (link_pos, d)
  | SNDRV_PCM_STREAM_CAPTURE =>
      if period_bytes d =? 0 then None
      else
        let mod_dma_pos := posbuf h mod period_bytes d in
        let fifo := as_u16 (VIA_IN_STREAM0_FIFO_SIZE h) in
        if insufficient d && (link_pos <=? fifo) then Some (0, d)
        else
          let d := if insufficient d then set_insufficient false d else d in
          let mini_pos :=
            if link_pos <=? fifo then as_u32 (bufsize d + link_pos - fifo)
            else as_u32 (link_pos - fifo) in
          let mod_mini_pos := mini_pos mod period_bytes d in
          let mod_link_pos := link_pos mod period_bytes d in
          let bound_pos :=
            if fifo <=? mod_link_pos then as_u32 (link_pos - mod_link_pos)
            else if mod_mini_pos <=? mod_dma_pos then
              as_u32 (mini_pos - mod_mini_pos)
            else
              let b := as_u32 (mini_pos - mod_mini_pos + period_bytes d) in
              if bufsize d <=? b then 0 else b in
          Some (as_u32 (bound_pos + mod_dma_pos), d)
  end.

(** The [switch] of [azx_get_position]: the position as read, before it is
    checked against the buffer size. [None]: no substream is assigned (null
    dereference), or the VIA correction faults. *)
Definition position_switch (c : azx) (d : azx_dev) (h : hw_pos)
    (with_check : bool) : option (Z * azx * azx_dev) :=
  match substream d with
  | None => None
  | Some s =>
      match fix_of c s with
      | POS_FIX_LPIB => Some (SD_LPIB h, c, d)
      | POS_FIX_VIACOMBO =>
          match azx_via_get_position s d h with
          | Some (pos, d) => Some (pos, c, d)
          | None => None
          end
      | POS_FIX_AUTO =>
          let pos := posbuf h in
          if with_check then
            if (pos =? 0) || (pos =? U32_MINUS_1) then
              Some (SD_LPIB h, set_fix s POS_FIX_LPIB c, d)
            else Some (pos, set_fix s POS_FIX_POSBUF c, d)
          else Some (pos, c, d)
      | POS_FIX_POSBUF | POS_FIX_COMBO => Some (posbuf h, c, d)
      end
  end.

(** [azx_get_position]. *)
Definition azx_get_position (c : azx) (d : azx_dev) (h : hw_pos)
    (with_check : bool) : option (Z * azx * azx_dev) :=
  match position_switch c d h with_check with
  | None => None
  | Some (pos, c, d) => Some (if bufsize d <=? pos then 0 else pos, c, d)
  end.

(** [bytes_to_frames] of the PCM core. *)
Definition bytes_to_frames (rt : snd_pcm_runtime) (n : Z) : Z :=
  n * 8 / frame_bits rt.

(** [azx_pcm_pointer]: the position reported to the PCM core. *)
Definition azx_pcm_pointer (rt : snd_pcm_runtime) (c : azx) (d : azx_dev)
    (h : hw_pos) : option (Z * azx * azx_dev) :=
  match azx_get_position c d h false with
  | Some (pos, c, d) => Some (bytes_to_frames rt pos, c, d)
  | None => None
  end.

(** The wall-clock ticks since the start recorded for the stream, as
    [azx_position_ok] computes them into its [u32 wallclk]. *)
Definition elapsed_wallclk (d : azx_dev) (h : hw_pos) : Z :=
  as_u32 (as_ulong (WALLCLK h - start_wallclk d)).

(** [azx_position_ok]: check whether the current DMA position is acceptable
    for updating periods: 1 when it is, 0 to process the interrupt later, -1
    for a bogus interrupt. [adj] is [bdl_pos_adj[chip->dev_index]]. *)
Definition azx_position_ok (adj : Z) (c : azx) (d : azx_dev) (h : hw_pos)
  : option (Z * azx * azx_dev) :=
  let wallclk := elapsed_wallclk d h in
  if wallclk <? as_ulong (period_wallclk d * 2) / 3 then Some (-1, c, d)
  else
    match azx_get_position c d h true with
    | None => None
    | Some (pos, c, d) =>
        if period_bytes d =? 0 then Some (-1, c, d)
        else if (wallclk <? as_ulong (period_wallclk d * 5) / 4)
                && (period_bytes d / 2 <? pos mod period_bytes d) then
          Some (if negb (adj =? 0) then 0 else -1, c, d)
        else
          Some (1, c, set_start_wallclk (as_ulong (start_wallclk d + wallclk)) d)
    end.

(** What the interrupt handler does for the consumer of a stream. *)
Inductive irq_action :=
  | PeriodElapsed        (* snd_pcm_period_elapsed *)
  | QueueWork.           (* queue_work(..., &chip->irq_pending_work) *)

Definition SD_INT_COMPLETE : Z := 4.

(** The body of the stream loop of [azx_interrupt] for a stream whose bit
    is set in INTSTS; [sd_status] is the value read from SD_STS. *)
Definition azx_interrupt_stream (adj : Z) (c : azx) (d : azx_dev)
    (sd_status : Z) (h : hw_pos)
  : option (azx * azx_dev * list irq_action) :=
  if negb (bool_decide (is_Some (substream d))) || negb (running d)
     || (Z.land sd_status SD_INT_COMPLETE =? 0) then Some (c, d, [])
  else
    match azx_position_ok adj c d h with
    | None => None
    | Some (ok, c, d) =>
        if ok =? 1 then Some (c, set_irq_pending false d, [PeriodElapsed])
        else if (ok =? 0) && workq (bus c) then
          Some (c, set_irq_pending true d, [QueueWork])
        else Some (c, d, [])
    end.

End Streams.

(** * Specification vocabulary *)

(** ** The response ring as a queue *)

(** The entry of the RIRB at index [i]: response and extended word. *)
Definition rirb_slot (c : azx) (i : Z) : Z * Z :=
  (rd (buf (rirb c)) (Z.shiftl i 1), rd (buf (rirb c)) (Z.shiftl i 1 + 1)).

(** The entries the hardware has written and the driver has not read yet:
    those after the read pointer up to the hardware write pointer. *)
Definition rirb_backlog (c : azx) : list (Z * Z) :=
  let w := azx_readb (RIRBWP (regs c)) in
  map (fun k => rirb_slot c ((rp (rirb c) + Z.of_nat k) mod ICH6_MAX_RIRB_ENTRIES))
      (seq 1 (Z.to_nat ((w - rp (rirb c)) mod ICH6_MAX_RIRB_ENTRIES))).

(** A response is spurious in state [c]: not an unsolicited event, and no
    command pending for its codec address. *)
Definition spurious (c : azx) (e : Z * Z) : Prop :=
  Z.land (snd e) ICH6_RIRB_EX_UNSOL_EV = 0 /\
  rd (cmds (rirb c)) (azx_response_addr (snd e)) = 0.

(** No pending counter is negative (the counters are C ints). *)
Definition pending_nonneg (c : azx) : Prop :=
  forall a, 0 <= rd (cmds (rirb c)) a <= 2147483647.

(** The state of the ring that a send or a receive over the immediate
    command registers could disturb: both rings' memory and pointers and the
    pending counters. ([res] is left out: the immediate-command path reuses
    it for its return value.) *)
Definition ring_state (c : azx)
  : Z * gmap Z Z * gmap Z Z * Z * Z * gmap Z Z :=
  (CORBWP (regs c), buf (corb c), buf (rirb c), rp (rirb c), wp (rirb c),
   cmds (rirb c)).

(** Everything in the controller state that is not ring memory, a ring
    pointer, a counter, a stored response, a register or the queue of
    unsolicited events: the mode flags and the flags of the bus. *)
Definition flags (c : azx)
  : bool * bool * bool * bool * Z * (Z * Z * (pos_fix * pos_fix) * gmap Z Z)
    * (bool * bool * bool * bool * bool) :=
  (single_cmd c, polling_mode c, msi c, probing c, poll_count c,
   (irq c, irq_id c, position_fix c, last_cmd c),
   (rirb_error (bus c), response_reset (bus c), in_reset (bus c),
    allow_bus_reset (bus c), workq (bus c))).

(** The rings proper: both write pointer registers and the two ring
    structures. *)
Definition ring_core (c : azx) : Z * Z * azx_rb * azx_rb :=
  (CORBWP (regs c), RIRBWP (regs c), corb c, rirb c).

(** A bound on the passes through [again] left in a state: the forced polls
    and the switch to polling mode are only open outside polling mode, the
    MSI fallback only while MSI is on. *)
Definition stages_left (c : azx) : nat :=
  ((if polling_mode c then 0 else Z.to_nat (2 - poll_count c) + 1)
   + (if msi c then 1 else 0))%nat.

(** The write index of the CORB and the read index of the RIRB are within
    the rings. *)
Definition indices_ok (c : azx) : Prop :=
  0 <= CORBWP (regs c) < ICH6_MAX_CORB_ENTRIES /\
  0 <= rp (rirb c) < ICH6_MAX_RIRB_ENTRIES.

(** [n] commands sent over the ring one after the other. *)
Definition send_all (vals : list Z) (c : azx) : azx :=
  fold_left (fun c v => fst (azx_corb_send_cmd c v)) vals c.

(** ** Bookkeeping of command/response exchanges *)

(** Where the exchange with one codec address stands: nothing outstanding,
    a command sent and not answered, or answered by the hardware with
    response [r] and not yet picked up by a receive. *)
Inductive exchange :=
  | Idle
  | Awaiting
  | Answered (r : Z).

Definition exch (g : gmap Z exchange) (a : Z) : exchange :=
  default Idle (g !! a).

#[global] Arguments exch : simpl never.

Definition track (g : gmap Z exchange) (o : obs) : gmap Z exchange :=
  match o with
  | ObsSend v => <[azx_command_addr v := Awaiting]> g
  | ObsHw (HwResponse r r_ex) => <[azx_response_addr r_ex := Answered r]> g
  | ObsHw HwIrq => g
  | ObsRecv a _ => <[a := Idle]> g
  end.

#[global] Arguments track : simpl never.

(** The conditions of the round trip on one observation: a send goes to an
    address with nothing outstanding; the hardware only answers a pending
    command, and not with an unsolicited event; a receive returns after the
    hardware has answered (no timeout). *)
Definition admissible (g : gmap Z exchange) (o : obs) : Prop :=
  match o with
  | ObsSend v => exch g (azx_command_addr v) = Idle
  | ObsHw (HwResponse r r_ex) =>
      Z.land r_ex ICH6_RIRB_EX_UNSOL_EV = 0 /\
      exch g (azx_response_addr r_ex) = Awaiting
  | ObsHw HwIrq => True
  | ObsRecv a _ => exists r, exch g a = Answered r
  end.

Fixpoint fault_free (g : gmap Z exchange) (l : list obs) : Prop :=
  match l with
  | [] => True
  | o :: l' => admissible g o /\ fault_free (track g o) l'
  end.

(** A receive returned the response the hardware produced for the
    outstanding command to its address. *)
Definition matched (g : gmap Z exchange) (o : obs) : Prop :=
  match o with
  | ObsRecv a v => exch g a = Answered v
  | _ => True
  end.

Fixpoint round_trip (g : gmap Z exchange) (l : list obs) : Prop :=
  match l with
  | [] => True
  | o :: l' => matched g o /\ round_trip (track g o) l'
  end.

Definition tracks (g : gmap Z exchange) (l : list obs) : gmap Z exchange :=
  fold_left track l g.

(** The relation kept between the bookkeeping and the driver in ring mode.
    [l] is the list of responses in the ring not yet read, [cm] the pending
    counters and [rs] the stored responses:
    - the unread responses are for distinct addresses, none is an
      unsolicited event, and each is the answer on the books;
    - nothing outstanding: counter 0;
    - command not answered: counter 1, no unread response;
    - answered with [r]: either the response is unread and the counter is
      1, or it has been read, the counter is 0 and [r] is stored. *)
Definition unread_addrs (l : list (Z * Z)) : list Z :=
  map (fun e => azx_response_addr (snd e)) l.

Definition ring_rel (g : gmap Z exchange) (l : list (Z * Z))
    (cm rs : gmap Z Z) : Prop :=
  NoDup (unread_addrs l) /\
  (forall r x, (r, x) ∈ l ->
     Z.land x ICH6_RIRB_EX_UNSOL_EV = 0 /\
     exch g (azx_response_addr x) = Answered r) /\
  (forall a, exch g a = Idle -> rd cm a = 0) /\
  (forall a, exch g a = Awaiting -> rd cm a = 1 /\ (a ∉ unread_addrs l)) /\
  (forall a r, exch g a = Answered r ->
     (a ∈ unread_addrs l /\ rd cm a = 1) \/
     ((a ∉ unread_addrs l) /\ rd cm a = 0 /\ rd rs a = r)).

(** Ring mode, the read pointer within the ring and equal to the cached
    write pointer, and the books in order. *)
Definition ring_inv (g : gmap Z exchange) (c : azx) : Prop :=
  single_cmd c = false /\
  0 <= rp (rirb c) < ICH6_MAX_RIRB_ENTRIES /\
  wp (rirb c) = rp (rirb c) /\
  ring_rel g (rirb_backlog c) (cmds (rirb c)) (res (rirb c)).

(** ** Sequences of position reads *)

(** Position reads one after the other, each on its stream, with or without
    the check; the controller state is threaded through. *)
Fixpoint position_reads (c : azx) (rs : list (azx_dev * hw_pos * bool))
  : option azx :=
  match rs with
  | [] => Some c
  | (d, h, chk) :: rs' =>
      match azx_get_position c d h chk with
      | Some (_, c', _) => position_reads c' rs'
      | None => None
      end
  end.

(** A position-buffer value that cannot be right: zero or all ones. *)
Definition implausible (pos : Z) : bool := (pos =? 0) || (pos =? U32_MINUS_1).

(** * Example states *)

(** A controller right after its creation: ring mode, MSI on, position fix
    to be detected. *)
Definition bus0 : hda_bus := mk_bus false false false false true [].
Definition regs0 : azx_regs := mk_regs 1 0 0 0 0 0 0.
Definition rb0 : azx_rb := mk_rb ∅ 0 0 ∅ ∅.
Definition chip0 : azx :=
  mk_azx regs0 bus0 rb0 rb0 16 16 (POS_FIX_AUTO, POS_FIX_AUTO) 0
    false false true false ∅.

(** The controller with its rings initialised. *)
Definition chip_ring : azx := azx_init_cmd_io chip0.

(** A command to codec address 2 (0x200f0000) is in the ring. *)
Definition chip_sent : azx := fst (azx_send_cmd [] 0 chip_ring 537853952).

(** The same during the probing phase. *)
Definition chip_probing : azx := set_probing true chip_sent.

(** The controller after a receive that got no response at all: bus reset
    is not allowed, so the driver has fallen back to single-command mode. *)
Definition chip_single : azx :=
  match azx_rirb_get_response chip_sent 2 true [] with
  | Some (c, _, _, _) => c
  | None => chip_sent
  end.

(** Two responses in the ring for addresses 3 and 5 while no command is
    pending. *)
Definition chip_spurious : azx :=
  hw_step (hw_step chip_ring (HwResponse 4660 3)) (HwResponse 22136 5).

(** A round trip: commands to addresses 2 and 3; the answer for 2 arrives
    before its receive and is fetched by the forced poll after a lost
    interrupt, the answer for 3 arrives while the receive waits and is
    fetched by the interrupt handler. *)
Definition trip_ops : list op :=
  [ OpSend 537853952 [] 0;
    OpSend 806289408 [] 0;
    OpHw (HwResponse 111 2);
    OpRecv 2 true [mk_tick [] true];
    OpRecv 3 true [mk_tick [HwResponse 222 3] false; mk_tick [HwIrq] false] ].

Definition trip_log : list obs :=
  [ ObsSend 537853952;
    ObsSend 806289408;
    ObsHw (HwResponse 111 2);
    ObsRecv 2 111;
    ObsHw (HwResponse 222 3);
    ObsHw HwIrq;
    ObsRecv 3 222 ].

(** A scatter-gather buffer none of whose 4096-byte pages are contiguous:
    a chunk ends at the next page boundary. *)
Definition page_addr (ofs : Z) : Z := 268435456 + ofs.
Definition page_chunk (ofs size : Z) : Z := Z.min size (4096 - ofs mod 4096).

(** 48 kHz stereo 16-bit, 2 MiB buffer in two periods of 1 MiB: 512 pages,
    more than the descriptor list holds. *)
Definition rt_big : snd_pcm_runtime := mk_runtime 48000 262144 32 2097152 1048576 false.

(** 48 kHz stereo 16-bit, 32 KiB buffer in four periods of 8 KiB. *)
Definition rt_small : snd_pcm_runtime := mk_runtime 48000 2048 32 32768 8192 false.

(** A playback stream configured for [rt_small] (format value 0x11). *)
Definition dev_small : azx_dev :=
  mk_dev ∅ 32768 8192 4 0 0 1024000 (Some SNDRV_PCM_STREAM_PLAYBACK) 17 1
    true true false false.

(** The position buffer reads 6000 (beyond the middle of the first period)
    one period's worth of ticks after the start. *)
Definition hw_early : hw_pos := mk_hw_pos 6000 6000 0 1024000.

(** The same half a period after the start. *)
Definition hw_half : hw_pos := mk_hw_pos 6000 6000 0 512000.

(** The controller with the position buffer in use for both directions. *)
Definition chip_posbuf : azx := set_position_fix (POS_FIX_POSBUF, POS_FIX_POSBUF) chip0.

(** * The rest of the driver

    The parts of [hda_intel.c] around the command transport and the stream
    set-up: the register access macros, the PCM callbacks that open, close
    and configure a stream, the stream allocation, the interrupt control,
    the controller reset and the codec probing. *)

(** ** Bounds of the per-codec arrays *)

(** Every cell of [m] that was ever written has its index in [0, n). *)
Definition cells_below (n : Z) (m : gmap Z Z) : Prop :=
  forall i, is_Some (m !! i) -> 0 <= i < n.

(** [cmds], [res] and [last_cmd] have [AZX_MAX_CODECS] cells, the CORB has
    [ICH6_MAX_CORB_ENTRIES] words. *)
Definition codec_arrays_ok (c : azx) : Prop :=
  cells_below AZX_MAX_CODECS (cmds (rirb c)) /\
  cells_below AZX_MAX_CODECS (res (rirb c)) /\
  cells_below AZX_MAX_CODECS (last_cmd c) /\
  cells_below ICH6_MAX_CORB_ENTRIES (buf (corb c)).

(** The part of [codec_arrays_ok] that lives in the two rings. *)
Definition ring_cells_ok (c : azx) : Prop :=
  cells_below AZX_MAX_CODECS (cmds (rirb c)) /\
  cells_below AZX_MAX_CODECS (res (rirb c)) /\
  cells_below ICH6_MAX_CORB_ENTRIES (buf (corb c)).

(** The command of a send is a [u32]. *)
Definition send_is_u32 (o : op) : Prop :=
  match o with
  | OpSend val _ _ => 0 <= val < 4294967296
  | _ => True
  end.

(** No hardware event takes place during the turns of a wait loop. *)
Definition quiet (ts : list tick) : Prop :=
  Forall (fun t => concurrent t = []) ts.

(** What a receive that did not go beyond polling leaves as it was: ring
    mode, the interrupt set-up, the bus-reset request and every register. *)
Definition transport_kept (c c' : azx) : Prop :=
  single_cmd c' = single_cmd c /\ msi c' = msi c /\ irq c' = irq c /\
  probing c' = probing c /\
  response_reset (bus c') = response_reset (bus c) /\
  regs c' = regs c.

(** The ICB busy bit is set in a value read from IRS. *)
Definition irs_busy (v : Z) : Prop := Z.land v ICH6_IRS_BUSY ≠ 0.

(** ** The descriptor list as a list of stretches *)

(** The [i]-th entry of the descriptor list of a stream: address (low and
    high word), length in bytes and the interrupt-on-completion flag. *)
Definition bdl_entry (d : azx_dev) (i : Z) : Z * Z * Z * Z :=
  (rd (bdl d) (4 * i), rd (bdl d) (4 * i + 1), rd (bdl d) (4 * i + 2),
   rd (bdl d) (4 * i + 3)).

(** The [frags] entries the controller is given. *)
Definition bdl_entries (d : azx_dev) : list (Z * Z * Z * Z) :=
  map (fun k => bdl_entry d (Z.of_nat k)) (seq 0 (Z.to_nat (frags d))).

(** The entries describe consecutive stretches of the buffer from offset
    [ofs] on: each starts where the one before it ends, is not empty,
    carries the DMA address of its offset, and asks for an interrupt
    exactly when [ioc_at] holds of the offset where it ends. *)
Fixpoint bdl_tiles (ga : Z -> Z) (ioc_at : Z -> bool) (ofs : Z)
    (l : list (Z * Z * Z * Z)) : Prop :=
  match l with
  | [] => True
  | (lo, hi, len, ioc) :: l' =>
      lo = as_u32 (ga ofs) /\ hi = upper_32_bits (ga ofs) /\ 0 < len /\
      ioc = (if ioc_at (ofs + len) then 1 else 0) /\
      bdl_tiles ga ioc_at (ofs + len) l'
  end.

(** The number of bytes the entries describe. *)
Fixpoint bdl_span (l : list (Z * Z * Z * Z)) : Z :=
  match l with
  | [] => 0
  | (_, _, len, _) :: l' => len + bdl_span l'
  end.

(** The state between two entries: the next entry goes to word [p], and
    the entries so far tile the buffer from 0 to [ofs]. *)
Definition bdl_built (ga : Z -> Z) (f : Z -> bool) (d : azx_dev) (p ofs : Z)
  : Prop :=
  p = 4 * frags d /\ 0 <= frags d <= 256 /\
  bdl_tiles ga f 0 (bdl_entries d) /\ bdl_span (bdl_entries d) = ofs.

(** The position adjustment [azx_setup_periods] ends up using, in bytes:
    none when [bdl_pos_adj] is not positive or when the adjustment would
    not fit in a period. *)
Definition effective_pos_adj (adj : Z) (rt : snd_pcm_runtime) (d : azx_dev)
  : Z :=
  if 0 <? adj then
    if as_int (period_bytes d) <=? pos_adj_bytes adj rt then 0
    else pos_adj_bytes adj rt
  else 0.

(** Where the list asks for an interrupt: at the offsets one adjustment
    past each period boundary, unless period wake-ups are off. *)
Definition period_ioc (rt : snd_pcm_runtime) (pa pb : Z) (e : Z) : bool :=
  negb (no_period_wakeup rt) && ((e - pa) mod pb =? 0).

(** ** Configuring a stream *)

(** [azx_pcm_hw_params], the part that concerns the stream descriptor:
    the stored geometry is forgotten; [malloc_ret] is the result of
    snd_pcm_lib_malloc_pages. (mark_runtime_wc does nothing outside x86.) *)
Definition azx_pcm_hw_params (malloc_ret : Z) (d : azx_dev) : azx_dev * Z :=
  let d := set_bufsize 0 d in
  let d := set_period_bytes 0 d in
  let d := set_format_val 0 d in
  (d, malloc_ret).

(** [azx_pcm_hw_free], likewise; [free_ret] is the result of
    snd_pcm_lib_free_pages. The stream registers it clears are not part of
    the descriptor. *)
Definition azx_pcm_hw_free (free_ret : Z) (d : azx_dev) : azx_dev * Z :=
  let d := set_bufsize 0 d in
  let d := set_period_bytes 0 d in
  let d := set_format_val 0 d in
  (d, free_ret).

(** ** The streams of a controller *)

Definition EBUSY : Z := 16.

(** [struct azx_dev] has more fields than the stream set-up uses; they are
    kept beside the record of the set-up, together with the low byte of the
    stream's control register SD_CTL. *)
Record azx_stream := mk_stream {
  sdev : azx_dev;
  index : Z;              (* unsigned char: stream index *)
  sd_int_sta_mask : Z;    (* u32: stream int status mask *)
  assigned_key : Z;       (* int: last device# key assigned to *)
  SD_CTL : Z              (* the low byte of the register *)
}.

Definition set_sdev (v : azx_dev) (s : azx_stream) : azx_stream :=
  mk_stream v (index s) (sd_int_sta_mask s) (assigned_key s) (SD_CTL s).
Definition set_assigned_key (v : Z) (s : azx_stream) : azx_stream :=
  mk_stream (sdev s) (index s) (sd_int_sta_mask s) v (SD_CTL s).
Definition set_SD_CTL (v : Z) (s : azx_stream) : azx_stream :=
  mk_stream (sdev s) (index s) (sd_int_sta_mask s) (assigned_key s) v.

Definition set_substream (v : option pcm_stream) (d : azx_dev) : azx_dev :=
  mk_dev (bdl d) (bufsize d) (period_bytes d) (frags d) (fifo_size d)
    (start_wallclk d) (period_wallclk d) v (format_val d)
    (stream_tag d) (opened d) (running d) (irq_pending d) (insufficient d).
Definition set_opened (v : bool) (d : azx_dev) : azx_dev :=
  mk_dev (bdl d) (bufsize d) (period_bytes d) (frags d) (fifo_size d)
    (start_wallclk d) (period_wallclk d) (substream d) (format_val d)
    (stream_tag d) v (running d) (irq_pending d) (insufficient d).
Definition set_running (v : bool) (d : azx_dev) : azx_dev :=
  mk_dev (bdl d) (bufsize d) (period_bytes d) (frags d) (fifo_size d)
    (start_wallclk d) (period_wallclk d) (substream d) (format_val d)
    (stream_tag d) (opened d) v (irq_pending d) (insufficient d).

(** The stream counts and index offsets of [struct azx]. *)
Record azx_layout := mk_layout {
  playback_streams : Z;
  playback_index_offset : Z;
  capture_streams : Z;
  capture_index_offset : Z;
  num_streams : Z
}.

(** What the driver reads of a substream: the device number of its PCM, its
    number and its direction. *)
Record snd_pcm_substream := mk_substream {
  pcm_device : Z;
  number : Z;
  stream : pcm_stream
}.

Definition stream_num (s : pcm_stream) : Z :=
  match s with
  | SNDRV_PCM_STREAM_PLAYBACK => 0
  | SNDRV_PCM_STREAM_CAPTURE => 1
  end.

(** [chip->azx_dev[dev]]; [None] outside the array. *)
Definition dev_at (devs : list azx_stream) (dev : Z) : option azx_stream :=
  if dev <? 0 then None else devs !! Z.to_nat dev.

Definition upd_dev (f : azx_stream -> azx_stream) (dev : Z)
    (devs : list azx_stream) : list azx_stream :=
  match dev_at devs dev with
  | Some s => <[Z.to_nat dev := f s]> devs
  | None => devs
  end.

(** The key made for a substream in [azx_assign_device]. *)
Definition substream_key (ss : snd_pcm_substream) : Z :=
  as_int (Z.lor (Z.lor (Z.shiftl (pcm_device ss) 16) (Z.shiftl (number ss) 2))
            (stream_num (stream ss) + 1)).

(** The loop of [azx_assign_device]: [n] turns left, [dev] the index looked
    at, [res] the device found so far. Outer [None]: the index is outside
    the array. *)
Fixpoint assign_scan (devs : list azx_stream) (key : Z) (n : nat) (dev : Z)
    (res : option Z) : option (option Z) :=
  match n with
  | O => Some res
  | S n' =>
      match dev_at devs dev with
      | None => None
      | Some s =>
          if negb (opened (sdev s)) then
            if assigned_key s =? key then Some (Some dev)
            else assign_scan devs key n' (dev + 1) (Some dev)
          else assign_scan devs key n' (dev + 1) res
      end
  end.

(** The range of devices of a direction. *)
Definition dev_range (L : azx_layout) (s : pcm_stream) : Z * Z :=
  match s with
  | SNDRV_PCM_STREAM_PLAYBACK => (playback_index_offset L, playback_streams L)
  | SNDRV_PCM_STREAM_CAPTURE => (capture_index_offset L, capture_streams L)
  end.

(** [azx_assign_device]: assign a stream for the PCM. The result is the
    index of the device assigned, if any, and the array of devices. *)
Definition azx_assign_device (L : azx_layout) (devs : list azx_stream)
    (ss : snd_pcm_substream) : option (option Z * list azx_stream) :=
  let key := substream_key ss in
  let '(dev, nums) := dev_range L (stream ss) in
  match assign_scan devs key (Z.to_nat nums) dev None with
  | None => None
  | Some None => Some (None, devs)
  | Some (Some r) =>
      Some (Some r,
            upd_dev (fun s => set_assigned_key key
                                (set_sdev (set_opened true (sdev s)) s)) r devs)
  end.

(** [azx_release_device]: release the assigned stream. *)
Definition azx_release_device (dev : Z) (devs : list azx_stream)
  : list azx_stream :=
  upd_dev (fun s => set_sdev (set_opened false (sdev s)) s) dev devs.

(** [azx_pcm_open], as far as the devices go. [open_ret] is the result of
    the codec's open callback, [hw_sane] whether the channel counts,
    formats and rates of the runtime are all nonzero after it. The result
    is the array of devices, the return value and the device stored as the
    private data of the runtime. (The hardware description and the
    constraints put on the runtime are not modelled.) *)
Definition azx_pcm_open (L : azx_layout) (devs : list azx_stream)
    (ss : snd_pcm_substream) (open_ret : Z) (hw_sane : bool)
  : option (list azx_stream * Z * option Z) :=
  match azx_assign_device L devs ss with
  | None => None
  | Some (None, devs) => Some (devs, - EBUSY, None)
  | Some (Some r, devs) =>
      if open_ret <? 0 then Some (azx_release_device r devs, open_ret, None)
      else if negb hw_sane then
        Some (azx_release_device r devs, - EINVAL, None)
      else
        Some (upd_dev (fun s => set_sdev
                         (set_running false
                            (set_substream (Some (stream ss)) (sdev s))) s)
                r devs, 0, Some r)
  end.

(** [azx_pcm_close] of the substream whose private data is device [dev]. *)
Definition azx_pcm_close (dev : Z) (devs : list azx_stream)
  : list azx_stream * Z :=
  let devs := upd_dev (fun s => set_sdev
                         (set_running false (set_substream None (sdev s))) s)
                dev devs in
  (azx_release_device dev devs, 0).

(** A device of the array is free; it carries a key. *)
Definition is_free (devs : list azx_stream) (j : Z) : bool :=
  match dev_at devs j with
  | Some s => negb (opened (sdev s))
  | None => false
  end.

Definition has_key (devs : list azx_stream) (key : Z) (j : Z) : bool :=
  match dev_at devs j with
  | Some s => assigned_key s =? key
  | None => false
  end.

(** The indices [base], ..., [base + n - 1]. *)
Definition dev_indices (base : Z) (n : nat) : list Z :=
  map (fun k => base + Z.of_nat k) (seq 0 n).

(** The devices of a range that are free, in the order of the scan, and
    those among a list of devices that carry a key. *)
Definition free_devs (devs : list azx_stream) (base : Z) (n : nat) : list Z :=
  List.filter (is_free devs) (dev_indices base n).

Definition keyed_devs (devs : list azx_stream) (key : Z) (l : list Z)
  : list Z :=
  List.filter (has_key devs key) l.

(** The device [azx_assign_device] picks from a range: the first free
    device that carries the key, or else the last free device. *)
Definition assign_choice (devs : list azx_stream) (key : Z) (base : Z)
    (n : nat) : option Z :=
  match keyed_devs devs key (free_devs devs base n) with
  | j :: _ => Some j
  | [] => last (free_devs devs base n)
  end.

(** The range of a direction lies within the array. *)
Definition range_ok (L : azx_layout) (devs : list azx_stream)
    (s : pcm_stream) : Prop :=
  0 <= fst (dev_range L s) /\
  fst (dev_range L s) + Z.max 0 (snd (dev_range L s)) <= Z.of_nat (length devs).

(** Driver types. *)
Definition AZX_DRIVER_ICH : Z := 0.
Definition AZX_DRIVER_PCH : Z := 1.
Definition AZX_DRIVER_SCH : Z := 2.
Definition AZX_DRIVER_ATI : Z := 3.
Definition AZX_DRIVER_ATIHDMI : Z := 4.
Definition AZX_DRIVER_ATIHDMI_NS : Z := 5.
Definition AZX_DRIVER_VIA : Z := 6.
Definition AZX_DRIVER_SIS : Z := 7.
Definition AZX_DRIVER_ULI : Z := 8.
Definition AZX_DRIVER_NVIDIA : Z := 9.
Definition AZX_DRIVER_NVIDIA_TEGRA : Z := 10.
Definition AZX_DRIVER_TERA : Z := 11.
Definition AZX_DRIVER_CTX : Z := 12.
Definition AZX_DRIVER_GENERIC : Z := 13.

(** The part of [azx_create] that lays the streams out: the numbers of
    streams are read from GCAP, or taken from the driver type when GCAP
    gives none; the capture streams come first. *)
Definition azx_stream_layout (gcap : Z) (driver_type : Z) : azx_layout :=
  let cs := Z.land (Z.shiftr gcap 8) 15 in
  let ps := Z.land (Z.shiftr gcap 12) 15 in
  let '(ps, cs) :=
    if (ps =? 0) && (cs =? 0) then
      if driver_type =? AZX_DRIVER_ULI then (6, 5)
      else if (driver_type =? AZX_DRIVER_ATIHDMI)
              || (driver_type =? AZX_DRIVER_ATIHDMI_NS) then (1, 0)
      else (4, 4)
    else (ps, cs) in
  mk_layout ps cs cs 0 (ps + cs).

(** A device as kcalloc leaves it. *)
Definition dev_zero : azx_dev :=
  mk_dev ∅ 0 0 0 0 0 0 None 0 0 false false false false.
Definition stream_zero : azx_stream := mk_stream dev_zero 0 0 0 0.

Definition set_stream_tag (v : Z) (d : azx_dev) : azx_dev :=
  mk_dev (bdl d) (bufsize d) (period_bytes d) (frags d) (fifo_size d)
    (start_wallclk d) (period_wallclk d) (substream d) (format_val d)
    v (opened d) (running d) (irq_pending d) (insufficient d).

(** [azx_init_stream]: initialize each stream; the array holds
    [num_streams] devices. (The pointers into the position buffer and to
    the stream registers are not modelled.) *)
Definition azx_init_stream (devs : list azx_stream) : list azx_stream :=
  imap (fun i s =>
          mk_stream (set_stream_tag (as_u8 (Z.of_nat i + 1)) (sdev s))
            (as_u8 (Z.of_nat i)) (as_u32 (Z.shiftl 1 (Z.of_nat i)))
            (assigned_key s) (SD_CTL s)) devs.

(** The devices of a controller with [n] streams right after its creation. *)
Definition fresh_streams (L : azx_layout) : list azx_stream :=
  azx_init_stream (replicate (Z.to_nat (num_streams L)) stream_zero).

(** ** Register access *)

(** On Tegra the controller's registers are accessed as aligned 32-bit
    words only: a byte or a 16-bit register is read by shifting and masking
    the word that holds it and written by reading that word, replacing the
    lane and writing the word back. [mem] is the register space by byte
    address, each aligned cell holding a 32-bit word; [reg] is a register
    offset, [bits] the width of the access. *)
Definition MASK_LONG_ALIGN : Z := 3.
Definition SHIFT_BYTE : Z := 3.
Definition SHIFT_BITS (reg : Z) : Z :=
  Z.shiftl (Z.land reg MASK_LONG_ALIGN) SHIFT_BYTE.
Definition ADDR_ALIGN_L (base reg : Z) : Z :=
  base + Z.land reg (Z.lnot MASK_LONG_ALIGN).
Definition MASK (bits : Z) : Z := Z.shiftl 1 bits - 1.
Definition MASK_REG (reg bits : Z) : Z := Z.shiftl (MASK bits) (SHIFT_BITS reg).

Definition tegra_write (mem : gmap Z Z) (base reg val bits : Z) : gmap Z Z :=
  let a := ADDR_ALIGN_L base reg in
  wr mem a
    (as_u32 (Z.lor (Z.land (rd mem a) (Z.lnot (MASK_REG reg bits)))
               (Z.shiftl val (SHIFT_BITS reg)))).

Definition tegra_read (mem : gmap Z Z) (base reg bits : Z) : Z :=
  Z.land (Z.shiftr (rd mem (ADDR_ALIGN_L base reg)) (SHIFT_BITS reg))
    (MASK bits).

(** [update_pci_byte]: update bits in a PCI register byte. [cfg] is the
    configuration space of the device, by register offset. *)
Definition update_pci_byte (cfg : gmap Z Z) (reg mask val : Z) : gmap Z Z :=
  let data := as_u8 (rd cfg reg) in
  let data := as_u8 (Z.land data (Z.lnot mask)) in
  let data := as_u8 (Z.lor data (Z.land val mask)) in
  wr cfg reg data.

(** [reg_update_bits]: the same on a 32-bit register of the platform
    configuration space. *)
Definition reg_update_bits (mem : gmap Z Z) (reg mask val : Z) : gmap Z Z :=
  let data := as_u32 (rd mem reg) in
  let data := as_u32 (Z.land data (Z.lnot mask)) in
  let data := as_u32 (Z.lor data (Z.land val mask)) in
  wr mem reg data.

(** Driver capabilities and PCI registers used by [azx_init_pci]. *)
Definition AZX_DCAPS_NO_TCSEL : Z := 256.        (* 1 << 8 *)
Definition AZX_DCAPS_ATI_SNOOP : Z := 1024.      (* 1 << 10 *)
Definition AZX_DCAPS_NVIDIA_SNOOP : Z := 2048.   (* 1 << 11 *)
Definition AZX_DCAPS_SCH_SNOOP : Z := 4096.      (* 1 << 12 *)
Definition ICH6_PCIREG_TCSEL : Z := 68.                     (* 0x44 *)
Definition ATI_SB450_HDAUDIO_MISC_CNTR2_ADDR : Z := 66.     (* 0x42 *)
Definition ATI_SB450_HDAUDIO_ENABLE_SNOOP : Z := 2.
Definition NVIDIA_HDA_TRANSREG_ADDR : Z := 78.              (* 0x4e *)
Definition NVIDIA_HDA_ENABLE_COHBITS : Z := 15.
Definition NVIDIA_HDA_ISTRM_COH : Z := 77.                  (* 0x4d *)
Definition NVIDIA_HDA_OSTRM_COH : Z := 76.                  (* 0x4c *)
Definition NVIDIA_HDA_ENABLE_COHBIT : Z := 1.
Definition INTEL_SCH_HDA_DEVC : Z := 120.                   (* 0x78 *)
Definition INTEL_SCH_HDA_DEVC_NOSNOOP : Z := 2048.          (* 0x1 << 11 *)

(** [azx_init_pci]: initialize the PCI registers. [snoop] is [azx_snoop]
    of the chip. The cell at [INTEL_SCH_HDA_DEVC] holds the 16-bit word of
    that register, the other cells used hold bytes. *)
Definition azx_init_pci (driver_caps : Z) (snoop : bool) (cfg : gmap Z Z)
  : gmap Z Z :=
  let cfg :=
    if Z.land driver_caps AZX_DCAPS_NO_TCSEL =? 0 then
      update_pci_byte cfg ICH6_PCIREG_TCSEL 7 0
    else cfg in
  let cfg :=
    if negb (Z.land driver_caps AZX_DCAPS_ATI_SNOOP =? 0) then
      update_pci_byte cfg ATI_SB450_HDAUDIO_MISC_CNTR2_ADDR 7
        (if snoop then ATI_SB450_HDAUDIO_ENABLE_SNOOP else 0)
    else cfg in
  let cfg :=
    if negb (Z.land driver_caps AZX_DCAPS_NVIDIA_SNOOP =? 0) then
      let cfg := update_pci_byte cfg NVIDIA_HDA_TRANSREG_ADDR 15
                   NVIDIA_HDA_ENABLE_COHBITS in
      let cfg := update_pci_byte cfg NVIDIA_HDA_ISTRM_COH 1
                   NVIDIA_HDA_ENABLE_COHBIT in
      update_pci_byte cfg NVIDIA_HDA_OSTRM_COH 1 NVIDIA_HDA_ENABLE_COHBIT
    else cfg in
  if negb (Z.land driver_caps AZX_DCAPS_SCH_SNOOP =? 0) then
    let sn := as_u16 (rd cfg INTEL_SCH_HDA_DEVC) in
    if (negb snoop && (Z.land sn INTEL_SCH_HDA_DEVC_NOSNOOP =? 0))
       || (snoop && negb (Z.land sn INTEL_SCH_HDA_DEVC_NOSNOOP =? 0)) then
      let sn := as_u16 (Z.land sn (Z.lnot INTEL_SCH_HDA_DEVC_NOSNOOP)) in
      let sn := if negb snoop
                then as_u16 (Z.lor sn INTEL_SCH_HDA_DEVC_NOSNOOP) else sn in
      wr cfg INTEL_SCH_HDA_DEVC sn
    else cfg
  else cfg.

(** ** Interrupt control and DMA start *)

Definition ICH6_REG_INTCTL : Z := 32.                (* 0x20 *)
Definition ICH6_REG_OLD_SSYNC : Z := 52.             (* 0x34 *)
Definition ICH6_REG_SSYNC : Z := 56.                 (* 0x38 *)
Definition SD_CTL_DMA_START : Z := 2.
Definition SD_INT_DESC_ERR : Z := 16.
Definition SD_INT_FIFO_ERR : Z := 8.
Definition SD_INT_MASK : Z :=
  Z.lor (Z.lor SD_INT_DESC_ERR SD_INT_FIFO_ERR) SD_INT_COMPLETE.
Definition ICH6_INT_CTRL_EN : Z := 1073741824.       (* 0x40000000 *)
Definition ICH6_INT_GLOBAL_EN : Z := 2147483648.     (* 0x80000000 *)
Definition AZX_DCAPS_OLD_SSYNC : Z := 1048576.       (* 1 << 20 *)

(** The registers of the controller: [io] holds the 32-bit words of the
    register space, by offset from [remap_addr]. A long access reads or
    writes the word; a byte write goes through [tegra_write]. *)
Definition azx_readl (io : gmap Z Z) (reg : Z) : Z := rd io reg.
Definition azx_writel (io : gmap Z Z) (reg value : Z) : gmap Z Z :=
  wr io reg (as_u32 value).
Definition azx_writeb (io : gmap Z Z) (reg value : Z) : gmap Z Z :=
  tegra_write io 0 reg value 8.

(** Byte access to SD_CTL, the register at offset 0 of the stream. *)
Definition azx_sd_readb (s : azx_stream) : Z := azx_readb (SD_CTL s).
Definition azx_sd_writeb (s : azx_stream) (value : Z) : azx_stream :=
  set_SD_CTL (as_u8 value) s.

(** [azx_int_enable]: enable controller CIE and GIE. *)
Definition azx_int_enable (io : gmap Z Z) : gmap Z Z :=
  azx_writel io ICH6_REG_INTCTL
    (Z.lor (Z.lor (azx_readl io ICH6_REG_INTCTL) ICH6_INT_CTRL_EN)
       ICH6_INT_GLOBAL_EN).

(** [azx_int_disable]: disable the interrupts in the stream descriptors,
    write 0 to the byte at INTCTL, clear CIE and GIE. *)
Definition azx_int_disable (io : gmap Z Z) (devs : list azx_stream)
  : gmap Z Z * list azx_stream :=
  let devs :=
    map (fun s =>
           azx_sd_writeb s (Z.land (azx_sd_readb s) (Z.lnot SD_INT_MASK)))
        devs in
  let io := azx_writeb io ICH6_REG_INTCTL 0 in
  let io := azx_writel io ICH6_REG_INTCTL
              (Z.land (azx_readl io ICH6_REG_INTCTL)
                 (as_u32 (Z.lnot (Z.lor ICH6_INT_CTRL_EN ICH6_INT_GLOBAL_EN))))
  in
  (io, devs).

(** [azx_stream_start]: enable SIE, set DMA start and interrupt mask. *)
Definition azx_stream_start (io : gmap Z Z) (s : azx_stream)
  : gmap Z Z * azx_stream :=
  let s := set_sdev (set_insufficient true (sdev s)) s in
  let io := azx_writel io ICH6_REG_INTCTL
              (Z.lor (azx_readl io ICH6_REG_INTCTL)
                 (as_u32 (Z.shiftl 1 (index s)))) in
  let s := azx_sd_writeb s
             (Z.lor (Z.lor (azx_sd_readb s) SD_CTL_DMA_START) SD_INT_MASK) in
  (io, s).

(** [azx_stream_clear]: stop DMA. (The write that clears SD_STS goes to a
    status register, which is not part of the state.) *)
Definition azx_stream_clear (s : azx_stream) : azx_stream :=
  azx_sd_writeb s
    (Z.land (azx_sd_readb s) (Z.lnot (Z.lor SD_CTL_DMA_START SD_INT_MASK))).

(** [azx_stream_stop]: stop a stream and disable its SIE. *)
Definition azx_stream_stop (io : gmap Z Z) (s : azx_stream)
  : gmap Z Z * azx_stream :=
  let s := azx_stream_clear s in
  let io := azx_writel io ICH6_REG_INTCTL
              (Z.land (azx_readl io ICH6_REG_INTCTL)
                 (as_u32 (Z.lnot (Z.shiftl 1 (index s))))) in
  (io, s).

(** ** The trigger callback *)

(** The commands of the PCM core (include/sound/pcm.h). *)
Definition SNDRV_PCM_TRIGGER_STOP : Z := 0.
Definition SNDRV_PCM_TRIGGER_START : Z := 1.
Definition SNDRV_PCM_TRIGGER_PAUSE_PUSH : Z := 3.
Definition SNDRV_PCM_TRIGGER_PAUSE_RELEASE : Z := 4.
Definition SNDRV_PCM_TRIGGER_SUSPEND : Z := 5.
Definition SNDRV_PCM_TRIGGER_RESUME : Z := 6.

(** The [switch] of [azx_pcm_trigger]: [(rstart, start)], or none for a
    command that is refused. *)
Definition trigger_switch (cmd : Z) : option (bool * bool) :=
  if cmd =? SNDRV_PCM_TRIGGER_START then Some (true, true)
  else if (cmd =? SNDRV_PCM_TRIGGER_PAUSE_RELEASE)
          || (cmd =? SNDRV_PCM_TRIGGER_RESUME) then Some (false, true)
  else if (cmd =? SNDRV_PCM_TRIGGER_PAUSE_PUSH)
          || (cmd =? SNDRV_PCM_TRIGGER_SUSPEND)
          || (cmd =? SNDRV_PCM_TRIGGER_STOP) then Some (false, false)
  else None.

(** The substreams linked to the triggered one are given as [group]: for
    each, whether it belongs to the same card, and the index of its device
    in [chip->azx_dev]. Every loop over the group skips the substreams of
    other cards. *)
Definition linked_devs (group : list (bool * Z)) : list Z :=
  map snd (List.filter fst group).

(** The first loop: collect the SYNC bits and count the streams. *)
Fixpoint trigger_sbits (devs : list azx_stream) (l : list Z)
    (sbits nsync : Z) : option (Z * Z) :=
  match l with
  | [] => Some (sbits, nsync)
  | dev :: l =>
      match dev_at devs dev with
      | None => None
      | Some s =>
          trigger_sbits devs l
            (as_int (Z.lor sbits (as_int (Z.shiftl 1 (index s)))))
            (as_int (nsync + 1))
      end
  end.

(** The body of the second loop: start or stop a stream. [w] is the value
    read from WALLCLK. *)
Definition trigger_stream (BPL : Z) (start rstart : bool) (w : Z)
    (io : gmap Z Z) (s : azx_stream) : gmap Z Z * azx_stream :=
  let '(io, s) :=
    if start then
      let d := set_start_wallclk w (sdev s) in
      let d :=
        if negb rstart then
          set_start_wallclk
            (as_ulong BPL (start_wallclk d - period_wallclk d)) d
        else d in
      azx_stream_start io (set_sdev d s)
    else azx_stream_stop io s in
  (io, set_sdev (set_running start (sdev s)) s).

(** The second loop. [wallclks] holds the values the reads of WALLCLK
    return; the register is read only when the streams are started. *)
Fixpoint trigger_streams (BPL : Z) (start rstart : bool) (l : list Z)
    (wallclks : list Z) (io : gmap Z Z) (devs : list azx_stream)
  : option (gmap Z Z * list azx_stream * list Z) :=
  match l with
  | [] => Some (io, devs, wallclks)
  | dev :: l =>
      match dev_at devs dev with
      | None => None
      | Some s =>
          let '(w, wallclks) :=
            if start then read_tape wallclks else (0, wallclks) in
          let '(io, s) := trigger_stream BPL start rstart w io s in
          trigger_streams BPL start rstart l wallclks io
            (<[Z.to_nat dev := s]> devs)
      end
  end.

(** [azx_pcm_trigger]. The result is none when a linked substream has no
    device in the array. The two loops that wait for the FIFOs to get ready
    and for the RUN bits to clear only read SD_STS and SD_CTL and count;
    neither the registers, nor the devices, nor the value returned depend
    on them, so they leave no trace here; nor does the note
    [snd_pcm_trigger_done] leaves in the PCM core. *)
Definition azx_pcm_trigger (BPL : Z) (driver_caps : Z) (cmd : Z)
    (group : list (bool * Z)) (wallclks : list Z) (io : gmap Z Z)
    (devs : list azx_stream)
  : option (Z * gmap Z Z * list azx_stream * list Z) :=
  match trigger_switch cmd with
  | None => Some (- EINVAL, io, devs, wallclks)
  | Some (rstart, start) =>
      let l := linked_devs group in
      match trigger_sbits devs l 0 0 with
      | None => None
      | Some (sbits, nsync) =>
          let sync :=
            if negb (Z.land driver_caps AZX_DCAPS_OLD_SSYNC =? 0)
            then ICH6_REG_OLD_SSYNC else ICH6_REG_SSYNC in
          let io :=
            if 1 <? nsync then
              azx_writel io sync (Z.lor (azx_readl io sync) (as_u32 sbits))
            else io in
          match trigger_streams BPL start rstart l wallclks io devs with
          | None => None
          | Some (io, devs, wallclks) =>
              if start && (nsync =? 1) then Some (0, io, devs, wallclks)
              else
                let io :=
                  if 1 <? nsync then
                    azx_writel io sync
                      (Z.land (azx_readl io sync) (as_u32 (Z.lnot sbits)))
                  else io in
                Some (0, io, devs, wallclks)
          end
      end
  end.

(** The first test of [azx_position_ok]: the interrupt came before two
    thirds of a period had passed on the wall clock. *)
Definition too_early (BPL : Z) (d : azx_dev) (h : hw_pos) : bool :=
  elapsed_wallclk BPL d h <? as_ulong BPL (period_wallclk d * 2) / 3.

(** The interrupt enable of a stream agrees with its running flag: the SIE
    bit of the stream in INTCTL and the DMA start bit of SD_CTL are set
    exactly when the stream runs. *)
Definition stream_coherent (io : gmap Z Z) (s : azx_stream) : Prop :=
  Z.testbit (azx_readl io ICH6_REG_INTCTL) (index s) = running (sdev s) /\
  Z.testbit (SD_CTL s) 1 = running (sdev s).

(** The streams carry their position in the array as index, as
    [azx_init_stream] sets it, and leave the two top bits of INTCTL to the
    controller. *)
Definition streams_indexed (devs : list azx_stream) : Prop :=
  (length devs <= 30)%nat /\
  forall i s, devs !! i = Some s -> index s = Z.of_nat i.

Definition streams_coherent (io : gmap Z Z) (devs : list azx_stream)
  : Prop :=
  streams_indexed devs /\
  forall i s, devs !! i = Some s -> stream_coherent io s.

(** The SYNC bit of a stream of the list. *)
Definition sync_bit (devs : list azx_stream) (l : list Z) (n : Z) : bool :=
  existsb (fun dev => match dev_at devs dev with
                      | Some s => index s =? n
                      | None => false
                      end) l.

(** ** The interrupt handler *)







(** What the interrupt handler and the pending work leave alone in a
    stream: everything but the start on the wall clock, the pending mark and
    the mark of the VIA correction. *)
Definition same_dev (d d' : azx_dev) : Prop :=
  bdl d' = bdl d /\ bufsize d' = bufsize d /\
  period_bytes d' = period_bytes d /\ frags d' = frags d /\
  fifo_size d' = fifo_size d /\ period_wallclk d' = period_wallclk d /\
  substream d' = substream d /\ format_val d' = format_val d /\
  stream_tag d' = stream_tag d /\ opened d' = opened d /\
  running d' = running d.

Definition same_setup (s s' : azx_stream) : Prop :=
  index s' = index s /\ sd_int_sta_mask s' = sd_int_sta_mask s /\
  assigned_key s' = assigned_key s /\ SD_CTL s' = SD_CTL s /\
  same_dev (sdev s) (sdev s').

(** ** The pending period updates *)

(** [azx_irq_pending_work] drops the register lock around
    snd_pcm_period_elapsed and sleeps between its passes. What the other
    holders of the lock (the interrupt handler, the PCM callbacks) do
    meanwhile is a window: any change of the chip and, in place, of each
    stream of the array. *)
Record lock_window := mk_window {
  window_chip : azx -> azx;
  window_stream : Z -> azx_stream -> azx_stream
}.

(** Nothing happens while the lock is dropped. *)
Definition window_none : lock_window :=
  mk_window (fun c => c) (fun _ s => s).

Definition window_step (w : lock_window) (c : azx) (devs : list azx_stream)
  : azx * list azx_stream :=
  (window_chip w c, imap (fun k s => window_stream w (Z.of_nat k) s) devs).

(** The windows of a run come from a tape, in the order the lock is
    dropped; nothing happens once the tape is used up. *)
Definition next_window (ws : list lock_window)
  : lock_window * list lock_window :=
  (hd window_none ws, tl ws).

#[global] Arguments window_step : simpl never.
#[global] Arguments next_window : simpl never.

(** A window in which the chip and the streams stay as they are. *)
Definition window_quiet (w : lock_window) : Prop :=
  (forall c, window_chip w c = c) /\ (forall i s, window_stream w i s = s).

(** One pass of the loop of [azx_irq_pending_work] over the streams, from
    stream [i] on, [n] bounding the streams left; [env i] is what the
    position registers show when stream [i] is examined. Each stream is
    read from the array as it is when its turn comes. After a period is
    reported the lock is dropped, and a window is taken from the tape. The
    result lists the streams whose period is reported and gives the count
    [pending] and the rest of the tape. *)
Fixpoint pending_pass (BPL adj : Z) (env : Z -> hw_pos) (n : nat) (i : nat)
    (pending : Z) (ws : list lock_window) (c : azx) (devs : list azx_stream)
  : option (azx * list azx_stream * list Z * Z * list lock_window) :=
  match n with
  | O => Some (c, devs, [], pending, ws)
  | S n' =>
      match devs !! i with
      | None => Some (c, devs, [], pending, ws)
      | Some s =>
          if negb (irq_pending (sdev s))
             || negb (bool_decide (is_Some (substream (sdev s))))
             || negb (running (sdev s)) then
            pending_pass BPL adj env n' (S i) pending ws c devs
          else
            match azx_position_ok BPL adj c (sdev s) (env (Z.of_nat i)) with
            | None => None
            | Some (ok, c, d) =>
                if 0 <? ok then
                  let devs :=
                    <[i := set_sdev (set_irq_pending false d) s]> devs in
                  let '(w, ws) := next_window ws in
                  let '(c, devs) := window_step w c devs in
                  match pending_pass BPL adj env n' (S i) pending ws c devs with
                  | None => None
                  | Some (c, devs, l, pending, ws) =>
                      Some (c, devs, Z.of_nat i :: l, pending, ws)
                  end
                else
                  let devs := <[i := set_sdev d s]> devs in
                  let pending :=
                    if ok <? 0 then 0 else as_int (pending + 1) in
                  pending_pass BPL adj env n' (S i) pending ws c devs
            end
      end
  end.

(** The [for (;;)] loop: a pass per element of [envs], until a pass ends
    with nothing pending; between two passes the work sleeps, and a window
    is taken from the tape. The inner [option] is none when the passes
    given are used up before the loop ends. *)
Fixpoint pending_loop (BPL adj : Z) (envs : list (Z -> hw_pos))
    (ws : list lock_window) (c : azx) (devs : list azx_stream)
  : option (option (azx * list azx_stream * list Z)) :=
  match envs with
  | [] => Some None
  | env :: envs =>
      match pending_pass BPL adj env (length devs) 0 0 ws c devs with
      | None => None
      | Some (c, devs, l, pending, ws) =>
          if pending =? 0 then Some (Some (c, devs, l))
          else
            let '(w, ws) := next_window ws in
            let '(c, devs) := window_step w c devs in
            match pending_loop BPL adj envs ws c devs with
            | Some (Some (c, devs, l')) => Some (Some (c, devs, l ++ l'))
            | r => r
            end
      end
  end.

(** [azx_irq_pending_work]. The first component of the result tells
    whether the warning is printed, the second is
    [chip->irq_pending_warned] afterwards. *)
Definition azx_irq_pending_work (BPL adj : Z) (envs : list (Z -> hw_pos))
    (ws : list lock_window) (irq_pending_warned : bool) (c : azx)
    (devs : list azx_stream)
  : option (option (bool * bool * azx * list azx_stream * list Z)) :=
  match pending_loop BPL adj envs ws c devs with
  | None => None
  | Some None => Some None
  | Some (Some (c, devs, l)) =>
      Some (Some (negb irq_pending_warned, true, c, devs, l))
  end.

(** What a run of the work does to the streams when it reports the periods
    of the streams [l] and nothing else touches the array: the reported
    streams are distinct streams of the array, each was marked pending, had
    a substream and ran, and is unmarked afterwards; the mark of every
    other stream is as before; the set-up of every stream is as before. *)
Definition reports_rel (l : list Z) (devs devs' : list azx_stream) : Prop :=
  length devs' = length devs /\ NoDup l /\
  (forall j, j ∈ l -> 0 <= j < Z.of_nat (length devs)) /\
  forall k s, devs !! k = Some s ->
    exists s', devs' !! k = Some s' /\ same_setup s s' /\
      (Z.of_nat k ∈ l ->
       irq_pending (sdev s) = true /\ is_Some (substream (sdev s)) /\
       running (sdev s) = true /\ irq_pending (sdev s') = false) /\
      (Z.of_nat k ∉ l -> irq_pending (sdev s') = irq_pending (sdev s)).

(** [azx_clear_irq_pending]. *)
Definition azx_clear_irq_pending (devs : list azx_stream)
  : list azx_stream :=
  map (fun s => set_sdev (set_irq_pending false (sdev s)) s) devs.

(** ** The platform clocks *)

(** What the clock framework and the power gating see. *)
Inductive clk_event :=
  | ClkEnable (i : Z)
  | ClkDisable (i : Z)
  | Unpowergate
  | Powergate.

Record azx_clk := mk_clk {
  platform_clk_count : Z;
  platform_clk_enable : Z
}.

(** [azx_platform_enable_clocks]; [powergate] tells whether the kernel is
    built for a Tegra chip whose partition is power gated. *)
Definition azx_platform_enable_clocks (powergate : bool) (k : azx_clk)
  : azx_clk * list clk_event :=
  (mk_clk (platform_clk_count k) (as_int (platform_clk_enable k + 1)),
   (if powergate then [Unpowergate] else [])
   ++ map ClkEnable (seqZ 0 (platform_clk_count k))).

(** [azx_platform_disable_clocks]. *)
Definition azx_platform_disable_clocks (powergate : bool) (k : azx_clk)
  : azx_clk * list clk_event :=
  if platform_clk_enable k =? 0 then (k, [])
  else
    (mk_clk (platform_clk_count k) (as_int (platform_clk_enable k - 1)),
     map ClkDisable (seqZ 0 (platform_clk_count k))
     ++ (if powergate then [Powergate] else [])).

(** The loop of [azx_suspend] that drops all clock references:
    [while (chip->platform_clk_enable) azx_platform_disable_clocks(chip)].
    None when the loop has not ended after [fuel] turns. *)
Fixpoint disable_all_clocks (fuel : nat) (powergate : bool) (k : azx_clk)
  : option (azx_clk * list clk_event) :=
  if platform_clk_enable k =? 0 then Some (k, [])
  else
    match fuel with
    | O => None
    | S fuel =>
        let '(k, l) := azx_platform_disable_clocks powergate k in
        match disable_all_clocks fuel powergate k with
        | None => None
        | Some (k, l') => Some (k, l ++ l')
        end
    end.

(** A sequence of calls: [true] enables, [false] disables. *)
Fixpoint clock_calls (powergate : bool) (calls : list bool) (k : azx_clk)
  : azx_clk * list clk_event :=
  match calls with
  | [] => (k, [])
  | b :: calls =>
      let '(k, l) :=
        if b then azx_platform_enable_clocks powergate k
        else azx_platform_disable_clocks powergate k in
      let '(k, l') := clock_calls powergate calls k in
      (k, l ++ l')
  end.

(** The references held on clock [i] according to the events: the enables
    less the disables. *)
Fixpoint clk_refs (i : Z) (l : list clk_event) : Z :=
  match l with
  | [] => 0
  | ClkEnable j :: l => (if j =? i then 1 else 0) + clk_refs i l
  | ClkDisable j :: l => clk_refs i l - (if j =? i then 1 else 0)
  | _ :: l => clk_refs i l
  end.

(** The same for the power gate of the partition. *)
Fixpoint gate_refs (l : list clk_event) : Z :=
  match l with
  | [] => 0
  | Unpowergate :: l => 1 + gate_refs l
  | Powergate :: l => gate_refs l - 1
  | _ :: l => gate_refs l
  end.

(** ** Sample values *)

(** The eight streams of a controller with four capture and four playback
    streams, the second prepared with a period of 512000 ticks of the wall
    clock. *)
Definition devs_paced : list azx_stream :=
  upd_dev (fun s => set_sdev (set_period_wallclk 512000 (sdev s)) s) 1
    (fresh_streams (azx_stream_layout 17409 AZX_DRIVER_ICH)).

(** ** The stream tag announced to the codec *)

Definition AZX_DCAPS_CTX_WORKAROUND : Z := 32768.    (* 1 << 15 *)

(** The end of [azx_pcm_prepare]: the tag passed to
    snd_hda_codec_prepare. *)
Definition prepare_stream_tag (driver_caps : Z) (L : azx_layout)
    (d : azx_dev) : Z :=
  let tag := stream_tag d in
  if negb (Z.land driver_caps AZX_DCAPS_CTX_WORKAROUND =? 0)
     && (as_u32 (capture_streams L) <? tag)
  then as_u32 (tag - capture_streams L)
  else tag.

(** * The link side of the command ring *)

(** The CORB DMA engine of the controller, as far as the driver relies on
    it: its read pointer (the register CORBRP, which [azx_init_cmd_io]
    resets and the driver never writes again) and the number of commands it
    has passed on to the link so far. *)
Record azx_link := mk_link {
  CORBRP : Z;
  fetched : nat
}.

(** The engine after the reset of its read pointer in [azx_init_cmd_io]. *)
Definition link0 : azx_link := mk_link 0 0.

(** The word of the CORB at index [i], as [azx_corb_send_cmd] stores it. *)
Definition corb_slot (c : azx) (i : Z) : Z := rd (buf (corb c)) i.

(** The commands the driver has written and the engine has not fetched yet:
    the words after the engine's read pointer up to the write pointer the
    driver has set in CORBWP. *)
Definition corb_backlog (c : azx) (lk : azx_link) : list Z :=
  let w := azx_readb (CORBWP (regs c)) in
  map (fun k => corb_slot c ((CORBRP lk + Z.of_nat k) mod ICH6_MAX_CORB_ENTRIES))
      (seq 1 (Z.to_nat ((w - CORBRP lk) mod ICH6_MAX_CORB_ENTRIES))).

(** The engine fetches the next command. It does so only while the CORB DMA
    runs and its read pointer is behind CORBWP; the word it passes to the
    link is the one it finds in the CORB at the next index. *)
Definition link_fetch (c : azx) (lk : azx_link) : option (Z * azx_link) :=
  if (Z.land (CORBCTL (regs c)) ICH6_CORBCTL_RUN =? 0)
     || (CORBRP lk =? azx_readb (CORBWP (regs c))) then None
  else
    let i := (CORBRP lk + 1) mod ICH6_MAX_CORB_ENTRIES in
    Some (corb_slot c i, mk_link i (S (fetched lk))).

(** The codecs on the link: [codec n cmd] is the response to the command
    word [cmd] when it is the [n]-th word passed to the link. The extended
    word of a solicited response carries the codec address of the command
    (bits 31:28 of the word) in its low four bits and no other bit. *)
Definition link_answer (codec : nat -> Z -> Z) (n : nat) (cmd : Z) : Z * Z :=
  (codec n cmd, Z.shiftr cmd 28).

(** The responses among [evs] are those of the link: each is the answer to
    the command the engine fetches from the CORB of [c] at that moment.
    The result is the engine afterwards; [None] when a response is not
    accounted for by the CORB. *)
Fixpoint link_events (codec : nat -> Z -> Z) (c : azx) (lk : azx_link)
    (evs : list hw_event) : option azx_link :=
  match evs with
  | [] => Some lk
  | HwIrq :: evs => link_events codec c lk evs
  | HwResponse r r_ex :: evs =>
      match link_fetch c lk with
      | None => None
      | Some (cmd, lk') =>
          let '(r0, x0) := link_answer codec (fetched lk) cmd in
          if (r =? r0) && (r_ex =? x0) then link_events codec c lk' evs
          else None
      end
  end.

(** The hardware events among the observations of an operation. *)
Definition hw_events (l : list obs) : list hw_event :=
  omap (fun o => match o with ObsHw e => Some e | _ => None end) l.

(** A run in which the hardware is driven by the CORB: the responses that
    arrive during each operation are the link's answers to the commands
    found in the CORB as the operation starts (no operation writes the CORB
    while responses arrive: a send is not interrupted by one, and a receive
    does not touch the CORB). *)
Fixpoint link_driven (codec : nat -> Z -> Z) (ops : list op) (c : azx)
    (lk : azx_link) : option azx_link :=
  match ops with
  | [] => Some lk
  | o :: ops' =>
      match run_op c o with
      | None => None
      | Some (c1, l1) =>
          match link_events codec c lk (hw_events l1) with
          | None => None
          | Some lk1 => link_driven codec ops' c1 lk1
          end
      end
  end.

(** The callers keep order: a command is sent only to an address with
    nothing outstanding, and a response is asked for only once the hardware
    has delivered one for the address. *)
Definition in_order (g : gmap Z exchange) (o : obs) : Prop :=
  match o with
  | ObsSend v => exch g (azx_command_addr v) = Idle
  | ObsHw _ => True
  | ObsRecv a _ => exists r, exch g a = Answered r
  end.

Fixpoint orderly (g : gmap Z exchange) (l : list obs) : Prop :=
  match l with
  | [] => True
  | o :: l' => in_order g o /\ orderly (track g o) l'
  end.

(** The book of the commands sent: how many so far, and for each codec
    address the most recent command sent to it with its place in the order
    of all sends. *)
Definition link_book : Type := nat * gmap Z (nat * Z).

Definition book_step (b : link_book) (o : obs) : link_book :=
  match o with
  | ObsSend v => (S (fst b), <[azx_command_addr v := (fst b, v)]> (snd b))
  | _ => b
  end.

Definition books (b : link_book) (l : list obs) : link_book :=
  fold_left book_step l b.

(** A receive returned what the codec answers to the most recent command
    sent to its address. *)
Definition answers (codec : nat -> Z -> Z) (b : link_book) (o : obs) : Prop :=
  match o with
  | ObsRecv a v => exists n cmd, snd b !! a = Some (n, cmd) /\ v = codec n cmd
  | _ => True
  end.

Fixpoint answers_sent (codec : nat -> Z -> Z) (b : link_book) (l : list obs)
  : Prop :=
  match l with
  | [] => True
  | o :: l' => answers codec b o /\ answers_sent codec (book_step b o) l'
  end.

(** The commands sent and not answered yet, oldest first: a send adds its
    command at the end, a response is for the oldest one. *)
Definition queue_step (q : list Z) (o : obs) : list Z :=
  match o with
  | ObsSend v => q ++ [v]
  | ObsHw (HwResponse _ _) => tail q
  | _ => q
  end.

Definition unanswered (q : list Z) (l : list obs) : list Z :=
  fold_left queue_step l q.

(** The relation kept between the books and the two sides of the CORB:
    - the words in the CORB not yet fetched are the commands not answered,
      in the order sent;
    - they are [u32] words for distinct codec addresses, each the most
      recent command for its address, and their places in the order of
      sends follow the count of the words fetched;
    - the addresses awaiting a response are those of the commands in the
      CORB;
    - a response on the books is the codec's answer to the most recent
      command for its address. *)
Definition link_rel (codec : nat -> Z -> Z) (g : gmap Z exchange)
    (q : list Z) (b : link_book) (c : azx) (lk : azx_link) : Prop :=
  corb_backlog c lk = q /\
  0 <= CORBRP lk < ICH6_MAX_CORB_ENTRIES /\
  fst b = (fetched lk + length q)%nat /\
  Forall (fun v => 0 <= v < 4294967296) q /\
  NoDup (map azx_command_addr q) /\
  (forall i cmd, q !! i = Some cmd ->
     snd b !! azx_command_addr cmd = Some ((fetched lk + i)%nat, cmd) /\
     exch g (azx_command_addr cmd) = Awaiting) /\
  (forall a, exch g a = Awaiting -> a ∈ map azx_command_addr q) /\
  (forall a r, exch g a = Answered r ->
     exists n cmd, snd b !! a = Some (n, cmd) /\ r = codec n cmd).

(** * The descriptor entries a geometry takes *)






(** ** Sample streams *)



(** ** Sample link *)

(** A codec whose answer depends on the command and on its place. *)
Definition link_codec (n : nat) (cmd : Z) : Z :=
  Z.land cmd 1048575 + Z.of_nat n.

(** Commands to addresses 2 and 3, the link's answers to them (the second
    while the receive waits), and a further command that stays in the
    CORB. *)
Definition link_trip_ops : list op :=
  [ OpSend 537853952 [] 0;
    OpSend 806289408 [] 0;
    OpHw (HwResponse 983040 2);
    OpRecv 2 true [mk_tick [] true];
    OpRecv 3 true [mk_tick [HwResponse 983041 3] false; mk_tick [HwIrq] false];
    OpSend 537853953 [] 0 ].

Definition link_trip_log : list obs :=
  [ ObsSend 537853952;
    ObsSend 806289408;
    ObsHw (HwResponse 983040 2);
    ObsRecv 2 983040;
    ObsHw (HwResponse 983041 3);
    ObsHw HwIrq;
    ObsRecv 3 983041;
    ObsSend 537853953 ].

(** * Proofs *)

(** Linear arithmetic with division and remainder by constants. *)
Ltac zlia := Z.div_mod_to_equations; lia.

(** ** Arrays *)

Lemma rd_wr_eq (m : gmap Z Z) i v : rd (wr m i v) i = v.
Proof. unfold rd, wr. by rewrite lookup_insert_eq. Qed.

Lemma rd_wr_ne (m : gmap Z Z) i j v : i ≠ j -> rd (wr m i v) j = rd m j.
Proof. intros H. unfold rd, wr. by rewrite lookup_insert_ne. Qed.

Lemma rd_empty i : rd ∅ i = 0.
Proof. reflexivity. Qed.

Lemma exch_insert_eq (g : gmap Z exchange) a x : exch (<[a := x]> g) a = x.
Proof. unfold exch. by rewrite lookup_insert_eq. Qed.

Lemma exch_insert_ne (g : gmap Z exchange) a b x :
  a ≠ b -> exch (<[a := x]> g) b = exch g b.
Proof. intros H. unfold exch. by rewrite lookup_insert_ne. Qed.

(** ** Registers and addresses *)

Lemma azx_readb_mod v : azx_readb v = v mod 256.
Proof. unfold azx_readb. change 255 with (Z.ones 8). by rewrite Z.land_ones. Qed.

Lemma azx_readb_range v : 0 <= azx_readb v < 256.
Proof. rewrite azx_readb_mod. zlia. Qed.

Lemma azx_readb_small v : 0 <= v < 256 -> azx_readb v = v.
Proof. intros H. rewrite azx_readb_mod. zlia. Qed.

Lemma azx_response_addr_range x : 0 <= azx_response_addr x < 8.
Proof.
  unfold azx_response_addr, AZX_MAX_CODECS.
  assert (0 <= Z.land x 15 < 16).
  { change 15 with (Z.ones 4). rewrite Z.land_ones by lia. zlia. }
  destruct (8 <=? Z.land x 15) eqn:E; lia.
Qed.

(** ** The dispatch of a response *)

Lemma dispatch_frame r x c :
  regs (rirb_dispatch r x c) = regs c /\
  buf (rirb (rirb_dispatch r x c)) = buf (rirb c) /\
  rp (rirb (rirb_dispatch r x c)) = rp (rirb c) /\
  wp (rirb (rirb_dispatch r x c)) = wp (rirb c) /\
  corb (rirb_dispatch r x c) = corb c.
Proof.
  unfold rirb_dispatch.
  destruct (negb _); [done|]. destruct (negb _); done.
Qed.

Lemma dispatch_flags r x c : flags (rirb_dispatch r x c) = flags c.
Proof.
  unfold rirb_dispatch.
  destruct (negb _); [done|]. destruct (negb _); done.
Qed.

Lemma dispatch_spurious r x c :
  spurious c (r, x) -> rirb_dispatch r x c = c.
Proof.
  intros [Hu Hc]. simpl in *. unfold rirb_dispatch.
  rewrite Hu, Hc. reflexivity.
Qed.

(** A response changes the counters or the stored values only when it is not
    an unsolicited event and a command is pending for its address. *)
Lemma dispatch_changes r x c :
  cmds (rirb (rirb_dispatch r x c)) ≠ cmds (rirb c) \/
  res (rirb (rirb_dispatch r x c)) ≠ res (rirb c) ->
  Z.land x ICH6_RIRB_EX_UNSOL_EV = 0 /\
  rd (cmds (rirb c)) (azx_response_addr x) ≠ 0.
Proof.
  unfold rirb_dispatch.
  destruct (Z.land x ICH6_RIRB_EX_UNSOL_EV =? 0) eqn:Hu; simpl.
  - destruct (rd (cmds (rirb c)) (azx_response_addr x) =? 0) eqn:Hc; simpl.
    + intros [H|H]; congruence.
    + intros _. split; lia.
  - intros [H|H]; congruence.
Qed.

(** ** The drain loop *)

Lemma rirb_entry_rp c :
  0 <= rp (rirb c) < 256 ->
  rp (rirb (rirb_entry c)) = (rp (rirb c) + 1) mod 256.
Proof.
  intros H. unfold rirb_entry.
  destruct (dispatch_frame
    (rd (buf (rirb c)) (Z.shiftl (as_u16 (rp (rirb c) + 1) mod ICH6_MAX_RIRB_ENTRIES) 1))
    (rd (buf (rirb c)) (Z.shiftl (as_u16 (rp (rirb c) + 1) mod ICH6_MAX_RIRB_ENTRIES) 1 + 1))
    (upd_rirb (fun r => set_rp (rp r mod ICH6_MAX_RIRB_ENTRIES) r)
       (upd_rirb (fun r => set_rp (as_u16 (rp r + 1)) r) c))) as (_ & _ & Hrp & _).
  simpl in *. rewrite Hrp.
  unfold as_u16, ICH6_MAX_RIRB_ENTRIES. zlia.
Qed.

Lemma rirb_entry_rp_range c : 0 <= rp (rirb (rirb_entry c)) < 256.
Proof.
  unfold rirb_entry.
  match goal with |- context [rirb_dispatch ?r ?x ?c'] =>
    destruct (dispatch_frame r x c') as (_ & _ & Hrp & _) end.
  rewrite Hrp. simpl. unfold ICH6_MAX_RIRB_ENTRIES. zlia.
Qed.

(** The entry processed by a turn is the one after the read pointer. *)
Lemma rirb_entry_eq c :
  0 <= rp (rirb c) < 256 ->
  rirb_entry c =
  rirb_dispatch (fst (rirb_slot c ((rp (rirb c) + 1) mod 256)))
    (snd (rirb_slot c ((rp (rirb c) + 1) mod 256)))
    (upd_rirb (set_rp ((rp (rirb c) + 1) mod 256)) c).
Proof.
  intros H. unfold rirb_entry, rirb_slot. simpl.
  assert (E : as_u16 (rp (rirb c) + 1) mod ICH6_MAX_RIRB_ENTRIES
              = (rp (rirb c) + 1) mod 256).
  { unfold as_u16, ICH6_MAX_RIRB_ENTRIES. zlia. }
  rewrite E. f_equal. unfold upd_rirb, set_rp. simpl. rewrite E. reflexivity.
Qed.

(** ** The backlog of the response ring *)

Lemma backlog_length c :
  length (rirb_backlog c)
  = Z.to_nat ((azx_readb (RIRBWP (regs c)) - rp (rirb c)) mod 256).
Proof. unfold rirb_backlog. by rewrite length_map, length_seq. Qed.

Lemma backlog_short c : (length (rirb_backlog c) < 256)%nat.
Proof. rewrite backlog_length. zlia. Qed.

Lemma backlog_nil c :
  0 <= rp (rirb c) < 256 ->
  (rirb_backlog c = [] <-> azx_readb (RIRBWP (regs c)) = rp (rirb c)).
Proof.
  intros Hrp. pose proof (azx_readb_range (RIRBWP (regs c))) as Hw.
  rewrite <- length_zero_iff_nil, backlog_length. zlia.
Qed.

(** Depends only on the registers, the ring memory and the read pointer. *)
Lemma backlog_ext c c' :
  RIRBWP (regs c') = RIRBWP (regs c) -> buf (rirb c') = buf (rirb c) ->
  rp (rirb c') = rp (rirb c) -> rirb_backlog c' = rirb_backlog c.
Proof.
  intros H1 H2 H3. unfold rirb_backlog, rirb_slot. by rewrite H1, H2, H3.
Qed.

Lemma backlog_cons c c' :
  0 <= rp (rirb c) < 256 ->
  azx_readb (RIRBWP (regs c)) ≠ rp (rirb c) ->
  regs c' = regs c -> buf (rirb c') = buf (rirb c) ->
  rp (rirb c') = (rp (rirb c) + 1) mod 256 ->
  rirb_backlog c = rirb_slot c ((rp (rirb c) + 1) mod 256) :: rirb_backlog c'.
Proof.
  intros Hrp Hne H1 H2 H3.
  pose proof (azx_readb_range (RIRBWP (regs c))) as Hw.
  unfold rirb_backlog. rewrite H1, H3.
  set (w := azx_readb (RIRBWP (regs c))) in *.
  unfold ICH6_MAX_RIRB_ENTRIES.
  assert (E : Z.to_nat ((w - rp (rirb c)) mod 256)
              = S (Z.to_nat ((w - (rp (rirb c) + 1) mod 256) mod 256))) by zlia.
  rewrite E. simpl. f_equal.
  rewrite <- seq_shift, map_map. apply map_ext_in.
  intros k Hk. apply in_seq in Hk. unfold rirb_slot. rewrite H2.
  replace (((rp (rirb c) + 1) mod 256 + Z.of_nat k) mod 256)
    with ((rp (rirb c) + Z.of_nat (S k)) mod 256); [reflexivity|].
  rewrite Zplus_mod_idemp_l. f_equal. lia.
Qed.

Lemma backlog_entry c :
  0 <= rp (rirb c) < 256 ->
  azx_readb (RIRBWP (regs c)) ≠ rp (rirb c) ->
  rirb_backlog c
  = rirb_slot c ((rp (rirb c) + 1) mod 256) :: rirb_backlog (rirb_entry c).
Proof.
  intros Hrp Hne. apply backlog_cons; try done.
  - unfold rirb_entry.
    match goal with |- context [rirb_dispatch ?r ?x ?c'] =>
      destruct (dispatch_frame r x c') as (Hr & _) end.
    by rewrite Hr.
  - unfold rirb_entry.
    match goal with |- context [rirb_dispatch ?r ?x ?c'] =>
      destruct (dispatch_frame r x c') as (_ & Hb & _) end.
    by rewrite Hb.
  - by apply rirb_entry_rp.
Qed.

(** Invariant rule for the drain loop: [Q l c] relates the entries still to
    be read to the state. The loop always comes to its end. *)
Lemma rirb_drain_inv (Q : list (Z * Z) -> azx -> Prop) :
  (forall c e l, 0 <= rp (rirb c) < 256 ->
     rirb_backlog c = e :: l ->
     Q (e :: l) c ->
     Q l (rirb_dispatch (fst e) (snd e)
            (upd_rirb (set_rp ((rp (rirb c) + 1) mod 256)) c))) ->
  forall fuel c,
    0 <= rp (rirb c) < 256 ->
    (length (rirb_backlog c) < fuel)%nat ->
    Q (rirb_backlog c) c ->
    let c' := rirb_drain fuel (azx_readb (RIRBWP (regs c))) c in
    Q [] c' /\ rirb_backlog c' = [] /\
    rp (rirb c') = azx_readb (RIRBWP (regs c)) /\ regs c' = regs c /\
    wp (rirb c') = wp (rirb c).
Proof.
  intros Hstep. induction fuel as [|fuel IH]; intros c Hrp Hlen HQ; [lia|].
  simpl. destruct (rp (rirb c) =? azx_readb (RIRBWP (regs c))) eqn:E.
  - apply Z.eqb_eq in E.
    assert (Hnil : rirb_backlog c = []) by (by apply backlog_nil).
    rewrite Hnil in HQ. done.
  - apply Z.eqb_neq in E.
    assert (Hne : azx_readb (RIRBWP (regs c)) ≠ rp (rirb c)) by congruence.
    pose proof (backlog_entry c Hrp Hne) as Hb.
    pose proof (rirb_entry_eq c Hrp) as He.
    assert (HQ' : Q (rirb_backlog (rirb_entry c)) (rirb_entry c)).
    { pose proof (Hstep c _ _ Hrp Hb) as Hs. rewrite <- Hb in Hs.
      specialize (Hs HQ). by rewrite <- He in Hs. }
    assert (Hregs : regs (rirb_entry c) = regs c).
    { rewrite He. match goal with |- context [rirb_dispatch ?r ?x ?c'] =>
        destruct (dispatch_frame r x c') as (Hr & _) end. by rewrite Hr. }
    assert (Hwp : wp (rirb (rirb_entry c)) = wp (rirb c)).
    { rewrite He. match goal with |- context [rirb_dispatch ?r ?x ?c'] =>
        destruct (dispatch_frame r x c') as (_ & _ & _ & Hr & _) end.
      by rewrite Hr. }
    destruct (IH (rirb_entry c)) as (H1 & H2 & H3 & H4 & H5).
    + apply rirb_entry_rp_range.
    + rewrite Hb in Hlen. simpl in Hlen. lia.
    + exact HQ'.
    + rewrite Hregs in *. rewrite H5, Hwp. done.
Qed.

(** [azx_update_rirb] under an invariant of the same kind. The cached write
    pointer equals the read pointer between two calls. *)
Lemma update_rirb_inv (Q : list (Z * Z) -> azx -> Prop) c :
  (forall c e l, 0 <= rp (rirb c) < 256 ->
     rirb_backlog c = e :: l ->
     Q (e :: l) c ->
     Q l (rirb_dispatch (fst e) (snd e)
            (upd_rirb (set_rp ((rp (rirb c) + 1) mod 256)) c))) ->
  (forall l c w, Q l c -> Q l (upd_rirb (set_wp w) c)) ->
  0 <= rp (rirb c) < 256 ->
  wp (rirb c) = rp (rirb c) ->
  Q (rirb_backlog c) c ->
  let c' := azx_update_rirb c in
  Q [] c' /\ rirb_backlog c' = [] /\
  rp (rirb c') = azx_readb (RIRBWP (regs c)) /\ regs c' = regs c /\
  wp (rirb c') = rp (rirb c').
Proof.
  intros Hstep Hwp Hrp Hcache HQ. unfold azx_update_rirb.
  destruct (azx_readb (RIRBWP (regs c)) =? wp (rirb c)) eqn:E.
  - apply Z.eqb_eq in E.
    assert (Hnil : rirb_backlog c = []) by (apply backlog_nil; [done|congruence]).
    rewrite Hnil in HQ. split_and!; try done. congruence.
  - set (w := azx_readb (RIRBWP (regs c))).
    set (c1 := upd_rirb (set_wp w) c).
    assert (Hb : rirb_backlog c1 = rirb_backlog c) by (by apply backlog_ext).
    destruct (rirb_drain_inv Q Hstep 257 c1) as (H1 & H2 & H3 & H4 & H5).
    + done.
    + rewrite Hb. pose proof (backlog_short c). lia.
    + rewrite Hb. by apply Hwp.
    + change (regs c1) with (regs c) in *. fold w in H1, H2, H3, H4, H5.
      split_and!; try done. rewrite H5, H3. reflexivity.
Qed.

(** ** Mode flags are untouched by the hardware and by the drain *)

Lemma rirb_entry_flags c : flags (rirb_entry c) = flags c.
Proof. unfold rirb_entry. by rewrite dispatch_flags. Qed.

Lemma rirb_drain_flags fuel w c : flags (rirb_drain fuel w c) = flags c.
Proof.
  revert c. induction fuel as [|n IH]; intros c; simpl; [done|].
  destruct (rp (rirb c) =? w); [done|]. by rewrite IH, rirb_entry_flags.
Qed.

Lemma update_rirb_flags c : flags (azx_update_rirb c) = flags c.
Proof.
  unfold azx_update_rirb. destruct (_ =? _); [done|].
  by rewrite rirb_drain_flags.
Qed.

Lemma hw_step_flags c e : flags (hw_step c e) = flags c.
Proof. destruct e; simpl; [done|apply update_rirb_flags]. Qed.

Lemma hw_steps_flags evs c : flags (fold_left hw_step evs c) = flags c.
Proof.
  revert c. induction evs as [|e evs IH]; intros c; simpl; [done|].
  by rewrite IH, hw_step_flags.
Qed.

Lemma flags_single_cmd c c' : flags c' = flags c -> single_cmd c' = single_cmd c.
Proof. unfold flags. intros H. by simplify_eq. Qed.
Lemma flags_polling_mode c c' : flags c' = flags c -> polling_mode c' = polling_mode c.
Proof. unfold flags. intros H. by simplify_eq. Qed.
Lemma flags_msi c c' : flags c' = flags c -> msi c' = msi c.
Proof. unfold flags. intros H. by simplify_eq. Qed.
Lemma flags_probing c c' : flags c' = flags c -> probing c' = probing c.
Proof. unfold flags. intros H. by simplify_eq. Qed.
Lemma flags_poll_count c c' : flags c' = flags c -> poll_count c' = poll_count c.
Proof. unfold flags. intros H. by simplify_eq. Qed.
Lemma flags_bus c c' :
  flags c' = flags c ->
  rirb_error (bus c') = rirb_error (bus c) /\
  response_reset (bus c') = response_reset (bus c) /\
  in_reset (bus c') = in_reset (bus c) /\
  allow_bus_reset (bus c') = allow_bus_reset (bus c).
Proof. unfold flags. intros H. by simplify_eq. Qed.

(** The wait loop leaves the flags alone unless it returns a response. *)
Lemma wait_turn_flags dp addr t c c' b :
  wait_turn dp addr t c = (c', inl b) -> flags c' = flags c.
Proof.
  unfold wait_turn.
  set (c1 := fold_left hw_step (concurrent t) c).
  assert (H1 : flags c1 = flags c) by apply hw_steps_flags.
  set (c2 := if polling_mode c1 || dp then azx_update_rirb c1 else c1).
  assert (H2 : flags c2 = flags c).
  { unfold c2. destruct (_ || _); [by rewrite update_rirb_flags|done]. }
  destruct (rd (cmds (rirb c2)) addr =? 0); unfold rirb_deliver; simpl;
    intros H; [discriminate|].
  injection H as <- _. exact H2.
Qed.

Lemma wait_response_flags dp addr ts c c' ts' evs :
  wait_response dp addr ts c = (c', ts', evs, None) -> flags c' = flags c.
Proof.
  revert c c' ts' evs. induction ts as [|t ts IH]; intros c c' ts' evs; simpl.
  - destruct (wait_turn dp addr last_tick c) as [c1 [b|v]] eqn:E; intros H;
      simplify_eq. by eapply wait_turn_flags.
  - destruct (wait_turn dp addr t c) as [c1 [[|]|v]] eqn:E.
    + intros H; simplify_eq. by eapply wait_turn_flags.
    + destruct (wait_response dp addr ts c1) as [[[c2 r2] e2] o2] eqn:E2.
      intros H; simplify_eq.
      rewrite (IH _ _ _ _ E2). by eapply wait_turn_flags.
    + intros H; simplify_eq.
Qed.

(** ** The wait loop and its exits *)

Lemma wait_turn_exit dp addr t c c' o :
  wait_turn dp addr t c = (c', o) ->
  match o with
  | inr v => rd (cmds (rirb c')) addr = 0 /\ v = rd (res (rirb c')) addr
  | inl _ => rd (cmds (rirb c')) addr ≠ 0
  end.
Proof.
  unfold wait_turn.
  set (c2 := if polling_mode _ || dp then _ else _).
  destruct (rd (cmds (rirb c2)) addr =? 0) eqn:E; unfold rirb_deliver;
    intros H; simplify_eq.
  - apply Z.eqb_eq in E. by destruct dp.
  - by apply Z.eqb_neq in E.
Qed.

Lemma wait_response_exit dp addr ts c c' ts' evs o :
  wait_response dp addr ts c = (c', ts', evs, o) ->
  match o with
  | Some v => rd (cmds (rirb c')) addr = 0 /\ v = rd (res (rirb c')) addr
  | None => rd (cmds (rirb c')) addr ≠ 0
  end.
Proof.
  revert c c' ts' evs o. induction ts as [|t ts IH]; intros c c' ts' evs o; simpl.
  - destruct (wait_turn dp addr last_tick c) as [c1 [b|v]] eqn:E;
      intros H; simplify_eq; apply (wait_turn_exit _ _ _ _ _ _ E).
  - destruct (wait_turn dp addr t c) as [c1 [[|]|v]] eqn:E.
    + intros H; simplify_eq. apply (wait_turn_exit _ _ _ _ _ _ E).
    + destruct (wait_response dp addr ts c1) as [[[c2 r2] e2] o2] eqn:E2.
      intros H; simplify_eq. by eapply IH.
    + intros H; simplify_eq. apply (wait_turn_exit _ _ _ _ _ _ E).
Qed.

(** ** The receive always returns *)

Lemma stages_left_flags c c' : flags c' = flags c -> stages_left c' = stages_left c.
Proof.
  intros H. unfold stages_left.
  by rewrite (flags_polling_mode _ _ H), (flags_poll_count _ _ H), (flags_msi _ _ H).
Qed.

Lemma as_int_succ_ge x : x < 2 -> x + 1 <= as_int (x + 1).
Proof. intros H. unfold as_int. zlia. Qed.

Lemma rirb_get_response_from_total fuel dp addr ok ts c :
  (stages_left c < fuel)%nat ->
  exists r, rirb_get_response_from fuel dp addr ok ts c = Some r.
Proof.
  revert dp ts c. induction fuel as [|n IH]; intros dp ts c Hm; [lia|].
  simpl.
  destruct (wait_response dp addr ts c) as [[[c1 ts1] evs] [v|]] eqn:E;
    [eauto|].
  pose proof (wait_response_flags _ _ _ _ _ _ _ E) as Hf.
  rewrite <- (stages_left_flags _ _ Hf) in Hm. clear E Hf.
  destruct (polling_mode c1) eqn:Epm; simpl.
  - destruct (msi c1) eqn:Em.
    + unfold azx_acquire_irq. destruct ok; simpl; [|eauto].
      edestruct (IH dp ts1) as [[[[c2 ts2] e2] v2] ->]; [|eauto].
      unfold stages_left in *. simpl. rewrite Epm, Em in Hm. rewrite Epm. lia.
    + destruct (probing c1); [eauto|].
      destruct (_ && _ && _); eauto.
  - destruct (poll_count c1 <? 2) eqn:Epc; simpl.
    + apply Z.ltb_lt in Epc.
      edestruct (IH true ts1) as [[[[c2 ts2] e2] v2] ->]; [|eauto].
      unfold stages_left in *. simpl. rewrite Epm in *.
      pose proof (as_int_succ_ge _ Epc). lia.
    + edestruct (IH dp ts1) as [[[[c2 ts2] e2] v2] ->]; [|eauto].
      unfold stages_left in *. simpl. rewrite Epm in *. lia.
Qed.

Lemma azx_rirb_get_response_total c addr ok ts :
  exists r, azx_rirb_get_response c addr ok ts = Some r.
Proof.
  apply rirb_get_response_from_total.
  unfold stages_left, again_budget. destruct (polling_mode c), (msi c); lia.
Qed.

Lemma azx_get_response_total c addr ok ts :
  exists r, azx_get_response c addr ok ts = Some r.
Proof.
  unfold azx_get_response. destruct (single_cmd c); [eauto|].
  apply azx_rirb_get_response_total.
Qed.

Lemma run_op_total c o : exists r, run_op c o = Some r.
Proof.
  destruct o as [val irs ir|addr ok ts|e]; simpl.
  - destruct (azx_send_cmd irs ir c val). eauto.
  - destruct (azx_get_response_total c addr ok ts) as [[[[c1 t1] e1] v1] ->].
    eauto.
  - eauto.
Qed.

Lemma run_total ops c : exists r, run ops c = Some r.
Proof.
  revert c. induction ops as [|o ops IH]; intros c; simpl; [eauto|].
  destruct (run_op_total c o) as [[c1 l1] ->].
  destruct (IH c1) as [[c2 l2] ->]. eauto.
Qed.

(** ** Receive during the codec probing phase *)

Lemma probing_failure fuel dp addr ok ts c c' ts' evs v :
  probing c = true ->
  (msi c = true -> ok = true) ->
  rirb_get_response_from fuel dp addr ok ts c = Some (c', ts', evs, v) ->
  rd (cmds (rirb c')) addr ≠ 0 ->
  v = U32_MINUS_1 /\
  rirb_error (bus c') = rirb_error (bus c) /\
  response_reset (bus c') = response_reset (bus c) /\
  single_cmd c' = single_cmd c /\
  polling_mode c' = true /\ msi c' = false /\ probing c' = true.
Proof.
  revert dp ts c c' ts' evs v.
  induction fuel as [|n IH]; intros dp ts c c' ts' evs v Hp Hok; [done|].
  simpl.
  destruct (wait_response dp addr ts c) as [[[c1 ts1] evs1] [v1|]] eqn:E.
  { intros H Hc; simplify_eq.
    by destruct (wait_response_exit _ _ _ _ _ _ _ _ E). }
  pose proof (wait_response_flags _ _ _ _ _ _ _ E) as Hf.
  destruct (flags_bus _ _ Hf) as (Hb1 & Hb2 & _).
  pose proof (flags_single_cmd _ _ Hf) as Hs.
  pose proof (flags_probing _ _ Hf) as Hpr.
  pose proof (flags_msi _ _ Hf) as Hm.
  rewrite <- Hb1, <- Hb2, <- Hs. rewrite <- Hm in Hok. rewrite <- Hpr in Hp.
  clear E Hf Hb1 Hb2 Hs Hpr Hm.
  destruct (polling_mode c1) eqn:Epm; simpl.
  - destruct (msi c1) eqn:Em.
    + assert (Hk : ok = true) by (by apply Hok). subst ok. simpl.
      destruct (rirb_get_response_from n dp addr true ts1 _)
        as [[[[c2 ts2] e2] v2]|] eqn:E2; [|done].
      intros H Hc; simplify_eq.
      apply IH in E2; simpl in *; done.
    + rewrite Hp. intros H Hc; simplify_eq. done.
  - destruct (poll_count c1 <? 2); simpl.
    + destruct (rirb_get_response_from n true addr ok ts1 _)
        as [[[[c2 ts2] e2] v2]|] eqn:E2; [|done].
      intros H Hc; simplify_eq.
      apply IH in E2; simpl in *; done.
    + destruct (rirb_get_response_from n dp addr ok ts1 _)
        as [[[[c2 ts2] e2] v2]|] eqn:E2; [|done].
      intros H Hc; simplify_eq.
      apply IH in E2; simpl in *; done.
Qed.

(** C5. A receive made while the codec-probing flag is set always returns;
    when the pending counter of the probed address is still nonzero at that
    point (all fallback stages have been tried, and the interrupt could be
    re-acquired if MSI had to be disabled), the value returned is the error
    value, and the ring-error flag, the bus-reset request and the
    single-command flag are as they were before the call. *)
Theorem probing_timeout_returns_error (c : azx) (addr : Z) (ok : bool)
    (ts : list tick) :
  probing c = true ->
  (msi c = true -> ok = true) ->
  exists c' ts' evs v,
    azx_rirb_get_response c addr ok ts = Some (c', ts', evs, v) /\
    (rd (cmds (rirb c')) addr ≠ 0 ->
     v = U32_MINUS_1 /\
     rirb_error (bus c') = rirb_error (bus c) /\
     response_reset (bus c') = response_reset (bus c) /\
     single_cmd c' = single_cmd c /\
     polling_mode c' = true /\ msi c' = false).
Proof.
  intros Hp Hok.
  destruct (azx_rirb_get_response_total c addr ok ts) as [[[[c' ts'] evs] v] E].
  exists c', ts', evs, v. split; [done|]. intros Hc.
  unfold azx_rirb_get_response in E.
  destruct (probing_failure _ _ _ _ _ _ _ _ _ _ Hp Hok E Hc)
    as (H1 & H2 & H3 & H4 & H5 & H6 & _).
  done.
Qed.

Lemma probing_timeout_witness :
  exists c' ts' evs v,
    azx_rirb_get_response chip_probing 2 true [] = Some (c', ts', evs, v) /\
    (rd (cmds (rirb c')) 2 ≠ 0 ->
     v = U32_MINUS_1 /\
     rirb_error (bus c') = rirb_error (bus chip_probing) /\
     response_reset (bus c') = response_reset (bus chip_probing) /\
     single_cmd c' = single_cmd chip_probing /\
     polling_mode c' = true /\ msi c' = false).
Proof.
  apply (probing_timeout_returns_error chip_probing 2 true []).
  - reflexivity.
  - intros _. reflexivity.
Defined.

(** ** Spurious responses *)

Lemma spurious_ext c c' e :
  cmds (rirb c') = cmds (rirb c) -> spurious c e -> spurious c' e.
Proof. unfold spurious. by intros ->. Qed.

Lemma drain_spurious c :
  0 <= rp (rirb c) < 256 ->
  Forall (spurious c) (rirb_backlog c) ->
  cmds (rirb (azx_update_rirb c)) = cmds (rirb c) /\
  res (rirb (azx_update_rirb c)) = res (rirb c).
Proof.
  intros Hrp Hall. unfold azx_update_rirb.
  destruct (_ =? _); [done|].
  set (w := azx_readb (RIRBWP (regs c))).
  set (c1 := upd_rirb (set_wp w) c).
  pose (Q := fun (l : list (Z * Z)) (x : azx) =>
    Forall (spurious x) l /\
    cmds (rirb x) = cmds (rirb c) /\ res (rirb x) = res (rirb c)).
  destruct (rirb_drain_inv Q) with (fuel := 257%nat) (c := c1)
    as ((_ & H1 & H2) & _).
  - clear. intros x [r rx] l _ _ (Hall & Hc & Hr).
    apply Forall_cons in Hall as [He Hl]. simpl.
    rewrite dispatch_spurious by (by eapply spurious_ext; [|exact He]).
    split_and!; [|done..].
    eapply Forall_impl; [exact Hl|]. intros e. by apply spurious_ext.
  - done.
  - pose proof (backlog_short c1). lia.
  - unfold Q. split_and!; [|done..].
    replace (rirb_backlog c1) with (rirb_backlog c) by (symmetry; by apply backlog_ext).
    eapply Forall_impl; [exact Hall|]. intros e. by apply spurious_ext.
  - done.
Qed.

(** C2. A response of the ring that is not an unsolicited event and whose
    codec address has no pending command leaves every pending counter and
    every stored response as it is, one response at a time and for a whole
    drain of such responses; a response changes a counter or a stored value
    only when the counter of its address is positive. *)
Theorem spurious_response_changes_nothing (c : azx) (r r_ex : Z) :
  (spurious c (r, r_ex) ->
   cmds (rirb (rirb_dispatch r r_ex c)) = cmds (rirb c) /\
   res (rirb (rirb_dispatch r r_ex c)) = res (rirb c))
  /\
  (0 <= rd (cmds (rirb c)) (azx_response_addr r_ex) ->
   cmds (rirb (rirb_dispatch r r_ex c)) ≠ cmds (rirb c) \/
   res (rirb (rirb_dispatch r r_ex c)) ≠ res (rirb c) ->
   Z.land r_ex ICH6_RIRB_EX_UNSOL_EV = 0 /\
   0 < rd (cmds (rirb c)) (azx_response_addr r_ex))
  /\
  (0 <= rp (rirb c) < 256 ->
   Forall (spurious c) (rirb_backlog c) ->
   cmds (rirb (azx_update_rirb c)) = cmds (rirb c) /\
   res (rirb (azx_update_rirb c)) = res (rirb c)).
Proof.
  split_and!.
  - intros H. by rewrite (dispatch_spurious _ _ _ H).
  - intros Hge Hch. destruct (dispatch_changes _ _ _ Hch) as [Hu Hne].
    split; [done|lia].
  - apply drain_spurious.
Qed.

(** The counters are never negative: they start at zero, a send adds one
    and a response takes one off a counter that is not zero. *)
Lemma pending_nonneg_init c : pending_nonneg (azx_init_cmd_io c).
Proof. intros a. simpl. rewrite rd_empty. lia. Qed.

Lemma pending_nonneg_dispatch r x c :
  pending_nonneg c -> pending_nonneg (rirb_dispatch r x c).
Proof.
  intros H a. unfold rirb_dispatch.
  destruct (negb _); [apply H|].
  destruct (rd (cmds (rirb c)) (azx_response_addr x) =? 0) eqn:E; simpl;
    [apply H|].
  apply Z.eqb_neq in E.
  destruct (decide (azx_response_addr x = a)) as [<-|Hne].
  - rewrite rd_wr_eq. simpl. pose proof (H (azx_response_addr x)).
    unfold as_int. zlia.
  - rewrite rd_wr_ne by done. apply H.
Qed.

Lemma pending_nonneg_send c val :
  rd (cmds (rirb c)) (azx_command_addr val) < 2147483647 ->
  pending_nonneg c -> pending_nonneg (fst (azx_corb_send_cmd c val)).
Proof.
  intros Hlt H a. simpl.
  destruct (decide (azx_command_addr val = a)) as [<-|Hne].
  - rewrite rd_wr_eq. pose proof (H (azx_command_addr val)).
    unfold as_int. zlia.
  - rewrite rd_wr_ne by done. apply H.
Qed.

Lemma spurious_response_witness :
  (cmds (rirb (rirb_dispatch 4660 3 chip_spurious)) = cmds (rirb chip_spurious) /\
   res (rirb (rirb_dispatch 4660 3 chip_spurious)) = res (rirb chip_spurious)) /\
  (cmds (rirb (azx_update_rirb chip_spurious)) = cmds (rirb chip_spurious) /\
   res (rirb (azx_update_rirb chip_spurious)) = res (rirb chip_spurious)) /\
  (Z.land 2 ICH6_RIRB_EX_UNSOL_EV = 0 /\
   0 < rd (cmds (rirb chip_probing)) (azx_response_addr 2)).
Proof.
  destruct (spurious_response_changes_nothing chip_spurious 4660 3)
    as (H1 & _ & H3).
  destruct (spurious_response_changes_nothing chip_probing 77 2)
    as (_ & H2 & _).
  split_and!.
  - apply H1. split; reflexivity.
  - apply H1. split; reflexivity.
  - apply H3; [simpl; lia|]. vm_compute. repeat constructor.
  - apply H3; [simpl; lia|]. vm_compute. repeat constructor.
  - apply H2; [vm_compute; discriminate|]. left. vm_compute. discriminate.
  - apply H2; [vm_compute; discriminate|]. left. vm_compute. discriminate.
Defined.

(** ** Ring indices *)

Lemma rirb_drain_frame fuel w c :
  regs (rirb_drain fuel w c) = regs c /\
  corb (rirb_drain fuel w c) = corb c /\
  buf (rirb (rirb_drain fuel w c)) = buf (rirb c) /\
  (0 <= rp (rirb c) < 256 -> 0 <= rp (rirb (rirb_drain fuel w c)) < 256).
Proof.
  revert c. induction fuel as [|n IH]; intros c; simpl; [done|].
  destruct (rp (rirb c) =? w); [done|].
  destruct (IH (rirb_entry c)) as (H1 & H2 & H3 & H4).
  unfold rirb_entry in H1, H2, H3.
  match type of H1 with context [rirb_dispatch ?r ?x ?c'] =>
    destruct (dispatch_frame r x c') as (F1 & F2 & _ & _ & F3) end.
  rewrite F1 in H1. rewrite F2 in H3. rewrite F3 in H2.
  split_and!; try done. intros _. apply H4, rirb_entry_rp_range.
Qed.

Lemma update_rirb_frame c :
  regs (azx_update_rirb c) = regs c /\
  corb (azx_update_rirb c) = corb c /\
  buf (rirb (azx_update_rirb c)) = buf (rirb c) /\
  (0 <= rp (rirb c) < 256 -> 0 <= rp (rirb (azx_update_rirb c)) < 256).
Proof.
  unfold azx_update_rirb. destruct (_ =? _); [done|].
  apply (rirb_drain_frame 257 _ (upd_rirb (set_wp _) c)).
Qed.

Lemma indices_ok_core c c' :
  ring_core c' = ring_core c -> indices_ok c -> indices_ok c'.
Proof.
  unfold ring_core, indices_ok. intros H [H1 H2].
  assert (E1 : CORBWP (regs c') = CORBWP (regs c)) by congruence.
  assert (E2 : rirb c' = rirb c) by congruence.
  by rewrite E1, E2.
Qed.

Lemma indices_ok_hw c e : indices_ok c -> indices_ok (hw_step c e).
Proof.
  intros [H1 H2]. destruct e as [r x|]; simpl; [done|].
  destruct (update_rirb_frame c) as (F1 & _ & _ & F4).
  split; [by rewrite F1|by apply F4].
Qed.

(** Whatever holds of the rings and survives a hardware event survives a
    receive. *)
Lemma wait_turn_preserves (P : azx -> Prop) dp addr t c c' o :
  (forall c e, P c -> P (hw_step c e)) ->
  (forall c c', ring_core c' = ring_core c -> P c -> P c') ->
  P c -> wait_turn dp addr t c = (c', o) -> P c'.
Proof.
  intros Hhw Hcore HP. unfold wait_turn.
  set (c1 := fold_left hw_step (concurrent t) c).
  assert (H1 : P c1).
  { unfold c1. clear -Hhw HP. revert c HP.
    induction (concurrent t) as [|e l IH]; intros c HP; simpl; [done|].
    by apply IH, Hhw. }
  set (c2 := if polling_mode c1 || dp then azx_update_rirb c1 else c1).
  assert (H2 : P c2).
  { unfold c2. destruct (_ || _); [apply (Hhw c1 HwIrq H1)|done]. }
  destruct (rd (cmds (rirb c2)) addr =? 0); unfold rirb_deliver; intros H;
    simplify_eq; [|done].
  eapply Hcore; [|exact H2]. by destruct dp.
Qed.

Lemma wait_response_preserves (P : azx -> Prop) dp addr ts c c' ts' evs o :
  (forall c e, P c -> P (hw_step c e)) ->
  (forall c c', ring_core c' = ring_core c -> P c -> P c') ->
  P c -> wait_response dp addr ts c = (c', ts', evs, o) -> P c'.
Proof.
  intros Hhw Hcore. revert c c' ts' evs o.
  induction ts as [|t ts IH]; intros c c' ts' evs o HP; simpl.
  - destruct (wait_turn dp addr last_tick c) as [c1 [b|v]] eqn:E;
      intros H; simplify_eq; by eapply wait_turn_preserves.
  - destruct (wait_turn dp addr t c) as [c1 [[|]|v]] eqn:E.
    + intros H; simplify_eq. by eapply wait_turn_preserves.
    + destruct (wait_response dp addr ts c1) as [[[c2 r2] e2] o2] eqn:E2.
      intros H; simplify_eq. eapply IH; [|exact E2].
      by eapply wait_turn_preserves.
    + intros H; simplify_eq. by eapply wait_turn_preserves.
Qed.

Lemma get_response_preserves (P : azx -> Prop) fuel dp addr ok ts c c' ts' evs v :
  (forall c e, P c -> P (hw_step c e)) ->
  (forall c c', ring_core c' = ring_core c -> P c -> P c') ->
  P c ->
  rirb_get_response_from fuel dp addr ok ts c = Some (c', ts', evs, v) ->
  P c'.
Proof.
  intros Hhw Hcore. revert dp ts c c' ts' evs v.
  induction fuel as [|n IH]; intros dp ts c c' ts' evs v HP; [done|].
  simpl.
  destruct (wait_response dp addr ts c) as [[[c1 ts1] evs1] [v1|]] eqn:E.
  { intros H; simplify_eq. by eapply wait_response_preserves. }
  assert (H1 : P c1) by (by eapply wait_response_preserves).
  clear E.
  destruct (negb (polling_mode c1) && (poll_count c1 <? 2)).
  { destruct (rirb_get_response_from n true addr ok ts1 _)
      as [[[[c2 ts2] e2] v2]|] eqn:E2; [|done].
    intros H; simplify_eq. eapply IH; [|exact E2]. by apply (Hcore c1). }
  destruct (negb (polling_mode c1)).
  { destruct (rirb_get_response_from n dp addr ok ts1 _)
      as [[[[c2 ts2] e2] v2]|] eqn:E2; [|done].
    intros H; simplify_eq. eapply IH; [|exact E2]. by apply (Hcore c1). }
  destruct (msi c1).
  { unfold azx_acquire_irq. destruct ok; simpl.
    - destruct (rirb_get_response_from n dp addr true ts1 _)
        as [[[[c2 ts2] e2] v2]|] eqn:E2; [|done].
      intros H; simplify_eq. eapply IH; [|exact E2]. by apply (Hcore c1).
    - intros H; simplify_eq. by apply (Hcore c1). }
  destruct (probing c1); [intros H; by simplify_eq|].
  destruct (_ && _ && _); intros H; simplify_eq; by apply (Hcore c1).
Qed.

(** ** The immediate-command path keeps off the ring *)

Lemma single_wait_frame n irs ir addr c c' irs' e :
  single_wait_loop n irs ir addr c = (c', irs', e) ->
  ring_state c' = ring_state c /\ single_cmd c' = single_cmd c.
Proof.
  revert irs c' irs' e. induction n as [|n IH]; intros irs c' irs' e; simpl.
  - intros H; by simplify_eq.
  - destruct (negb _).
    + intros H; by simplify_eq.
    + apply IH.
Qed.

Lemma single_send_frame n irs ir addr val c c' irs' e :
  single_send_loop n irs ir addr val c = (c', irs', e) ->
  ring_state c' = ring_state c /\ single_cmd c' = single_cmd c.
Proof.
  revert irs c' irs' e. induction n as [|n IH]; intros irs c' irs' e; simpl.
  - intros H; by simplify_eq.
  - destruct (_ =? _).
    + unfold azx_single_wait_for_response. intros H.
      by apply single_wait_frame in H.
    + apply IH.
Qed.

Lemma azx_single_send_cmd_frame irs ir c val :
  ring_state (fst (azx_single_send_cmd irs ir c val)) = ring_state c /\
  single_cmd (fst (azx_single_send_cmd irs ir c val)) = single_cmd c.
Proof.
  unfold azx_single_send_cmd.
  destruct (single_send_loop _ _ _ _ _ _) as [[c1 irs1] e1] eqn:E.
  by apply single_send_frame in E.
Qed.

Lemma indices_ok_ring_state c c' :
  ring_state c' = ring_state c -> indices_ok c -> indices_ok c'.
Proof.
  unfold ring_state, indices_ok. intros H [H1 H2].
  assert (E1 : CORBWP (regs c') = CORBWP (regs c)) by congruence.
  assert (E2 : rp (rirb c') = rp (rirb c)) by congruence.
  by rewrite E1, E2.
Qed.

Lemma indices_ok_send irs ir c val :
  indices_ok c -> indices_ok (fst (azx_send_cmd irs ir c val)).
Proof.
  intros H. unfold azx_send_cmd. simpl.
  destruct (single_cmd c).
  - eapply indices_ok_ring_state; [|exact H].
    by destruct (azx_single_send_cmd_frame irs ir
      (set_last_cmd (wr (last_cmd c) (azx_command_addr val) val) c) val) as [-> _].
  - destruct H as [H1 H2]. split; [|done]. simpl.
    unfold ICH6_MAX_CORB_ENTRIES. zlia.
Qed.

Lemma indices_ok_run_op c o c' l :
  indices_ok c -> run_op c o = Some (c', l) -> indices_ok c'.
Proof.
  intros H. destruct o as [val irs ir|addr ok ts|e]; simpl.
  - pose proof (indices_ok_send irs ir c val H) as H'.
    destruct (azx_send_cmd irs ir c val). intros ?; by simplify_eq.
  - unfold azx_get_response. destruct (single_cmd c).
    + intros ?; by simplify_eq.
    + destruct (azx_rirb_get_response c addr ok ts)
        as [[[[c1 t1] e1] v1]|] eqn:E; [|done].
      intros ?; simplify_eq.
      eapply (get_response_preserves indices_ok); [| |exact H|exact E].
      * apply indices_ok_hw.
      * apply indices_ok_core.
  - intros ?; simplify_eq. by apply indices_ok_hw.
Qed.

Lemma indices_ok_run ops c c' l :
  indices_ok c -> run ops c = Some (c', l) -> indices_ok c'.
Proof.
  revert c c' l. induction ops as [|o ops IH]; intros c c' l H; simpl.
  - intros ?; by simplify_eq.
  - destruct (run_op c o) as [[c1 l1]|] eqn:E1; [|done].
    destruct (run ops c1) as [[c2 l2]|] eqn:E2; [|done].
    intros ?; simplify_eq. eapply IH; [|exact E2].
    by eapply indices_ok_run_op.
Qed.

Lemma send_all_wp vals c :
  0 <= CORBWP (regs c) < 256 ->
  CORBWP (regs (send_all vals c))
  = (CORBWP (regs c) + Z.of_nat (length vals)) mod 256.
Proof.
  revert c. induction vals as [|v vals IH]; intros c H; simpl.
  - zlia.
  - unfold send_all in IH. rewrite IH; simpl.
    + rewrite (azx_readb_small _ H). unfold ICH6_MAX_CORB_ENTRIES.
      rewrite Zplus_mod_idemp_l. f_equal. lia.
    + unfold ICH6_MAX_CORB_ENTRIES. zlia.
Qed.

(** C3. In every state reached from the ring set-up by sends, receives and
    hardware events, the CORB write index and the RIRB read index are at
    least 0 and below 256; and after 256+k sends from write index 0 the
    write index is k mod 256. *)
Theorem ring_indices_wrap (c : azx) (ops : list op) (vals : list Z) (k : nat) :
  (exists c' log,
     run ops (azx_init_cmd_io c) = Some (c', log) /\ indices_ok c')
  /\
  (azx_readb (CORBWP (regs c)) = 0 ->
   length vals = (256 + k)%nat ->
   CORBWP (regs (send_all vals c)) = Z.of_nat k mod ICH6_MAX_CORB_ENTRIES).
Proof.
  split.
  - destruct (run_total ops (azx_init_cmd_io c)) as [[c' log] E].
    exists c', log. split; [done|].
    eapply indices_ok_run; [|exact E]. split; simpl; done.
  - intros H0 Hlen. destruct vals as [|v vals]; [simpl in Hlen; lia|].
    change (send_all (v :: vals) c)
      with (send_all vals (fst (azx_corb_send_cmd c v))).
    rewrite send_all_wp; simpl; rewrite H0.
    + simpl in Hlen. unfold ICH6_MAX_CORB_ENTRIES.
      replace (Z.of_nat (length vals)) with (255 + Z.of_nat k) by lia.
      change ((0 + 1) mod 256) with 1. zlia.
    + unfold ICH6_MAX_CORB_ENTRIES. zlia.
Qed.

Lemma ring_indices_wrap_witness :
  CORBWP (regs (send_all (replicate 259 0) chip_ring)) = 3.
Proof.
  apply (proj2 (ring_indices_wrap chip_ring [] (replicate 259 0) 3)).
  - reflexivity.
  - reflexivity.
Defined.

(** ** Single-command mode is permanent *)

Lemma single_cmd_run_op c o c' l :
  single_cmd c = true -> run_op c o = Some (c', l) -> single_cmd c' = true.
Proof.
  intros H. destruct o as [val irs ir|addr ok ts|e]; simpl.
  - unfold azx_send_cmd. simpl. rewrite H.
    destruct (azx_single_send_cmd_frame irs ir
      (set_last_cmd (wr (last_cmd c) (azx_command_addr val) val) c) val)
      as [_ Hs].
    destruct (azx_single_send_cmd _ _ _ _). intros ?; simplify_eq.
    simpl in Hs. by rewrite Hs.
  - unfold azx_get_response. rewrite H. intros ?; by simplify_eq.
  - intros ?; simplify_eq.
    by rewrite (flags_single_cmd _ _ (hw_step_flags c e)).
Qed.

Lemma single_cmd_run ops c c' l :
  single_cmd c = true -> run ops c = Some (c', l) -> single_cmd c' = true.
Proof.
  revert c c' l. induction ops as [|o ops IH]; intros c c' l H; simpl.
  - intros ?; by simplify_eq.
  - destruct (run_op c o) as [[c1 l1]|] eqn:E1; [|done].
    destruct (run ops c1) as [[c2 l2]|] eqn:E2; [|done].
    intros ?; simplify_eq. eapply IH; [|exact E2].
    by eapply single_cmd_run_op.
Qed.

(** C4. Once the single-command flag is set, it is still set after any
    sequence of sends, receives and hardware events; every send after that
    is the immediate-command send and leaves the rings, their pointers and
    the pending counters alone, and every receive is the immediate-command
    receive and changes nothing at all. *)
Theorem single_cmd_is_permanent (c : azx) (ops : list op) :
  single_cmd c = true ->
  exists c' log,
    run ops c = Some (c', log) /\
    single_cmd c' = true /\
    (forall val irs ir,
       azx_send_cmd irs ir c' val
       = azx_single_send_cmd irs ir
           (set_last_cmd (wr (last_cmd c') (azx_command_addr val) val) c') val /\
       ring_state (fst (azx_send_cmd irs ir c' val)) = ring_state c' /\
       single_cmd (fst (azx_send_cmd irs ir c' val)) = true) /\
    (forall addr ok ts,
       azx_get_response c' addr ok ts
       = Some (c', ts, [], azx_single_get_response c' addr)).
Proof.
  intros H. destruct (run_total ops c) as [[c' log] E].
  exists c', log. pose proof (single_cmd_run _ _ _ _ H E) as H'.
  split_and!; try done.
  - intros val irs ir. unfold azx_send_cmd. simpl. rewrite H'.
    destruct (azx_single_send_cmd_frame irs ir
      (set_last_cmd (wr (last_cmd c') (azx_command_addr val) val) c') val)
      as [Hr Hs].
    split_and!; [done|by rewrite Hr|by rewrite Hs].
  - intros addr ok ts. unfold azx_get_response. by rewrite H'.
Qed.

Lemma single_cmd_is_permanent_witness :
  exists c' log,
    run [OpSend 537853952 [0; 0; 0; 2] 99; OpRecv 2 true []] chip_single
    = Some (c', log) /\
    single_cmd c' = true /\
    (forall val irs ir,
       azx_send_cmd irs ir c' val
       = azx_single_send_cmd irs ir
           (set_last_cmd (wr (last_cmd c') (azx_command_addr val) val) c') val /\
       ring_state (fst (azx_send_cmd irs ir c' val)) = ring_state c' /\
       single_cmd (fst (azx_send_cmd irs ir c' val)) = true) /\
    (forall addr ok ts,
       azx_get_response c' addr ok ts
       = Some (c', ts, [], azx_single_get_response c' addr)).
Proof.
  apply (single_cmd_is_permanent chip_single).
  reflexivity.
Defined.

(** ** The round trip over the ring *)

Lemma elem_of_unread a l :
  a ∈ unread_addrs l <-> exists r x, (r, x) ∈ l /\ azx_response_addr x = a.
Proof.
  unfold unread_addrs. rewrite list_elem_of_fmap. split.
  - intros ([r x] & -> & H). eauto.
  - intros (r & x & H & <-). by exists (r, x).
Qed.

(** Reading a response that answers a pending command. *)
Lemma ring_rel_dispatch g r x l c :
  ring_rel g ((r, x) :: l) (cmds (rirb c)) (res (rirb c)) ->
  ring_rel g l (cmds (rirb (rirb_dispatch r x c)))
    (res (rirb (rirb_dispatch r x c))).
Proof.
  intros (Hnd & Hl & Hidle & Haw & Hans).
  set (a := azx_response_addr x).
  destruct (Hl r x) as [Hu Ha]; [left|]. fold a in Ha.
  simpl in Hnd. apply NoDup_cons in Hnd as [Hnotin Hnd]. fold a in Hnotin.
  assert (Hc : rd (cmds (rirb c)) a = 1).
  { destruct (Hans a r Ha) as [[_ H]|[H _]]; [done|].
    exfalso. apply H. simpl. left. }
  unfold rirb_dispatch. fold a. rewrite Hu, Hc. simpl. rewrite Hc.
  change (as_int (1 - 1)) with 0.
  split_and!.
  - done.
  - intros r' x' Hin. apply Hl. by right.
  - intros b Hb. rewrite rd_wr_ne by congruence. by apply Hidle.
  - intros b Hb. rewrite rd_wr_ne by congruence.
    destruct (Haw b Hb) as [H1 H2]. split; [done|].
    intros H. apply H2. simpl. by right.
  - intros b r' Hb. destruct (decide (a = b)) as [<-|Hne].
    + right. rewrite !rd_wr_eq. split_and!; [done..|congruence].
    + rewrite !rd_wr_ne by done.
      destruct (Hans b r' Hb) as [[H1 H2]|[H1 H2]].
      * left. split; [|done]. simpl in H1.
        apply elem_of_cons in H1 as [H1|H1]; [by subst|done].
      * right. split; [|done]. intros H. apply H1. simpl. by right.
Qed.

(** At most eight responses are unread when their addresses differ. *)
Lemma unread_bound l : NoDup (unread_addrs l) -> (length l <= 8)%nat.
Proof.
  intros Hnd.
  assert (Hsub : unread_addrs l ⊆ Z.of_nat <$> seq 0 8).
  { intros a Ha. apply elem_of_unread in Ha as (r & x & _ & <-).
    pose proof (azx_response_addr_range x) as Hr.
    apply list_elem_of_fmap. exists (Z.to_nat (azx_response_addr x)).
    split; [lia|]. apply elem_of_seq. lia. }
  apply NoDup_submseteq in Hsub; [|done].
  apply submseteq_length in Hsub.
  unfold unread_addrs in Hsub. by rewrite !length_fmap, length_seq in Hsub.
Qed.

Lemma shiftl_1 i : Z.shiftl i 1 = 2 * i.
Proof. rewrite Z.shiftl_mul_pow2 by lia. lia. Qed.

(** A response delivered by the hardware goes to the end of the backlog, as
    long as the ring is not full. *)
Lemma backlog_push c r x :
  0 <= rp (rirb c) < 256 ->
  (length (rirb_backlog c) < 255)%nat ->
  rirb_backlog (hw_step c (HwResponse r x)) = rirb_backlog c ++ [(r, x)].
Proof.
  intros Hrp Hlen. rewrite backlog_length in Hlen.
  pose proof (azx_readb_range (RIRBWP (regs c))) as Hw.
  unfold rirb_backlog. simpl.
  set (w := azx_readb (RIRBWP (regs c))) in *.
  unfold ICH6_MAX_RIRB_ENTRIES in *.
  set (w' := (w + 1) mod 256).
  assert (Hw' : 0 <= w' < 256) by (unfold w'; zlia).
  rewrite (azx_readb_small w' Hw').
  set (n := Z.to_nat ((w - rp (rirb c)) mod 256)) in *.
  assert (E : Z.to_nat ((w' - rp (rirb c)) mod 256) = (n + 1)%nat)
    by (unfold w', n; zlia).
  rewrite E, seq_app, map_app.
  change (seq (1 + n) 1) with [(1 + n)%nat]. cbn [map]. f_equal.
  - apply map_ext_in. intros k Hk. apply in_seq in Hk.
    unfold rirb_slot. cbn [buf rirb upd_rirb upd_regs set_buf].
    rewrite !shiftl_1.
    assert (Hne : (rp (rirb c) + Z.of_nat k) mod 256 ≠ w')
      by (unfold w', n in *; zlia).
    rewrite !rd_wr_ne by lia. reflexivity.
  - f_equal. unfold rirb_slot. cbn [buf rirb rp upd_rirb upd_regs set_buf].
    rewrite !shiftl_1.
    assert (Heq : (rp (rirb c) + Z.of_nat (1 + n)) mod 256 = w')
      by (unfold w', n in *; zlia).
    rewrite Heq, rd_wr_eq, rd_wr_ne, rd_wr_eq by lia. reflexivity.
Qed.

Lemma ring_inv_ext g c c' :
  single_cmd c' = single_cmd c ->
  RIRBWP (regs c') = RIRBWP (regs c) ->
  rirb c' = rirb c ->
  ring_inv g c -> ring_inv g c'.
Proof.
  intros H1 H2 H3 (I1 & I2 & I3 & I4). unfold ring_inv.
  rewrite (backlog_ext c c') by (by rewrite ?H3).
  by rewrite H1, H3.
Qed.

(** Draining the ring keeps the books and leaves nothing unread. *)
Lemma ring_inv_update g c :
  ring_inv g c ->
  ring_inv g (azx_update_rirb c) /\ rirb_backlog (azx_update_rirb c) = [].
Proof.
  intros (I1 & I2 & I3 & I4).
  pose (Q := fun (l : list (Z * Z)) (x : azx) =>
    ring_rel g l (cmds (rirb x)) (res (rirb x))).
  destruct (update_rirb_inv Q c) as (H1 & H2 & H3 & H4 & H5); try done.
  - clear. intros c [r x] l _ _ H. unfold Q in *. simpl.
    by apply (ring_rel_dispatch g r x l
                (upd_rirb (set_rp ((rp (rirb c) + 1) mod 256)) c)).
  - split; [|done]. unfold ring_inv. rewrite H2.
    pose proof (azx_readb_range (RIRBWP (regs c))) as Hr. rewrite <- H3 in Hr.
    split_and!; try done; try (unfold ICH6_MAX_RIRB_ENTRIES; lia).
    by rewrite (flags_single_cmd _ _ (update_rirb_flags c)).
Qed.

Lemma ring_inv_hw g c e :
  ring_inv g c -> admissible g (ObsHw e) ->
  ring_inv (track g (ObsHw e)) (hw_step c e).
Proof.
  intros Hinv Hadm. destruct e as [r x|]; [|by apply ring_inv_update].
  destruct Hinv as (I1 & I2 & I3 & Hnd & Hl & Hidle & Haw & Hans).
  destruct Hadm as [Hu Ha]. unfold track.
  set (a := azx_response_addr x) in *.
  destruct (Haw a Ha) as [Hc Hnotin].
  pose proof (unread_bound _ Hnd) as Hlen.
  unfold ring_inv. rewrite backlog_push; [|exact I2|lia].
  split; [done|]. split; [done|]. split; [done|].
  unfold ring_rel. simpl cmds. simpl res. split_and!.
  - unfold unread_addrs. rewrite map_app. simpl.
    apply NoDup_app. split_and!; [done| |apply NoDup_singleton].
    intros b Hb Hb'. apply list_elem_of_singleton in Hb'. by subst.
  - intros r' x' Hin. apply elem_of_app in Hin as [Hin|Hin].
    + destruct (Hl r' x' Hin) as [H1 H2]. split; [done|].
      rewrite exch_insert_ne; [done|].
      intros E. apply Hnotin. apply elem_of_unread. eauto.
    + apply list_elem_of_singleton in Hin. simplify_eq.
      split; [done|]. by rewrite exch_insert_eq.
  - intros b Hb. destruct (decide (a = b)) as [<-|Hne].
    + by rewrite exch_insert_eq in Hb.
    + rewrite exch_insert_ne in Hb by done. by apply Hidle.
  - intros b Hb. destruct (decide (a = b)) as [<-|Hne].
    + by rewrite exch_insert_eq in Hb.
    + rewrite exch_insert_ne in Hb by done.
      destruct (Haw b Hb) as [H1 H2]. split; [done|].
      unfold unread_addrs. rewrite map_app. simpl.
      intros H. apply elem_of_app in H as [H|H]; [done|].
      apply list_elem_of_singleton in H. by subst.
  - intros b r' Hb. unfold unread_addrs. rewrite map_app. simpl.
    destruct (decide (a = b)) as [<-|Hne].
    + rewrite exch_insert_eq in Hb. left. split; [|done].
      apply elem_of_app. right. by apply list_elem_of_singleton.
    + rewrite exch_insert_ne in Hb by done.
      destruct (Hans b r' Hb) as [[H1 H2]|[H1 H2]].
      * left. split; [|done]. apply elem_of_app. by left.
      * right. split; [|done]. intros H.
        apply elem_of_app in H as [H|H]; [done|].
        apply list_elem_of_singleton in H. by subst.
Qed.

Lemma fault_free_app g l1 l2 :
  fault_free g (l1 ++ l2) <-> fault_free g l1 /\ fault_free (tracks g l1) l2.
Proof.
  revert g. induction l1 as [|o l1 IH]; intros g; simpl.
  - tauto.
  - rewrite IH. unfold tracks. simpl. tauto.
Qed.

Lemma round_trip_app g l1 l2 :
  round_trip g (l1 ++ l2) <-> round_trip g l1 /\ round_trip (tracks g l1) l2.
Proof.
  revert g. induction l1 as [|o l1 IH]; intros g; simpl.
  - tauto.
  - rewrite IH. unfold tracks. simpl. tauto.
Qed.

Lemma tracks_app g l1 l2 : tracks g (l1 ++ l2) = tracks (tracks g l1) l2.
Proof. unfold tracks. by rewrite fold_left_app. Qed.

Lemma round_trip_hw g evs : round_trip g (map ObsHw evs).
Proof. revert g. induction evs as [|e evs IH]; intros g; simpl; [done|]. auto. Qed.

Lemma ring_inv_hws g evs c :
  ring_inv g c -> fault_free g (map ObsHw evs) ->
  ring_inv (tracks g (map ObsHw evs)) (fold_left hw_step evs c).
Proof.
  revert g c. induction evs as [|e evs IH]; intros g c Hinv Hff; simpl in *.
  - done.
  - destruct Hff as [Hadm Hff]. apply IH; [|done]. by apply ring_inv_hw.
Qed.

Lemma ring_inv_send g irs ir c val :
  ring_inv g c -> admissible g (ObsSend val) ->
  ring_inv (track g (ObsSend val)) (fst (azx_send_cmd irs ir c val)).
Proof.
  intros (I1 & I2 & I3 & Hnd & Hl & Hidle & Haw & Hans) Ha.
  simpl in Ha.
  unfold azx_send_cmd. simpl. rewrite I1. unfold ring_inv.
  rewrite (backlog_ext c) by done. simpl.
  split; [done|]. split; [done|]. split; [done|].
  unfold track. set (a := azx_command_addr val) in *.
  rewrite (Hidle a Ha). change (as_int (0 + 1)) with 1.
  assert (Hnotin : a ∉ unread_addrs (rirb_backlog c)).
  { intros H. apply elem_of_unread in H as (r & x & Hin & E).
    destruct (Hl r x Hin) as [_ H]. congruence. }
  unfold ring_rel. split_and!.
  - done.
  - intros r x Hin. destruct (Hl r x Hin) as [H1 H2]. split; [done|].
    rewrite exch_insert_ne; [done|]. congruence.
  - intros b Hb. destruct (decide (a = b)) as [<-|Hne].
    + by rewrite exch_insert_eq in Hb.
    + rewrite exch_insert_ne in Hb by done. rewrite rd_wr_ne by done.
      by apply Hidle.
  - intros b Hb. destruct (decide (a = b)) as [<-|Hne].
    + by rewrite rd_wr_eq.
    + rewrite exch_insert_ne in Hb by done. rewrite rd_wr_ne by done.
      by apply Haw.
  - intros b r Hb. destruct (decide (a = b)) as [<-|Hne].
    + by rewrite exch_insert_eq in Hb.
    + rewrite exch_insert_ne in Hb by done. rewrite rd_wr_ne by done.
      by apply Hans.
Qed.

(** A receive that finds the counter at zero returns the answer on the
    books, and the exchange is over. *)
Lemma ring_inv_recv g c addr r :
  ring_inv g c -> rd (cmds (rirb c)) addr = 0 ->
  exch g addr = Answered r ->
  rd (res (rirb c)) addr = r /\ ring_inv (<[addr := Idle]> g) c.
Proof.
  intros (I1 & I2 & I3 & Hnd & Hl & Hidle & Haw & Hans) Hc Ha.
  destruct (Hans addr r Ha) as [[_ H]|(Hnotin & _ & Hr)]; [lia|].
  split; [done|]. unfold ring_inv.
  split; [done|]. split; [done|]. split; [done|].
  unfold ring_rel. split_and!.
  - done.
  - intros r' x Hin. destruct (Hl r' x Hin) as [H1 H2]. split; [done|].
    rewrite exch_insert_ne; [done|].
    intros E. apply Hnotin. apply elem_of_unread. eauto.
  - intros b Hb. destruct (decide (addr = b)) as [<-|Hne]; [done|].
    rewrite exch_insert_ne in Hb by done. by apply Hidle.
  - intros b Hb. destruct (decide (addr = b)) as [<-|Hne].
    + by rewrite exch_insert_eq in Hb.
    + rewrite exch_insert_ne in Hb by done. by apply Haw.
  - intros b r' Hb. destruct (decide (addr = b)) as [<-|Hne].
    + by rewrite exch_insert_eq in Hb.
    + rewrite exch_insert_ne in Hb by done. by apply Hans.
Qed.

(** With nothing unread and the counter not at zero, the hardware has not
    answered. *)
Lemma ring_inv_unanswered g c addr :
  ring_inv g c -> rirb_backlog c = [] -> rd (cmds (rirb c)) addr ≠ 0 ->
  ~ exists r, exch g addr = Answered r.
Proof.
  intros (_ & _ & _ & _ & _ & _ & _ & Hans) Hb Hc [r Hr].
  destruct (Hans addr r Hr) as [[H _]|(_ & H & _)]; [|done].
  rewrite Hb in H. by apply elem_of_nil in H.
Qed.

Lemma wait_turn_ring g dp addr t c c' o :
  ring_inv g c -> fault_free g (map ObsHw (concurrent t)) ->
  wait_turn dp addr t c = (c', o) ->
  ring_inv (tracks g (map ObsHw (concurrent t))) c' /\
  (polling_mode c || dp = true -> rirb_backlog c' = []).
Proof.
  intros Hinv Hff. unfold wait_turn.
  set (g1 := tracks g (map ObsHw (concurrent t))).
  set (c1 := fold_left hw_step (concurrent t) c).
  assert (H1 : ring_inv g1 c1) by (by apply ring_inv_hws).
  assert (Hpm : polling_mode c1 = polling_mode c)
    by apply flags_polling_mode, hw_steps_flags.
  rewrite Hpm. clearbody c1 g1. clear Hinv Hff.
  set (c2 := if polling_mode c || dp then azx_update_rirb c1 else c1).
  assert (H2 : ring_inv g1 c2 /\
               (polling_mode c || dp = true -> rirb_backlog c2 = [])).
  { unfold c2. destruct (polling_mode c || dp).
    - destruct (ring_inv_update g1 c1 H1). done.
    - done. }
  destruct H2 as [H2 H3]. clearbody c2.
  destruct (rd (cmds (rirb c2)) addr =? 0); unfold rirb_deliver; intros H;
    simplify_eq; [|done].
  split.
  - eapply ring_inv_ext; [| | |exact H2]; by destruct dp.
  - intros Hp. rewrite <- (H3 Hp). apply backlog_ext; by destruct dp.
Qed.

Lemma wait_response_ring g dp addr ts c c' ts' evs o :
  ring_inv g c ->
  wait_response dp addr ts c = (c', ts', evs, o) ->
  fault_free g (map ObsHw evs) ->
  ring_inv (tracks g (map ObsHw evs)) c' /\
  (polling_mode c || dp = true -> rirb_backlog c' = []).
Proof.
  revert g c c' ts' evs o.
  induction ts as [|t ts IH]; intros g c c' ts' evs o Hinv; simpl.
  - destruct (wait_turn dp addr last_tick c) as [c1 [b|v]] eqn:E;
      intros H Hff; simplify_eq;
      apply (wait_turn_ring g _ _ last_tick _ _ _ Hinv I E).
  - destruct (wait_turn dp addr t c) as [c1 [[|]|v]] eqn:E.
    + intros H Hff; simplify_eq. by apply (wait_turn_ring g _ _ _ _ _ _ Hinv Hff E).
    + destruct (wait_response dp addr ts c1) as [[[c2 r2] e2] o2] eqn:E2.
      intros H Hff; simplify_eq.
      rewrite map_app in Hff. apply fault_free_app in Hff as [Hff1 Hff2].
      destruct (wait_turn_ring g _ _ _ _ _ _ Hinv Hff1 E) as [H1 _].
      rewrite map_app, tracks_app.
      destruct (IH _ _ _ _ _ _ H1 E2 Hff2) as [H2 H3]. split; [done|].
      by rewrite (flags_polling_mode _ _ (wait_turn_flags _ _ _ _ _ _ E)) in H3.
    + intros H Hff; simplify_eq. by apply (wait_turn_ring g _ _ _ _ _ _ Hinv Hff E).
Qed.

Lemma tracks_recv g l addr v :
  tracks g (l ++ [ObsRecv addr v]) = <[addr := Idle]> (tracks g l).
Proof. by rewrite tracks_app. Qed.

(** A receive in ring mode whose observations are free of faults returns
    the answer on the books and closes the exchange. *)
Lemma get_response_ring fuel g dp addr ok ts c c' ts' evs v :
  ring_inv g c ->
  rirb_get_response_from fuel dp addr ok ts c = Some (c', ts', evs, v) ->
  fault_free g (map ObsHw evs ++ [ObsRecv addr v]) ->
  exch (tracks g (map ObsHw evs)) addr = Answered v /\
  ring_inv (tracks g (map ObsHw evs ++ [ObsRecv addr v])) c'.
Proof.
  revert g dp ts c c' ts' evs v.
  induction fuel as [|n IH]; intros g dp ts c c' ts' evs v Hinv Hrun Hff;
    [done|].
  simpl in Hrun.
  destruct (wait_response dp addr ts c) as [[[c1 ts1] evs1] [v1|]] eqn:E.
  { simplify_eq. apply fault_free_app in Hff as [Hff1 [[r Hr] _]].
    destruct (wait_response_ring _ _ _ _ _ _ _ _ _ Hinv E Hff1) as [H1 _].
    destruct (wait_response_exit _ _ _ _ _ _ _ _ E) as [Hc Hv].
    destruct (ring_inv_recv _ _ _ _ H1 Hc Hr) as [Hres H2].
    rewrite tracks_recv. split; [congruence|done]. }
  pose proof (wait_response_exit _ _ _ _ _ _ _ _ E) as Hc.
  pose proof (wait_response_flags _ _ _ _ _ _ _ E) as Hf.
  pose proof (flags_polling_mode _ _ Hf) as Hpm.
  assert (Hstep : forall c2 dp2 e2,
    single_cmd c2 = single_cmd c1 -> RIRBWP (regs c2) = RIRBWP (regs c1) ->
    rirb c2 = rirb c1 ->
    rirb_get_response_from n dp2 addr ok ts1 c2 = Some (c', ts', e2, v) ->
    evs = evs1 ++ e2 ->
    exch (tracks g (map ObsHw evs)) addr = Answered v /\
    ring_inv (tracks g (map ObsHw evs ++ [ObsRecv addr v])) c').
  { intros c2 dp2 e2 S1 S2 S3 E2 ->.
    rewrite map_app, <- app_assoc in Hff.
    apply fault_free_app in Hff as [Hff1 Hff2].
    destruct (wait_response_ring _ _ _ _ _ _ _ _ _ Hinv E Hff1) as [H1 _].
    assert (H2 : ring_inv (tracks g (map ObsHw evs1)) c2)
      by (by eapply ring_inv_ext).
    destruct (IH _ _ _ _ _ _ _ _ H2 E2 Hff2) as [R1 R2].
    split.
    - rewrite map_app, tracks_app. exact R1.
    - rewrite map_app, <- app_assoc, tracks_app. exact R2. }
  assert (Hfail : polling_mode c1 = true -> evs = evs1 ->
    exch (tracks g (map ObsHw evs)) addr = Answered v /\
    ring_inv (tracks g (map ObsHw evs ++ [ObsRecv addr v])) c').
  { intros Hp ->. exfalso.
    apply fault_free_app in Hff as [Hff1 [Hr _]].
    destruct (wait_response_ring _ _ _ _ _ _ _ _ _ Hinv E Hff1) as [H1 H2].
    rewrite <- Hpm, Hp in H2.
    by apply (ring_inv_unanswered _ _ addr H1 (H2 eq_refl) Hc). }
  clear E Hf IH.
  destruct (polling_mode c1) eqn:Epm; simpl in Hrun.
  - destruct (msi c1) eqn:Em.
    + unfold azx_acquire_irq in Hrun. destruct ok; simpl in Hrun.
      * destruct (rirb_get_response_from n dp addr true ts1 _)
          as [[[[c2 ts2] e2] v2]|] eqn:E2; [|done].
        simplify_eq. by eapply Hstep; [| | |exact E2|].
      * simplify_eq. by apply Hfail.
    + destruct (probing c1); [simplify_eq; by apply Hfail|].
      destruct (_ && _ && _); simplify_eq; by apply Hfail.
  - destruct (poll_count c1 <? 2); simpl in Hrun.
    + destruct (rirb_get_response_from n true addr ok ts1 _)
        as [[[[c2 ts2] e2] v2]|] eqn:E2; [|done].
      simplify_eq. by eapply Hstep; [| | |exact E2|].
    + destruct (rirb_get_response_from n dp addr ok ts1 _)
        as [[[[c2 ts2] e2] v2]|] eqn:E2; [|done].
      simplify_eq. by eapply Hstep; [| | |exact E2|].
Qed.

Lemma run_op_ring g c o c' l :
  ring_inv g c -> run_op c o = Some (c', l) -> fault_free g l ->
  round_trip g l /\ ring_inv (tracks g l) c'.
Proof.
  intros Hinv Hrun Hff. destruct o as [val irs ir|addr ok ts|e].
  - simpl in Hrun.
    pose proof (ring_inv_send g irs ir c val Hinv) as H.
    destruct (azx_send_cmd irs ir c val) as [c1 e1]. simplify_eq.
    destruct Hff as [Ha _]. split; [done|]. by apply H.
  - simpl in Hrun. unfold azx_get_response in Hrun.
    destruct Hinv as [Hs Hinv']. rewrite Hs in Hrun.
    destruct (azx_rirb_get_response c addr ok ts)
      as [[[[c1 t1] e1] v1]|] eqn:E; [|done].
    simplify_eq.
    destruct (get_response_ring _ g _ _ _ _ _ _ _ _ _ (conj Hs Hinv') E Hff)
      as [H1 H2].
    split; [|done]. apply round_trip_app. split; [apply round_trip_hw|].
    by split.
  - simpl in Hrun. simplify_eq. destruct Hff as [Ha _].
    split; [done|]. by apply ring_inv_hw.
Qed.

Lemma run_ring ops g c c' l :
  ring_inv g c -> run ops c = Some (c', l) -> fault_free g l ->
  round_trip g l.
Proof.
  revert g c c' l. induction ops as [|o ops IH]; intros g c c' l Hinv Hrun Hff.
  - simpl in Hrun. by simplify_eq.
  - simpl in Hrun.
    destruct (run_op c o) as [[c1 l1]|] eqn:E1; [|done].
    destruct (run ops c1) as [[c2 l2]|] eqn:E2; [|done].
    simplify_eq. apply fault_free_app in Hff as [Hff1 Hff2].
    destruct (run_op_ring _ _ _ _ _ Hinv E1 Hff1) as [H1 H2].
    apply round_trip_app. split; [done|]. by eapply IH.
Qed.

Lemma ring_inv_init c :
  single_cmd c = false -> ring_inv ∅ (azx_init_cmd_io c).
Proof.
  intros Hs. unfold ring_inv. split_and!; try done.
  unfold ring_rel. split_and!.
  - constructor.
  - intros r x H. by apply elem_of_nil in H.
  - done.
  - done.
  - done.
Qed.

(** The run of [trip_ops] gives [trip_log], which is free of faults, and
    its receives return 111 and 222, the responses the hardware produced. *)
Lemma trip_log_fault_free :
  (exists c', run trip_ops chip_ring = Some (c', trip_log)) /\
  fault_free ∅ trip_log /\ round_trip ∅ trip_log.
Proof.
  split_and!.
  - eexists. vm_compute. reflexivity.
  - unfold trip_log, fault_free, admissible, track.
    repeat split; try reflexivity; eexists; reflexivity.
  - unfold trip_log, round_trip, matched, track.
    repeat split; reflexivity.
Qed.

(** ** Stream set-up *)

(** The stored geometry of a stream. *)
Lemma setup_bdle_loop_config ga gc fuel d p ofs size ioc d' p' r :
  setup_bdle_loop ga gc fuel d p ofs size ioc = Some (d', p', r) ->
  bufsize d' = bufsize d /\ period_bytes d' = period_bytes d /\
  format_val d' = format_val d.
Proof.
  revert d p ofs size. induction fuel as [|n IH]; intros d p ofs size; simpl;
    [done|].
  destruct (0 <? size); [|intros H; by simplify_eq].
  destruct (AZX_MAX_BDL_ENTRIES <=? frags d); [intros H; by simplify_eq|].
  intros H. apply IH in H. simpl in H. exact H.
Qed.

Lemma setup_bdle_config ga gc d p ofs size ioc d' p' r :
  setup_bdle ga gc d p ofs size ioc = Some (d', p', r) ->
  bufsize d' = bufsize d /\ period_bytes d' = period_bytes d /\
  format_val d' = format_val d.
Proof. unfold setup_bdle. apply setup_bdle_loop_config. Qed.

Lemma setup_periods_loop_config ga gc n i periods pos_adj rt d p ofs d' e :
  setup_periods_loop ga gc n i periods pos_adj rt d p ofs = Some (d', e) ->
  bufsize d' = bufsize d /\ period_bytes d' = period_bytes d /\
  format_val d' = format_val d.
Proof.
  revert i d p ofs. induction n as [|n IH]; intros i d p ofs; simpl.
  - intros H; by simplify_eq.
  - set (r := if (i =? periods - 1) && negb (pos_adj =? 0) then _ else _).
    destruct r as [[[d1 p1] ofs1]|] eqn:E; [|done].
    assert (H1 : bufsize d1 = bufsize d /\ period_bytes d1 = period_bytes d /\
                 format_val d1 = format_val d).
    { unfold r in E. destruct (_ && _);
        by apply setup_bdle_config in E. }
    destruct H1 as (H1 & H2 & H3). clearbody r. clear E.
    destruct (ofs1 <? 0).
    + intros H. injection H as <- _. done.
    + intros H. apply IH in H. destruct H as (-> & -> & ->). done.
Qed.

Lemma azx_setup_periods_config ga gc adj rt d d' e :
  azx_setup_periods ga gc adj rt d = Some (d', e) ->
  bufsize d' = bufsize d /\ period_bytes d' = period_bytes d /\
  format_val d' = format_val d.
Proof.
  unfold azx_setup_periods.
  destruct (as_u32 (as_int (period_bytes d)) =? 0); [done|].
  assert (Hfin : forall pa d0 p ofs,
    match setup_periods_loop ga gc
            (Z.to_nat (as_int (bufsize d / as_u32 (as_int (period_bytes d)))))
            0 (as_int (bufsize d / as_u32 (as_int (period_bytes d)))) pa rt d0 p ofs with
    | Some (d1, true) => Some (d1, - EINVAL)
    | Some (d1, false) => Some (d1, 0)
    | None => None
    end = Some (d', e) ->
    bufsize d' = bufsize d0 /\ period_bytes d' = period_bytes d0 /\
    format_val d' = format_val d0).
  { intros pa d0 p ofs.
    destruct (setup_periods_loop _ _ _ _ _ _ _ _ _ _) as [[d1 [|]]|] eqn:E;
      intros H; simplify_eq; by apply setup_periods_loop_config in E. }
  destruct (0 <? adj); [|intros H; apply Hfin in H; simpl in H; exact H].
  destruct (_ <=? _); [intros H; apply Hfin in H; simpl in H; exact H|].
  destruct (setup_bdle _ _ _ _ _ _ _) as [[[d1 p1] ofs1]|] eqn:E; [|done].
  apply setup_bdle_config in E. simpl in E. destruct E as (E1 & E2 & E3).
  destruct (ofs1 <? 0).
  - intros H. injection H as <- _. done.
  - intros H. apply Hfin in H. destruct H as (-> & -> & ->). done.
Qed.

(** The loop of [setup_bdle] is left before its fuel runs out: a turn that
    goes round adds a descriptor, and at 256 descriptors the next turn
    returns. *)
Lemma setup_bdle_loop_total ga gc fuel d p ofs size ioc :
  0 <= frags d ->
  (Z.to_nat (256 - frags d) < fuel)%nat ->
  exists r, setup_bdle_loop ga gc fuel d p ofs size ioc = Some r.
Proof.
  revert d p ofs size. induction fuel as [|n IH]; intros d p ofs size H0 Hf;
    [lia|].
  simpl. destruct (0 <? size); [|eauto].
  destruct (AZX_MAX_BDL_ENTRIES <=? frags d) eqn:E; [eauto|].
  apply Z.leb_gt in E. change AZX_MAX_BDL_ENTRIES with 256 in E.
  apply IH; simpl; unfold as_u32; rewrite Z.mod_small by lia; lia.
Qed.

Lemma setup_bdle_total ga gc d p ofs size ioc :
  0 <= frags d ->
  exists r, setup_bdle ga gc d p ofs size ioc = Some r.
Proof.
  intros H. unfold setup_bdle. apply setup_bdle_loop_total; [done|lia].
Qed.

(** ** DMA position *)

(** A position read changes at most the position fix of the direction read
    and the insufficient flag of the stream. *)
Lemma position_switch_frame c d h chk raw c1 d1 :
  position_switch c d h chk = Some (raw, c1, d1) ->
  exists s, substream d = Some s /\
    (c1 = c \/ fix_of c s = POS_FIX_AUTO /\ chk = true /\
       c1 = set_fix s (if implausible (posbuf h) then POS_FIX_LPIB
                       else POS_FIX_POSBUF) c) /\
    (d1 = d \/ d1 = set_insufficient false d).
Proof.
  unfold position_switch. destruct (substream d) as [s|]; [|done].
  intros H. exists s. split; [done|].
  destruct (fix_of c s) eqn:Ef.
  - destruct chk.
    + unfold implausible. destruct (_ || _); simplify_eq; split; auto.
    + simplify_eq. auto.
  - simplify_eq. auto.
  - simplify_eq. auto.
  - unfold azx_via_get_position in H. destruct s.
    + simplify_eq. auto.
    + destruct (period_bytes d =? 0); [done|].
      destruct (insufficient d && _) eqn:Ei; [simplify_eq; auto|].
      destruct (insufficient d); simplify_eq; auto.
  - simplify_eq. auto.
Qed.

Lemma get_position_switch c d h chk pos c1 d1 :
  azx_get_position c d h chk = Some (pos, c1, d1) ->
  exists raw, position_switch c d h chk = Some (raw, c1, d1) /\
    pos = if bufsize d1 <=? raw then 0 else raw.
Proof.
  unfold azx_get_position.
  destruct (position_switch c d h chk) as [[[raw c2] d2]|]; [|done].
  intros H. simplify_eq. eauto.
Qed.

Lemma get_position_frame c d h chk pos c1 d1 :
  azx_get_position c d h chk = Some (pos, c1, d1) ->
  is_Some (substream d) /\ bus c1 = bus c /\
  period_bytes d1 = period_bytes d /\ start_wallclk d1 = start_wallclk d /\
  period_wallclk d1 = period_wallclk d /\ bufsize d1 = bufsize d.
Proof.
  intros H. apply get_position_switch in H as (raw & H & _).
  apply position_switch_frame in H as (s & Hs & Hc & Hd).
  split; [by rewrite Hs|].
  split.
  - destruct Hc as [->|(_ & _ & ->)]; [done|]. by destruct s.
  - destruct Hd as [->| ->]; done.
Qed.

(** C7 (as amended). A completion evaluated at least 2/3 and less than 5/4
    of a period after the recorded start, with the position beyond the
    middle of its period, is not accepted: with a nonzero position
    adjustment the result is 0 and the interrupt handler marks the stream
    pending and queues the deferred work; with a zero adjustment the result
    is -1 and the interrupt is dropped. The recorded start is not moved in
    either case. *)
Theorem early_completion_not_accepted (BPL adj : Z) (c : azx) (d : azx_dev)
    (h : hw_pos) (sd_status pos : Z) (c1 : azx) (d1 : azx_dev) :
  as_ulong BPL (period_wallclk d * 2) / 3 <= elapsed_wallclk BPL d h ->
  elapsed_wallclk BPL d h < as_ulong BPL (period_wallclk d * 5) / 4 ->
  azx_get_position c d h true = Some (pos, c1, d1) ->
  period_bytes d ≠ 0 ->
  period_bytes d / 2 < pos mod period_bytes d ->
  azx_position_ok BPL adj c d h
    = Some (if adj =? 0 then -1 else 0, c1, d1) /\
  start_wallclk d1 = start_wallclk d /\
  (running d = true -> Z.land sd_status SD_INT_COMPLETE ≠ 0 ->
   azx_interrupt_stream BPL adj c d sd_status h
   = Some (if negb (adj =? 0) && workq (bus c)
           then (c1, set_irq_pending true d1, [QueueWork])
           else (c1, d1, []))).
Proof.
  intros Hlo Hhi Hpos Hpb Hmid.
  destruct (get_position_frame _ _ _ _ _ _ _ Hpos)
    as (Hs & Hbus & E1 & E2 & E5 & _).
  assert (Hok : azx_position_ok BPL adj c d h
                = Some (if adj =? 0 then -1 else 0, c1, d1)).
  { unfold azx_position_ok. cbv zeta.
    destruct (elapsed_wallclk BPL d h <? as_ulong BPL (period_wallclk d * 2) / 3)
      eqn:E; [apply Z.ltb_lt in E; exfalso; clear -Hlo E; lia|].
    rewrite Hpos, E1, E5.
    destruct (period_bytes d =? 0) eqn:E0;
      [apply Z.eqb_eq in E0; congruence|].
    destruct (elapsed_wallclk BPL d h <? as_ulong BPL (period_wallclk d * 5) / 4)
      eqn:E3; [|apply Z.ltb_ge in E3; exfalso; clear -Hhi E3; lia].
    destruct (period_bytes d / 2 <? pos mod period_bytes d) eqn:E4;
      [|apply Z.ltb_ge in E4; exfalso; clear -Hmid E4; lia].
    simpl. by destruct (adj =? 0). }
  split; [done|]. split; [done|].
  intros Hrun Hsd. unfold azx_interrupt_stream.
  rewrite Hok, Hrun, Hbus.
  destruct Hs as [s Hs]. rewrite Hs.
  rewrite bool_decide_eq_true_2 by eauto.
  destruct (Z.land sd_status SD_INT_COMPLETE =? 0) eqn:E;
    [apply Z.eqb_eq in E; congruence|]. simpl.
  destruct (adj =? 0); simpl; [done|]. by destruct (workq (bus c)).
Qed.

Lemma early_completion_witness :
  azx_position_ok 32 32 chip_posbuf dev_small hw_early
    = Some (0, chip_posbuf, dev_small) /\
  start_wallclk dev_small = start_wallclk dev_small /\
  (running dev_small = true -> Z.land 4 SD_INT_COMPLETE ≠ 0 ->
   azx_interrupt_stream 32 32 chip_posbuf dev_small 4 hw_early
   = Some (chip_posbuf, set_irq_pending true dev_small, [QueueWork])).
Proof.
  apply (early_completion_not_accepted 32 32 chip_posbuf dev_small hw_early 4
           6000 chip_posbuf dev_small).
  - vm_compute. discriminate.
  - reflexivity.
  - reflexivity.
  - discriminate.
  - reflexivity.
Defined.

(** C7, as stated, fails: one period after the start with the position at
    6000 of 8192 bytes, the evaluation with position adjustment 32 returns
    0 ("later"), not 1, and leaves the recorded start where it was; with
    adjustment 0 it returns -1 (bogus interrupt, dropped), not 0. *)
Lemma early_completion_counterexample :
  as_ulong 32 (period_wallclk dev_small * 2) / 3 <= elapsed_wallclk 32 dev_small hw_early /\
  elapsed_wallclk 32 dev_small hw_early < as_ulong 32 (period_wallclk dev_small * 5) / 4 /\
  azx_get_position chip_posbuf dev_small hw_early true
    = Some (6000, chip_posbuf, dev_small) /\
  period_bytes dev_small / 2 < 6000 mod period_bytes dev_small /\
  azx_position_ok 32 32 chip_posbuf dev_small hw_early
    = Some (0, chip_posbuf, dev_small) /\
  azx_position_ok 32 0 chip_posbuf dev_small hw_early
    = Some (-1, chip_posbuf, dev_small) /\
  azx_interrupt_stream 32 32 chip_posbuf dev_small 4 hw_early
    = Some (chip_posbuf, set_irq_pending true dev_small, [QueueWork]) /\
  azx_interrupt_stream 32 0 chip_posbuf dev_small 4 hw_early
    = Some (chip_posbuf, dev_small, []).
Proof. vm_compute. repeat split; discriminate. Qed.

(** The period in ticks computed at prepare, for a rate above 2 kHz: a
    multiple of 1000 that fits in half the range of [unsigned long]. *)
Lemma period_wallclk_of_shape BPL rt :
  BPL = 32 \/ BPL = 64 -> 2000 < rate rt ->
  exists k, period_wallclk_of BPL rt = 1000 * k /\
            0 <= k /\ 2 * (1000 * k) < 2 ^ BPL.
Proof.
  intros HB Hr. unfold period_wallclk_of, as_ulong.
  set (x := (period_size rt * 24000) mod 2 ^ BPL).
  assert (Hx : 0 <= x < 2 ^ BPL) by (apply Z.mod_pos_bound; destruct HB; subst; lia).
  exists (x / rate rt).
  assert (Hk : 0 <= x / rate rt) by (apply Z.div_pos; lia).
  assert (Hk2 : 2000 * (x / rate rt) < 2 ^ BPL).
  { assert (rate rt * (x / rate rt) <= x) by (apply Z.mul_div_le; lia). nia. }
  split_and!; [|done|lia].
  rewrite Z.mod_small; lia.
Qed.

(** C8. For a stream whose period in ticks is the one computed at prepare
    (at a rate above 2 kHz, as all HD-audio rates are) and is not zero, a
    completion evaluated when exactly half of that period has elapsed is
    rejected as too early, whatever the position registers show: the
    result is -1, neither the controller nor the stream state changes, and
    the interrupt handler neither reports a period nor queues the deferred
    work. *)
Theorem half_period_is_too_early (BPL adj : Z) (c : azx) (d : azx_dev)
    (h : hw_pos) (rt : snd_pcm_runtime) (sd_status : Z) :
  BPL = 32 \/ BPL = 64 ->
  2000 < rate rt ->
  period_wallclk d = period_wallclk_of BPL rt ->
  period_wallclk d ≠ 0 ->
  2 * elapsed_wallclk BPL d h = period_wallclk d ->
  azx_position_ok BPL adj c d h = Some (-1, c, d) /\
  azx_interrupt_stream BPL adj c d sd_status h = Some (c, d, []).
Proof.
  intros HB Hr Hpw Hnz Hhalf.
  destruct (period_wallclk_of_shape BPL rt HB Hr) as (k & Hk & Hk0 & Hk2).
  rewrite <- Hpw in Hk.
  assert (Hok : azx_position_ok BPL adj c d h = Some (-1, c, d)).
  { unfold azx_position_ok. cbv zeta.
    assert (E : as_ulong BPL (period_wallclk d * 2) = 2 * period_wallclk d).
    { unfold as_ulong. rewrite Z.mod_small; lia. }
    rewrite E.
    destruct (elapsed_wallclk BPL d h <? 2 * period_wallclk d / 3) eqn:E1;
      [done|].
    apply Z.ltb_ge in E1. exfalso. clear -E1 Hhalf Hk Hk0 Hnz. zlia. }
  split; [done|]. unfold azx_interrupt_stream. rewrite Hok.
  by destruct (_ || _ || _).
Qed.

Lemma half_period_witness :
  azx_position_ok 32 32 chip_posbuf dev_small hw_half
    = Some (-1, chip_posbuf, dev_small) /\
  azx_interrupt_stream 32 32 chip_posbuf dev_small 4 hw_half
    = Some (chip_posbuf, dev_small, []).
Proof.
  apply (half_period_is_too_early 32 32 chip_posbuf dev_small hw_half rt_small 4).
  - left. reflexivity.
  - reflexivity.
  - reflexivity.
  - discriminate.
  - reflexivity.
Defined.

(** ** The position fix mode *)

Lemma fix_of_set_fix s f c : fix_of (set_fix s f c) s = f.
Proof. by destruct s. Qed.

(** Once the mode is LPIB or POSBUF, reads on that direction go through and
    leave it as it is. *)
Lemma settled_read c s d h chk :
  fix_of c s = POS_FIX_LPIB \/ fix_of c s = POS_FIX_POSBUF ->
  substream d = Some s ->
  exists pos, azx_get_position c d h chk = Some (pos, c, d).
Proof.
  intros Hf Hs. unfold azx_get_position, position_switch. rewrite Hs.
  destruct Hf as [-> | ->]; eauto.
Qed.

Lemma settled_reads c s rs :
  fix_of c s = POS_FIX_LPIB \/ fix_of c s = POS_FIX_POSBUF ->
  Forall (fun r => substream (fst (fst r)) = Some s) rs ->
  position_reads c rs = Some c.
Proof.
  intros Hf. induction rs as [|[[d h] chk] rs IH]; intros Hall; simpl; [done|].
  apply Forall_cons in Hall as [Hd Hall]. simpl in Hd.
  destruct (settled_read c s d h chk Hf Hd) as [pos ->]. by apply IH.
Qed.

(** C9. With the mode of a direction at AutoDetect, the first checked read
    on that direction sets it: to LPIB when the position buffer reads zero
    or all ones, to POSBUF otherwise; and after any further reads on that
    direction, checked or not, the mode is the one set by the first. *)
Theorem autodetect_commits_once (c : azx) (s : pcm_stream) (d : azx_dev)
    (h : hw_pos) (rs : list (azx_dev * hw_pos * bool)) :
  fix_of c s = POS_FIX_AUTO ->
  substream d = Some s ->
  Forall (fun r => substream (fst (fst r)) = Some s) rs ->
  exists pos c1 d1 c2,
    azx_get_position c d h true = Some (pos, c1, d1) /\
    fix_of c1 s = (if implausible (posbuf h) then POS_FIX_LPIB
                   else POS_FIX_POSBUF) /\
    position_reads c1 rs = Some c2 /\
    fix_of c2 s = fix_of c1 s.
Proof.
  intros Hf Hs Hall.
  unfold azx_get_position, position_switch. rewrite Hs, Hf.
  fold (implausible (posbuf h)).
  destruct (implausible (posbuf h)) eqn:Ei.
  - exists (if bufsize d <=? SD_LPIB h then 0 else SD_LPIB h),
      (set_fix s POS_FIX_LPIB c), d, (set_fix s POS_FIX_LPIB c).
    split_and!; [reflexivity|apply fix_of_set_fix| |reflexivity].
    apply (settled_reads _ s); [|done]. left. apply fix_of_set_fix.
  - exists (if bufsize d <=? posbuf h then 0 else posbuf h),
      (set_fix s POS_FIX_POSBUF c), d, (set_fix s POS_FIX_POSBUF c).
    split_and!; [reflexivity|apply fix_of_set_fix| |reflexivity].
    apply (settled_reads _ s); [|done]. right. apply fix_of_set_fix.
Qed.

Lemma autodetect_witness :
  exists pos c1 d1 c2,
    azx_get_position chip0 dev_small (mk_hw_pos 4096 0 0 0) true
      = Some (pos, c1, d1) /\
    fix_of c1 SNDRV_PCM_STREAM_PLAYBACK
      = (if implausible 0 then POS_FIX_LPIB else POS_FIX_POSBUF) /\
    position_reads c1 [(dev_small, hw_early, true); (dev_small, hw_half, false)]
      = Some c2 /\
    fix_of c2 SNDRV_PCM_STREAM_PLAYBACK = fix_of c1 SNDRV_PCM_STREAM_PLAYBACK.
Proof.
  apply (autodetect_commits_once chip0 SNDRV_PCM_STREAM_PLAYBACK dev_small
           (mk_hw_pos 4096 0 0 0)
           [(dev_small, hw_early, true); (dev_small, hw_half, false)]).
  - reflexivity.
  - reflexivity.
  - repeat constructor.
Defined.

(** ** The position returned *)

(** C10. For a stream with a buffer size above zero, in every position fix
    mode, the position read returns a value below the buffer size: the
    value as read when that is below the buffer size, and 0 when it is
    not (the all-ones read included). *)
Theorem position_below_bufsize (c : azx) (d : azx_dev) (h : hw_pos)
    (chk : bool) (s : pcm_stream) :
  substream d = Some s ->
  0 < bufsize d ->
  (fix_of c s = POS_FIX_VIACOMBO -> period_bytes d ≠ 0) ->
  exists raw pos c1 d1,
    position_switch c d h chk = Some (raw, c1, d1) /\
    azx_get_position c d h chk = Some (pos, c1, d1) /\
    pos = (if bufsize d <=? raw then 0 else raw) /\
    pos < bufsize d /\
    (0 <= raw -> 0 <= pos).
Proof.
  intros Hs Hb Hvia.
  assert (Hsw : exists raw c1 d1, position_switch c d h chk = Some (raw, c1, d1)).
  { unfold position_switch. rewrite Hs.
    destruct (fix_of c s) eqn:Ef; eauto.
    - destruct chk; eauto. destruct (_ || _); eauto.
    - unfold azx_via_get_position. destruct s; eauto.
      destruct (period_bytes d =? 0) eqn:E0;
        [apply Z.eqb_eq in E0; by destruct Hvia|].
      destruct (insufficient d && _); eauto. }
  destruct Hsw as (raw & c1 & d1 & Hsw).
  assert (Hbs : bufsize d1 = bufsize d).
  { apply position_switch_frame in Hsw as (_ & _ & _ & [->| ->]); done. }
  exists raw, (if bufsize d <=? raw then 0 else raw), c1, d1.
  split; [done|]. split.
  - unfold azx_get_position. by rewrite Hsw, Hbs.
  - split; [done|]. destruct (bufsize d <=? raw) eqn:E.
    + lia.
    + apply Z.leb_gt in E. lia.
Qed.

Lemma position_below_bufsize_witness :
  exists raw pos c1 d1,
    position_switch chip_posbuf dev_small (mk_hw_pos 0 4294967295 0 0) false
      = Some (raw, c1, d1) /\
    azx_get_position chip_posbuf dev_small (mk_hw_pos 0 4294967295 0 0) false
      = Some (pos, c1, d1) /\
    pos = (if bufsize dev_small <=? raw then 0 else raw) /\
    pos < bufsize dev_small /\
    (0 <= raw -> 0 <= pos).
Proof.
  apply (position_below_bufsize chip_posbuf dev_small
           (mk_hw_pos 0 4294967295 0 0) false SNDRV_PCM_STREAM_PLAYBACK).
  - reflexivity.
  - reflexivity.
  - discriminate.
Defined.

(** ** What an overflow leaves behind *)

(** With chunk sizes as the PCM core gives them (at least one byte, at most
    what is asked for) and offsets within the range of an int, [setup_bdle]
    either returns -EINVAL with the descriptor count at its maximum or
    returns the offset after the stretch. *)
Lemma setup_bdle_loop_result ga gc fuel d p ofs size ioc d' p' r :
  (forall o s, 0 < s -> 0 < gc o s <= s) ->
  0 <= frags d <= 256 -> 0 <= ofs -> ofs + size < 2147483648 ->
  setup_bdle_loop ga gc fuel d p ofs size ioc = Some (d', p', r) ->
  0 <= frags d' <= 256 /\
  (r = - EINVAL /\ frags d' = 256 \/ 0 <= r /\ r = ofs + Z.max 0 size).
Proof.
  intros Hgc. revert d p ofs size.
  induction fuel as [|n IH]; intros d p ofs size Hf Ho Hs; [done|].
  simpl. destruct (0 <? size) eqn:E0.
  - apply Z.ltb_lt in E0.
    destruct (AZX_MAX_BDL_ENTRIES <=? frags d) eqn:E1.
    + apply Z.leb_le in E1. change AZX_MAX_BDL_ENTRIES with 256 in E1.
      intros H. simplify_eq. split; [done|]. left. split; [done|lia].
    + apply Z.leb_gt in E1. change AZX_MAX_BDL_ENTRIES with 256 in E1.
      pose proof (Hgc ofs size E0) as Hc.
      assert (Ec : as_int (gc ofs size) = gc ofs size)
        by (unfold as_int; zlia).
      rewrite Ec.
      assert (Es : as_int (size - gc ofs size) = size - gc ofs size)
        by (unfold as_int; zlia).
      assert (Eo : as_int (ofs + gc ofs size) = ofs + gc ofs size)
        by (unfold as_int; zlia).
      rewrite Es, Eo. intros H.
      apply IH in H; simpl; [|unfold as_u32; zlia|lia|lia].
      destruct H as [H1 H2]. split; [done|].
      destruct H2 as [H2|[H2 H3]]; [by left|right]. lia.
  - apply Z.ltb_ge in E0. intros H. simplify_eq.
    split; [done|]. right. lia.
Qed.

Lemma setup_bdle_result ga gc d p ofs size ioc d' p' r :
  (forall o s, 0 < s -> 0 < gc o s <= s) ->
  0 <= frags d <= 256 -> 0 <= ofs -> ofs + size < 2147483648 ->
  setup_bdle ga gc d p ofs size ioc = Some (d', p', r) ->
  0 <= frags d' <= 256 /\
  (r = - EINVAL /\ frags d' = 256 \/ 0 <= r /\ r = ofs + Z.max 0 size).
Proof. unfold setup_bdle. apply setup_bdle_loop_result. Qed.

Lemma setup_periods_loop_result ga gc n i periods pos_adj rt d p ofs d' :
  (forall o s, 0 < s -> 0 < gc o s <= s) ->
  0 <= frags d <= 256 -> 0 < period_bytes d ->
  0 <= pos_adj < period_bytes d -> 0 <= ofs ->
  ofs + Z.of_nat n * period_bytes d < 2147483648 ->
  setup_periods_loop ga gc n i periods pos_adj rt d p ofs = Some (d', true) ->
  frags d' = 256.
Proof.
  intros Hgc. revert i d p ofs.
  induction n as [|n IH]; intros i d p ofs Hf Hpb Hadj Ho Hb; simpl; [done|].
  set (r := if (i =? periods - 1) && negb (pos_adj =? 0) then _ else _).
  destruct r as [[[d1 p1] ofs1]|] eqn:E; [|done].
  assert (Epb : as_int (period_bytes d) = period_bytes d)
    by (unfold as_int; zlia).
  assert (Epa : as_int (period_bytes d - pos_adj) = period_bytes d - pos_adj)
    by (unfold as_int; zlia).
  assert (H1 : exists size, 0 < size <= period_bytes d /\
     0 <= frags d1 <= 256 /\ period_bytes d1 = period_bytes d /\
     (ofs1 = - EINVAL /\ frags d1 = 256 \/ 0 <= ofs1 /\ ofs1 = ofs + size)).
  { unfold r in E. destruct (_ && _).
    - exists (period_bytes d - pos_adj). rewrite Epa in E.
      pose proof (setup_bdle_config _ _ _ _ _ _ _ _ _ _ E) as (_ & C2 & _).
      apply setup_bdle_result in E; [|done|done|done|lia].
      destruct E as [F1 F2]. split; [lia|]. split; [done|]. split; [done|].
      destruct F2 as [F2|[F2 F3]]; [by left|right]. lia.
    - exists (period_bytes d). rewrite Epb in E.
      pose proof (setup_bdle_config _ _ _ _ _ _ _ _ _ _ E) as (_ & C2 & _).
      apply setup_bdle_result in E; [|done|done|done|lia].
      destruct E as [F1 F2]. split; [lia|]. split; [done|]. split; [done|].
      destruct F2 as [F2|[F2 F3]]; [by left|right]. lia. }
  clearbody r. clear E.
  destruct H1 as (size & Hsz & F1 & C2 & F2).
  destruct (ofs1 <? 0) eqn:E1.
  - apply Z.ltb_lt in E1. intros H. simplify_eq.
    destruct F2 as [[_ F2]|[F2 _]]; [done|lia].
  - apply Z.ltb_ge in E1.
    destruct F2 as [[F2 _]|[_ F2]]; [unfold EINVAL in F2; lia|].
    apply IH; rewrite ?C2; try done; nia.
Qed.

(** When the set-up of the periods fails, the descriptor list is full: the
    256 entries written before the overflow stay in the stream. *)
Lemma setup_periods_overflow_full ga gc adj rt d d' :
  (forall o s, 0 < s -> 0 < gc o s <= s) ->
  0 < period_bytes d -> 0 <= bufsize d ->
  bufsize d + period_bytes d < 2147483648 ->
  0 <= pos_adj_bytes adj rt ->
  azx_setup_periods ga gc adj rt d = Some (d', - EINVAL) ->
  frags d' = AZX_MAX_BDL_ENTRIES.
Proof.
  intros Hgc Hpb Hbs Hsum Hpa. unfold azx_setup_periods.
  assert (Epb : as_int (period_bytes d) = period_bytes d)
    by (unfold as_int; zlia).
  rewrite Epb.
  assert (Eu : as_u32 (period_bytes d) = period_bytes d)
    by (unfold as_u32; zlia).
  rewrite Eu.
  destruct (period_bytes d =? 0) eqn:E0; [apply Z.eqb_eq in E0; lia|].
  set (periods := bufsize d / period_bytes d).
  assert (Hper : 0 <= periods /\ periods * period_bytes d <= bufsize d).
  { unfold periods. split; [apply Z.div_pos; lia|].
    rewrite Z.mul_comm. apply Z.mul_div_le. lia. }
  assert (Ep : as_int periods = periods).
  { unfold as_int. assert (periods <= bufsize d) by nia. zlia. }
  rewrite Ep.
  assert (Hfin : forall pa d0 p ofs,
    0 <= frags d0 <= 256 -> period_bytes d0 = period_bytes d ->
    0 <= pa < period_bytes d -> 0 <= ofs < period_bytes d ->
    match setup_periods_loop ga gc (Z.to_nat periods) 0 periods pa rt d0 p ofs with
    | Some (d1, true) => Some (d1, - EINVAL)
    | Some (d1, false) => Some (d1, 0)
    | None => None
    end = Some (d', - EINVAL) -> frags d' = AZX_MAX_BDL_ENTRIES).
  { intros pa d0 p ofs Hf0 Hp0 Hpa0 Ho0.
    destruct (setup_periods_loop _ _ _ _ _ _ _ _ _ _) as [[d1 [|]]|] eqn:E;
      intros H; simplify_eq.
    eapply setup_periods_loop_result; [exact Hgc| | | | | |exact E];
      rewrite ?Hp0; try done; try nia. }
  destruct (0 <? adj).
  - destruct (period_bytes d <=? pos_adj_bytes adj rt) eqn:E1.
    + intros H. apply Hfin in H; simpl; try done; lia.
    + apply Z.leb_gt in E1.
      destruct (setup_bdle _ _ _ _ _ _ _) as [[[d1 p1] ofs1]|] eqn:E; [|done].
      pose proof (setup_bdle_config _ _ _ _ _ _ _ _ _ _ E) as (_ & C2 & _).
      apply setup_bdle_result in E; simpl; [|done|lia|lia|lia].
      simpl in C2. destruct E as [F1 F2].
      destruct (ofs1 <? 0) eqn:E2.
      * apply Z.ltb_lt in E2. intros H. simplify_eq.
        destruct F2 as [[_ F2]|[F2 _]]; [done|lia].
      * apply Z.ltb_ge in E2.
        destruct F2 as [[F2 _]|[_ F2]]; [unfold EINVAL in F2; lia|].
        intros H. apply Hfin in H; try done; lia.
  - intros H. apply Hfin in H; simpl; try done; lia.
Qed.

(** * The command transport, continued *)

(** ** Indices into the per-codec arrays *)

Lemma azx_command_addr_range val :
  0 <= val < 4294967296 -> 0 <= azx_command_addr val < 8.
Proof.
  intros H. unfold azx_command_addr, AZX_MAX_CODECS.
  rewrite Z.shiftr_div_pow2 by lia.
  change (2 ^ 28) with 268435456.
  destruct (8 <=? val / 268435456) eqn:E; [lia|].
  apply Z.leb_gt in E. split; [apply Z.div_pos; lia|lia].
Qed.

Lemma cells_below_empty n : cells_below n ∅.
Proof. intros i [v Hv]. by rewrite lookup_empty in Hv. Qed.

Lemma cells_below_wr n m i v :
  0 <= i < n -> cells_below n m -> cells_below n (wr m i v).
Proof.
  intros Hi Hm j [x Hx]. unfold wr in Hx.
  destruct (decide (i = j)) as [<-|Hne]; [done|].
  rewrite lookup_insert_ne in Hx by done. apply Hm. eauto.
Qed.

Lemma ring_cells_dispatch r x c :
  ring_cells_ok c -> ring_cells_ok (rirb_dispatch r x c).
Proof.
  intros (H1 & H2 & H3). unfold rirb_dispatch.
  pose proof (azx_response_addr_range x) as Ha.
  destruct (negb (Z.land x ICH6_RIRB_EX_UNSOL_EV =? 0)); [done|].
  destruct (negb (rd (cmds (rirb c)) (azx_response_addr x) =? 0)); [|done].
  split_and!; simpl; [| |done]; by apply cells_below_wr.
Qed.

Lemma ring_cells_entry c : ring_cells_ok c -> ring_cells_ok (rirb_entry c).
Proof. intros H. unfold rirb_entry. by apply ring_cells_dispatch. Qed.

Lemma ring_cells_drain fuel w c :
  ring_cells_ok c -> ring_cells_ok (rirb_drain fuel w c).
Proof.
  revert c. induction fuel as [|n IH]; intros c H; simpl; [done|].
  destruct (rp (rirb c) =? w); [done|]. by apply IH, ring_cells_entry.
Qed.

Lemma ring_cells_update c :
  ring_cells_ok c -> ring_cells_ok (azx_update_rirb c).
Proof.
  intros H. unfold azx_update_rirb.
  destruct (_ =? _); [done|]. by apply ring_cells_drain.
Qed.

Lemma ring_cells_hw c e : ring_cells_ok c -> ring_cells_ok (hw_step c e).
Proof. destruct e; [done|]. apply ring_cells_update. Qed.

Lemma ring_cells_core c c' :
  ring_core c' = ring_core c -> ring_cells_ok c -> ring_cells_ok c'.
Proof.
  unfold ring_core, ring_cells_ok. intros H.
  assert (corb c' = corb c) as -> by congruence.
  assert (rirb c' = rirb c) as -> by congruence. done.
Qed.

(** A receive over the ring leaves the record of the last commands alone. *)
Lemma wait_turn_last_cmd dp addr t c c' o :
  wait_turn dp addr t c = (c', o) -> last_cmd c' = last_cmd c.
Proof.
  unfold wait_turn. cbv zeta.
  set (c1 := fold_left hw_step (concurrent t) c).
  assert (H1 : flags c1 = flags c) by apply hw_steps_flags.
  set (c2 := if polling_mode c1 || dp then azx_update_rirb c1 else c1).
  assert (H2 : flags c2 = flags c).
  { unfold c2. destruct (_ || _); [|done]. by rewrite update_rirb_flags. }
  assert (H3 : last_cmd c2 = last_cmd c) by (unfold flags in H2; congruence).
  clearbody c2. clear c1 H1 H2.
  destruct (rd (cmds (rirb c2)) addr =? 0).
  - unfold rirb_deliver. intros H. simplify_eq. by destruct dp.
  - intros H. by simplify_eq.
Qed.

Lemma wait_response_last_cmd dp addr ts c c' ts' evs o :
  wait_response dp addr ts c = (c', ts', evs, o) -> last_cmd c' = last_cmd c.
Proof.
  revert c c' ts' evs o. induction ts as [|t ts IH]; intros c c' ts' evs o; simpl.
  - destruct (wait_turn dp addr last_tick c) as [c1 [b|v]] eqn:E;
      intros H; simplify_eq; by apply wait_turn_last_cmd in E.
  - destruct (wait_turn dp addr t c) as [c1 [[|]|v]] eqn:E.
    + intros H; simplify_eq; by apply wait_turn_last_cmd in E.
    + destruct (wait_response dp addr ts c1) as [[[c2 r2] e2] o2] eqn:E2.
      intros H; simplify_eq. apply IH in E2. apply wait_turn_last_cmd in E.
      congruence.
    + intros H; simplify_eq; by apply wait_turn_last_cmd in E.
Qed.

Lemma get_response_last_cmd fuel dp addr ok ts c c' ts' evs v :
  rirb_get_response_from fuel dp addr ok ts c = Some (c', ts', evs, v) ->
  last_cmd c' = last_cmd c.
Proof.
  revert dp ts c c' ts' evs v.
  induction fuel as [|n IH]; intros dp ts c c' ts' evs v; [done|].
  simpl.
  destruct (wait_response dp addr ts c) as [[[c1 ts1] evs1] [v1|]] eqn:E.
  { intros H; simplify_eq. by apply wait_response_last_cmd in E. }
  apply wait_response_last_cmd in E. rewrite <- E. clear E.
  destruct (polling_mode c1) eqn:Epm; simpl.
  - destruct (msi c1) eqn:Em.
    + unfold azx_acquire_irq. destruct ok; simpl.
      * destruct (rirb_get_response_from n dp addr true ts1 _)
          as [[[[c2 ts2] e2] v2]|] eqn:E2; [|done].
        intros H; simplify_eq. by apply IH in E2.
      * intros H; by simplify_eq.
    + destruct (probing c1); [intros H; by simplify_eq|].
      destruct (_ && _ && _); intros H; by simplify_eq.
  - destruct (poll_count c1 <? 2); simpl.
    + destruct (rirb_get_response_from n true addr ok ts1 _)
        as [[[[c2 ts2] e2] v2]|] eqn:E2; [|done].
      intros H; simplify_eq. by apply IH in E2.
    + destruct (rirb_get_response_from n dp addr ok ts1 _)
        as [[[[c2 ts2] e2] v2]|] eqn:E2; [|done].
      intros H; simplify_eq. by apply IH in E2.
Qed.

Lemma codec_arrays_get_response c addr ok ts c' ts' evs v :
  codec_arrays_ok c ->
  azx_get_response c addr ok ts = Some (c', ts', evs, v) ->
  codec_arrays_ok c'.
Proof.
  intros (H1 & H2 & H3 & H4). unfold azx_get_response.
  destruct (single_cmd c); [intros H; by simplify_eq|].
  unfold azx_rirb_get_response. intros H.
  pose proof (get_response_last_cmd _ _ _ _ _ _ _ _ _ _ H) as Hl.
  assert (Hr : ring_cells_ok c') .
  { eapply (get_response_preserves ring_cells_ok); [| | |exact H].
    - apply ring_cells_hw.
    - apply ring_cells_core.
    - done. }
  destruct Hr as (R1 & R2 & R3). unfold codec_arrays_ok. by rewrite Hl.
Qed.

Lemma single_wait_cells n irs ir addr c c' irs' e :
  0 <= addr < 8 ->
  single_wait_loop n irs ir addr c = (c', irs', e) ->
  cells_below AZX_MAX_CODECS (res (rirb c)) ->
  cells_below AZX_MAX_CODECS (res (rirb c')) /\
  cmds (rirb c') = cmds (rirb c) /\ last_cmd c' = last_cmd c /\
  corb c' = corb c.
Proof.
  intros Ha. revert irs c. induction n as [|n IH]; intros irs c; simpl.
  - intros H Hc. simplify_eq. simpl. split; [|done]. by apply cells_below_wr.
  - destruct (negb (Z.land (hd 0 irs) ICH6_IRS_VALID =? 0)).
    + intros H Hc. simplify_eq. simpl. split; [|done]. by apply cells_below_wr.
    + apply IH.
Qed.

Lemma single_send_cells n irs ir addr val c c' irs' e :
  0 <= addr < 8 ->
  single_send_loop n irs ir addr val c = (c', irs', e) ->
  cells_below AZX_MAX_CODECS (res (rirb c)) ->
  cells_below AZX_MAX_CODECS (res (rirb c')) /\
  cmds (rirb c') = cmds (rirb c) /\ last_cmd c' = last_cmd c /\
  corb c' = corb c.
Proof.
  intros Ha. revert irs c. induction n as [|n IH]; intros irs c; simpl.
  - intros H Hc. by simplify_eq.
  - destruct (Z.land (hd 0 irs) ICH6_IRS_BUSY =? 0).
    + unfold azx_single_wait_for_response. intros H Hc.
      apply single_wait_cells in H; [|done|done]. exact H.
    + apply IH.
Qed.

Lemma codec_arrays_send irs ir c val :
  0 <= val < 4294967296 ->
  codec_arrays_ok c -> codec_arrays_ok (fst (azx_send_cmd irs ir c val)).
Proof.
  intros Hv (H1 & H2 & H3 & H4).
  pose proof (azx_command_addr_range val Hv) as Ha.
  unfold azx_send_cmd. cbv zeta.
  change (single_cmd (set_last_cmd _ c)) with (single_cmd c).
  destruct (single_cmd c).
  - unfold azx_single_send_cmd. cbv zeta.
    destruct (single_send_loop _ _ _ _ _ _) as [[c1 irs1] e1] eqn:E.
    apply single_send_cells in E; [|done|done].
    destruct E as (E1 & E2 & E3 & E4). simpl in *.
    unfold codec_arrays_ok. rewrite E2, E3, E4.
    split_and!; [done|done| |done]. by apply cells_below_wr.
  - unfold azx_corb_send_cmd. cbv zeta. simpl.
    unfold codec_arrays_ok. simpl. split_and!; [|done| |].
    + by apply cells_below_wr.
    + by apply cells_below_wr.
    + apply cells_below_wr; [|done].
      unfold ICH6_MAX_CORB_ENTRIES. apply Z.mod_pos_bound. lia.
Qed.

Lemma codec_arrays_hw c e : codec_arrays_ok c -> codec_arrays_ok (hw_step c e).
Proof.
  intros (H1 & H2 & H3 & H4).
  assert (Hr : ring_cells_ok (hw_step c e)) by (by apply ring_cells_hw).
  destruct Hr as (R1 & R2 & R3).
  pose proof (hw_step_flags c e) as Hf.
  assert (Hl : last_cmd (hw_step c e) = last_cmd c)
    by (unfold flags in Hf; congruence).
  unfold codec_arrays_ok. by rewrite Hl.
Qed.

Lemma codec_arrays_run_op c o c' l :
  send_is_u32 o -> codec_arrays_ok c -> run_op c o = Some (c', l) ->
  codec_arrays_ok c'.
Proof.
  destruct o as [val irs ir|addr ok ts|e]; simpl; intros Hu Hc.
  - pose proof (codec_arrays_send irs ir c val Hu Hc) as H.
    destruct (azx_send_cmd irs ir c val) as [c1 e1]. intros E. by simplify_eq.
  - destruct (azx_get_response c addr ok ts) as [[[[c1 ts1] e1] v1]|] eqn:E;
      [|done].
    intros H. simplify_eq. by eapply codec_arrays_get_response.
  - intros H. simplify_eq. by apply codec_arrays_hw.
Qed.

(** X1. The driver never writes outside its per-codec arrays. Whatever
    commands are sent (as 32-bit values), whatever responses and events the
    hardware produces and whatever addresses are received from, every cell
    of [cmds], [res] and [last_cmd] written has its index below
    [AZX_MAX_CODECS], and every word of the CORB written has its index
    below [ICH6_MAX_CORB_ENTRIES]. *)
Theorem codec_arrays_in_bounds (ops : list op) (c c' : azx) (l : list obs) :
  Forall send_is_u32 ops ->
  codec_arrays_ok c ->
  run ops c = Some (c', l) ->
  codec_arrays_ok c'.
Proof.
  revert c c' l. induction ops as [|o ops IH]; intros c c' l Hu Hc; simpl.
  - intros H. by simplify_eq.
  - apply Forall_cons in Hu as [Ho Hu].
    destruct (run_op c o) as [[c1 l1]|] eqn:E; [|done].
    destruct (run ops c1) as [[c2 l2]|] eqn:E2; [|done].
    intros H. simplify_eq.
    eapply IH; [done| |exact E2]. by eapply codec_arrays_run_op.
Qed.

Lemma codec_arrays_in_bounds_witness :
  exists c' l, run trip_ops chip_ring = Some (c', l) /\ codec_arrays_ok c'.
Proof.
  eexists _, _. split; [vm_compute; reflexivity|].
  eapply (codec_arrays_in_bounds trip_ops chip_ring).
  - repeat constructor; simpl; lia.
  - split_and!; apply cells_below_empty.
  - vm_compute. reflexivity.
Defined.

(** ** A codec that does not answer, outside the probing phase *)

Lemma gctl_unsol_cleared g :
  Z.land (Z.land g (as_u32 (Z.lnot ICH6_GCTL_UNSOL))) ICH6_GCTL_UNSOL = 0.
Proof.
  rewrite <- Z.land_assoc.
  change (Z.land (as_u32 (Z.lnot ICH6_GCTL_UNSOL)) ICH6_GCTL_UNSOL) with 0.
  apply Z.land_0_r.
Qed.

Lemma fatal_failure fuel dp addr ok ts c c' ts' evs v :
  probing c = false ->
  (msi c = true -> ok = true) ->
  rirb_get_response_from fuel dp addr ok ts c = Some (c', ts', evs, v) ->
  rd (cmds (rirb c')) addr ≠ 0 ->
  v = U32_MINUS_1 /\ rirb_error (bus c') = true /\
  polling_mode c' = true /\ msi c' = false /\
  if allow_bus_reset (bus c) && negb (response_reset (bus c))
     && negb (in_reset (bus c))
  then response_reset (bus c') = true /\ single_cmd c' = single_cmd c
  else single_cmd c' = true /\ response_reset (bus c') = false /\
       CORBCTL (regs c') = 0 /\ RIRBCTL (regs c') = 0 /\
       Z.land (GCTL (regs c')) ICH6_GCTL_UNSOL = 0.
Proof.
  revert dp ts c c' ts' evs v.
  induction fuel as [|n IH]; intros dp ts c c' ts' evs v Hp Hok; [done|].
  simpl.
  destruct (wait_response dp addr ts c) as [[[c1 ts1] evs1] [v1|]] eqn:E.
  { intros H Hc; simplify_eq.
    by destruct (wait_response_exit _ _ _ _ _ _ _ _ E). }
  pose proof (wait_response_flags _ _ _ _ _ _ _ E) as Hf.
  destruct (flags_bus _ _ Hf) as (Hb1 & Hb2 & Hb3 & Hb4).
  pose proof (flags_single_cmd _ _ Hf) as Hs.
  pose proof (flags_probing _ _ Hf) as Hpr.
  pose proof (flags_msi _ _ Hf) as Hm.
  rewrite <- Hb2, <- Hb3, <- Hb4, <- Hs.
  rewrite <- Hm in Hok. rewrite <- Hpr in Hp.
  clear E Hf Hb1 Hb2 Hb3 Hb4 Hs Hpr Hm.
  destruct (polling_mode c1) eqn:Epm; simpl.
  - destruct (msi c1) eqn:Em.
    + assert (Hk : ok = true) by (by apply Hok). subst ok. simpl.
      destruct (rirb_get_response_from n dp addr true ts1 _)
        as [[[[c2 ts2] e2] v2]|] eqn:E2; [|done].
      intros H Hc; simplify_eq.
      apply IH in E2; simpl in *; done.
    + rewrite Hp.
      destruct (allow_bus_reset (bus c1) && negb (response_reset (bus c1))
                && negb (in_reset (bus c1))) eqn:Er.
      * intros H Hc; simplify_eq. simpl. done.
      * intros H Hc; simplify_eq. simpl.
        split_and!; try done. apply gctl_unsol_cleared.
  - destruct (poll_count c1 <? 2); simpl.
    + destruct (rirb_get_response_from n true addr ok ts1 _)
        as [[[[c2 ts2] e2] v2]|] eqn:E2; [|done].
      intros H Hc; simplify_eq.
      apply IH in E2; simpl in *; done.
    + destruct (rirb_get_response_from n dp addr ok ts1 _)
        as [[[[c2 ts2] e2] v2]|] eqn:E2; [|done].
      intros H Hc; simplify_eq.
      apply IH in E2; simpl in *; done.
Qed.

(** X2. A receive over the ring outside the probing phase always returns.
    When the pending counter of the address is still nonzero at that point
    (no response came through any stage of the fallback, and the interrupt
    could be re-acquired if MSI had to be given up), it returns the error
    value with the ring-error flag set, polling mode on and MSI off, and
    then: if the bus allows a reset and none is requested or under way, it
    only requests the reset and stays in the mode it was in; otherwise it
    switches to single-command mode for good, withdraws the reset request,
    stops both ring DMAs and turns the acceptance of unsolicited responses
    off. *)
Theorem silent_codec_fallback (c : azx) (addr : Z) (ok : bool)
    (ts : list tick) :
  probing c = false ->
  (msi c = true -> ok = true) ->
  exists c' ts' evs v,
    azx_rirb_get_response c addr ok ts = Some (c', ts', evs, v) /\
    (rd (cmds (rirb c')) addr ≠ 0 ->
     v = U32_MINUS_1 /\ rirb_error (bus c') = true /\
     polling_mode c' = true /\ msi c' = false /\
     if allow_bus_reset (bus c) && negb (response_reset (bus c))
        && negb (in_reset (bus c))
     then response_reset (bus c') = true /\ single_cmd c' = single_cmd c
     else single_cmd c' = true /\ response_reset (bus c') = false /\
          CORBCTL (regs c') = 0 /\ RIRBCTL (regs c') = 0 /\
          Z.land (GCTL (regs c')) ICH6_GCTL_UNSOL = 0).
Proof.
  intros Hp Hok.
  destruct (azx_rirb_get_response_total c addr ok ts) as [[[[c' ts'] evs] v] E].
  exists c', ts', evs, v. split; [done|]. intros Hc.
  unfold azx_rirb_get_response in E.
  exact (fatal_failure _ _ _ _ _ _ _ _ _ _ Hp Hok E Hc).
Qed.

Lemma silent_codec_fallback_witness :
  exists c' ts' evs v,
    azx_rirb_get_response chip_sent 2 true [] = Some (c', ts', evs, v) /\
    (rd (cmds (rirb c')) 2 ≠ 0 ->
     v = U32_MINUS_1 /\ rirb_error (bus c') = true /\
     polling_mode c' = true /\ msi c' = false /\
     if allow_bus_reset (bus chip_sent) && negb (response_reset (bus chip_sent))
        && negb (in_reset (bus chip_sent))
     then response_reset (bus c') = true /\ single_cmd c' = single_cmd chip_sent
     else single_cmd c' = true /\ response_reset (bus c') = false /\
          CORBCTL (regs c') = 0 /\ RIRBCTL (regs c') = 0 /\
          Z.land (GCTL (regs c')) ICH6_GCTL_UNSOL = 0).
Proof.
  apply (silent_codec_fallback chip_sent 2 true []).
  - reflexivity.
  - intros _. reflexivity.
Defined.

(** ** A response whose interrupt was lost *)

Lemma ring_inv_answered_read g c addr r :
  ring_inv g c -> rirb_backlog c = [] -> exch g addr = Answered r ->
  rd (cmds (rirb c)) addr = 0 /\ rd (res (rirb c)) addr = r.
Proof.
  intros (_ & _ & _ & Hrel) Hb Ha. rewrite Hb in Hrel.
  destruct Hrel as (_ & _ & _ & _ & H5).
  destruct (H5 _ _ Ha) as [[Hin _]|(_ & H1 & H2)]; [|done].
  unfold unread_addrs in Hin. simpl in Hin. by apply elem_of_nil in Hin.
Qed.

Lemma update_rirb_kept c :
  transport_kept c (azx_update_rirb c) /\
  polling_mode (azx_update_rirb c) = polling_mode c.
Proof.
  pose proof (update_rirb_flags c) as Hf.
  destruct (update_rirb_frame c) as (Hr & _).
  destruct (flags_bus _ _ Hf) as (_ & Hb & _).
  unfold transport_kept.
  rewrite (flags_single_cmd _ _ Hf), (flags_msi _ _ Hf),
    (flags_probing _ _ Hf), (flags_polling_mode _ _ Hf), Hb, Hr.
  split_and!; try done. unfold flags in Hf. congruence.
Qed.

Lemma transport_kept_trans c1 c2 c3 :
  transport_kept c1 c2 -> transport_kept c2 c3 -> transport_kept c1 c3.
Proof.
  unfold transport_kept.
  intros (A1 & A2 & A3 & A4 & A5 & A6) (B1 & B2 & B3 & B4 & B5 & B6).
  split_and!; congruence.
Qed.

(** A turn that polls fetches the answer. *)
Lemma wait_turn_polled g dp addr t c r :
  ring_inv g c -> exch g addr = Answered r ->
  concurrent t = [] -> polling_mode c || dp = true ->
  exists c', wait_turn dp addr t c = (c', inr r) /\
    transport_kept c c' /\ rirb_error (bus c') = false.
Proof.
  intros Hinv Ha Ht Hp. unfold wait_turn. cbv zeta. rewrite Ht. simpl.
  rewrite Hp.
  destruct (ring_inv_update g c Hinv) as [Hinv' Hb].
  destruct (ring_inv_answered_read _ _ _ _ Hinv' Hb Ha) as [Hc Hr].
  rewrite Hc. simpl.
  destruct (update_rirb_kept c) as [K0 _].
  destruct dp; simpl; eexists; (split; [by rewrite Hr|]);
    (split; [|done]); destruct K0 as (A1 & A2 & A3 & A4 & A5 & A6);
    by split_and!.
Qed.

Lemma wait_response_polled g dp addr ts c r :
  ring_inv g c -> exch g addr = Answered r ->
  quiet ts -> polling_mode c || dp = true ->
  exists c' ts', wait_response dp addr ts c = (c', ts', [], Some r) /\
    transport_kept c c' /\ rirb_error (bus c') = false.
Proof.
  intros Hinv Ha Hq Hp. destruct ts as [|t ts]; simpl.
  - destruct (wait_turn_polled g dp addr last_tick c r Hinv Ha eq_refl Hp)
      as (c' & -> & K). eauto.
  - apply Forall_cons in Hq as [Ht Hq].
    destruct (wait_turn_polled g dp addr t c r Hinv Ha Ht Hp)
      as (c' & -> & K). rewrite Ht. eauto.
Qed.

(** Without polling and without events, the wait loop either finds the
    answer already stored or gives up with the state as it was. *)
Lemma wait_response_idle g addr ts c r :
  ring_inv g c -> exch g addr = Answered r ->
  quiet ts -> polling_mode c = false ->
  exists c' ts', quiet ts' /\
    ((wait_response false addr ts c = (c', ts', [], Some r) /\
      transport_kept c c' /\ rirb_error (bus c') = false) \/
     (wait_response false addr ts c = (c, ts', [], None))).
Proof.
  intros Hinv Ha Hq Hp.
  assert (Hturn : forall t, concurrent t = [] ->
    (exists c', wait_turn false addr t c = (c', inr r) /\
       transport_kept c c' /\ rirb_error (bus c') = false) \/
    wait_turn false addr t c = (c, inl (expired t))).
  { intros t Ht. unfold wait_turn. cbv zeta. rewrite Ht. simpl. rewrite Hp.
    simpl. destruct (rd (cmds (rirb c)) addr =? 0) eqn:E; [|by right].
    left. apply Z.eqb_eq in E.
    destruct (ring_inv_recv _ _ _ _ Hinv E Ha) as [Hr _].
    eexists. split; [by rewrite Hr|]. by split_and!. }
  induction ts as [|t ts IH]; simpl.
  - destruct (Hturn last_tick eq_refl) as [(c' & -> & K)| ->].
    + exists c', []. split; [constructor|]. by left.
    + exists c, []. split; [constructor|]. by right.
  - apply Forall_cons in Hq as [Ht Hq].
    destruct (Hturn t Ht) as [(c' & -> & K)| ->].
    + exists c', ts. split; [done|]. left. by rewrite Ht.
    + rewrite Ht. destruct (expired t).
      * exists c, ts. split; [done|]. by right.
      * destruct (IH Hq) as (c' & ts' & Hq' & [(-> & K)| ->]).
        -- exists c', ts'. split; [done|]. by left.
        -- exists c, ts'. split; [done|]. by right.
Qed.

Lemma answered_is_received g c addr ok ts r :
  ring_inv g c ->
  exch g addr = Answered r ->
  quiet ts ->
  exists c' ts',
    azx_rirb_get_response c addr ok ts = Some (c', ts', [], r) /\
    transport_kept c c' /\ rirb_error (bus c') = false.
Proof.
  intros Hinv Ha Hq. unfold azx_rirb_get_response.
  assert (Hfuel : exists n, again_budget c = S (S n)).
  { unfold again_budget. exists (Z.to_nat (2 - poll_count c) + 1)%nat. lia. }
  destruct Hfuel as [n ->].
  destruct (polling_mode c) eqn:Epm.
  { destruct (wait_response_polled g false addr ts c r Hinv Ha Hq)
      as (c' & ts' & E & K); [by rewrite Epm|].
    exists c', ts'. simpl. rewrite E. done. }
  destruct (wait_response_idle g addr ts c r Hinv Ha Hq Epm)
    as (c1 & ts1 & Hq1 & [(E & K)|E]).
  { exists c1, ts1. simpl. rewrite E. done. }
  cbn [rirb_get_response_from]. rewrite E. rewrite Epm.
  destruct (poll_count c <? 2) eqn:Epc.
  - cbn [negb andb].
    set (c2 := set_poll_count (as_int (poll_count c + 1)) c).
    assert (Hinv2 : ring_inv g c2) by (by eapply ring_inv_ext).
    destruct (wait_response_polled g true addr ts1 c2 r Hinv2 Ha Hq1)
      as (c' & ts' & E2 & K & Ke); [apply orb_true_r|].
    exists c', ts'. rewrite E2. split; [done|]. split; [|done].
    eapply transport_kept_trans; [|exact K]. done.
  - cbn [negb andb].
    set (c2 := set_polling_mode true c).
    assert (Hinv2 : ring_inv g c2) by (by eapply ring_inv_ext).
    destruct (wait_response_polled g false addr ts1 c2 r Hinv2 Ha Hq1)
      as (c' & ts' & E2 & K & Ke); [done|].
    exists c', ts'. rewrite E2. split; [done|]. split; [|done].
    eapply transport_kept_trans; [|exact K]. done.
Qed.

Lemma run_ring_inv ops g c c' l :
  ring_inv g c -> run ops c = Some (c', l) -> fault_free g l ->
  ring_inv (tracks g l) c'.
Proof.
  revert g c c' l. induction ops as [|o ops IH]; intros g c c' l Hinv Hrun Hff.
  - simpl in Hrun. by simplify_eq.
  - simpl in Hrun.
    destruct (run_op c o) as [[c1 l1]|] eqn:E1; [|done].
    destruct (run ops c1) as [[c2 l2]|] eqn:E2; [|done].
    simplify_eq. apply fault_free_app in Hff as [Hff1 Hff2].
    destruct (run_op_ring _ _ _ _ _ Hinv E1 Hff1) as [H1 H2].
    rewrite tracks_app. by eapply IH.
Qed.

(** X3. A response that is already in the ring is not lost with its
    interrupt. After any fault-free run of sends, receives and hardware
    events from the ring set-up, when the hardware has answered the command
    to an address and the answer has not been received yet, a receive from
    that address returns that answer even if no hardware event at all (so
    no interrupt either) takes place while it waits, whatever the timing:
    at worst a timed-out wait is followed by a poll. The receive leaves the
    error flag clear and ring mode, MSI, the interrupt line, the reset
    request and all registers as they were. *)
Theorem lost_interrupt_recovered (c : azx) (ops : list op) (c1 : azx)
    (log : list obs) (addr : Z) (ok : bool) (ts : list tick) (r : Z) :
  single_cmd c = false ->
  run ops (azx_init_cmd_io c) = Some (c1, log) ->
  fault_free ∅ log ->
  exch (tracks ∅ log) addr = Answered r ->
  quiet ts ->
  exists c' ts',
    azx_rirb_get_response c1 addr ok ts = Some (c', ts', [], r) /\
    transport_kept c1 c' /\ rirb_error (bus c') = false.
Proof.
  intros Hs Hrun Hff Ha Hq.
  apply (answered_is_received (tracks ∅ log)); [|done|done].
  eapply run_ring_inv; [|exact Hrun|exact Hff]. by apply ring_inv_init.
Qed.

Lemma lost_interrupt_recovered_witness :
  exists c' ts',
    azx_rirb_get_response
      (hw_step chip_sent (HwResponse 111 2)) 2 true [mk_tick [] true]
    = Some (c', ts', [], 111) /\
    transport_kept (hw_step chip_sent (HwResponse 111 2)) c' /\
    rirb_error (bus c') = false.
Proof.
  apply (lost_interrupt_recovered chip0
           [OpSend 537853952 [] 0; OpHw (HwResponse 111 2)]
           (hw_step chip_sent (HwResponse 111 2))
           [ObsSend 537853952; ObsHw (HwResponse 111 2)] 2 true
           [mk_tick [] true] 111).
  - reflexivity.
  - vm_compute. reflexivity.
  - unfold fault_free, admissible, track. repeat split; reflexivity.
  - vm_compute. reflexivity.
  - repeat constructor.
Defined.

(** ** The fallback stages are not undone *)

Lemma wait_turn_modes dp addr t c c' o :
  wait_turn dp addr t c = (c', o) ->
  polling_mode c' = polling_mode c /\ msi c' = msi c.
Proof.
  unfold wait_turn. cbv zeta.
  set (c1 := fold_left hw_step (concurrent t) c).
  assert (H1 : flags c1 = flags c) by apply hw_steps_flags.
  set (c2 := if polling_mode c1 || dp then azx_update_rirb c1 else c1).
  assert (H2 : flags c2 = flags c).
  { unfold c2. destruct (_ || _); [|done]. by rewrite update_rirb_flags. }
  pose proof (flags_polling_mode _ _ H2) as H3.
  pose proof (flags_msi _ _ H2) as H4.
  clearbody c2. clear c1 H1 H2.
  destruct (rd (cmds (rirb c2)) addr =? 0).
  - unfold rirb_deliver. intros H. simplify_eq. by destruct dp.
  - intros H. by simplify_eq.
Qed.

Lemma wait_response_modes dp addr ts c c' ts' evs o :
  wait_response dp addr ts c = (c', ts', evs, o) ->
  polling_mode c' = polling_mode c /\ msi c' = msi c.
Proof.
  revert c c' ts' evs o. induction ts as [|t ts IH]; intros c c' ts' evs o; simpl.
  - destruct (wait_turn dp addr last_tick c) as [c1 [b|v]] eqn:E;
      intros H; simplify_eq; by apply wait_turn_modes in E.
  - destruct (wait_turn dp addr t c) as [c1 [[|]|v]] eqn:E.
    + intros H; simplify_eq; by apply wait_turn_modes in E.
    + destruct (wait_response dp addr ts c1) as [[[c2 r2] e2] o2] eqn:E2.
      intros H; simplify_eq. apply IH in E2. apply wait_turn_modes in E.
      destruct E, E2. split; congruence.
    + intros H; simplify_eq; by apply wait_turn_modes in E.
Qed.

Lemma get_response_modes fuel dp addr ok ts c c' ts' evs v :
  rirb_get_response_from fuel dp addr ok ts c = Some (c', ts', evs, v) ->
  (polling_mode c = true -> polling_mode c' = true) /\
  (msi c = false -> msi c' = false).
Proof.
  revert dp ts c c' ts' evs v.
  induction fuel as [|n IH]; intros dp ts c c' ts' evs v; [done|].
  simpl.
  destruct (wait_response dp addr ts c) as [[[c1 ts1] evs1] [v1|]] eqn:E.
  { intros H; simplify_eq. apply wait_response_modes in E as [-> ->]. done. }
  apply wait_response_modes in E as [<- <-].
  destruct (polling_mode c1) eqn:Epm; simpl.
  - destruct (msi c1) eqn:Em.
    + unfold azx_acquire_irq. destruct ok; simpl.
      * destruct (rirb_get_response_from n dp addr true ts1 _)
          as [[[[c2 ts2] e2] v2]|] eqn:E2; [|done].
        intros H; simplify_eq. apply IH in E2 as [H1 H2]. simpl in *.
        split; [auto|done].
      * intros H; by simplify_eq.
    + destruct (probing c1); [intros H; by simplify_eq|].
      destruct (_ && _ && _); intros H; by simplify_eq.
  - destruct (poll_count c1 <? 2); simpl.
    + destruct (rirb_get_response_from n true addr ok ts1 _)
        as [[[[c2 ts2] e2] v2]|] eqn:E2; [|done].
      intros H; simplify_eq. apply IH in E2 as [H1 H2]. simpl in *.
      split; [done|auto].
    + destruct (rirb_get_response_from n dp addr ok ts1 _)
        as [[[[c2 ts2] e2] v2]|] eqn:E2; [|done].
      intros H; simplify_eq. apply IH in E2 as [H1 H2]. simpl in *.
      split; [done|auto].
Qed.

Lemma single_send_modes n irs ir addr val c c' irs' e :
  single_send_loop n irs ir addr val c = (c', irs', e) ->
  polling_mode c' = polling_mode c /\ msi c' = msi c.
Proof.
  revert irs c. induction n as [|n IH]; intros irs c; simpl.
  - intros H. by simplify_eq.
  - destruct (Z.land (hd 0 irs) ICH6_IRS_BUSY =? 0); [|apply IH].
    unfold azx_single_wait_for_response.
    generalize 50%nat as k. generalize (tl (tl (tl irs))) as tp.
    set (c0 := upd_regs _ _). change (polling_mode c) with (polling_mode c0).
    change (msi c) with (msi c0). clearbody c0.
    intros tp k. revert tp c0. induction k as [|k IHk]; intros tp c0; simpl.
    + intros H. by simplify_eq.
    + destruct (negb _); [intros H; by simplify_eq|apply IHk].
Qed.

Lemma run_op_modes c o c' l :
  run_op c o = Some (c', l) ->
  (polling_mode c = true -> polling_mode c' = true) /\
  (msi c = false -> msi c' = false).
Proof.
  destruct o as [val irs ir|addr ok ts|e]; simpl.
  - unfold azx_send_cmd. cbv zeta.
    change (single_cmd (set_last_cmd _ c)) with (single_cmd c).
    destruct (single_cmd c).
    + unfold azx_single_send_cmd. cbv zeta.
      destruct (single_send_loop _ _ _ _ _ _) as [[c1 irs1] e1] eqn:E.
      apply single_send_modes in E as [E1 E2]. simpl in *.
      intros H. simplify_eq. rewrite E1, E2. done.
    + unfold azx_corb_send_cmd. cbv zeta. intros H. by simplify_eq.
  - unfold azx_get_response. destruct (single_cmd c).
    + intros H. by simplify_eq.
    + unfold azx_rirb_get_response.
      destruct (rirb_get_response_from _ _ _ _ _ _)
        as [[[[c1 ts1] e1] v1]|] eqn:E; [|done].
      intros H. simplify_eq. by apply get_response_modes in E.
  - intros H. simplify_eq. pose proof (hw_step_flags c e) as Hf.
    rewrite (flags_polling_mode _ _ Hf), (flags_msi _ _ Hf). done.
Qed.

(** X4. The transport never goes back on a fallback stage. Over any
    sequence of sends, receives and hardware events, once polling mode is
    on it stays on, and once MSI has been given up it is not taken up
    again. *)
Theorem fallback_stages_kept (ops : list op) (c c' : azx) (l : list obs) :
  run ops c = Some (c', l) ->
  (polling_mode c = true -> polling_mode c' = true) /\
  (msi c = false -> msi c' = false).
Proof.
  revert c c' l. induction ops as [|o ops IH]; intros c c' l; simpl.
  - intros H. by simplify_eq.
  - destruct (run_op c o) as [[c1 l1]|] eqn:E; [|done].
    destruct (run ops c1) as [[c2 l2]|] eqn:E2; [|done].
    intros H. simplify_eq.
    apply run_op_modes in E as [A1 A2]. apply IH in E2 as [B1 B2]. auto.
Qed.

Lemma fallback_stages_kept_witness :
  exists c' l,
    run [OpSend 806289408 [] 0; OpHw (HwResponse 7 3); OpHw HwIrq; OpRecv 3 true []]
      (set_msi false (set_polling_mode true chip_ring)) = Some (c', l) /\
    (polling_mode (set_msi false (set_polling_mode true chip_ring)) = true ->
     polling_mode c' = true) /\
    (msi (set_msi false (set_polling_mode true chip_ring)) = false ->
     msi c' = false).
Proof.
  eexists _, _. split; [vm_compute; reflexivity|].
  eapply (fallback_stages_kept
            [OpSend 806289408 [] 0; OpHw (HwResponse 7 3); OpHw HwIrq;
             OpRecv 3 true []]).
  vm_compute. reflexivity.
Defined.

(** ** The immediate command *)

Lemma single_wait_outcome n irs ir addr c c' irs' e :
  single_wait_loop n irs ir addr c = (c', irs', e) ->
  regs c' = regs c /\
  ((e = 0 /\ rd (res (rirb c')) addr = ir) \/
   (e = - EIO /\ rd (res (rirb c')) addr = U32_MINUS_1)).
Proof.
  revert irs c. induction n as [|n IH]; intros irs c; simpl.
  - intros H. simplify_eq. simpl. split; [done|]. right.
    by rewrite rd_wr_eq.
  - destruct (negb _); [|apply IH].
    intros H. simplify_eq. simpl. split; [done|]. left. by rewrite rd_wr_eq.
Qed.

Lemma single_send_outcome n irs ir addr val c c' irs' e :
  single_send_loop n irs ir addr val c = (c', irs', e) ->
  (e = 0 /\ rd (res (rirb c')) addr = ir /\ IC (regs c') = val) \/
  (e = - EIO /\ rd (res (rirb c')) addr = U32_MINUS_1 /\ IC (regs c') = val) \/
  (e = - EIO /\ c' = c).
Proof.
  revert irs c. induction n as [|n IH]; intros irs c; simpl.
  - intros H. simplify_eq. auto.
  - destruct (Z.land (hd 0 irs) ICH6_IRS_BUSY =? 0); [|apply IH].
    unfold azx_single_wait_for_response. intros H.
    apply single_wait_outcome in H as [Hr [[-> H]|[-> H]]]; rewrite Hr; auto.
Qed.

Lemma single_send_busy n irs ir addr val c :
  (n <= length irs)%nat -> Forall irs_busy (take n irs) ->
  exists irs', single_send_loop n irs ir addr val c = (c, irs', - EIO).
Proof.
  revert irs. induction n as [|n IH]; intros irs Hl Hb; simpl; [eauto|].
  destruct irs as [|v irs]; [simpl in Hl; lia|]. simpl in *.
  apply Forall_cons in Hb as [Hv Hb]. unfold irs_busy in Hv.
  destruct (Z.land v ICH6_IRS_BUSY =? 0) eqn:E;
    [apply Z.eqb_eq in E; done|].
  apply IH; [lia|done].
Qed.

(** X5. What a send over the immediate-command registers leaves for the
    receive that follows. In single-command mode a send has one of three
    outcomes: it returns 0, the command is in IC and the receive returns
    the value of IR; or it returns -EIO after the command went out and no
    response became valid within 50 reads, and the receive returns all
    ones; or it returns -EIO because the busy bit never cleared within 50
    reads, IC is untouched and the receive returns whatever an earlier
    exchange with that address left behind. The last is the case whenever
    the first 50 reads of IRS all show the busy bit. *)
Theorem single_cmd_exchange (irs : list Z) (ir : Z) (c : azx) (val : Z) :
  single_cmd c = true ->
  let r := azx_send_cmd irs ir c val in
  let addr := azx_command_addr val in
  ((snd r = 0 /\ azx_single_get_response (fst r) addr = ir /\
    IC (regs (fst r)) = val) \/
   (snd r = - EIO /\ azx_single_get_response (fst r) addr = U32_MINUS_1 /\
    IC (regs (fst r)) = val) \/
   (snd r = - EIO /\
    azx_single_get_response (fst r) addr = azx_single_get_response c addr /\
    IC (regs (fst r)) = IC (regs c))) /\
  ((50 <= length irs)%nat -> Forall irs_busy (take 50 irs) ->
   snd r = - EIO /\
   azx_single_get_response (fst r) addr = azx_single_get_response c addr /\
   IC (regs (fst r)) = IC (regs c)).
Proof.
  intros Hs r addr. unfold r, azx_send_cmd. cbv zeta.
  change (single_cmd (set_last_cmd _ c)) with (single_cmd c). rewrite Hs.
  unfold azx_single_send_cmd. cbv zeta. fold addr.
  set (c0 := upd_bus (set_rirb_error false) (set_last_cmd _ c)).
  assert (H0 : rd (res (rirb c0)) addr = rd (res (rirb c)) addr
               /\ IC (regs c0) = IC (regs c)) by done.
  clearbody c0. destruct H0 as [H1 H2]. unfold azx_single_get_response.
  split.
  - destruct (single_send_loop 50 irs ir addr val c0) as [[c1 irs1] e1] eqn:E.
    simpl. apply single_send_outcome in E as [E|[E|[-> ->]]]; auto.
  - intros Hl Hb.
    destruct (single_send_busy 50 irs ir addr val c0 Hl Hb) as [irs' ->].
    simpl. done.
Qed.

Lemma single_cmd_exchange_witness :
  let r := azx_send_cmd [1; 0; 0; 0; 2] 99 chip_single 537853952 in
  let addr := azx_command_addr 537853952 in
  ((snd r = 0 /\ azx_single_get_response (fst r) addr = 99 /\
    IC (regs (fst r)) = 537853952) \/
   (snd r = - EIO /\ azx_single_get_response (fst r) addr = U32_MINUS_1 /\
    IC (regs (fst r)) = 537853952) \/
   (snd r = - EIO /\
    azx_single_get_response (fst r) addr
    = azx_single_get_response chip_single addr /\
    IC (regs (fst r)) = IC (regs chip_single))) /\
  ((50 <= length [1; 0; 0; 0; 2])%nat ->
   Forall irs_busy (take 50 [1; 0; 0; 0; 2]) ->
   snd r = - EIO /\
   azx_single_get_response (fst r) addr
   = azx_single_get_response chip_single addr /\
   IC (regs (fst r)) = IC (regs chip_single)).
Proof.
  apply (single_cmd_exchange [1; 0; 0; 0; 2] 99 chip_single 537853952).
  vm_compute. reflexivity.
Defined.

(** * Stream set-up, continued *)

(** ** The descriptor list tiles the buffer *)

Lemma bdl_span_app l1 l2 : bdl_span (l1 ++ l2) = bdl_span l1 + bdl_span l2.
Proof.
  induction l1 as [|[[[lo hi] len] ioc] l1 IH]; simpl; [lia|]. rewrite IH. lia.
Qed.

Lemma bdl_tiles_snoc ga f ofs l lo hi len ioc :
  bdl_tiles ga f ofs (l ++ [(lo, hi, len, ioc)]) <->
  bdl_tiles ga f ofs l /\
  lo = as_u32 (ga (ofs + bdl_span l)) /\
  hi = upper_32_bits (ga (ofs + bdl_span l)) /\ 0 < len /\
  ioc = (if f (ofs + bdl_span l + len) then 1 else 0).
Proof.
  revert ofs. induction l as [|[[[lo1 hi1] len1] ioc1] l IH]; intros ofs; simpl.
  - rewrite Z.add_0_r. tauto.
  - rewrite IH. rewrite !Z.add_assoc. tauto.
Qed.

Lemma bdl_tiles_ext ga f1 f2 ofs l :
  (forall e, ofs < e <= ofs + bdl_span l -> f1 e = f2 e) ->
  bdl_tiles ga f1 ofs l -> bdl_tiles ga f2 ofs l.
Proof.
  revert ofs. induction l as [|[[[lo hi] len] ioc] l IH]; intros ofs Hf; simpl;
    [done|].
  intros (H1 & H2 & H3 & H4 & H5).
  assert (Hs : 0 <= bdl_span l).
  { clear -H5. revert H5. generalize (ofs + len).
    induction l as [|[[[lo1 hi1] len1] ioc1] l IHl]; intros o; simpl; [lia|].
    intros (_ & _ & ? & _ & H). apply IHl in H. lia. }
  split_and!; try done.
  - rewrite <- Hf; [done|]. simpl. lia.
  - apply IH; [|done]. intros e He. apply Hf. simpl. lia.
Qed.

Lemma bdl_tiles_span_nonneg ga f ofs l : bdl_tiles ga f ofs l -> 0 <= bdl_span l.
Proof.
  revert ofs. induction l as [|[[[lo hi] len] ioc] l IH]; intros ofs; simpl;
    [lia|].
  intros (_ & _ & ? & _ & H). apply IH in H. lia.
Qed.

(** Adding an entry at the end of the list. *)
Lemma bdl_entries_snoc d m lo hi len ioc :
  0 <= frags d ->
  rd m (4 * frags d) = lo -> rd m (4 * frags d + 1) = hi ->
  rd m (4 * frags d + 2) = len -> rd m (4 * frags d + 3) = ioc ->
  (forall j, j < 4 * frags d -> rd m j = rd (bdl d) j) ->
  bdl_entries (set_frags (frags d + 1) (set_bdl m d))
  = bdl_entries d ++ [(lo, hi, len, ioc)].
Proof.
  intros Hf H0 H1 H2 H3 Hold. unfold bdl_entries. simpl.
  replace (Z.to_nat (frags d + 1)) with (S (Z.to_nat (frags d))) by lia.
  rewrite seq_S, map_app. simpl. f_equal.
  - apply map_ext_in. intros k Hk. apply in_seq in Hk.
    unfold bdl_entry. simpl. rewrite !Hold by lia. done.
  - unfold bdl_entry. simpl. rewrite Z2Nat.id by done.
    by rewrite H0, H1, H2, H3.
Qed.

Lemma mod_zero_between pb k x :
  0 < pb -> k * pb < x <= (k + 1) * pb ->
  (x mod pb =? 0) = (x =? (k + 1) * pb).
Proof.
  intros Hpb Hx.
  destruct (x =? (k + 1) * pb) eqn:E.
  - apply Z.eqb_eq in E. subst x. apply Z.eqb_eq. apply Z.mod_mul. lia.
  - apply Z.eqb_neq in E. apply Z.eqb_neq. intros Hm.
    apply E. pose proof (Z.div_mod x pb ltac:(lia)) as Hd.
    rewrite Hm, Z.add_0_r in Hd.
    assert (x / pb = k + 1) by nia. nia.
Qed.

Lemma setup_bdle_loop_tiles ga gc f fuel d p ofs size ioc d' p' r :
  (forall o s, 0 < s -> 0 < gc o s <= s) ->
  bdl_built ga f d p ofs -> 0 <= ofs -> ofs + size < 2147483648 ->
  (forall e, ofs < e <= ofs + size -> f e = ioc && (e =? ofs + size)) ->
  setup_bdle_loop ga gc fuel d p ofs size ioc = Some (d', p', r) ->
  0 <= r ->
  bdl_built ga f d' p' r /\ r = ofs + Z.max 0 size.
Proof.
  intros Hgc. revert d p ofs size.
  induction fuel as [|n IH]; intros d p ofs size Hb Ho Hs Hf; [done|].
  simpl. destruct (0 <? size) eqn:E0.
  2:{ apply Z.ltb_ge in E0. intros H Hr. simplify_eq.
      split; [done|lia]. }
  apply Z.ltb_lt in E0.
  destruct (AZX_MAX_BDL_ENTRIES <=? frags d) eqn:E1.
  { intros H Hr. simplify_eq. unfold EINVAL in Hr. lia. }
  apply Z.leb_gt in E1. change AZX_MAX_BDL_ENTRIES with 256 in E1.
  destruct Hb as (Hp & Hfr & Ht & Hsp).
  pose proof (Hgc ofs size E0) as Hc.
  assert (Ec : as_int (gc ofs size) = gc ofs size) by (unfold as_int; zlia).
  rewrite Ec.
  assert (Es : as_int (size - gc ofs size) = size - gc ofs size)
    by (unfold as_int; zlia).
  assert (Eo : as_int (ofs + gc ofs size) = ofs + gc ofs size)
    by (unfold as_int; zlia).
  assert (Eu : as_u32 (gc ofs size) = gc ofs size) by (unfold as_u32; zlia).
  assert (Ef : as_u32 (frags d + 1) = frags d + 1) by (unfold as_u32; zlia).
  rewrite Es, Eo, Eu, Ef.
  set (iocv := if negb (size - gc ofs size =? 0) || negb ioc then 0 else 1).
  set (m := wr (wr (wr (wr (bdl d) p (as_u32 (ga ofs))) (p + 1)
                   (upper_32_bits (ga ofs))) (p + 2) (gc ofs size))
              (p + 3) iocv).
  intros H Hr. apply IH in H; [| | lia | lia | |done].
  - destruct H as [H ->]. split; [done|lia].
  - assert (Hent : bdl_entries (set_frags (frags d + 1) (set_bdl m d))
                   = bdl_entries d
                     ++ [(as_u32 (ga ofs), upper_32_bits (ga ofs),
                          gc ofs size, iocv)]).
    { apply bdl_entries_snoc; [lia| | | | |]; unfold m; rewrite <- Hp.
      - rewrite !rd_wr_ne by lia. apply rd_wr_eq.
      - rewrite !rd_wr_ne by lia. apply rd_wr_eq.
      - rewrite !rd_wr_ne by lia. apply rd_wr_eq.
      - apply rd_wr_eq.
      - intros j Hj. rewrite !rd_wr_ne by lia. done. }
    unfold bdl_built. rewrite Hent. simpl. split_and!; [lia|lia|lia| |].
    + apply bdl_tiles_snoc. rewrite Hsp, Z.add_0_l.
      split_and!; [done|done|done|lia|].
      rewrite Hf by lia. unfold iocv.
      replace (ofs + gc ofs size =? ofs + size)
        with (size - gc ofs size =? 0).
      2:{ destruct (size - gc ofs size =? 0) eqn:A;
          destruct (ofs + gc ofs size =? ofs + size) eqn:B; try done;
          [apply Z.eqb_eq in A; apply Z.eqb_neq in B
          |apply Z.eqb_neq in A; apply Z.eqb_eq in B]; lia. }
      destruct ioc, (size - gc ofs size =? 0); done.
    + rewrite bdl_span_app. simpl. lia.
  - intros e He. rewrite Hf by lia. f_equal.
    replace (ofs + gc ofs size + (size - gc ofs size)) with (ofs + size) by lia.
    done.
Qed.

Lemma setup_bdle_tiles ga gc f d p ofs size ioc d' p' r :
  (forall o s, 0 < s -> 0 < gc o s <= s) ->
  bdl_built ga f d p ofs -> 0 <= ofs -> ofs + size < 2147483648 ->
  (forall e, ofs < e <= ofs + size -> f e = ioc && (e =? ofs + size)) ->
  setup_bdle ga gc d p ofs size ioc = Some (d', p', r) ->
  0 <= r ->
  bdl_built ga f d' p' r /\ r = ofs + Z.max 0 size.
Proof. unfold setup_bdle. apply setup_bdle_loop_tiles. Qed.

Lemma setup_periods_loop_tiles ga gc rt pa pb periods n i d p ofs d' :
  (forall o s, 0 < s -> 0 < gc o s <= s) ->
  0 < pb -> 0 <= pa < pb -> period_bytes d = pb ->
  (periods + 1) * pb < 2147483648 ->
  Z.of_nat n + i = periods -> 0 <= i ->
  ofs = (if i <? periods then pa + i * pb else periods * pb) ->
  bdl_built ga (period_ioc rt pa pb) d p ofs ->
  setup_periods_loop ga gc n i periods pa rt d p ofs = Some (d', false) ->
  exists p', bdl_built ga (period_ioc rt pa pb) d' p' (periods * pb).
Proof.
  intros Hgc Hpb Hpa. revert i d p ofs.
  induction n as [|n IH]; intros i d p ofs Hd Hbound Hn Hi Hofs Hb; simpl.
  - intros H. injection H as <-.
    assert (E : (i <? periods) = false) by (apply Z.ltb_ge; lia).
    rewrite E in Hofs. subst ofs. eauto.
  - assert (Hlt : i < periods) by lia.
    assert (E : (i <? periods) = true) by (by apply Z.ltb_lt).
    rewrite E in Hofs. clear E.
    assert (Epb : as_int pb = pb) by (unfold as_int; zlia).
    assert (Epa : as_int (pb - pa) = pb - pa) by (unfold as_int; zlia).
    rewrite Hd, Epb, Epa.
    set (r := if (i =? periods - 1) && negb (pa =? 0) then _ else _).
    destruct r as [[[d1 p1] ofs1]|] eqn:Er; [|done].
    destruct (ofs1 <? 0) eqn:E1; [done|]. apply Z.ltb_ge in E1.
    assert (H1 : bdl_built ga (period_ioc rt pa pb) d1 p1 ofs1 /\
                 period_bytes d1 = pb /\
                 ofs1 = (if i + 1 <? periods then pa + (i + 1) * pb
                         else periods * pb)).
    { unfold r in Er.
      destruct ((i =? periods - 1) && negb (pa =? 0)) eqn:Eb.
      - apply andb_true_iff in Eb as [Ei Ep].
        apply Z.eqb_eq in Ei. apply negb_true_iff, Z.eqb_neq in Ep.
        pose proof (setup_bdle_config _ _ _ _ _ _ _ _ _ _ Er) as (_ & C2 & _).
        apply (setup_bdle_tiles ga gc (period_ioc rt pa pb)) in Er;
          [|done|done|nia|nia| |done].
        + destruct Er as [Hb1 ->]. split; [done|]. split; [congruence|].
          assert (E : (i + 1 <? periods) = false) by (apply Z.ltb_ge; lia).
          rewrite E. nia.
        + intros e He. unfold period_ioc. rewrite andb_false_l.
          apply andb_false_iff. right. apply Z.eqb_neq. intros Hm.
          assert (Hq : ((e - pa) mod pb =? 0) = (e - pa =? (i + 1) * pb)).
          { apply mod_zero_between; [done|nia]. }
          apply Z.eqb_eq in Hm. rewrite Hm in Hq. symmetry in Hq.
          apply Z.eqb_eq in Hq. nia.
      - pose proof (setup_bdle_config _ _ _ _ _ _ _ _ _ _ Er) as (_ & C2 & _).
        apply (setup_bdle_tiles ga gc (period_ioc rt pa pb)) in Er;
          [|done|done|nia|nia| |done].
        + destruct Er as [Hb1 ->]. split; [done|]. split; [congruence|].
          destruct (i + 1 <? periods) eqn:E; [apply Z.ltb_lt in E; nia|].
          apply Z.ltb_ge in E. apply andb_false_iff in Eb as [Eb|Eb].
          * apply Z.eqb_neq in Eb. lia.
          * apply negb_false_iff, Z.eqb_eq in Eb. nia.
        + intros e He. unfold period_ioc. f_equal.
          rewrite (mod_zero_between pb i) by (done || nia).
          destruct (e - pa =? (i + 1) * pb) eqn:A;
            destruct (e =? ofs + pb) eqn:B; try done;
            [apply Z.eqb_eq in A; apply Z.eqb_neq in B
            |apply Z.eqb_neq in A; apply Z.eqb_eq in B]; nia. }
    destruct H1 as (Hb1 & Hd1 & Hofs1). clearbody r. clear Er.
    apply IH; [done|done|lia|lia|done|done].
Qed.

Lemma setup_periods_tiles (ga : Z -> Z) (gc : Z -> Z -> Z) (adj : Z)
    (rt : snd_pcm_runtime) (d d' : azx_dev) :
  (forall o s, 0 < s -> 0 < gc o s <= s) ->
  0 < period_bytes d <= bufsize d ->
  bufsize d + period_bytes d < 2147483648 ->
  0 <= pos_adj_bytes adj rt ->
  azx_setup_periods ga gc adj rt d = Some (d', 0) ->
  0 < frags d' <= AZX_MAX_BDL_ENTRIES /\
  bdl_tiles ga
    (period_ioc rt (effective_pos_adj adj rt d) (period_bytes d)) 0
    (bdl_entries d') /\
  bdl_span (bdl_entries d') = bufsize d / period_bytes d * period_bytes d.
Proof.
  intros Hgc Hpb Hsum Hpa.
  set (pb := period_bytes d). set (periods := bufsize d / pb).
  assert (Hper : 1 <= periods /\ periods * pb <= bufsize d).
  { unfold periods, pb. split.
    - apply Z.div_le_lower_bound; lia.
    - rewrite Z.mul_comm. apply Z.mul_div_le. lia. }
  assert (Hbuilt : forall pa,
    (exists p, bdl_built ga (period_ioc rt pa pb) d' p (periods * pb)) ->
    0 < frags d' <= AZX_MAX_BDL_ENTRIES /\
    bdl_tiles ga (period_ioc rt pa pb) 0 (bdl_entries d') /\
    bdl_span (bdl_entries d') = periods * pb).
  { intros pa (p & _ & Hf & Ht & Hs). split; [|done].
    change AZX_MAX_BDL_ENTRIES with 256. split; [|lia].
    destruct (decide (frags d' = 0)) as [E|E]; [|lia].
    unfold bdl_entries in Hs. rewrite E in Hs. simpl in Hs. nia. }
  unfold effective_pos_adj, azx_setup_periods.
  assert (Epb : as_int (period_bytes d) = pb) by (unfold as_int, pb; zlia).
  rewrite Epb.
  assert (Eu : as_u32 pb = pb) by (unfold as_u32, pb; zlia).
  rewrite Eu.
  destruct (pb =? 0) eqn:E0; [apply Z.eqb_eq in E0; unfold pb in E0; lia|].
  fold periods.
  assert (Ep : as_int periods = periods).
  { unfold as_int. assert (periods <= bufsize d) by nia. zlia. }
  rewrite Ep.
  assert (Hfin : forall pa d0 p,
    0 <= pa < pb -> period_bytes d0 = pb ->
    bdl_built ga (period_ioc rt pa pb) d0 p pa ->
    match setup_periods_loop ga gc (Z.to_nat periods) 0 periods pa rt d0 p pa with
    | Some (d1, true) => Some (d1, - EINVAL)
    | Some (d1, false) => Some (d1, 0)
    | None => None
    end = Some (d', 0) ->
    exists p', bdl_built ga (period_ioc rt pa pb) d' p' (periods * pb)).
  { intros pa d0 p Hpa0 Hd0 Hb0.
    destruct (setup_periods_loop _ _ _ _ _ _ _ _ _ _) as [[d1 [|]]|] eqn:E;
      intros H; [injection H as _ H; unfold EINVAL in H; lia| |done].
    injection H as ->.
    eapply (setup_periods_loop_tiles ga gc rt pa pb periods);
      [exact Hgc|lia|done|exact Hd0|nia| |reflexivity| |exact Hb0|exact E].
    - lia.
    - assert (E1 : (0 <? periods) = true) by (apply Z.ltb_lt; lia).
      rewrite E1. lia. }
  assert (Hb0 : forall f, bdl_built ga f (set_frags 0 d) 0 0).
  { intros f. unfold bdl_built. simpl. split_and!; try done; lia. }
  destruct (0 <? adj).
  - destruct (pb <=? pos_adj_bytes adj rt) eqn:E1.
    + intros H. apply Hbuilt.
      apply (Hfin 0 (set_frags 0 d) 0); [lia|reflexivity|apply Hb0|exact H].
    + apply Z.leb_gt in E1. set (pa := pos_adj_bytes adj rt) in *.
      destruct (setup_bdle _ _ _ _ _ _ _) as [[[d1 p1] ofs1]|] eqn:E; [|done].
      destruct (ofs1 <? 0) eqn:E2;
        [intros H; injection H as _ H; unfold EINVAL in H; lia|].
      apply Z.ltb_ge in E2.
      pose proof (setup_bdle_config _ _ _ _ _ _ _ _ _ _ E) as (_ & C2 & _).
      simpl in C2.
      apply (setup_bdle_tiles ga gc (period_ioc rt pa pb)) in E;
        [|done|apply Hb0|lia|lia| |done].
      * destruct E as [Hb1 ->]. rewrite Z.add_0_l, Z.max_r by lia.
        rewrite Z.add_0_l, Z.max_r in Hb1 by lia.
        intros H. apply Hbuilt.
        apply (Hfin pa d1 p1); [lia|exact C2|exact Hb1|exact H].
      * intros e He. unfold period_ioc. f_equal.
        rewrite (mod_zero_between pb (-1)) by lia.
        destruct (e - pa =? (-1 + 1) * pb) eqn:A;
          destruct (e =? 0 + pa) eqn:B; try done;
          [apply Z.eqb_eq in A; apply Z.eqb_neq in B
          |apply Z.eqb_neq in A; apply Z.eqb_eq in B]; lia.
  - intros H. apply Hbuilt.
      apply (Hfin 0 (set_frags 0 d) 0); [lia|reflexivity|apply Hb0|exact H].
Qed.

Lemma page_chunk_contract o s : 0 < s -> 0 < page_chunk o s <= s.
Proof.
  intros Hs. unfold page_chunk.
  pose proof (Z.mod_pos_bound o 4096 ltac:(lia)). lia.
Qed.

(** X6. A descriptor list that was set up without error tiles the buffer.
    With chunk sizes as the PCM core gives them (at least one byte, at most
    what is asked for), a period size above zero and no larger than the
    buffer, and sizes within the range of an int: when [azx_setup_periods]
    returns 0, the stream has between 1 and 256 descriptors; they describe
    consecutive, non-empty stretches of the buffer starting at offset 0,
    each with the DMA address of its offset; together they cover as many
    whole periods as fit in the buffer; and a descriptor asks for an
    interrupt exactly when period wake-ups are on and it ends one position
    adjustment past a period boundary. *)
Theorem bdl_tiles_buffer (ga : Z -> Z) (gc : Z -> Z -> Z) (adj : Z)
    (rt : snd_pcm_runtime) (d d' : azx_dev) :
  (forall o s, 0 < s -> 0 < gc o s <= s) ->
  0 < period_bytes d <= bufsize d ->
  bufsize d + period_bytes d < 2147483648 ->
  0 <= pos_adj_bytes adj rt ->
  azx_setup_periods ga gc adj rt d = Some (d', 0) ->
  0 < frags d' <= AZX_MAX_BDL_ENTRIES /\
  bdl_tiles ga
    (period_ioc rt (effective_pos_adj adj rt d) (period_bytes d)) 0
    (bdl_entries d') /\
  bdl_span (bdl_entries d') = bufsize d / period_bytes d * period_bytes d.
Proof. apply setup_periods_tiles. Qed.

Lemma bdl_tiles_buffer_witness :
  exists d',
    azx_setup_periods page_addr page_chunk 32 rt_small dev_small
    = Some (d', 0) /\
    0 < frags d' <= AZX_MAX_BDL_ENTRIES /\
    bdl_tiles page_addr
      (period_ioc rt_small (effective_pos_adj 32 rt_small dev_small)
         (period_bytes dev_small)) 0 (bdl_entries d') /\
    bdl_span (bdl_entries d')
    = bufsize dev_small / period_bytes dev_small * period_bytes dev_small.
Proof.
  eexists. split; [vm_compute; reflexivity|].
  apply (bdl_tiles_buffer page_addr page_chunk 32 rt_small dev_small).
  - apply page_chunk_contract.
  - simpl. lia.
  - simpl. lia.
  - vm_compute. discriminate.
  - vm_compute. reflexivity.
Defined.

(** ** Preparing again *)

(** Whatever a prepare with a valid format returns, it leaves the requested
    geometry and format in the stream. *)
Lemma prepare_stores BPL ga gc adj dir rt fmt fifo cret d d1 r :
  fmt ≠ 0 ->
  azx_pcm_prepare BPL ga gc adj dir rt fmt fifo cret d = Some (d1, r) ->
  bufsize d1 = buffer_bytes rt /\ period_bytes d1 = lib_period_bytes rt /\
  format_val d1 = fmt.
Proof.
  intros Hfmt. unfold azx_pcm_prepare.
  destruct (fmt =? 0) eqn:E0; [apply Z.eqb_eq in E0; done|].
  set (cfg := if _ || _ || _ then _ else _).
  assert (Hcfg : forall d2 e, cfg = Some (d2, e) ->
            bufsize d2 = buffer_bytes rt /\
            period_bytes d2 = lib_period_bytes rt /\ format_val d2 = fmt).
  { intros d2 e. unfold cfg.
    destruct (negb (buffer_bytes rt =? bufsize d)) eqn:A; simpl.
    { intros H. by apply azx_setup_periods_config in H. }
    destruct (negb (lib_period_bytes rt =? period_bytes d)) eqn:B; simpl.
    { intros H. by apply azx_setup_periods_config in H. }
    destruct (negb (fmt =? format_val d)) eqn:C; simpl.
    { intros H. by apply azx_setup_periods_config in H. }
    intros H. simplify_eq.
    apply negb_false_iff, Z.eqb_eq in A, B, C. done. }
  destruct cfg as [[d2 e]|]; [|done].
  specialize (Hcfg d2 e eq_refl).
  destruct (e <? 0); [intros H; by simplify_eq|].
  destruct (rate rt =? 0); [done|].
  intros H. simplify_eq. by destruct dir.
Qed.

(** X7. Preparing a stream again for the same buffer size, period size
    and format never sets the descriptor list up again, whatever the first
    prepare returned: the second prepare returns what the codec returns and
    leaves the list, the descriptor count and the stored geometry as the
    first one left them. This also holds when the first prepare failed
    while building the list; the list the second prepare goes on with is
    then the one that failed set-up left behind. *)
Theorem prepare_again_keeps_list (BPL : Z) (ga : Z -> Z) (gc : Z -> Z -> Z)
    (adj : Z) (dir : pcm_stream) (rt : snd_pcm_runtime)
    (fmt fifo cret fifo' cret' : Z) (d d1 : azx_dev) (r : Z) :
  fmt ≠ 0 ->
  rate rt ≠ 0 ->
  azx_pcm_prepare BPL ga gc adj dir rt fmt fifo cret d = Some (d1, r) ->
  exists d2,
    azx_pcm_prepare BPL ga gc adj dir rt fmt fifo' cret' d1 = Some (d2, cret') /\
    bdl d2 = bdl d1 /\ frags d2 = frags d1 /\
    bufsize d2 = bufsize d1 /\ period_bytes d2 = period_bytes d1 /\
    format_val d2 = format_val d1.
Proof.
  intros Hfmt Hrate H.
  apply prepare_stores in H as (H1 & H2 & H3); [|done].
  unfold azx_pcm_prepare.
  destruct (fmt =? 0) eqn:E0; [apply Z.eqb_eq in E0; done|].
  rewrite H1, H2, H3, !Z.eqb_refl. simpl.
  destruct (rate rt =? 0) eqn:Er; [apply Z.eqb_eq in Er; done|].
  eexists. split; [reflexivity|]. by destruct dir.
Qed.

Lemma prepare_again_keeps_list_witness :
  exists d1 d2,
    azx_pcm_prepare 32 page_addr page_chunk 32 SNDRV_PCM_STREAM_PLAYBACK
      rt_big 17 3 0 dev_small = Some (d1, - EINVAL) /\
    azx_pcm_prepare 32 page_addr page_chunk 32 SNDRV_PCM_STREAM_PLAYBACK
      rt_big 17 3 0 d1 = Some (d2, 0) /\
    bdl d2 = bdl d1 /\ frags d2 = frags d1 /\
    bufsize d2 = bufsize d1 /\ period_bytes d2 = period_bytes d1 /\
    format_val d2 = format_val d1.
Proof.
  eexists. 
  assert (H : azx_pcm_prepare 32 page_addr page_chunk 32
                SNDRV_PCM_STREAM_PLAYBACK rt_big 17 3 0 dev_small
              = Some (_, - EINVAL)) by (vm_compute; reflexivity).
  destruct (prepare_again_keeps_list 32 page_addr page_chunk 32
              SNDRV_PCM_STREAM_PLAYBACK rt_big 17 3 0 3 0 dev_small _ _
              ltac:(discriminate) ltac:(discriminate) H) as [d2 H2].
  exists d2. split; [exact H|exact H2].
Defined.

(** X8. After hw_params or hw_free, the next prepare sets the descriptor
    list up from scratch. With a valid format, chunk sizes as the PCM core
    gives them, a period size above zero and no larger than the buffer and
    sizes within the range of an int: when such a prepare does not return
    an error, the stream holds the requested geometry and format, and its
    descriptor list, of 1 to 256 entries, tiles the requested buffer in the
    way of [bdl_tiles], whatever list and geometry the stream held
    before. *)
Theorem prepare_after_hw_params (BPL : Z) (ga : Z -> Z) (gc : Z -> Z -> Z)
    (adj : Z) (dir : pcm_stream) (rt : snd_pcm_runtime)
    (fmt fifo cret ret : Z) (d d0 d1 : azx_dev) (r : Z) :
  d0 = fst (azx_pcm_hw_params ret d) \/ d0 = fst (azx_pcm_hw_free ret d) ->
  fmt ≠ 0 ->
  (forall o s, 0 < s -> 0 < gc o s <= s) ->
  0 < lib_period_bytes rt <= buffer_bytes rt ->
  buffer_bytes rt + lib_period_bytes rt < 2147483648 ->
  0 <= pos_adj_bytes adj rt ->
  azx_pcm_prepare BPL ga gc adj dir rt fmt fifo cret d0 = Some (d1, r) ->
  0 <= r ->
  bufsize d1 = buffer_bytes rt /\ period_bytes d1 = lib_period_bytes rt /\
  format_val d1 = fmt /\
  0 < frags d1 <= AZX_MAX_BDL_ENTRIES /\
  bdl_tiles ga
    (period_ioc rt (effective_pos_adj adj rt d1) (lib_period_bytes rt)) 0
    (bdl_entries d1) /\
  bdl_span (bdl_entries d1)
  = buffer_bytes rt / lib_period_bytes rt * lib_period_bytes rt.
Proof.
  intros Hd0 Hfmt Hgc Hpb Hsum Hpa Hprep Hr.
  pose proof (prepare_stores _ _ _ _ _ _ _ _ _ _ _ _ Hfmt Hprep)
    as (S1 & S2 & S3).
  split; [done|]. split; [done|]. split; [done|].
  assert (Hz : bufsize d0 = 0 /\ period_bytes d0 = 0 /\ format_val d0 = 0)
    by (destruct Hd0 as [-> | ->]; done).
  destruct Hz as (Z1 & Z2 & Z3).
  unfold azx_pcm_prepare in Hprep.
  destruct (fmt =? 0) eqn:E0; [apply Z.eqb_eq in E0; done|].
  rewrite Z3, E0 in Hprep. rewrite orb_true_r in Hprep.
  set (dq := set_format_val fmt
               (set_period_bytes (lib_period_bytes rt)
                  (set_bufsize (buffer_bytes rt) d0))) in *.
  destruct (azx_setup_periods ga gc adj rt dq) as [[d2 e]|] eqn:Es; [|done].
  destruct (e <? 0) eqn:Ee; [apply Z.ltb_lt in Ee; simplify_eq; lia|].
  assert (e = 0) as ->.
  { apply Z.ltb_ge in Ee. clear -Es Ee. unfold azx_setup_periods in Es.
    destruct (_ =? 0); [done|].
    assert (Hfin : forall n i per pa dx p ofs,
      match setup_periods_loop ga gc n i per pa rt dx p ofs with
      | Some (dy, true) => Some (dy, - EINVAL)
      | Some (dy, false) => Some (dy, 0)
      | None => None
      end = Some (d2, e) -> e = 0).
    { clear Es. intros n i per pa dx p ofs.
      destruct (setup_periods_loop ga gc n i per pa rt dx p ofs)
        as [[dy [|]]|];
        intros H; simplify_eq; [unfold EINVAL in Ee; lia|done]. }
    destruct (0 <? adj); [|by eapply Hfin].
    destruct (_ <=? _); [by eapply Hfin|].
    destruct (setup_bdle _ _ _ _ _ _ _) as [[[d3 p3] o3]|]; [|done].
    destruct (o3 <? 0); [simplify_eq; unfold EINVAL in Ee; lia|].
    by eapply Hfin. }
  pose proof (setup_periods_tiles ga gc adj rt dq d2 Hgc) as Ht.
  simpl in Ht. specialize (Ht Hpb Hsum Hpa Es).
  destruct (rate rt =? 0); [done|].
  assert (Hsame : frags d1 = frags d2 /\ bdl_entries d1 = bdl_entries d2 /\
                  effective_pos_adj adj rt d1 = effective_pos_adj adj rt dq).
  { simplify_eq. destruct dir; simpl; split_and!; try done;
      unfold effective_pos_adj; simpl;
      by rewrite (proj1 (proj2 (azx_setup_periods_config _ _ _ _ _ _ _ Es))). }
  destruct Hsame as (-> & -> & ->). exact Ht.
Qed.

Lemma prepare_after_hw_params_witness :
  exists d1,
    azx_pcm_prepare 32 page_addr page_chunk 32 SNDRV_PCM_STREAM_PLAYBACK
      rt_small 17 3 0 (fst (azx_pcm_hw_params 0 dev_small)) = Some (d1, 0) /\
    bufsize d1 = buffer_bytes rt_small /\
    period_bytes d1 = lib_period_bytes rt_small /\
    format_val d1 = 17 /\
    0 < frags d1 <= AZX_MAX_BDL_ENTRIES /\
    bdl_tiles page_addr
      (period_ioc rt_small (effective_pos_adj 32 rt_small d1)
         (lib_period_bytes rt_small)) 0 (bdl_entries d1) /\
    bdl_span (bdl_entries d1)
    = buffer_bytes rt_small / lib_period_bytes rt_small
      * lib_period_bytes rt_small.
Proof.
  eexists. split; [vm_compute; reflexivity|].
  apply (prepare_after_hw_params 32 page_addr page_chunk 32
           SNDRV_PCM_STREAM_PLAYBACK rt_small 17 3 0 0 dev_small
           (fst (azx_pcm_hw_params 0 dev_small)) _ 0).
  - left. reflexivity.
  - discriminate.
  - apply page_chunk_contract.
  - simpl. lia.
  - simpl. lia.
  - vm_compute. discriminate.
  - vm_compute. reflexivity.
  - lia.
Defined.

(** * DMA position, continued *)

(** ** Accepting a completion *)

(** The ticks elapsed since a start that was just moved up to the clock. *)
Lemma elapsed_after_rebase BPL W s :
  BPL = 32 \/ BPL = 64 ->
  as_u32 (as_ulong BPL
            (W - as_ulong BPL (s + as_u32 (as_ulong BPL (W - s))))) = 0.
Proof.
  intros [-> | ->]; unfold as_u32, as_ulong.
  - change (2 ^ 32) with 4294967296. zlia.
  - change (2 ^ 64) with 18446744073709551616. zlia.
Qed.

Lemma position_ok_accepted BPL adj c d h c1 d1 :
  azx_position_ok BPL adj c d h = Some (1, c1, d1) ->
  exists pos d2,
    azx_get_position c d h true = Some (pos, c1, d2) /\
    d1 = set_start_wallclk
           (as_ulong BPL (start_wallclk d2 + elapsed_wallclk BPL d h)) d2.
Proof.
  unfold azx_position_ok. cbv zeta.
  destruct (_ <? _); [intros H; by simplify_eq|].
  destruct (azx_get_position c d h true) as [[[pos c2] d2]|]; [|done].
  destruct (period_bytes d2 =? 0); [intros H; by simplify_eq|].
  destruct (_ && _).
  - destruct (negb (adj =? 0)); intros H; by simplify_eq.
  - intros H. simplify_eq. eauto.
Qed.

(** X9. No completion is accepted twice on one reading of the clock. When
    the position check accepts a completion (returns 1), it moves the
    recorded start up to the wall clock: no tick has elapsed any more on
    the same reading, the period in ticks is unchanged, and (for a period
    of at least two ticks) a second check on that reading is rejected as
    too early, leaving controller and stream as they are. *)
Theorem accepted_once (BPL adj : Z) (c : azx) (d : azx_dev) (h : hw_pos)
    (c1 : azx) (d1 : azx_dev) :
  BPL = 32 \/ BPL = 64 ->
  azx_position_ok BPL adj c d h = Some (1, c1, d1) ->
  elapsed_wallclk BPL d1 h = 0 /\
  period_wallclk d1 = period_wallclk d /\
  (3 <= as_ulong BPL (period_wallclk d * 2) ->
   azx_position_ok BPL adj c1 d1 h = Some (-1, c1, d1)).
Proof.
  intros HB H.
  apply position_ok_accepted in H as (pos & d2 & Hpos & ->).
  destruct (get_position_frame _ _ _ _ _ _ _ Hpos) as (_ & _ & _ & E2 & E5 & _).
  assert (He : elapsed_wallclk BPL
                 (set_start_wallclk
                    (as_ulong BPL (start_wallclk d2 + elapsed_wallclk BPL d h))
                    d2) h = 0).
  { unfold elapsed_wallclk. simpl. rewrite E2.
    by apply elapsed_after_rebase. }
  split; [done|]. split; [done|].
  intros Hpw. unfold azx_position_ok. cbv zeta. rewrite He. simpl.
  rewrite E5.
  destruct (0 <? as_ulong BPL (period_wallclk d * 2) / 3) eqn:E; [done|].
  apply Z.ltb_ge in E. exfalso. clear -E Hpw. zlia.
Qed.

Lemma accepted_once_witness :
  elapsed_wallclk 32
    (set_start_wallclk 1300000 dev_small) (mk_hw_pos 100 100 0 1300000) = 0 /\
  period_wallclk (set_start_wallclk 1300000 dev_small)
  = period_wallclk dev_small /\
  (3 <= as_ulong 32 (period_wallclk dev_small * 2) ->
   azx_position_ok 32 32 chip_posbuf (set_start_wallclk 1300000 dev_small)
     (mk_hw_pos 100 100 0 1300000)
   = Some (-1, chip_posbuf, set_start_wallclk 1300000 dev_small)).
Proof.
  apply (accepted_once 32 32 chip_posbuf dev_small
           (mk_hw_pos 100 100 0 1300000) chip_posbuf
           (set_start_wallclk 1300000 dev_small)).
  - left. reflexivity.
  - vm_compute. reflexivity.
Defined.

(** X10. When a completion is accepted. A completion evaluated at least
    2/3 of a period after the recorded start is accepted (the check
    returns 1 and adds the elapsed ticks to the recorded start) whenever
    at least 5/4 of a period has elapsed, or the position is not beyond
    the middle of its period; the interrupt handler then clears the
    pending mark of the stream and reports the period to the PCM core. *)
Theorem completion_accepted (BPL adj : Z) (c : azx) (d : azx_dev)
    (h : hw_pos) (sd_status pos : Z) (c1 : azx) (d1 : azx_dev) :
  as_ulong BPL (period_wallclk d * 2) / 3 <= elapsed_wallclk BPL d h ->
  azx_get_position c d h true = Some (pos, c1, d1) ->
  period_bytes d ≠ 0 ->
  as_ulong BPL (period_wallclk d * 5) / 4 <= elapsed_wallclk BPL d h \/
    pos mod period_bytes d <= period_bytes d / 2 ->
  let d2 := set_start_wallclk
              (as_ulong BPL (start_wallclk d + elapsed_wallclk BPL d h)) d1 in
  azx_position_ok BPL adj c d h = Some (1, c1, d2) /\
  (running d = true -> Z.land sd_status SD_INT_COMPLETE ≠ 0 ->
   azx_interrupt_stream BPL adj c d sd_status h
   = Some (c1, set_irq_pending false d2, [PeriodElapsed])).
Proof.
  intros Hlo Hpos Hpb Hlate d2.
  destruct (get_position_frame _ _ _ _ _ _ _ Hpos)
    as (Hs & Hbus & E1 & E2 & E5 & _).
  assert (Hok : azx_position_ok BPL adj c d h = Some (1, c1, d2)).
  { unfold azx_position_ok. cbv zeta.
    destruct (elapsed_wallclk BPL d h <? as_ulong BPL (period_wallclk d * 2) / 3)
      eqn:E; [apply Z.ltb_lt in E; exfalso; clear -Hlo E; lia|].
    rewrite Hpos, E1, E5, E2.
    destruct (period_bytes d =? 0) eqn:E0;
      [apply Z.eqb_eq in E0; congruence|].
    destruct ((elapsed_wallclk BPL d h <? as_ulong BPL (period_wallclk d * 5) / 4)
              && (period_bytes d / 2 <? pos mod period_bytes d)) eqn:E3;
      [|done].
    apply andb_true_iff in E3 as [A B].
    apply Z.ltb_lt in A, B. exfalso. clear -A B Hlate. lia. }
  split; [done|].
  intros Hrun Hsd. unfold azx_interrupt_stream.
  rewrite Hok, Hrun. destruct Hs as [s Hs]. rewrite Hs.
  rewrite bool_decide_eq_true_2 by eauto.
  destruct (Z.land sd_status SD_INT_COMPLETE =? 0) eqn:E;
    [apply Z.eqb_eq in E; congruence|]. done.
Qed.

Lemma completion_accepted_witness :
  let d2 := set_start_wallclk
              (as_ulong 32 (start_wallclk dev_small
                            + elapsed_wallclk 32 dev_small
                                (mk_hw_pos 100 100 0 1024000))) dev_small in
  azx_position_ok 32 32 chip_posbuf dev_small (mk_hw_pos 100 100 0 1024000)
  = Some (1, chip_posbuf, d2) /\
  (running dev_small = true -> Z.land 4 SD_INT_COMPLETE ≠ 0 ->
   azx_interrupt_stream 32 32 chip_posbuf dev_small 4
     (mk_hw_pos 100 100 0 1024000)
   = Some (chip_posbuf, set_irq_pending false d2, [PeriodElapsed])).
Proof.
  apply (completion_accepted 32 32 chip_posbuf dev_small
           (mk_hw_pos 100 100 0 1024000) 4 100 chip_posbuf dev_small).
  - vm_compute. discriminate.
  - reflexivity.
  - discriminate.
  - right. vm_compute. discriminate.
Defined.

(** ** The position on VIA controllers *)

Lemma boundary_plus_offset pb k x :
  0 < pb -> 0 <= pb * k -> pb * k + pb <= 4294967296 ->
  as_u32 (pb * k + x mod pb) mod pb = x mod pb.
Proof.
  intros Hpb Hk Hb. pose proof (Z.mod_pos_bound x pb Hpb) as Hx.
  unfold as_u32. rewrite (Z.mod_small (pb * k + x mod pb)) by lia.
  rewrite Z.add_comm, Z.mul_comm, Z_mod_plus_full. by rewrite Z.mod_mod by lia.
Qed.

Lemma floor_multiple pb x : 0 < pb -> x - x mod pb = pb * (x / pb).
Proof. intros H. pose proof (Z.div_mod x pb ltac:(lia)). lia. Qed.

(** X11. The correction for VIA controllers keeps the offset within the
    period that the position buffer reports. For a capture stream with a
    period size above zero and no larger than the buffer, a buffer of at
    most 1 GiB that is no smaller than the input FIFO, and a link position
    below 2^31: unless the stream has just been started and the link
    position has not yet passed the FIFO size (then the position returned
    is 0), the position returned lies a whole number of periods above the
    position buffer's offset within its period, and the just-started mark
    of the stream is cleared. *)
Theorem via_position_keeps_offset (d : azx_dev) (h : hw_pos) :
  0 < period_bytes d <= bufsize d ->
  bufsize d <= 1073741824 ->
  0 <= SD_LPIB h < 2147483648 ->
  as_u16 (VIA_IN_STREAM0_FIFO_SIZE h) <= bufsize d ->
  exists pos d1,
    azx_via_get_position SNDRV_PCM_STREAM_CAPTURE d h = Some (pos, d1) /\
    if insufficient d && (SD_LPIB h <=? as_u16 (VIA_IN_STREAM0_FIFO_SIZE h))
    then pos = 0 /\ d1 = d
    else pos mod period_bytes d = posbuf h mod period_bytes d /\
         insufficient d1 = false.
Proof.
  intros Hpb Hbs HL HF. unfold azx_via_get_position.
  destruct (period_bytes d =? 0) eqn:E0; [apply Z.eqb_eq in E0; lia|].
  set (L := SD_LPIB h) in *. set (F := as_u16 (VIA_IN_STREAM0_FIFO_SIZE h)) in *.
  set (P := posbuf h).
  assert (HF0 : 0 <= F < 65536) by (unfold F, as_u16; zlia).
  destruct (insufficient d && (L <=? F)) eqn:Ei; [eauto|].
  set (d1 := if insufficient d then set_insufficient false d else d).
  assert (Hd1 : period_bytes d1 = period_bytes d /\ bufsize d1 = bufsize d /\
                insufficient d1 = false).
  { unfold d1. destruct (insufficient d) eqn:E; simpl; done. }
  destruct Hd1 as (-> & -> & Hins). clearbody d1.
  set (pb := period_bytes d) in *. set (bs := bufsize d) in *.
  set (mini := if L <=? F then as_u32 (bs + L - F) else as_u32 (L - F)).
  assert (Hmini : 0 <= mini < 3221225472).
  { unfold mini. destruct (L <=? F) eqn:E.
    - apply Z.leb_le in E. unfold as_u32. rewrite Z.mod_small; lia.
    - apply Z.leb_gt in E. unfold as_u32. rewrite Z.mod_small; lia. }
  pose proof (Z.mod_pos_bound L pb ltac:(lia)) as HmL.
  pose proof (Z.mod_pos_bound mini pb ltac:(lia)) as Hmm.
  assert (HqL : 0 <= pb * (L / pb))
    by (apply Z.mul_nonneg_nonneg; [lia|apply Z.div_pos; lia]).
  assert (Hqm : 0 <= pb * (mini / pb))
    by (apply Z.mul_nonneg_nonneg; [lia|apply Z.div_pos; lia]).
  assert (HqL2 : pb * (L / pb) <= L) by (apply Z.mul_div_le; lia).
  assert (Hqm2 : pb * (mini / pb) <= mini) by (apply Z.mul_div_le; lia).
  eexists _, d1. split; [reflexivity|]. split; [|done].
  destruct (F <=? L mod pb).
  - replace (as_u32 (L - L mod pb)) with (pb * (L / pb)).
    2:{ unfold as_u32. rewrite Z.mod_small; rewrite floor_multiple; lia. }
    apply boundary_plus_offset; lia.
  - destruct (mini mod pb <=? P mod pb).
    + replace (as_u32 (mini - mini mod pb)) with (pb * (mini / pb)).
      2:{ unfold as_u32. rewrite Z.mod_small; rewrite floor_multiple; lia. }
      apply boundary_plus_offset; lia.
    + replace (as_u32 (mini - mini mod pb + pb)) with (pb * (mini / pb + 1)).
      2:{ unfold as_u32. rewrite Z.mod_small; rewrite floor_multiple; lia. }
      destruct (bs <=? pb * (mini / pb + 1)) eqn:Eb.
      * replace 0 with (pb * 0) at 1 by lia.
        apply boundary_plus_offset; lia.
      * apply Z.leb_gt in Eb. apply boundary_plus_offset; lia.
Qed.

Lemma via_position_keeps_offset_witness :
  exists pos d1,
    azx_via_get_position SNDRV_PCM_STREAM_CAPTURE dev_small
      (mk_hw_pos 9000 8200 64 0) = Some (pos, d1) /\
    if insufficient dev_small && (9000 <=? as_u16 64)
    then pos = 0 /\ d1 = dev_small
    else pos mod period_bytes dev_small = 8200 mod period_bytes dev_small /\
         insufficient d1 = false.
Proof.
  apply (via_position_keeps_offset dev_small (mk_hw_pos 9000 8200 64 0)).
  - simpl. lia.
  - simpl. lia.
  - simpl. lia.
  - vm_compute. discriminate.
Defined.

(** * Stream allocation *)

Lemma dev_at_Some devs j s :
  dev_at devs j = Some s -> 0 <= j < Z.of_nat (length devs).
Proof.
  unfold dev_at. destruct (j <? 0) eqn:E; [done|]. apply Z.ltb_ge in E.
  intros H. apply lookup_lt_Some in H. lia.
Qed.

Lemma dev_at_in devs j :
  0 <= j < Z.of_nat (length devs) -> exists s, dev_at devs j = Some s.
Proof.
  intros H. unfold dev_at.
  destruct (j <? 0) eqn:E; [apply Z.ltb_lt in E; lia|].
  apply lookup_lt_is_Some. lia.
Qed.

Lemma dev_at_upd_eq f r devs s :
  dev_at devs r = Some s -> dev_at (upd_dev f r devs) r = Some (f s).
Proof.
  intros H. unfold upd_dev. rewrite H. unfold dev_at in *.
  destruct (r <? 0); [done|].
  apply list_lookup_insert_eq. by apply lookup_lt_Some in H.
Qed.

Lemma dev_at_upd_ne f r devs j :
  j ≠ r -> dev_at (upd_dev f r devs) j = dev_at devs j.
Proof.
  intros Hne. unfold upd_dev.
  destruct (dev_at devs r) as [s|] eqn:E; [|done].
  apply dev_at_Some in E. unfold dev_at.
  destruct (j <? 0) eqn:Ej; [done|]. apply Z.ltb_ge in Ej.
  apply list_lookup_insert_ne. lia.
Qed.

Lemma upd_dev_upd_dev f g r devs :
  upd_dev f r (upd_dev g r devs) = upd_dev (fun s => f (g s)) r devs.
Proof.
  destruct (dev_at devs r) as [s|] eqn:E.
  - unfold upd_dev at 1. rewrite (dev_at_upd_eq g r devs s E).
    unfold upd_dev. rewrite E. apply list_insert_insert_eq.
  - unfold upd_dev. rewrite E. by rewrite E.
Qed.

Lemma upd_dev_id f r devs :
  (forall s, dev_at devs r = Some s -> f s = s) -> upd_dev f r devs = devs.
Proof.
  intros H. unfold upd_dev. destruct (dev_at devs r) as [s|] eqn:E; [|done].
  rewrite (H s eq_refl). unfold dev_at in E. destruct (r <? 0); [done|].
  by apply list_insert_id.
Qed.

Lemma dev_indices_S base n :
  dev_indices base (S n) = base :: dev_indices (base + 1) n.
Proof.
  unfold dev_indices. simpl. rewrite Z.add_0_r. f_equal.
  rewrite <- seq_shift, map_map. apply map_ext. intros k. lia.
Qed.

Lemma elem_of_dev_indices j base n :
  j ∈ dev_indices base n <-> base <= j < base + Z.of_nat n.
Proof.
  revert base. induction n as [|n IH]; intros base.
  - unfold dev_indices. simpl. rewrite elem_of_nil. lia.
  - rewrite dev_indices_S, elem_of_cons, IH. lia.
Qed.

Lemma elem_of_free_devs devs base n j :
  j ∈ free_devs devs base n <->
  base <= j < base + Z.of_nat n /\ is_free devs j = true.
Proof.
  unfold free_devs. rewrite list_elem_of_In, filter_In, <- list_elem_of_In.
  by rewrite elem_of_dev_indices.
Qed.

(** What the scan of [azx_assign_device] computes. *)
Lemma assign_scan_choice devs key n dev res :
  0 <= dev -> dev + Z.of_nat n <= Z.of_nat (length devs) ->
  assign_scan devs key n dev res
  = Some (match keyed_devs devs key (free_devs devs dev n) with
          | j :: _ => Some j
          | [] => match last (free_devs devs dev n) with
                  | Some j => Some j
                  | None => res
                  end
          end).
Proof.
  revert dev res. induction n as [|n IH]; intros dev res H0 Hn; [done|].
  destruct (dev_at_in devs dev ltac:(lia)) as [s Hs].
  assert (Hf : is_free devs dev = negb (opened (sdev s)))
    by (unfold is_free; by rewrite Hs).
  assert (Hk : has_key devs key dev = (assigned_key s =? key))
    by (unfold has_key; by rewrite Hs).
  simpl assign_scan. rewrite Hs.
  unfold free_devs. rewrite dev_indices_S. simpl List.filter. rewrite Hf.
  destruct (opened (sdev s)); simpl negb; cbv iota.
  - rewrite IH by lia. done.
  - unfold keyed_devs. simpl List.filter. rewrite Hk.
    destruct (assigned_key s =? key); [done|].
    rewrite IH by lia. unfold keyed_devs, free_devs.
    destruct (List.filter (has_key devs key) _); [|done].
    rewrite last_cons. by destruct (last _).
Qed.

Lemma assign_scan_range L devs ss :
  range_ok L devs (stream ss) ->
  assign_scan devs (substream_key ss)
    (Z.to_nat (snd (dev_range L (stream ss)))) (fst (dev_range L (stream ss)))
    None
  = Some (assign_choice devs (substream_key ss)
            (fst (dev_range L (stream ss)))
            (Z.to_nat (snd (dev_range L (stream ss))))).
Proof.
  intros [H0 H1]. rewrite assign_scan_choice by lia.
  unfold assign_choice. destruct (keyed_devs _ _ _); [|done].
  by destruct (last _).
Qed.

Lemma assign_choice_None devs key base n :
  assign_choice devs key base n = None ->
  forall j, base <= j < base + Z.of_nat n -> is_free devs j = false.
Proof.
  unfold assign_choice. destruct (keyed_devs _ _ _) eqn:Ek; [|done].
  intros Hl j Hj. apply last_None in Hl.
  destruct (is_free devs j) eqn:E; [|done].
  assert (Hin : j ∈ free_devs devs base n) by (by apply elem_of_free_devs).
  rewrite Hl in Hin. by apply elem_of_nil in Hin.
Qed.

Lemma assign_choice_Some devs key base n r :
  assign_choice devs key base n = Some r ->
  base <= r < base + Z.of_nat n /\ is_free devs r = true /\
  (forall j, base <= j < base + Z.of_nat n -> is_free devs j = true ->
     has_key devs key j = true -> has_key devs key r = true).
Proof.
  unfold assign_choice. destruct (keyed_devs _ _ _) as [|k l] eqn:Ek.
  - intros Hl. apply last_Some_elem_of in Hl.
    apply elem_of_free_devs in Hl as [H1 H2]. split; [done|]. split; [done|].
    intros j Hj Hf Hk. exfalso.
    assert (Hin : j ∈ keyed_devs devs key (free_devs devs base n)).
    { unfold keyed_devs. rewrite list_elem_of_In, filter_In, <- list_elem_of_In.
      split; [by apply elem_of_free_devs|done]. }
    rewrite Ek in Hin. by apply elem_of_nil in Hin.
  - intros H. injection H as ->.
    assert (Hin : r ∈ keyed_devs devs key (free_devs devs base n))
      by (rewrite Ek; left).
    unfold keyed_devs in Hin.
    rewrite list_elem_of_In, filter_In, <- list_elem_of_In in Hin.
    destruct Hin as [Hin Hk]. apply elem_of_free_devs in Hin as [H1 H2].
    done.
Qed.

Lemma assign_device_spec (L : azx_layout) (devs : list azx_stream)
    (ss : snd_pcm_substream) :
  range_ok L devs (stream ss) ->
  let base := fst (dev_range L (stream ss)) in
  let nums := snd (dev_range L (stream ss)) in
  let key := substream_key ss in
  exists res devs',
    azx_assign_device L devs ss = Some (res, devs') /\
    match res with
    | None =>
        devs' = devs /\
        forall j, base <= j < base + nums -> is_free devs j = false
    | Some r =>
        base <= r < base + nums /\ is_free devs r = true /\
        (exists s, dev_at devs r = Some s /\
           dev_at devs' r
           = Some (set_assigned_key key
                     (set_sdev (set_opened true (sdev s)) s))) /\
        (forall j, j ≠ r -> dev_at devs' j = dev_at devs j) /\
        (forall j, base <= j < base + nums -> is_free devs j = true ->
           has_key devs key j = true -> has_key devs key r = true)
    end.
Proof.
  intros Hr base nums key. unfold azx_assign_device.
  pose proof (assign_scan_range L devs ss Hr) as Hscan.
  fold base nums key in Hscan.
  destruct (dev_range L (stream ss)) as [b n] eqn:Ed.
  simpl in base, nums. unfold base, nums in *. clear base nums.
  fold key. rewrite Hscan.
  destruct (assign_choice devs key b (Z.to_nat n)) as [r|] eqn:Ec.
  - eexists _, _. split; [reflexivity|].
    apply assign_choice_Some in Ec as (H1 & H2 & H3).
    split; [lia|]. split; [done|].
    assert (Hs : exists s, dev_at devs r = Some s).
    { unfold is_free in H2. destruct (dev_at devs r); [eauto|done]. }
    destruct Hs as [s Hs]. split.
    + exists s. split; [done|].
      by apply (dev_at_upd_eq (fun s => set_assigned_key key
                  (set_sdev (set_opened true (sdev s)) s))).
    + split; [intros j Hj; by apply dev_at_upd_ne|].
      intros j Hj. apply H3. lia.
  - eexists _, _. split; [reflexivity|]. split; [done|].
    intros j Hj. eapply assign_choice_None; [exact Ec|lia].
Qed.

(** X12. A stream device is never handed out twice. When the range of the
    direction lies within the array of devices, [azx_assign_device] either
    finds every device of that range opened and returns none, leaving the
    array alone; or returns a device of that range that was not opened,
    marks it opened with the key of the substream and leaves every other
    device as it was. If a free device of the range carried the key of the
    substream, the device returned is one that did. *)
Theorem assign_device_exclusive (L : azx_layout) (devs : list azx_stream)
    (ss : snd_pcm_substream) :
  range_ok L devs (stream ss) ->
  let base := fst (dev_range L (stream ss)) in
  let nums := snd (dev_range L (stream ss)) in
  let key := substream_key ss in
  exists res devs',
    azx_assign_device L devs ss = Some (res, devs') /\
    match res with
    | None =>
        devs' = devs /\
        forall j, base <= j < base + nums -> is_free devs j = false
    | Some r =>
        base <= r < base + nums /\ is_free devs r = true /\
        (exists s, dev_at devs r = Some s /\
           dev_at devs' r
           = Some (set_assigned_key key
                     (set_sdev (set_opened true (sdev s)) s))) /\
        (forall j, j ≠ r -> dev_at devs' j = dev_at devs j) /\
        (forall j, base <= j < base + nums -> is_free devs j = true ->
           has_key devs key j = true -> has_key devs key r = true)
    end.
Proof. apply assign_device_spec. Qed.

Lemma assign_device_exclusive_witness :
  let L := azx_stream_layout 17409 AZX_DRIVER_ICH in
  let ss := mk_substream 0 0 SNDRV_PCM_STREAM_PLAYBACK in
  exists res devs',
    azx_assign_device L (fresh_streams L) ss = Some (res, devs') /\
    match res with
    | None =>
        devs' = fresh_streams L /\
        forall j, fst (dev_range L (stream ss)) <= j
                  < fst (dev_range L (stream ss)) + snd (dev_range L (stream ss)) ->
          is_free (fresh_streams L) j = false
    | Some r =>
        fst (dev_range L (stream ss)) <= r
        < fst (dev_range L (stream ss)) + snd (dev_range L (stream ss)) /\
        is_free (fresh_streams L) r = true /\
        (exists s, dev_at (fresh_streams L) r = Some s /\
           dev_at devs' r
           = Some (set_assigned_key (substream_key ss)
                     (set_sdev (set_opened true (sdev s)) s))) /\
        (forall j, j ≠ r -> dev_at devs' j = dev_at (fresh_streams L) j) /\
        (forall j, fst (dev_range L (stream ss)) <= j
                   < fst (dev_range L (stream ss)) + snd (dev_range L (stream ss)) ->
           is_free (fresh_streams L) j = true ->
           has_key (fresh_streams L) (substream_key ss) j = true ->
           has_key (fresh_streams L) (substream_key ss) r = true)
    end.
Proof.
  apply (assign_device_exclusive (azx_stream_layout 17409 AZX_DRIVER_ICH)
           (fresh_streams (azx_stream_layout 17409 AZX_DRIVER_ICH))
           (mk_substream 0 0 SNDRV_PCM_STREAM_PLAYBACK)).
  split; vm_compute; discriminate.
Defined.

(** ** Getting the same device back *)

Lemma is_free_upd f r devs j :
  (forall s, opened (sdev (f s)) = opened (sdev s)) ->
  is_free (upd_dev f r devs) j = is_free devs j.
Proof.
  intros Hf. unfold is_free. destruct (decide (j = r)) as [->|Hne].
  - destruct (dev_at devs r) as [s|] eqn:E.
    + rewrite (dev_at_upd_eq f r devs s E). by rewrite Hf.
    + unfold upd_dev. by rewrite E, E.
  - by rewrite dev_at_upd_ne.
Qed.

Lemma filter_head_only {A} (f : A -> bool) (l : list A) (r : A) :
  In r l -> f r = true -> (forall j, In j l -> f j = true -> j = r) ->
  exists l', List.filter f l = r :: l'.
Proof.
  intros Hin Hr Hall.
  destruct (List.filter f l) as [|k l'] eqn:E.
  - assert (In r (List.filter f l)) by (by apply filter_In).
    rewrite E in H. done.
  - assert (Hk : In k (List.filter f l)) by (rewrite E; by left).
    apply filter_In in Hk as [Hk1 Hk2]. rewrite (Hall k Hk1 Hk2). eauto.
Qed.

(** X13. A substream that is opened again gets its device back. When
    [azx_assign_device] has assigned a device and that device is released,
    assigning a device for the same substream again (before anything else
    is assigned or released) returns the same device, and the array of
    devices is as it was after the first assignment. *)
Theorem reassign_same_device (L : azx_layout) (devs devs1 : list azx_stream)
    (ss : snd_pcm_substream) (r : Z) :
  range_ok L devs (stream ss) ->
  azx_assign_device L devs ss = Some (Some r, devs1) ->
  azx_assign_device L (azx_release_device r devs1) ss = Some (Some r, devs1).
Proof.
  intros Hr. unfold azx_assign_device.
  pose proof (assign_scan_range L devs ss Hr) as Hscan.
  assert (Hr2 : forall dv, length dv = length devs ->
            range_ok L dv (stream ss)).
  { intros dv Hl. unfold range_ok. rewrite Hl. exact Hr. }
  set (key := substream_key ss) in *.
  set (mark := fun s => set_assigned_key key
                          (set_sdev (set_opened true (sdev s)) s)).
  set (unmark := fun s : azx_stream => set_sdev (set_opened false (sdev s)) s).
  destruct (dev_range L (stream ss)) as [b n] eqn:Ed. simpl in Hscan.
  rewrite Hscan.
  destruct (assign_choice devs key b (Z.to_nat n)) as [r0|] eqn:Ec; [|done].
  intros H. injection H as -> <-.
  pose proof (assign_choice_Some _ _ _ _ _ Ec) as (H1 & H2 & H3).
  assert (Hs : exists s, dev_at devs r = Some s).
  { unfold is_free in H2. destruct (dev_at devs r); [eauto|done]. }
  destruct Hs as [s Hs].
  assert (Hop : opened (sdev s) = false).
  { unfold is_free in H2. rewrite Hs in H2. by apply negb_true_iff in H2. }
  unfold azx_release_device. fold unmark. rewrite upd_dev_upd_dev.
  set (devs2 := upd_dev (fun s => unmark (mark s)) r devs).
  assert (Hlen : length devs2 = length devs).
  { unfold devs2, upd_dev. rewrite Hs. by rewrite length_insert. }
  pose proof (assign_scan_range L devs2 ss (Hr2 devs2 Hlen)) as Hscan2.
  rewrite Ed in Hscan2. simpl in Hscan2. fold key in Hscan2. rewrite Hscan2.
  assert (Hfree : forall j, is_free devs2 j = is_free devs j).
  { intros j. unfold is_free, devs2. destruct (decide (j = r)) as [->|Hne].
    - rewrite (dev_at_upd_eq _ r devs s Hs), Hs. simpl. by rewrite Hop.
    - by rewrite dev_at_upd_ne. }
  assert (Hkey : forall j, has_key devs2 key j
                 = if decide (j = r) then true else has_key devs key j).
  { intros j. unfold has_key, devs2. destruct (decide (j = r)) as [->|Hne].
    - rewrite (dev_at_upd_eq _ r devs s Hs). simpl. apply Z.eqb_refl.
    - by rewrite dev_at_upd_ne. }
  assert (Hfl : free_devs devs2 b (Z.to_nat n) = free_devs devs b (Z.to_nat n)).
  { unfold free_devs. apply filter_ext_in. intros j _. apply Hfree. }
  assert (Hin : In r (free_devs devs b (Z.to_nat n))).
  { apply list_elem_of_In, elem_of_free_devs. done. }
  assert (Hch : assign_choice devs2 key b (Z.to_nat n) = Some r).
  { unfold assign_choice. rewrite Hfl. unfold keyed_devs.
    destruct (has_key devs key r) eqn:Ekr.
    - (* the device already carried the key: the keyed devices are the same *)
      assert (E : List.filter (has_key devs2 key) (free_devs devs b (Z.to_nat n))
                  = List.filter (has_key devs key) (free_devs devs b (Z.to_nat n))).
      { apply filter_ext_in. intros j _. rewrite Hkey.
        destruct (decide (j = r)) as [->|]; done. }
      rewrite E. unfold assign_choice, keyed_devs in Ec.
      destruct (List.filter (has_key devs key) _) as [|k l] eqn:Ef; [|done].
      exfalso. assert (In r (List.filter (has_key devs key)
                               (free_devs devs b (Z.to_nat n))))
        by (by apply filter_In).
      rewrite Ef in H. done.
    - (* no free device carried the key: now this one is the only one *)
      destruct (filter_head_only (has_key devs2 key)
                  (free_devs devs b (Z.to_nat n)) r) as [l' ->]; [done| | |done].
      + rewrite Hkey. by destruct (decide (r = r)).
      + intros j Hj Hk. rewrite Hkey in Hk.
        destruct (decide (j = r)) as [->|Hne]; [done|]. exfalso.
        apply list_elem_of_In, elem_of_free_devs in Hj as [Hj1 Hj2].
        specialize (H3 j Hj1 Hj2 Hk). done. }
  rewrite Hch. f_equal. f_equal. unfold devs2. rewrite upd_dev_upd_dev.
  unfold upd_dev. rewrite Hs. reflexivity.
Qed.

Lemma reassign_same_device_witness :
  let L := azx_stream_layout 17409 AZX_DRIVER_ICH in
  let ss := mk_substream 0 0 SNDRV_PCM_STREAM_PLAYBACK in
  exists devs1,
    azx_assign_device L (fresh_streams L) ss = Some (Some 7, devs1) /\
    azx_assign_device L (azx_release_device 7 devs1) ss = Some (Some 7, devs1).
Proof.
  eexists. split; [vm_compute; reflexivity|].
  apply (reassign_same_device (azx_stream_layout 17409 AZX_DRIVER_ICH)
           (fresh_streams (azx_stream_layout 17409 AZX_DRIVER_ICH)) _
           (mk_substream 0 0 SNDRV_PCM_STREAM_PLAYBACK) 7).
  - split; vm_compute; discriminate.
  - vm_compute. reflexivity.
Defined.

(** ** The key of a substream *)

Lemma testbit_small a k n :
  0 <= a < 2 ^ k -> 0 <= k <= n -> Z.testbit a n = false.
Proof.
  intros Ha Hk. destruct (decide (a = 0)) as [->|Hne]; [apply Z.bits_0|].
  apply Z.bits_above_log2; [lia|].
  assert (Z.log2 a < k) by (apply Z.log2_lt_pow2; lia). lia.
Qed.

Lemma lor_shiftl_add a b k :
  0 <= k -> 0 <= b < 2 ^ k -> Z.lor (Z.shiftl a k) b = a * 2 ^ k + b.
Proof.
  intros Hk Hb. rewrite <- Z.lxor_lor, <- Z.add_nocarry_lxor, Z.shiftl_mul_pow2;
    try done.
  - apply Z.bits_inj'. intros n Hn. rewrite Z.land_spec, Z.bits_0.
    destruct (decide (n < k)).
    + rewrite Z.shiftl_spec_low by lia. done.
    + rewrite (testbit_small b k n) by lia. apply andb_false_r.
  - apply Z.bits_inj'. intros n Hn. rewrite Z.land_spec, Z.bits_0.
    destruct (decide (n < k)).
    + rewrite Z.shiftl_spec_low by lia. done.
    + rewrite (testbit_small b k n) by lia. apply andb_false_r.
Qed.

Lemma substream_key_value ss :
  0 <= pcm_device ss < 32768 -> 0 <= number ss < 16384 ->
  substream_key ss
  = pcm_device ss * 65536 + number ss * 4 + (stream_num (stream ss) + 1).
Proof.
  intros Hd Hn. unfold substream_key.
  assert (Hs : 1 <= stream_num (stream ss) + 1 <= 2)
    by (destruct (stream ss); simpl; lia).
  rewrite (lor_shiftl_add (pcm_device ss) (Z.shiftl (number ss) 2) 16);
    [|lia|rewrite Z.shiftl_mul_pow2 by lia; change (2 ^ 2) with 4;
          change (2 ^ 16) with 65536; lia].
  rewrite Z.shiftl_mul_pow2 by lia. change (2 ^ 2) with 4.
  change (2 ^ 16) with 65536.
  assert (E : Z.lor (pcm_device ss * 65536 + number ss * 4)
                (stream_num (stream ss) + 1)
              = pcm_device ss * 65536 + number ss * 4
                + (stream_num (stream ss) + 1)).
  { assert (E0 : pcm_device ss * 65536 + number ss * 4
                 = Z.shiftl (pcm_device ss * 16384 + number ss) 2)
      by (rewrite Z.shiftl_mul_pow2 by lia; change (2 ^ 2) with 4; lia).
    rewrite E0. rewrite lor_shiftl_add; [|lia|change (2 ^ 2) with 4; lia].
    rewrite Z.shiftl_mul_pow2 by lia. done. }
  rewrite E. unfold as_int. zlia.
Qed.

(** X14. The key made for a substream is non-zero and unique. For PCM
    device numbers below 32768 and substream numbers below 16384, the key
    computed in [azx_assign_device] is never 0 (the key of a device that
    was never assigned), and two substreams with the same key have the
    same device number, substream number and direction. *)
Theorem substream_key_unique (ss1 ss2 : snd_pcm_substream) :
  0 <= pcm_device ss1 < 32768 -> 0 <= number ss1 < 16384 ->
  0 <= pcm_device ss2 < 32768 -> 0 <= number ss2 < 16384 ->
  substream_key ss1 ≠ 0 /\
  (substream_key ss1 = substream_key ss2 -> ss1 = ss2).
Proof.
  intros Hd1 Hn1 Hd2 Hn2.
  rewrite (substream_key_value ss1), (substream_key_value ss2) by done.
  destruct ss1 as [d1 n1 s1], ss2 as [d2 n2 s2]. simpl in *.
  split; [destruct s1; simpl; lia|].
  intros H.
  assert (d1 = d2 /\ n1 = n2 /\ stream_num s1 = stream_num s2)
    as (-> & -> & Hs) by (destruct s1, s2; simpl in *; lia).
  f_equal. by destruct s1, s2.
Qed.

Lemma substream_key_unique_witness :
  substream_key (mk_substream 3 1 SNDRV_PCM_STREAM_CAPTURE) ≠ 0 /\
  (substream_key (mk_substream 3 1 SNDRV_PCM_STREAM_CAPTURE)
   = substream_key (mk_substream 3 1 SNDRV_PCM_STREAM_PLAYBACK) ->
   mk_substream 3 1 SNDRV_PCM_STREAM_CAPTURE
   = mk_substream 3 1 SNDRV_PCM_STREAM_PLAYBACK).
Proof.
  apply (substream_key_unique (mk_substream 3 1 SNDRV_PCM_STREAM_CAPTURE)
           (mk_substream 3 1 SNDRV_PCM_STREAM_PLAYBACK)); simpl; lia.
Defined.

(** ** Opening and closing *)

(** X15. Opening and closing a PCM stream keeps the books of the devices
    balanced. When the range of the direction lies within the array:
    an open that fails (no free device, an error from the codec's open, or
    a runtime without channels, formats or rates) returns a negative value
    and leaves every device as free or as taken as it was; an open that
    succeeds returns 0 and takes exactly one device, of the range of the
    direction and free before, which then carries the substream, its key
    and a cleared running flag, all other devices being untouched; and the
    close of that substream makes the device free again, detached from
    the substream and not running. *)
Theorem open_close_balanced (L : azx_layout) (devs : list azx_stream)
    (ss : snd_pcm_substream) (open_ret : Z) (hw_sane : bool) :
  range_ok L devs (stream ss) ->
  let base := fst (dev_range L (stream ss)) in
  let nums := snd (dev_range L (stream ss)) in
  exists devs1 ret pd,
    azx_pcm_open L devs ss open_ret hw_sane = Some (devs1, ret, pd) /\
    match pd with
    | None => ret < 0 /\ forall j, is_free devs1 j = is_free devs j
    | Some r =>
        ret = 0 /\ base <= r < base + nums /\
        is_free devs r = true /\ is_free devs1 r = false /\
        (exists s1, dev_at devs1 r = Some s1 /\
           substream (sdev s1) = Some (stream ss) /\
           running (sdev s1) = false /\
           assigned_key s1 = substream_key ss) /\
        (forall j, j ≠ r -> dev_at devs1 j = dev_at devs j) /\
        (forall j, is_free (fst (azx_pcm_close r devs1)) j = is_free devs j) /\
        (exists s2, dev_at (fst (azx_pcm_close r devs1)) r = Some s2 /\
           substream (sdev s2) = None /\ running (sdev s2) = false) /\
        snd (azx_pcm_close r devs1) = 0
    end.
Proof.
  intros Hr base nums.
  destruct (assign_device_spec L devs ss Hr) as (res & devs0 & Ha & Hres).
  fold base nums in Hres. unfold azx_pcm_open. rewrite Ha.
  destruct res as [r|].
  2:{ destruct Hres as [-> Hall]. eexists _, _, _. split; [reflexivity|].
      split; [unfold EBUSY; lia|done]. }
  destruct Hres as (Hrange & Hfree & (s & Hs & Hs0) & Hothers & _).
  set (mark := fun s => set_assigned_key (substream_key ss)
                          (set_sdev (set_opened true (sdev s)) s)) in *.
  assert (Hrel : forall j, is_free (azx_release_device r devs0) j
                           = is_free devs j).
  { intros j. unfold is_free, azx_release_device.
    destruct (decide (j = r)) as [->|Hne].
    - rewrite (dev_at_upd_eq _ r devs0 _ Hs0), Hs. simpl.
      unfold is_free in Hfree. rewrite Hs in Hfree. by rewrite Hfree.
    - rewrite dev_at_upd_ne, Hothers by done. done. }
  destruct (open_ret <? 0) eqn:Eo.
  { apply Z.ltb_lt in Eo. eexists _, _, _. split; [reflexivity|]. done. }
  destruct hw_sane; simpl.
  2:{ eexists _, _, _. split; [reflexivity|].
      split; [unfold EINVAL; lia|done]. }
  eexists _, _, _. split; [reflexivity|].
  set (attach := fun s : azx_stream =>
                   set_sdev (set_running false
                               (set_substream (Some (stream ss)) (sdev s))) s).
  assert (H1 : dev_at (upd_dev attach r devs0) r = Some (attach (mark s)))
    by (by apply dev_at_upd_eq).
  split; [done|]. split; [done|]. split; [done|].
  split; [unfold is_free; by rewrite H1|].
  split; [exists (attach (mark s)); by rewrite H1|].
  split; [intros j Hj; rewrite dev_at_upd_ne by done; by apply Hothers|].
  unfold azx_pcm_close, azx_release_device. cbv zeta. simpl fst. simpl snd.
  rewrite !upd_dev_upd_dev.
  split; [|split; [|done]].
  - intros j. unfold is_free. destruct (decide (j = r)) as [->|Hne].
    + rewrite (dev_at_upd_eq _ r devs0 _ Hs0), Hs. simpl.
      unfold is_free in Hfree. rewrite Hs in Hfree. by rewrite Hfree.
    + rewrite dev_at_upd_ne, Hothers by done. done.
  - eexists. rewrite (dev_at_upd_eq _ r devs0 _ Hs0). done.
Qed.

Lemma open_close_balanced_witness :
  let L := azx_stream_layout 17409 AZX_DRIVER_ICH in
  let ss := mk_substream 0 0 SNDRV_PCM_STREAM_CAPTURE in
  exists devs1 ret pd,
    azx_pcm_open L (fresh_streams L) ss 0 true = Some (devs1, ret, pd) /\
    match pd with
    | None => ret < 0 /\
              forall j, is_free devs1 j = is_free (fresh_streams L) j
    | Some r =>
        ret = 0 /\
        fst (dev_range L (stream ss)) <= r
        < fst (dev_range L (stream ss)) + snd (dev_range L (stream ss)) /\
        is_free (fresh_streams L) r = true /\ is_free devs1 r = false /\
        (exists s1, dev_at devs1 r = Some s1 /\
           substream (sdev s1) = Some (stream ss) /\
           running (sdev s1) = false /\
           assigned_key s1 = substream_key ss) /\
        (forall j, j ≠ r -> dev_at devs1 j = dev_at (fresh_streams L) j) /\
        (forall j, is_free (fst (azx_pcm_close r devs1)) j
                   = is_free (fresh_streams L) j) /\
        (exists s2, dev_at (fst (azx_pcm_close r devs1)) r = Some s2 /\
           substream (sdev s2) = None /\ running (sdev s2) = false) /\
        snd (azx_pcm_close r devs1) = 0
    end.
Proof.
  apply (open_close_balanced (azx_stream_layout 17409 AZX_DRIVER_ICH)
           (fresh_streams (azx_stream_layout 17409 AZX_DRIVER_ICH))
           (mk_substream 0 0 SNDRV_PCM_STREAM_CAPTURE) 0 true).
  split; vm_compute; discriminate.
Defined.

(** * Register access *)

Lemma testbit_mod_pow2 a k n :
  0 <= k -> Z.testbit (a mod 2 ^ k) n = (n <? k) && Z.testbit a n.
Proof.
  intros Hk. destruct (n <? k) eqn:E.
  - apply Z.ltb_lt in E. by rewrite Z.mod_pow2_bits_low.
  - apply Z.ltb_ge in E. by rewrite Z.mod_pow2_bits_high.
Qed.

Lemma testbit_as_u8 a n : Z.testbit (as_u8 a) n = (n <? 8) && Z.testbit a n.
Proof. unfold as_u8. change 256 with (2 ^ 8). by apply testbit_mod_pow2. Qed.

Lemma testbit_as_u16 a n : Z.testbit (as_u16 a) n = (n <? 16) && Z.testbit a n.
Proof. unfold as_u16. change 65536 with (2 ^ 16). by apply testbit_mod_pow2. Qed.

Lemma testbit_as_u32 a n : Z.testbit (as_u32 a) n = (n <? 32) && Z.testbit a n.
Proof.
  unfold as_u32. change 4294967296 with (2 ^ 32). by apply testbit_mod_pow2.
Qed.

Lemma testbit_MASK bits n :
  0 <= bits -> 0 <= n -> Z.testbit (MASK bits) n = (n <? bits).
Proof.
  intros Hb Hn. unfold MASK. rewrite Z.shiftl_1_l, Z.sub_1_r, <- Z.ones_equiv.
  destruct (n <? bits) eqn:E.
  - apply Z.ltb_lt in E. apply Z.ones_spec_low. lia.
  - apply Z.ltb_ge in E. apply Z.ones_spec_high. lia.
Qed.

Lemma SHIFT_BITS_nonneg reg : 0 <= SHIFT_BITS reg.
Proof.
  unfold SHIFT_BITS, SHIFT_BYTE, MASK_LONG_ALIGN. apply Z.shiftl_nonneg.
  apply Z.land_nonneg. lia.
Qed.

(** The bits of the word written by [tegra_write]. *)
Lemma tegra_write_bits mem base reg val bits n :
  0 <= bits -> 0 <= n ->
  Z.testbit (rd (tegra_write mem base reg val bits) (ADDR_ALIGN_L base reg)) n
  = (n <? 32) &&
    (if (SHIFT_BITS reg <=? n) && (n <? SHIFT_BITS reg + bits)
     then Z.testbit val (n - SHIFT_BITS reg)
     else Z.testbit (rd mem (ADDR_ALIGN_L base reg)) n
          || Z.testbit val (n - SHIFT_BITS reg)).
Proof.
  intros Hb Hn. pose proof (SHIFT_BITS_nonneg reg) as Hs.
  unfold tegra_write. cbv zeta. rewrite rd_wr_eq, testbit_as_u32.
  f_equal. rewrite Z.lor_spec, Z.land_spec, Z.lnot_spec by done.
  unfold MASK_REG. rewrite !Z.shiftl_spec by done.
  destruct (SHIFT_BITS reg <=? n) eqn:E1; simpl.
  - apply Z.leb_le in E1. rewrite testbit_MASK by lia.
    replace (n - SHIFT_BITS reg <? bits) with (n <? SHIFT_BITS reg + bits)
      by (destruct (n <? SHIFT_BITS reg + bits) eqn:A;
          destruct (n - SHIFT_BITS reg <? bits) eqn:B; try done;
          [apply Z.ltb_lt in A; apply Z.ltb_ge in B
          |apply Z.ltb_ge in A; apply Z.ltb_lt in B]; lia).
    destruct (n <? SHIFT_BITS reg + bits); simpl;
      [by rewrite andb_false_r|by rewrite andb_true_r].
  - apply Z.leb_gt in E1. rewrite (Z.testbit_neg_r _ (n - SHIFT_BITS reg)) by lia.
    simpl. by rewrite andb_true_r.
Qed.

(** X16. A sub-word register written through the Tegra access macros
    reads back, and its neighbours are not disturbed. For a lane that lies
    within its 32-bit word and a value that fits the lane: reading the
    register after writing it returns the value written; a register in
    another lane of the same word reads as before; and no other word of
    the register space changes. *)
Theorem tegra_write_read (mem : gmap Z Z) (base reg val bits : Z) :
  0 < bits -> SHIFT_BITS reg + bits <= 32 -> 0 <= val < 2 ^ bits ->
  tegra_read (tegra_write mem base reg val bits) base reg bits = val /\
  (forall reg' bits',
     0 <= bits' ->
     ADDR_ALIGN_L base reg' = ADDR_ALIGN_L base reg ->
     SHIFT_BITS reg' + bits' <= SHIFT_BITS reg \/
       SHIFT_BITS reg + bits <= SHIFT_BITS reg' ->
     SHIFT_BITS reg' + bits' <= 32 ->
     tegra_read (tegra_write mem base reg val bits) base reg' bits'
     = tegra_read mem base reg' bits') /\
  (forall a, a ≠ ADDR_ALIGN_L base reg ->
     rd (tegra_write mem base reg val bits) a = rd mem a).
Proof.
  intros Hb Hfit Hval. pose proof (SHIFT_BITS_nonneg reg) as Hs.
  split_and!.
  - unfold tegra_read. apply Z.bits_inj'. intros n Hn.
    rewrite Z.land_spec, Z.shiftr_spec, testbit_MASK by lia.
    rewrite tegra_write_bits by lia.
    replace (n + SHIFT_BITS reg - SHIFT_BITS reg) with n by lia.
    destruct (n <? bits) eqn:E.
    + apply Z.ltb_lt in E.
      assert (A : (n + SHIFT_BITS reg <? 32) = true) by (apply Z.ltb_lt; lia).
      assert (B : (SHIFT_BITS reg <=? n + SHIFT_BITS reg) = true)
        by (apply Z.leb_le; lia).
      assert (C : (n + SHIFT_BITS reg <? SHIFT_BITS reg + bits) = true)
        by (apply Z.ltb_lt; lia).
      rewrite A, B, C. simpl. by rewrite andb_true_r.
    + apply Z.ltb_ge in E. rewrite andb_false_r.
      symmetry. apply (testbit_small val bits); lia.
  - intros reg' bits' Hb' Ha Hdis Hfit'.
    pose proof (SHIFT_BITS_nonneg reg') as Hs'.
    unfold tegra_read. rewrite Ha. apply Z.bits_inj'. intros n Hn.
    rewrite !Z.land_spec, !Z.shiftr_spec, testbit_MASK by lia.
    rewrite tegra_write_bits by lia.
    destruct (n <? bits') eqn:E; [|by rewrite !andb_false_r].
    apply Z.ltb_lt in E. rewrite !andb_true_r.
    assert (A : (n + SHIFT_BITS reg' <? 32) = true) by (apply Z.ltb_lt; lia).
    rewrite A. simpl.
    destruct ((SHIFT_BITS reg <=? n + SHIFT_BITS reg')
              && (n + SHIFT_BITS reg' <? SHIFT_BITS reg + bits)) eqn:B.
    + apply andb_true_iff in B as [B1 B2].
      apply Z.leb_le in B1. apply Z.ltb_lt in B2. lia.
    + assert (C : Z.testbit val (n + SHIFT_BITS reg' - SHIFT_BITS reg) = false).
      { destruct (decide (n + SHIFT_BITS reg' < SHIFT_BITS reg)).
        - apply Z.testbit_neg_r. lia.
        - apply (testbit_small val bits); [done|].
          apply andb_false_iff in B as [B|B];
            [apply Z.leb_gt in B|apply Z.ltb_ge in B]; lia. }
      rewrite C. apply orb_false_r.
  - intros a Ha. unfold tegra_write. cbv zeta. by rewrite rd_wr_ne.
Qed.

Lemma tegra_write_read_witness :
  tegra_read (tegra_write {[ 76 := 305419896 ]} 0 77 5 8) 0 77 8 = 5 /\
  (forall reg' bits',
     0 <= bits' ->
     ADDR_ALIGN_L 0 reg' = ADDR_ALIGN_L 0 77 ->
     SHIFT_BITS reg' + bits' <= SHIFT_BITS 77 \/
       SHIFT_BITS 77 + 8 <= SHIFT_BITS reg' ->
     SHIFT_BITS reg' + bits' <= 32 ->
     tegra_read (tegra_write {[ 76 := 305419896 ]} 0 77 5 8) 0 reg' bits'
     = tegra_read {[ 76 := 305419896 ]} 0 reg' bits') /\
  (forall a, a ≠ ADDR_ALIGN_L 0 77 ->
     rd (tegra_write {[ 76 := 305419896 ]} 0 77 5 8) a
     = rd {[ 76 := 305419896 ]} a).
Proof.
  apply (tegra_write_read {[ 76 := 305419896 ]} 0 77 5 8).
  - lia.
  - vm_compute. discriminate.
  - vm_compute. split; [discriminate|reflexivity].
Defined.

(** ** Updating bits of a register *)

Lemma update_pci_byte_bits cfg reg mask val n :
  Z.testbit (rd (update_pci_byte cfg reg mask val) reg) n
  = (n <? 8) && (if Z.testbit mask n then Z.testbit val n
                 else Z.testbit (rd cfg reg) n).
Proof.
  unfold update_pci_byte. cbv zeta. rewrite rd_wr_eq.
  destruct (decide (n < 0)) as [Hn|Hn].
  { rewrite !Z.testbit_neg_r by lia. by rewrite andb_false_r. }
  rewrite testbit_as_u8, Z.lor_spec, testbit_as_u8, !Z.land_spec,
    testbit_as_u8, Z.lnot_spec by lia.
  destruct (n <? 8), (Z.testbit mask n), (Z.testbit val n),
    (Z.testbit (rd cfg reg) n); done.
Qed.

Lemma update_pci_byte_ne cfg reg mask val r :
  r ≠ reg -> rd (update_pci_byte cfg reg mask val) r = rd cfg r.
Proof. intros H. unfold update_pci_byte. cbv zeta. by rewrite rd_wr_ne. Qed.

(** X17. The two helpers that update bits of a register replace exactly
    the bits selected by the mask. After [update_pci_byte] the byte holds,
    in each of its 8 bit positions, the bit of the value where the mask
    has a one and the bit it held before where the mask has a zero; after
    [reg_update_bits] the same holds of the 32 bits of the word; and no
    other register changes. *)
Theorem masked_update (m : gmap Z Z) (reg mask val : Z) :
  (forall n,
     Z.testbit (rd (update_pci_byte m reg mask val) reg) n
     = (n <? 8) && (if Z.testbit mask n then Z.testbit val n
                    else Z.testbit (rd m reg) n)) /\
  (forall n,
     Z.testbit (rd (reg_update_bits m reg mask val) reg) n
     = (n <? 32) && (if Z.testbit mask n then Z.testbit val n
                     else Z.testbit (rd m reg) n)) /\
  (forall r, r ≠ reg ->
     rd (update_pci_byte m reg mask val) r = rd m r /\
     rd (reg_update_bits m reg mask val) r = rd m r).
Proof.
  split_and!.
  - apply update_pci_byte_bits.
  - intros n. unfold reg_update_bits. cbv zeta. rewrite rd_wr_eq.
    destruct (decide (n < 0)) as [Hn|Hn].
    { rewrite !Z.testbit_neg_r by lia. by rewrite andb_false_r. }
    rewrite testbit_as_u32, Z.lor_spec, testbit_as_u32, !Z.land_spec,
      testbit_as_u32, Z.lnot_spec by lia.
    destruct (n <? 32), (Z.testbit mask n), (Z.testbit val n),
      (Z.testbit (rd m reg) n); done.
  - intros r Hr. split; [by apply update_pci_byte_ne|].
    unfold reg_update_bits. cbv zeta. by rewrite rd_wr_ne.
Qed.

Lemma masked_update_witness :
  4 ≠ 0 /\
  rd (update_pci_byte (wr (wr ∅ 0 171) 4 205) 0 7 0) 4
  = rd (wr (wr ∅ 0 171) 4 205) 4 /\
  rd (reg_update_bits (wr (wr ∅ 0 171) 4 205) 0 7 0) 4
  = rd (wr (wr ∅ 0 171) 4 205) 4.
Proof.
  split; [discriminate|].
  apply (masked_update (wr (wr ∅ 0 171) 4 205) 0 7 0). discriminate.
Defined.

(** ** The PCI registers *)

Lemma land_pow2_eqb a k :
  0 <= k -> (Z.land a (2 ^ k) =? 0) = negb (Z.testbit a k).
Proof.
  intros Hk. destruct (Z.testbit a k) eqn:E; simpl.
  - apply Z.eqb_neq. intros H.
    assert (Hb : Z.testbit (Z.land a (2 ^ k)) k = true)
      by (rewrite Z.land_spec, E, Z.pow2_bits_true; done).
    rewrite H, Z.bits_0 in Hb. done.
  - apply Z.eqb_eq. apply Z.bits_inj'. intros n Hn.
    rewrite Z.land_spec, Z.bits_0, Z.pow2_bits_eqb by done.
    destruct (k =? n) eqn:Ek; [|apply andb_false_r].
    apply Z.eqb_eq in Ek. subst n. by rewrite E.
Qed.

(** X18. What [azx_init_pci] leaves in the traffic-class and snoop
    registers. Unless the chip has no TCSEL, bits 0 to 2 of the TCSEL byte
    are zero afterwards and its other bits are as before. On a chip with
    the SCH snoop capability, whose DEVC register holds a 16-bit word, the
    no-snoop bit of DEVC is afterwards set exactly when snooping is off,
    and every other bit of DEVC is as before. *)
Theorem init_pci_registers (driver_caps : Z) (snoop : bool) (cfg : gmap Z Z) :
  (Z.land driver_caps AZX_DCAPS_NO_TCSEL = 0 ->
   forall n,
     Z.testbit (rd (azx_init_pci driver_caps snoop cfg) ICH6_PCIREG_TCSEL) n
     = (3 <=? n) && (n <? 8) && Z.testbit (rd cfg ICH6_PCIREG_TCSEL) n) /\
  (Z.land driver_caps AZX_DCAPS_SCH_SNOOP ≠ 0 ->
   0 <= rd cfg INTEL_SCH_HDA_DEVC < 65536 ->
   forall n, 0 <= n ->
     Z.testbit (rd (azx_init_pci driver_caps snoop cfg) INTEL_SCH_HDA_DEVC) n
     = if n =? 11 then negb snoop
       else Z.testbit (rd cfg INTEL_SCH_HDA_DEVC) n).
Proof.
  unfold azx_init_pci. cbv zeta.
  set (c1 := if Z.land driver_caps AZX_DCAPS_NO_TCSEL =? 0
             then update_pci_byte cfg ICH6_PCIREG_TCSEL 7 0 else cfg).
  set (c2 := if negb (Z.land driver_caps AZX_DCAPS_ATI_SNOOP =? 0)
             then update_pci_byte c1 ATI_SB450_HDAUDIO_MISC_CNTR2_ADDR 7 _
             else c1).
  set (c3 := if negb (Z.land driver_caps AZX_DCAPS_NVIDIA_SNOOP =? 0)
             then _ else c2).
  assert (H12 : forall r, r ≠ ATI_SB450_HDAUDIO_MISC_CNTR2_ADDR ->
                  rd c2 r = rd c1 r).
  { intros r Hr. unfold c2.
    destruct (Z.land driver_caps AZX_DCAPS_ATI_SNOOP =? 0); [done|].
    by apply update_pci_byte_ne. }
  assert (H23 : forall r, r ≠ NVIDIA_HDA_TRANSREG_ADDR ->
                  r ≠ NVIDIA_HDA_ISTRM_COH -> r ≠ NVIDIA_HDA_OSTRM_COH ->
                  rd c3 r = rd c2 r).
  { intros r R1 R2 R3. unfold c3.
    destruct (Z.land driver_caps AZX_DCAPS_NVIDIA_SNOOP =? 0); [done|].
    simpl. by rewrite !update_pci_byte_ne. }
  assert (H01 : forall r, r ≠ ICH6_PCIREG_TCSEL -> rd c1 r = rd cfg r).
  { intros r Hr. unfold c1. destruct (_ =? 0); [|done].
    by apply update_pci_byte_ne. }
  assert (Hdevc : rd c3 INTEL_SCH_HDA_DEVC = rd cfg INTEL_SCH_HDA_DEVC).
  { rewrite H23, H12, H01 by done. done. }
  split.
  - intros Ht n.
    assert (Hc3 : Z.testbit (rd c3 ICH6_PCIREG_TCSEL) n
                  = (3 <=? n) && (n <? 8)
                    && Z.testbit (rd cfg ICH6_PCIREG_TCSEL) n).
    { rewrite H23, H12 by done. unfold c1. rewrite Ht. simpl.
      rewrite update_pci_byte_bits. rewrite Z.bits_0.
      destruct (decide (n < 0)) as [Hn|Hn].
      { rewrite !Z.testbit_neg_r by lia. by rewrite !andb_false_r. }
      replace (Z.testbit 7 n) with (n <? 3).
      2:{ change 7 with (Z.ones 3). destruct (n <? 3) eqn:E.
          - apply Z.ltb_lt in E. symmetry. apply Z.ones_spec_low. lia.
          - apply Z.ltb_ge in E. symmetry. apply Z.ones_spec_high. lia. }
      destruct (Z.ltb_spec n 3), (Z.leb_spec 3 n), (Z.ltb_spec n 8);
        simpl; try lia; try done. }
    destruct (Z.land driver_caps AZX_DCAPS_SCH_SNOOP =? 0); [done|].
    simpl negb. cbv iota. destruct (_ || _); [|done].
    by rewrite rd_wr_ne.
  - intros Hs Hw n Hn.
    destruct (Z.land driver_caps AZX_DCAPS_SCH_SNOOP =? 0) eqn:E;
      [apply Z.eqb_eq in E; done|]. simpl negb. cbv iota.
    rewrite Hdevc. set (w := rd cfg INTEL_SCH_HDA_DEVC) in *.
    assert (Ew : as_u16 w = w) by (unfold as_u16; zlia).
    rewrite Ew. change INTEL_SCH_HDA_DEVC_NOSNOOP with (2 ^ 11).
    rewrite land_pow2_eqb by lia. rewrite negb_involutive.
    assert (Hhi : 16 <= n -> Z.testbit w n = false).
    { intros Hge. apply (testbit_small w 16); [done|lia]. }
    destruct snoop, (Z.testbit w 11) eqn:Eb; cbn [negb andb orb];
      rewrite ?rd_wr_eq, ?Hdevc; fold w.
    + rewrite testbit_as_u16, Z.land_spec, Z.lnot_spec, Z.pow2_bits_eqb
        by lia.
      rewrite (Z.eqb_sym 11 n).
      destruct (n =? 11) eqn:En; simpl; [by rewrite !andb_false_r|].
      rewrite andb_true_r. destruct (Z.ltb_spec n 16); [done|].
      by rewrite Hhi.
    + destruct (n =? 11) eqn:En; [|done].
      apply Z.eqb_eq in En. by subst n.
    + destruct (n =? 11) eqn:En; [|done].
      apply Z.eqb_eq in En. by subst n.
    + rewrite testbit_as_u16, Z.lor_spec, testbit_as_u16, Z.land_spec,
        Z.lnot_spec, Z.pow2_bits_eqb by lia.
      rewrite (Z.eqb_sym 11 n).
      destruct (n =? 11) eqn:En; simpl.
      * apply Z.eqb_eq in En. subst n. rewrite orb_true_r. done.
      * rewrite andb_true_r, orb_false_r.
        destruct (Z.ltb_spec n 16); [done|]. by rewrite Hhi.
Qed.

Lemma init_pci_registers_witness :
  Z.land AZX_DCAPS_SCH_SNOOP AZX_DCAPS_NO_TCSEL = 0 /\
  Z.land AZX_DCAPS_SCH_SNOOP AZX_DCAPS_SCH_SNOOP ≠ 0 /\
  0 <= rd (wr (wr ∅ ICH6_PCIREG_TCSEL 87) INTEL_SCH_HDA_DEVC 291)
         INTEL_SCH_HDA_DEVC < 65536 /\
  (forall n,
     Z.testbit (rd (azx_init_pci AZX_DCAPS_SCH_SNOOP false
                      (wr (wr ∅ ICH6_PCIREG_TCSEL 87) INTEL_SCH_HDA_DEVC 291))
                  ICH6_PCIREG_TCSEL) n
     = (3 <=? n) && (n <? 8)
       && Z.testbit (rd (wr (wr ∅ ICH6_PCIREG_TCSEL 87)
                           INTEL_SCH_HDA_DEVC 291) ICH6_PCIREG_TCSEL) n) /\
  (forall n, 0 <= n ->
     Z.testbit (rd (azx_init_pci AZX_DCAPS_SCH_SNOOP false
                      (wr (wr ∅ ICH6_PCIREG_TCSEL 87) INTEL_SCH_HDA_DEVC 291))
                  INTEL_SCH_HDA_DEVC) n
     = if n =? 11 then negb false
       else Z.testbit (rd (wr (wr ∅ ICH6_PCIREG_TCSEL 87)
                             INTEL_SCH_HDA_DEVC 291) INTEL_SCH_HDA_DEVC) n).
Proof.
  split; [reflexivity|]. split; [vm_compute; discriminate|].
  split; [vm_compute; split; [discriminate|reflexivity]|].
  split.
  - apply (init_pci_registers AZX_DCAPS_SCH_SNOOP false
             (wr (wr ∅ ICH6_PCIREG_TCSEL 87) INTEL_SCH_HDA_DEVC 291)).
    reflexivity.
  - apply (init_pci_registers AZX_DCAPS_SCH_SNOOP false
             (wr (wr ∅ ICH6_PCIREG_TCSEL 87) INTEL_SCH_HDA_DEVC 291)).
    + vm_compute; discriminate.
    + vm_compute; split; [discriminate|reflexivity].
Defined.

(** * Interrupt control, DMA start and the trigger callback *)

Lemma as_u32_as_int x : as_u32 (as_int x) = as_u32 x.
Proof. unfold as_u32, as_int. zlia. Qed.

Lemma testbit_as_int x n : n < 32 -> Z.testbit (as_int x) n = Z.testbit x n.
Proof.
  intros Hn.
  assert (H : Z.testbit (as_u32 (as_int x)) n = Z.testbit (as_u32 x) n)
    by (by rewrite as_u32_as_int).
  rewrite !testbit_as_u32 in H.
  destruct (Z.ltb_spec n 32); [done|lia].
Qed.

Lemma set_bit_spec x k n :
  0 <= k ->
  Z.testbit (as_u32 (Z.lor x (as_u32 (Z.shiftl 1 k)))) n
  = (n <? 32) && (Z.testbit x n || (n =? k)).
Proof.
  intros Hk. rewrite testbit_as_u32, Z.lor_spec, testbit_as_u32, Z.shiftl_1_l.
  destruct (decide (n < 0)) as [Hn|Hn].
  { rewrite !Z.testbit_neg_r by lia.
    destruct (Z.eqb_spec n k); [lia|]. by rewrite !andb_false_r. }
  rewrite Z.pow2_bits_eqb by done. rewrite (Z.eqb_sym k n).
  destruct (n <? 32), (Z.testbit x n), (n =? k); done.
Qed.

Lemma clear_bit_spec x k n :
  0 <= k ->
  Z.testbit (as_u32 (Z.land x (as_u32 (Z.lnot (Z.shiftl 1 k))))) n
  = (n <? 32) && Z.testbit x n && negb (n =? k).
Proof.
  intros Hk. rewrite testbit_as_u32, Z.land_spec, testbit_as_u32, Z.shiftl_1_l.
  destruct (decide (n < 0)) as [Hn|Hn].
  { rewrite !Z.testbit_neg_r by lia. by rewrite !andb_false_r. }
  rewrite Z.lnot_spec, Z.pow2_bits_eqb by lia. rewrite (Z.eqb_sym k n).
  destruct (n <? 32), (Z.testbit x n), (n =? k); done.
Qed.

(** ** One stream *)

Lemma stream_start_spec io s io' s' :
  0 <= index s -> azx_stream_start io s = (io', s') ->
  index s' = index s /\ sd_int_sta_mask s' = sd_int_sta_mask s /\
  assigned_key s' = assigned_key s /\
  sdev s' = set_insufficient true (sdev s) /\
  Z.testbit (SD_CTL s') 1 = true /\
  (forall n, Z.testbit (azx_readl io' ICH6_REG_INTCTL) n
             = (n <? 32) && (Z.testbit (azx_readl io ICH6_REG_INTCTL) n
                             || (n =? index s))) /\
  (forall r, r ≠ ICH6_REG_INTCTL -> rd io' r = rd io r).
Proof.
  intros Hi. unfold azx_stream_start. cbv zeta. intros [= <- <-].
  split_and!; try done.
  - unfold azx_sd_writeb. simpl SD_CTL.
    rewrite testbit_as_u8, !Z.lor_spec. simpl.
    by rewrite orb_true_r.
  - intros n. unfold azx_writel, azx_readl. rewrite rd_wr_eq.
    by apply set_bit_spec.
  - intros r Hr. unfold azx_writel. by rewrite rd_wr_ne.
Qed.

Lemma stream_stop_spec io s io' s' :
  0 <= index s -> azx_stream_stop io s = (io', s') ->
  index s' = index s /\ sd_int_sta_mask s' = sd_int_sta_mask s /\
  assigned_key s' = assigned_key s /\
  sdev s' = sdev s /\
  Z.testbit (SD_CTL s') 1 = false /\
  (forall n, Z.testbit (azx_readl io' ICH6_REG_INTCTL) n
             = (n <? 32) && Z.testbit (azx_readl io ICH6_REG_INTCTL) n
               && negb (n =? index s)) /\
  (forall r, r ≠ ICH6_REG_INTCTL -> rd io' r = rd io r).
Proof.
  intros Hi. unfold azx_stream_stop. cbv zeta. intros [= <- <-].
  split_and!; try done.
  - unfold azx_stream_clear, azx_sd_writeb. simpl SD_CTL.
    rewrite testbit_as_u8, Z.land_spec, Z.lnot_spec by lia. simpl.
    by rewrite andb_false_r.
  - intros n. unfold azx_writel, azx_readl. rewrite rd_wr_eq.
    by apply clear_bit_spec.
  - intros r Hr. unfold azx_writel. by rewrite rd_wr_ne.
Qed.

(** What the body of the loop of the trigger does to a stream. *)
Lemma trigger_stream_spec BPL start rstart w io s io' s' :
  0 <= index s -> trigger_stream BPL start rstart w io s = (io', s') ->
  index s' = index s /\
  running (sdev s') = start /\
  period_wallclk (sdev s') = period_wallclk (sdev s) /\
  Z.testbit (SD_CTL s') 1 = start /\
  (start = true ->
   start_wallclk (sdev s')
   = if rstart then w else as_ulong BPL (w - period_wallclk (sdev s))) /\
  (forall n, Z.testbit (azx_readl io' ICH6_REG_INTCTL) n
             = (n <? 32) && (if n =? index s then start
                             else Z.testbit (azx_readl io ICH6_REG_INTCTL) n))
  /\
  (forall r, r ≠ ICH6_REG_INTCTL -> rd io' r = rd io r).
Proof.
  intros Hi. unfold trigger_stream. destruct start.
  - destruct (azx_stream_start _ _) as [io1 s1] eqn:E.
    intros [= ? ?]. subst io' s'.
    assert (Hi' : 0 <= index (set_sdev
                (if negb rstart
                 then set_start_wallclk
                        (as_ulong BPL
                           (start_wallclk (set_start_wallclk w (sdev s))
                            - period_wallclk (set_start_wallclk w (sdev s))))
                        (set_start_wallclk w (sdev s))
                 else set_start_wallclk w (sdev s)) s)) by done.
    destruct (stream_start_spec _ _ _ _ Hi' E)
      as (E1 & _ & _ & E4 & E5 & E6 & E7). simpl in *.
    rewrite E4. split_and!; try done.
    + by destruct rstart.
    + intros _. by destruct rstart.
    + intros n. rewrite E6. replace (index s) with (index s1)
        by (rewrite E1; by destruct rstart).
      destruct (n =? index s1); [by rewrite orb_true_r|by rewrite orb_false_r].
  - destruct (azx_stream_stop _ _) as [io1 s1] eqn:E.
    intros [= ? ?]. subst io' s'.
    destruct (stream_stop_spec _ _ _ _ Hi E)
      as (E1 & _ & _ & E4 & E5 & E6 & E7). simpl in *.
    rewrite E4. split_and!; try done.
    intros n. rewrite E6.
    by destruct (n <? 32), (Z.testbit _ n), (n =? index s).
Qed.

(** ** The loop over the linked streams *)

Lemma dev_at_lookup devs dev s :
  dev_at devs dev = Some s <-> 0 <= dev /\ devs !! Z.to_nat dev = Some s.
Proof.
  unfold dev_at. destruct (Z.ltb_spec dev 0); split.
  - done.
  - intros [? _]. lia.
  - intros. split; [lia|done].
  - by intros [_ ?].
Qed.

Lemma dev_at_insert_eq devs dev s s1 :
  dev_at devs dev = Some s -> dev_at (<[Z.to_nat dev := s1]> devs) dev = Some s1.
Proof.
  intros H. apply dev_at_lookup in H as [H0 H]. apply dev_at_lookup.
  split; [done|]. apply list_lookup_insert_eq. by apply lookup_lt_Some in H.
Qed.

Lemma dev_at_insert_ne devs dev j s1 :
  0 <= dev -> j ≠ dev ->
  dev_at (<[Z.to_nat dev := s1]> devs) j = dev_at devs j.
Proof.
  intros H0 Hne. unfold dev_at. destruct (Z.ltb_spec j 0); [done|].
  apply list_lookup_insert_ne. lia.
Qed.

Lemma coherent_frame io io' devs :
  rd io' ICH6_REG_INTCTL = rd io ICH6_REG_INTCTL ->
  streams_coherent io devs -> streams_coherent io' devs.
Proof.
  intros E [Hi Hc]. split; [done|]. intros i s Hs.
  destruct (Hc i s Hs) as [H1 H2]. split; [|done].
  unfold azx_readl in *. by rewrite E.
Qed.

Lemma coherent_index io devs dev s :
  streams_coherent io devs -> dev_at devs dev = Some s ->
  index s = dev /\ 0 <= dev < 30.
Proof.
  intros [[Hlen Hi] _] H. apply dev_at_lookup in H as [H0 H].
  pose proof (Hi _ _ H) as E. apply lookup_lt_Some in H. lia.
Qed.

Lemma coherent_step io devs dev s io1 s1 (b : bool) :
  streams_coherent io devs -> dev_at devs dev = Some s ->
  index s1 = index s -> running (sdev s1) = b ->
  Z.testbit (SD_CTL s1) 1 = b ->
  (forall n, Z.testbit (azx_readl io1 ICH6_REG_INTCTL) n
             = (n <? 32) && (if n =? index s then b
                             else Z.testbit (azx_readl io ICH6_REG_INTCTL) n))
  ->
  streams_coherent io1 (<[Z.to_nat dev := s1]> devs).
Proof.
  intros Hc Hs E1 E2 E3 E4.
  destruct (coherent_index _ _ _ _ Hc Hs) as [Ei Hd].
  destruct Hc as [[Hlen Hi] Hc]. apply dev_at_lookup in Hs as [H0 Hs].
  split; [split|].
  - by rewrite length_insert.
  - intros i s0 H. destruct (decide (i = Z.to_nat dev)) as [->|Hne].
    + rewrite list_lookup_insert_eq in H by (by apply lookup_lt_Some in Hs).
      injection H as <-. rewrite E1. by apply Hi.
    + rewrite list_lookup_insert_ne in H by done. by apply Hi.
  - intros i s0 H. destruct (decide (i = Z.to_nat dev)) as [->|Hne].
    + rewrite list_lookup_insert_eq in H by (by apply lookup_lt_Some in Hs).
      injection H as <-. split; [|by rewrite E3, E2].
      rewrite E4, E1, Z.eqb_refl, E2.
      destruct (Z.ltb_spec (index s) 32); [done|lia].
    + rewrite list_lookup_insert_ne in H by done.
      destruct (Hc _ _ H) as [C1 C2]. split; [|done].
      rewrite E4. pose proof (Hi _ _ H) as Ei0.
      pose proof (lookup_lt_Some _ _ _ H) as Hlt.
      destruct (Z.eqb_spec (index s0) (index s)); [lia|].
      destruct (Z.ltb_spec (index s0) 32); [done|lia].
Qed.

Lemma trigger_streams_coherent BPL start rstart l :
  forall wallclks io devs io' devs' wc',
    streams_coherent io devs ->
    trigger_streams BPL start rstart l wallclks io devs
    = Some (io', devs', wc') ->
    streams_coherent io' devs' /\
    (forall n, 30 <= n < 32 ->
       Z.testbit (azx_readl io' ICH6_REG_INTCTL) n
       = Z.testbit (azx_readl io ICH6_REG_INTCTL) n) /\
    (forall r, r ≠ ICH6_REG_INTCTL -> rd io' r = rd io r).
Proof.
  induction l as [|dev l IH]; intros wallclks io devs io' devs' wc' Hc H.
  { simpl in H. injection H as <- <- <-. done. }
  simpl in H. destruct (dev_at devs dev) as [s|] eqn:Es; [|done].
  destruct (if start then read_tape wallclks else (0, wallclks)) as [w wc1].
  destruct (trigger_stream BPL start rstart w io s) as [io1 s1] eqn:Et.
  destruct (coherent_index _ _ _ _ Hc Es) as [Ei Hd].
  apply trigger_stream_spec in Et as (T1 & T2 & T3 & T4 & T5 & T6 & T7);
    [|lia].
  assert (Hc1 : streams_coherent io1 (<[Z.to_nat dev := s1]> devs))
    by (by eapply coherent_step).
  destruct (IH _ _ _ _ _ _ Hc1 H) as (I1 & I2 & I3).
  split_and!; [done| |].
  - intros n Hn. rewrite I2, T6 by done.
    destruct (Z.eqb_spec n (index s)); [lia|].
    destruct (Z.ltb_spec n 32); [done|lia].
  - intros r Hr. by rewrite I3, T7.
Qed.

Lemma trigger_streams_untouched BPL start rstart l :
  forall wallclks io devs io' devs' wc' j,
    trigger_streams BPL start rstart l wallclks io devs
    = Some (io', devs', wc') ->
    j ∉ l -> dev_at devs' j = dev_at devs j.
Proof.
  induction l as [|dev l IH]; intros wallclks io devs io' devs' wc' j H Hj.
  { simpl in H. by injection H as <- <- <-. }
  simpl in H. destruct (dev_at devs dev) as [s|] eqn:Es; [|done].
  destruct (if start then read_tape wallclks else (0, wallclks)) as [w wc1].
  destruct (trigger_stream BPL start rstart w io s) as [io1 s1] eqn:Et.
  apply not_elem_of_cons in Hj as [Hne Hj].
  rewrite (IH _ _ _ _ _ _ _ H Hj).
  apply dev_at_insert_ne; [|done]. by apply dev_at_lookup in Es as [? _].
Qed.

Lemma trigger_streams_touched BPL start rstart l :
  forall wallclks io devs io' devs' wc',
    streams_coherent io devs ->
    trigger_streams BPL start rstart l wallclks io devs
    = Some (io', devs', wc') ->
    forall dev, dev ∈ l ->
      exists s s',
        dev_at devs dev = Some s /\ dev_at devs' dev = Some s' /\
        running (sdev s') = start /\
        period_wallclk (sdev s') = period_wallclk (sdev s) /\
        (start = true -> (length l <= length wallclks)%nat ->
         exists w, w ∈ wallclks /\
           start_wallclk (sdev s')
           = if rstart then w
             else as_ulong BPL (w - period_wallclk (sdev s))).
Proof.
  induction l as [|dev0 l IH];
    intros wallclks io devs io' devs' wc' Hc H dev Hdev.
  { by apply elem_of_nil in Hdev. }
  simpl in H. destruct (dev_at devs dev0) as [s0|] eqn:Es; [|done].
  destruct (if start then read_tape wallclks else (0, wallclks))
    as [w wc1] eqn:Ew.
  destruct (trigger_stream BPL start rstart w io s0) as [io1 s1] eqn:Et.
  destruct (coherent_index _ _ _ _ Hc Es) as [Ei Hd].
  apply trigger_stream_spec in Et as (T1 & T2 & T3 & T4 & T5 & T6 & T7);
    [|lia].
  assert (Hc1 : streams_coherent io1 (<[Z.to_nat dev0 := s1]> devs))
    by (by eapply coherent_step).
  assert (Hw : start = true ->
               (length (dev0 :: l) <= length wallclks)%nat ->
               w ∈ wallclks /\ (forall x, x ∈ wc1 -> x ∈ wallclks) /\
               (length l <= length wc1)%nat).
  { intros -> Hlen. simpl in Hlen.
    destruct wallclks as [|w0 ws]; [simpl in Hlen; lia|].
    injection Ew as <- <-. simpl in Hlen. split_and!.
    - apply elem_of_cons. by left.
    - intros x Hx. apply elem_of_cons. by right.
    - lia. }
  destruct (decide (dev ∈ l)) as [Hin|Hnin].
  - destruct (IH _ _ _ _ _ _ Hc1 H dev Hin)
      as (s & s' & A1 & A2 & A3 & A4 & A5).
    destruct (decide (dev = dev0)) as [->|Hne].
    + rewrite (dev_at_insert_eq _ _ _ _ Es) in A1. injection A1 as <-.
      exists s0, s'. split_and!; try done; [congruence|].
      intros E Hlen. destruct (Hw E Hlen) as (W1 & W2 & W3).
      destruct (A5 E W3) as (x & Hx & Ex). exists x.
      split; [by apply W2|]. by rewrite Ex, T3.
    + rewrite dev_at_insert_ne in A1 by lia.
      exists s, s'. split_and!; try done.
      intros E Hlen. destruct (Hw E Hlen) as (W1 & W2 & W3).
      destruct (A5 E W3) as (x & Hx & Ex). exists x.
      split; [by apply W2|done].
  - apply elem_of_cons in Hdev as [->|?]; [|done].
    exists s0, s1. split_and!; try done.
    + rewrite (trigger_streams_untouched _ _ _ _ _ _ _ _ _ _ _ H Hnin).
      by eapply dev_at_insert_eq.
    + intros E Hlen. exists w. split; [by destruct (Hw E Hlen)|by apply T5].
Qed.

(** ** The callback *)

Lemma trigger_switch_cases cmd :
  trigger_switch cmd = None \/
  exists rstart start, trigger_switch cmd = Some (rstart, start).
Proof. destruct (trigger_switch cmd) as [[??]|]; [right; eauto|by left]. Qed.

(** The shape of the result of a trigger that is not refused: the SYNC
    register is written, the loop runs, the SYNC register is written
    again. *)
Lemma trigger_unfold BPL caps cmd group wallclks io devs rstart start
    ret io' devs' wc' :
  trigger_switch cmd = Some (rstart, start) ->
  azx_pcm_trigger BPL caps cmd group wallclks io devs
  = Some (ret, io', devs', wc') ->
  exists sbits nsync io1 io2,
    let sync := if negb (Z.land caps AZX_DCAPS_OLD_SSYNC =? 0)
                then ICH6_REG_OLD_SSYNC else ICH6_REG_SSYNC in
    ret = 0 /\
    trigger_sbits devs (linked_devs group) 0 0 = Some (sbits, nsync) /\
    io1 = (if 1 <? nsync
           then azx_writel io sync (Z.lor (azx_readl io sync) (as_u32 sbits))
           else io) /\
    trigger_streams BPL start rstart (linked_devs group) wallclks io1 devs
    = Some (io2, devs', wc') /\
    io' = (if 1 <? nsync
           then azx_writel io2 sync
                  (Z.land (azx_readl io2 sync) (as_u32 (Z.lnot sbits)))
           else io2).
Proof.
  intros Es H. unfold azx_pcm_trigger in H. rewrite Es in H.
  cbv zeta in H.
  destruct (trigger_sbits _ _ _ _) as [[sbits nsync]|]; [|done].
  destruct (trigger_streams _ _ _ _ _ _ _) as [[[io2 devs2] wc2]|] eqn:Et;
    [|done].
  eexists sbits, nsync, _, io2. cbv zeta.
  destruct (start && (nsync =? 1)) eqn:E1.
  - injection H as <- <- <- <-. split_and!; try done.
    apply andb_true_iff in E1 as [_ E1]. apply Z.eqb_eq in E1. subst nsync.
    done.
  - injection H as <- <- <- <-. done.
Qed.

Lemma sync_reg_ne caps :
  (if negb (Z.land caps AZX_DCAPS_OLD_SSYNC =? 0)
   then ICH6_REG_OLD_SSYNC else ICH6_REG_SSYNC) ≠ ICH6_REG_INTCTL.
Proof. by destruct (negb _). Qed.

(** X19. The trigger keeps the interrupt enables in step with the running
    flags. When the streams carry their array position as index and, for
    every stream, the SIE bit in INTCTL and the DMA start bit in SD_CTL are
    set exactly when the stream is marked running, the same holds after
    [azx_pcm_trigger], whatever the command and the group; the bits CIE
    and GIE of INTCTL are not changed. A command that is accepted returns
    0, leaves every linked stream of the card marked running exactly when
    the command starts the streams, and leaves the other streams alone; a
    command that is refused returns -EINVAL and changes nothing. *)
Theorem trigger_keeps_coherent (BPL caps cmd : Z) (group : list (bool * Z))
    (wallclks : list Z) (io : gmap Z Z) (devs : list azx_stream) (ret : Z)
    (io' : gmap Z Z) (devs' : list azx_stream) (wc' : list Z) :
  streams_coherent io devs ->
  azx_pcm_trigger BPL caps cmd group wallclks io devs
  = Some (ret, io', devs', wc') ->
  streams_coherent io' devs' /\
  (forall n, 30 <= n < 32 ->
     Z.testbit (azx_readl io' ICH6_REG_INTCTL) n
     = Z.testbit (azx_readl io ICH6_REG_INTCTL) n) /\
  (forall rstart start, trigger_switch cmd = Some (rstart, start) ->
     ret = 0 /\
     (forall dev, dev ∈ linked_devs group ->
        exists s', dev_at devs' dev = Some s' /\ running (sdev s') = start) /\
     (forall j, j ∉ linked_devs group -> dev_at devs' j = dev_at devs j)) /\
  (trigger_switch cmd = None ->
   ret = - EINVAL /\ io' = io /\ devs' = devs /\ wc' = wallclks).
Proof.
  intros Hc H. destruct (trigger_switch_cases cmd) as [En|(rs & st & Es)].
  { unfold azx_pcm_trigger in H. rewrite En in H. injection H as <- <- <- <-.
    split_and!; try done. intros ?? E. by rewrite En in E. }
  destruct (trigger_unfold _ _ _ _ _ _ _ _ _ _ _ _ _ Es H)
    as (sbits & nsync & io1 & io2 & Hret & Hsb & E1 & Ht & E2).
  pose proof (sync_reg_ne caps) as Hne.
  assert (Hc1 : streams_coherent io1 devs).
  { eapply coherent_frame; [|done]. subst io1.
    destruct (1 <? nsync); [|done]. unfold azx_writel. by rewrite rd_wr_ne. }
  destruct (trigger_streams_coherent _ _ _ _ _ _ _ _ _ _ Hc1 Ht)
    as (C1 & C2 & C3).
  assert (E02 : rd io' ICH6_REG_INTCTL = rd io2 ICH6_REG_INTCTL).
  { subst io'. destruct (1 <? nsync); [|done].
    unfold azx_writel. by rewrite rd_wr_ne. }
  assert (E10 : rd io1 ICH6_REG_INTCTL = rd io ICH6_REG_INTCTL).
  { subst io1. destruct (1 <? nsync); [|done].
    unfold azx_writel. by rewrite rd_wr_ne. }
  split_and!.
  - by eapply coherent_frame.
  - intros n Hn. unfold azx_readl in *. by rewrite E02, C2, E10.
  - intros rs' st' Es'. rewrite Es in Es'. injection Es' as <- <-.
    split_and!; [done| |].
    + intros dev Hdev.
      destruct (trigger_streams_touched _ _ _ _ _ _ _ _ _ _ Hc1 Ht dev Hdev)
        as (s & s' & _ & A2 & A3 & _). by exists s'.
    + intros j Hj. by eapply trigger_streams_untouched.
  - intros En. by rewrite En in Es.
Qed.

(** The streams as [azx_init_stream] leaves them. *)
Lemma init_stream_lookup devs i s :
  azx_init_stream devs !! i = Some s ->
  exists s0, devs !! i = Some s0 /\
    s = mk_stream (set_stream_tag (as_u8 (Z.of_nat i + 1)) (sdev s0))
          (as_u8 (Z.of_nat i)) (as_u32 (Z.shiftl 1 (Z.of_nat i)))
          (assigned_key s0) (SD_CTL s0).
Proof.
  unfold azx_init_stream. rewrite list_lookup_imap.
  destruct (devs !! i) as [s0|]; [|done]. simpl. intros [= <-]. by exists s0.
Qed.

Lemma init_stream_indexed devs :
  (length devs <= 30)%nat -> streams_indexed (azx_init_stream devs).
Proof.
  intros Hlen. split.
  - unfold azx_init_stream. by rewrite length_imap.
  - intros i s H. pose proof (lookup_lt_Some _ _ _ H) as Hlt.
    unfold azx_init_stream in Hlt. rewrite length_imap in Hlt.
    apply init_stream_lookup in H as (s0 & _ & ->). simpl.
    unfold as_u8. rewrite Z.mod_small; lia.
Qed.

Lemma fresh_streams_coherent L io :
  num_streams L <= 30 -> rd io ICH6_REG_INTCTL = 0 ->
  streams_coherent io (fresh_streams L).
Proof.
  intros Hn Hio. unfold fresh_streams. split.
  - apply init_stream_indexed. rewrite length_replicate. lia.
  - intros i s H. apply init_stream_lookup in H as (s0 & H0 & ->).
    apply lookup_replicate in H0 as [-> _]. split; simpl.
    + unfold azx_readl. rewrite Hio. apply Z.bits_0.
    + done.
Qed.

Lemma trigger_keeps_coherent_witness :
  exists io' devs' wc',
    azx_pcm_trigger 32 0 SNDRV_PCM_TRIGGER_START
      [(true, 0); (false, 2); (true, 5)] [100; 200] ∅
      (fresh_streams (azx_stream_layout 17409 AZX_DRIVER_ICH))
    = Some (0, io', devs', wc') /\
    streams_coherent io' devs'.
Proof.
  eexists _, _, _. split; [vm_compute; reflexivity|].
  eapply (trigger_keeps_coherent 32 0 SNDRV_PCM_TRIGGER_START
            [(true, 0); (false, 2); (true, 5)] [100; 200] ∅
            (fresh_streams (azx_stream_layout 17409 AZX_DRIVER_ICH))).
  - apply fresh_streams_coherent; [vm_compute; discriminate|reflexivity].
  - vm_compute; reflexivity.
Defined.

(** ** The wall clock at the start of a stream *)

Lemma too_early_position_ok BPL adj c d h :
  too_early BPL d h = true -> azx_position_ok BPL adj c d h = Some (-1, c, d).
Proof.
  unfold too_early, azx_position_ok. cbv zeta. by intros ->.
Qed.

Lemma elapsed_backdated BPL W w pw gap :
  BPL = 32 \/ BPL = 64 ->
  as_u32 (W - w) <= gap -> 0 <= pw -> gap + pw < 2 ^ 32 ->
  as_u32 (as_ulong BPL (W - as_ulong BPL (w - pw))) = as_u32 (W - w) + pw.
Proof.
  intros [-> | ->]; unfold as_u32, as_ulong.
  - change (2 ^ 32) with 4294967296. zlia.
  - change (2 ^ 64) with 18446744073709551616.
    change (2 ^ 32) with 4294967296. zlia.
Qed.

Lemma elapsed_plain BPL W w :
  BPL = 32 \/ BPL = 64 ->
  as_u32 (as_ulong BPL (W - w)) = as_u32 (W - w).
Proof.
  intros [-> | ->]; unfold as_u32, as_ulong.
  - change (2 ^ 32) with 4294967296. zlia.
  - change (2 ^ 64) with 18446744073709551616. zlia.
Qed.

Lemma two_thirds_le BPL pw :
  BPL = 32 \/ BPL = 64 -> 0 <= pw -> as_ulong BPL (pw * 2) / 3 <= pw.
Proof.
  intros [-> | ->] Hp; unfold as_ulong.
  - change (2 ^ 32) with 4294967296. zlia.
  - change (2 ^ 64) with 18446744073709551616. zlia.
Qed.

Lemma two_thirds_small BPL pw :
  BPL = 32 \/ BPL = 64 -> 0 <= pw -> pw * 2 < 2 ^ 32 ->
  as_ulong BPL (pw * 2) / 3 = 2 * pw / 3.
Proof.
  intros [-> | ->] Hp; unfold as_ulong.
  - change (2 ^ 32) with 4294967296. zlia.
  - change (2 ^ 64) with 18446744073709551616.
    change (2 ^ 32) with 4294967296. zlia.
Qed.

(** X21. Where the trigger puts the start of a stream on the wall clock.
    Let a trigger start the linked streams, each with its own reading of
    WALLCLK, and let a later reading of the clock be at most [gap] ticks
    after each of these, with [gap] plus the period of the stream below
    2^32. After PAUSE_RELEASE and RESUME the start is put one period
    before the reading, so the first test of [azx_position_ok] never finds
    an interrupt of the stream too early. After START the start is the
    reading itself: while [gap] is below two thirds of the period the
    interrupt is found too early and [azx_position_ok] returns -1 without
    touching chip or stream. *)
Theorem trigger_rebases_wallclk (BPL caps cmd : Z) (group : list (bool * Z))
    (wallclks : list Z) (io : gmap Z Z) (devs : list azx_stream) (ret : Z)
    (io' : gmap Z Z) (devs' : list azx_stream) (wc' : list Z) (dev : Z)
    (s' : azx_stream) (h : hw_pos) (gap : Z) :
  BPL = 32 \/ BPL = 64 ->
  streams_coherent io devs ->
  azx_pcm_trigger BPL caps cmd group wallclks io devs
  = Some (ret, io', devs', wc') ->
  dev ∈ linked_devs group -> dev_at devs' dev = Some s' ->
  (length (linked_devs group) <= length wallclks)%nat ->
  Forall (fun w => as_u32 (WALLCLK h - w) <= gap) wallclks ->
  0 <= period_wallclk (sdev s') ->
  gap + period_wallclk (sdev s') < 2 ^ 32 ->
  (cmd = SNDRV_PCM_TRIGGER_PAUSE_RELEASE \/ cmd = SNDRV_PCM_TRIGGER_RESUME ->
   too_early BPL (sdev s') h = false) /\
  (cmd = SNDRV_PCM_TRIGGER_START ->
   period_wallclk (sdev s') * 2 < 2 ^ 32 ->
   gap < 2 * period_wallclk (sdev s') / 3 ->
   forall adj c,
     azx_position_ok BPL adj c (sdev s') h = Some (-1, c, sdev s')).
Proof.
  intros HB Hc H Hdev Hs' Hlen Hall Hp Hgap.
  assert (Hgen : forall rstart,
            trigger_switch cmd = Some (rstart, true) ->
            exists w, as_u32 (WALLCLK h - w) <= gap /\
              start_wallclk (sdev s')
              = if rstart then w
                else as_ulong BPL (w - period_wallclk (sdev s'))).
  { intros rstart Es.
    destruct (trigger_unfold _ _ _ _ _ _ _ _ _ _ _ _ _ Es H)
      as (sbits & nsync & io1 & io2 & Hret & Hsb & E1 & Ht & E2).
    assert (Hc1 : streams_coherent io1 devs).
    { eapply coherent_frame; [|done]. subst io1.
      pose proof (sync_reg_ne caps).
      destruct (1 <? nsync); [|done]. unfold azx_writel. by rewrite rd_wr_ne. }
    destruct (trigger_streams_touched _ _ _ _ _ _ _ _ _ _ Hc1 Ht dev Hdev)
      as (s & s2 & A1 & A2 & A3 & A4 & A5).
    rewrite Hs' in A2. injection A2 as <-.
    destruct (A5 eq_refl Hlen) as (w & Hw & Ew).
    exists w. split.
    - rewrite Forall_forall in Hall. by apply Hall.
    - by rewrite Ew, A4. }
  split.
  - intros Hcmd.
    destruct (Hgen false) as (w & Hw & Ew).
    { by destruct Hcmd as [-> | ->]. }
    unfold too_early, elapsed_wallclk. rewrite Ew.
    rewrite (elapsed_backdated BPL _ _ _ gap) by done.
    apply Z.ltb_ge. pose proof (two_thirds_le BPL _ HB Hp).
    assert (0 <= as_u32 (WALLCLK h - w)) by (unfold as_u32; zlia). lia.
  - intros -> Hp2 Hg adj c.
    destruct (Hgen true eq_refl) as (w & Hw & Ew).
    apply too_early_position_ok.
    unfold too_early, elapsed_wallclk. rewrite Ew.
    rewrite elapsed_plain, two_thirds_small by done.
    apply Z.ltb_lt. lia.
Qed.

Lemma devs_paced_coherent : streams_coherent ∅ devs_paced.
Proof.
  split; [split|].
  - vm_compute. lia.
  - intros i s H.
    do 8 (destruct i as [|i]; [by injection H as <-|]). done.
  - intros i s H.
    do 8 (destruct i as [|i]; [by injection H as <-|]). done.
Qed.

Lemma trigger_rebases_wallclk_witness :
  exists io' devs' wc' s',
    azx_pcm_trigger 32 0 SNDRV_PCM_TRIGGER_RESUME [(true, 1)] [5000] ∅
      devs_paced = Some (0, io', devs', wc') /\
    dev_at devs' 1 = Some s' /\
    too_early 32 (sdev s') (mk_hw_pos 0 0 0 5100) = false.
Proof.
  eexists _, _, _, _. split; [vm_compute; reflexivity|].
  split; [vm_compute; reflexivity|].
  refine (proj1 (trigger_rebases_wallclk 32 0 SNDRV_PCM_TRIGGER_RESUME
                   [(true, 1)] [5000] ∅ devs_paced 0 _ _ _ 1 _
                   (mk_hw_pos 0 0 0 5100) 100 _ devs_paced_coherent
                   _ _ _ _ _ _ _) _).
  - by left.
  - vm_compute; reflexivity.
  - vm_compute. apply elem_of_cons. by left.
  - vm_compute; reflexivity.
  - simpl. lia.
  - repeat constructor. vm_compute. discriminate.
  - vm_compute. discriminate.
  - vm_compute. reflexivity.
  - by right.
Defined.

(** ** The SYNC bits *)

Lemma trigger_sbits_spec devs l :
  forall sbits nsync sb ns,
    (forall dev s, dev_at devs dev = Some s -> 0 <= index s) ->
    0 <= nsync -> nsync + Z.of_nat (length l) < 2 ^ 31 ->
    trigger_sbits devs l sbits nsync = Some (sb, ns) ->
    ns = nsync + Z.of_nat (length l) /\
    forall n, 0 <= n < 32 ->
      Z.testbit sb n = Z.testbit sbits n || sync_bit devs l n.
Proof.
  induction l as [|dev l IH]; intros sbits nsync sb ns Hi Hn Hlen H.
  { simpl in *. injection H as <- <-. split; [lia|].
    intros n _. by rewrite orb_false_r. }
  simpl in H. destruct (dev_at devs dev) as [s|] eqn:Es; [|done].
  rewrite length_cons, Nat2Z.inj_succ in Hlen.
  assert (E : as_int (nsync + 1) = nsync + 1).
  { unfold as_int. change (2 ^ 31) with 2147483648 in Hlen. zlia. }
  rewrite E in H. apply IH in H as [-> Hb]; [|done|lia|lia].
  split; [rewrite length_cons, Nat2Z.inj_succ; lia|].
  intros n Hn'. rewrite Hb by done. simpl. rewrite Es.
  rewrite testbit_as_int, Z.lor_spec, testbit_as_int, Z.shiftl_1_l by lia.
  rewrite Z.pow2_bits_eqb by (by eapply Hi).
  by rewrite orb_assoc.
Qed.

(** X22. The SYNC bits are released when the trigger returns. For a
    command that is accepted and a group with at least two streams of the
    card, each bit of the SYNC register in use (OLD_SSYNC on the chips
    with that capability, SSYNC on the others) is afterwards clear if it
    belongs to a stream of the group, and as before otherwise, also when
    it was set before the trigger. With fewer streams the register is not
    written. No register other than this one and INTCTL changes. *)
Theorem trigger_releases_sync (BPL caps cmd : Z) (group : list (bool * Z))
    (wallclks : list Z) (io : gmap Z Z) (devs : list azx_stream) (ret : Z)
    (io' : gmap Z Z) (devs' : list azx_stream) (wc' : list Z)
    (rstart start : bool) :
  streams_coherent io devs ->
  trigger_switch cmd = Some (rstart, start) ->
  azx_pcm_trigger BPL caps cmd group wallclks io devs
  = Some (ret, io', devs', wc') ->
  Z.of_nat (length (linked_devs group)) < 2 ^ 31 ->
  let sync := if negb (Z.land caps AZX_DCAPS_OLD_SSYNC =? 0)
              then ICH6_REG_OLD_SSYNC else ICH6_REG_SSYNC in
  ((2 <= length (linked_devs group))%nat ->
   forall n, 0 <= n ->
     Z.testbit (azx_readl io' sync) n
     = (n <? 32) && Z.testbit (azx_readl io sync) n
       && negb (sync_bit devs (linked_devs group) n)) /\
  ((length (linked_devs group) <= 1)%nat ->
   azx_readl io' sync = azx_readl io sync) /\
  (forall r, r ≠ sync -> r ≠ ICH6_REG_INTCTL -> rd io' r = rd io r).
Proof.
  intros Hc Es H Hlen sync.
  destruct (trigger_unfold _ _ _ _ _ _ _ _ _ _ _ _ _ Es H)
    as (sbits & nsync & io1 & io2 & Hret & Hsb & E1 & Ht & E2).
  fold sync in E1, E2.
  assert (Hne : sync ≠ ICH6_REG_INTCTL) by apply sync_reg_ne.
  assert (Hi : forall dev s, dev_at devs dev = Some s -> 0 <= index s).
  { intros dev s Hs. destruct (coherent_index _ _ _ _ Hc Hs). lia. }
  apply trigger_sbits_spec in Hsb as [Hns Hsb]; [|done|lia|lia].
  assert (Hc1 : streams_coherent io1 devs).
  { eapply coherent_frame; [|done]. subst io1.
    destruct (1 <? nsync); [|done]. unfold azx_writel. by rewrite rd_wr_ne. }
  destruct (trigger_streams_coherent _ _ _ _ _ _ _ _ _ _ Hc1 Ht)
    as (_ & _ & C3).
  split_and!.
  - intros Hl n Hn.
    assert (En : (1 <? nsync) = true) by (apply Z.ltb_lt; lia).
    rewrite En in E1, E2. subst io' io1.
    unfold azx_writel, azx_readl in *. rewrite rd_wr_eq, C3, rd_wr_eq by done.
    rewrite testbit_as_u32, Z.land_spec, !testbit_as_u32, Z.lor_spec,
      testbit_as_u32, Z.lnot_spec by done.
    destruct (Z.ltb_spec n 32); [|done]. simpl.
    rewrite Hsb by lia. simpl.
    rewrite Z.bits_0. simpl.
    by destruct (Z.testbit (rd io sync) n), (sync_bit _ _ n).
  - intros Hl.
    assert (En : (1 <? nsync) = false) by (apply Z.ltb_ge; lia).
    rewrite En in E1, E2. subst io' io1.
    unfold azx_readl. by rewrite C3.
  - intros r Hr1 Hr2. unfold azx_writel in *.
    destruct (1 <? nsync); subst io' io1;
      rewrite ?rd_wr_ne, C3, ?rd_wr_ne by done; done.
Qed.

Lemma trigger_releases_sync_witness :
  exists io' devs' wc',
    azx_pcm_trigger 32 0 SNDRV_PCM_TRIGGER_START
      [(true, 0); (false, 2); (true, 5)] [100; 200] (wr ∅ ICH6_REG_SSYNC 33)
      devs_paced = Some (0, io', devs', wc') /\
    forall n, 0 <= n ->
      Z.testbit (azx_readl io' ICH6_REG_SSYNC) n
      = (n <? 32) && Z.testbit (azx_readl (wr ∅ ICH6_REG_SSYNC 33)
                                  ICH6_REG_SSYNC) n
        && negb (sync_bit devs_paced [0; 5] n).
Proof.
  eexists _, _, _. split; [vm_compute; reflexivity|].
  refine (proj1 (trigger_releases_sync 32 0 SNDRV_PCM_TRIGGER_START
                   [(true, 0); (false, 2); (true, 5)] [100; 200]
                   (wr ∅ ICH6_REG_SSYNC 33) devs_paced 0 _ _ _ true true
                   _ _ _ _) _).
  - apply (coherent_frame ∅); [reflexivity|apply devs_paced_coherent].
  - reflexivity.
  - vm_compute; reflexivity.
  - vm_compute; reflexivity.
  - simpl. lia.
Defined.

(** ** Disabling the interrupts *)

Lemma int_mask_bits n :
  0 <= n -> Z.testbit SD_INT_MASK n = (2 <=? n) && (n <=? 4).
Proof.
  intros Hn.
  change SD_INT_MASK with (Z.lor (Z.lor (2 ^ 4) (2 ^ 3)) (2 ^ 2)).
  rewrite !Z.lor_spec, !Z.pow2_bits_eqb by lia.
  destruct (Z.eqb_spec 4 n), (Z.eqb_spec 3 n), (Z.eqb_spec 2 n),
    (Z.leb_spec 2 n), (Z.leb_spec n 4); simpl; try done; lia.
Qed.

Lemma int_en_bits n :
  0 <= n ->
  Z.testbit (Z.lor ICH6_INT_CTRL_EN ICH6_INT_GLOBAL_EN) n
  = (n =? 30) || (n =? 31).
Proof.
  intros Hn. unfold ICH6_INT_CTRL_EN, ICH6_INT_GLOBAL_EN.
  change 1073741824 with (2 ^ 30). change 2147483648 with (2 ^ 31).
  rewrite Z.lor_spec, !Z.pow2_bits_eqb by lia.
  by rewrite (Z.eqb_sym 30), (Z.eqb_sym 31).
Qed.

Lemma readb_bits v n : Z.testbit (azx_readb v) n = (n <? 8) && Z.testbit v n.
Proof.
  unfold azx_readb. rewrite Z.land_spec.
  destruct (decide (n < 0)) as [Hn|Hn].
  { rewrite !Z.testbit_neg_r by lia. by destruct (n <? 8). }
  change 255 with (Z.ones 8). destruct (Z.ltb_spec n 8).
  - rewrite Z.ones_spec_low by lia. apply andb_true_r.
  - rewrite Z.ones_spec_high by lia. apply andb_false_r.
Qed.

(** X20. What [azx_int_enable] switches on and [azx_int_disable] switches
    off. The first sets the bits CIE and GIE of INTCTL and leaves the
    other bits alone. After the second the bits CIE and GIE of INTCTL are
    clear and so are the SIE bits of streams 0 to 7; the SIE bits of
    streams 8 to 29 are as before. In SD_CTL of every stream
    the three interrupt enables are clear, and the other bits of the byte,
    the DMA start bit among them, are as before. Nothing else changes in
    the streams and no other register is written. *)
Theorem int_disable_bits (io : gmap Z Z) (devs : list azx_stream) :
  let io' := fst (azx_int_disable io devs) in
  let devs' := snd (azx_int_disable io devs) in
  (forall n, 0 <= n ->
     Z.testbit (azx_readl (azx_int_enable io) ICH6_REG_INTCTL) n
     = (n <? 32) && (Z.testbit (azx_readl io ICH6_REG_INTCTL) n
                     || (n =? 30) || (n =? 31))) /\
  (forall n, 0 <= n ->
     Z.testbit (azx_readl io' ICH6_REG_INTCTL) n
     = (8 <=? n) && (n <? 30)
       && Z.testbit (azx_readl io ICH6_REG_INTCTL) n) /\
  (forall r, r ≠ ICH6_REG_INTCTL -> rd io' r = rd io r) /\
  length devs' = length devs /\
  (forall i s, devs !! i = Some s ->
     exists s', devs' !! i = Some s' /\
       sdev s' = sdev s /\ index s' = index s /\
       sd_int_sta_mask s' = sd_int_sta_mask s /\
       assigned_key s' = assigned_key s /\
       forall n, 0 <= n ->
         Z.testbit (SD_CTL s') n
         = (n <? 8) && negb ((2 <=? n) && (n <=? 4))
           && Z.testbit (SD_CTL s) n).
Proof.
  unfold azx_int_disable. cbv zeta. simpl fst. simpl snd. split_and!.
  - intros n Hn. unfold azx_int_enable, azx_writel, azx_readl.
    rewrite rd_wr_eq, testbit_as_u32, <- Z.lor_assoc, Z.lor_spec, int_en_bits
      by done.
    by rewrite orb_assoc.
  - intros n Hn. unfold azx_writel, azx_writeb, azx_readl.
    rewrite rd_wr_eq, testbit_as_u32, Z.land_spec, testbit_as_u32,
      Z.lnot_spec, int_en_bits by done.
    assert (ES : SHIFT_BITS ICH6_REG_INTCTL = 0) by reflexivity.
    assert (EA : ADDR_ALIGN_L 0 ICH6_REG_INTCTL = ICH6_REG_INTCTL)
      by reflexivity.
    pose proof (tegra_write_bits io 0 ICH6_REG_INTCTL 0 8 n) as Hb.
    rewrite ES, EA, Z.bits_0, orb_false_r in Hb. rewrite Hb by lia.
    destruct (Z.ltb_spec n 32), (Z.leb_spec 0 n), (Z.ltb_spec n (0 + 8)),
      (Z.leb_spec 8 n), (Z.ltb_spec n 30), (Z.eqb_spec n 30),
      (Z.eqb_spec n 31); simpl; try lia; try done.
    all: by destruct (Z.testbit (rd io ICH6_REG_INTCTL) n).
  - intros r Hr. unfold azx_writel, azx_writeb, tegra_write. cbv zeta.
    change (ADDR_ALIGN_L 0 ICH6_REG_INTCTL) with ICH6_REG_INTCTL.
    by rewrite !rd_wr_ne.
  - by rewrite length_map.
  - intros i s Hs. eexists. split; [by rewrite list_lookup_fmap, Hs|].
    split_and!; try done. intros n Hn.
    unfold azx_sd_writeb, azx_sd_readb. simpl SD_CTL.
    rewrite testbit_as_u8, Z.land_spec, readb_bits, Z.lnot_spec, int_mask_bits
      by done.
    by destruct (n <? 8), (Z.testbit (SD_CTL s) n), ((2 <=? n) && (n <=? 4)).
Qed.

Lemma int_disable_bits_witness :
  0 <= 9 /\
  Z.testbit (azx_readl (fst (azx_int_disable
                               (wr ∅ ICH6_REG_INTCTL 3221226241) devs_paced))
               ICH6_REG_INTCTL) 9
  = (8 <=? 9) && (9 <? 30)
    && Z.testbit (azx_readl (wr ∅ ICH6_REG_INTCTL 3221226241)
                    ICH6_REG_INTCTL) 9.
Proof.
  split; [lia|].
  apply (proj1 (proj2 (int_disable_bits (wr ∅ ICH6_REG_INTCTL 3221226241)
                         devs_paced))). lia.
Defined.

(** * The interrupt handler and the pending period updates *)

(** ** What a position check changes *)

Lemma set_position_fix_id c : set_position_fix (position_fix c) c = c.
Proof. by destruct c. Qed.

Lemma set_position_fix_twice p q c :
  set_position_fix p (set_position_fix q c) = set_position_fix p c.
Proof. done. Qed.

Lemma set_fix_position_fix s f c :
  exists pf, set_fix s f c = set_position_fix pf c.
Proof. destruct s; simpl; eauto. Qed.

Lemma same_dev_refl d : same_dev d d.
Proof. by repeat split. Qed.

Lemma same_dev_trans d1 d2 d3 :
  same_dev d1 d2 -> same_dev d2 d3 -> same_dev d1 d3.
Proof.
  unfold same_dev. intros H1 H2. destruct_and!. split_and!; congruence.
Qed.

Lemma same_setup_refl s : same_setup s s.
Proof. repeat split. Qed.

Lemma same_setup_trans s1 s2 s3 :
  same_setup s1 s2 -> same_setup s2 s3 -> same_setup s1 s3.
Proof.
  intros (A1 & A2 & A3 & A4 & A5) (B1 & B2 & B3 & B4 & B5).
  split_and!; try congruence. by eapply same_dev_trans.
Qed.

Lemma same_setup_sdev s d :
  same_dev (sdev s) d -> same_setup s (set_sdev d s).
Proof. intros H. by split_and!. Qed.

(** The verdict of [azx_position_ok] is -1, 0 or 1, and 0 only with a
    position adjustment; the chip changes in the position fix at most, the
    stream in the start on the wall clock and the mark of the VIA
    correction. *)
Lemma position_ok_frame BPL adj c d h ok c1 d1 :
  azx_position_ok BPL adj c d h = Some (ok, c1, d1) ->
  (ok = -1 \/ (ok = 0 /\ adj ≠ 0) \/ ok = 1) /\
  (exists pf, c1 = set_position_fix pf c) /\
  same_dev d d1 /\ irq_pending d1 = irq_pending d.
Proof.
  unfold azx_position_ok. cbv zeta.
  assert (Hid : exists pf, c = set_position_fix pf c).
  { exists (position_fix c). by rewrite set_position_fix_id. }
  destruct (_ <? _).
  { intros [= <- <- <-].
    refine (conj _ (conj Hid (conj (same_dev_refl d) eq_refl))). by left. }
  destruct (azx_get_position c d h true) as [[[pos c2] d2]|] eqn:Ep; [|done].
  apply get_position_switch in Ep as (raw & Ep & _).
  apply position_switch_frame in Ep as (s & Hs & Hc & Hd).
  assert (Hpf : exists pf, c2 = set_position_fix pf c).
  { destruct Hc as [->|(_ & _ & ->)]; [done|apply set_fix_position_fix]. }
  assert (Hsd : same_dev d d2 /\ irq_pending d2 = irq_pending d).
  { destruct Hd as [->| ->]; split; try done; apply same_dev_refl. }
  destruct Hsd as [Hsd Hip].
  destruct (period_bytes d2 =? 0).
  { intros [= <- <- <-]. refine (conj _ (conj Hpf (conj Hsd Hip))). by left. }
  destruct (_ && _).
  - intros [= <- <- <-]. refine (conj _ (conj Hpf (conj Hsd Hip))).
    destruct (Z.eqb_spec adj 0); simpl; [by left|right; by left].
  - intros [= <- <- <-]. refine (conj _ (conj Hpf (conj _ Hip))).
    + by right; right.
    + eapply same_dev_trans; [done|]. by repeat split.
Qed.

(** ** One stream in the interrupt handler *)


(** ** The stream loop of the interrupt handler *)




(** ** The handler *)






(** ** The pending period updates *)

Lemma reports_rel_refl devs : reports_rel [] devs devs.
Proof.
  split; [done|]. split; [constructor|]. split.
  { by intros j ?%elem_of_nil. }
  intros k s Hk. exists s. split; [done|]. split; [apply same_setup_refl|].
  split; [by intros ?%elem_of_nil|done].
Qed.

Lemma reports_rel_trans l1 l2 a b c :
  reports_rel l1 a b -> reports_rel l2 b c -> reports_rel (l1 ++ l2) a c.
Proof.
  intros (Hlen1 & Hnd1 & Hr1 & Hall1) (Hlen2 & Hnd2 & Hr2 & Hall2).
  assert (Hdisj : forall j, j ∈ l1 -> j ∉ l2).
  { intros j H1 H2. pose proof (Hr1 j H1) as Hj.
    destruct (lookup_lt_is_Some_2 a (Z.to_nat j)) as [s Hs]; [lia|].
    destruct (Hall1 _ _ Hs) as (s1 & Hs1 & _ & R1 & _).
    destruct (Hall2 _ _ Hs1) as (s2 & _ & _ & Q1 & _).
    rewrite Z2Nat.id in R1, Q1 by lia.
    destruct (R1 H1) as (_ & _ & _ & A). destruct (Q1 H2) as (B & _).
    congruence. }
  split; [congruence|]. split; [by apply NoDup_app|]. split.
  { intros j Hj. apply elem_of_app in Hj as [Hj|Hj].
    - by apply Hr1.
    - apply Hr2 in Hj. lia. }
  intros k s Hk.
  destruct (Hall1 _ _ Hk) as (s1 & Hs1 & Hss1 & R1 & R2).
  destruct (Hall2 _ _ Hs1) as (s2 & Hs2 & Hss2 & Q1 & Q2).
  exists s2. split; [done|]. split; [by eapply same_setup_trans|].
  destruct Hss1 as (_ & _ & _ & _ & Hd1).
  destruct Hd1 as (_ & _ & _ & _ & _ & _ & Esub & _ & _ & _ & Erun).
  split.
  - intros Hin. apply elem_of_app in Hin as [Hin|Hin].
    + destruct (R1 Hin) as (A1 & A2 & A3 & A4).
      split_and!; try done. rewrite Q2; [done|]. by apply Hdisj.
    + destruct (Q1 Hin) as (B1 & B2 & B3 & B4).
      assert (Hn1 : Z.of_nat k ∉ l1) by (intros ?; by eapply Hdisj).
      rewrite <- (R2 Hn1), <- Esub, <- Erun. done.
  - intros Hn. apply not_elem_of_app in Hn as [Hn1 Hn2].
    by rewrite (Q2 Hn2), (R2 Hn1).
Qed.

(** The examination of one stream: with a report the mark is cleared,
    without one it is kept. *)
Lemma reports_rel_exam devs i s d (report : bool) :
  devs !! i = Some s -> same_dev (sdev s) d ->
  (if report then
     irq_pending (sdev s) = true /\ is_Some (substream (sdev s)) /\
     running (sdev s) = true /\ irq_pending d = false
   else irq_pending d = irq_pending (sdev s)) ->
  reports_rel (if report then [Z.of_nat i] else []) devs
    (<[i := set_sdev d s]> devs).
Proof.
  intros Hi Hsd Hr. pose proof (lookup_lt_Some _ _ _ Hi) as Hlt.
  split; [by rewrite length_insert|]. split.
  { destruct report; [apply NoDup_singleton|constructor]. }
  split.
  { intros j Hj. destruct report; [|by apply elem_of_nil in Hj].
    apply list_elem_of_singleton in Hj. lia. }
  intros k s0 Hk. destruct (decide (k = i)) as [->|Hne].
  - rewrite Hi in Hk. injection Hk as <-. exists (set_sdev d s).
    split; [by rewrite list_lookup_insert_eq|].
    split; [by apply same_setup_sdev|]. simpl.
    destruct report.
    + split; [done|]. intros Hn. exfalso. apply Hn.
      by apply list_elem_of_singleton.
    + split; [by intros ?%elem_of_nil|done].
  - exists s0. split; [by rewrite list_lookup_insert_ne|].
    split; [apply same_setup_refl|]. split; [|done].
    intros Hin. destruct report; [|by apply elem_of_nil in Hin].
    apply list_elem_of_singleton in Hin. lia.
Qed.

Lemma imap_same {A} (l : list A) : imap (fun _ x => x) l = l.
Proof. induction l as [|x l IH]; [done|]. simpl. f_equal. exact IH. Qed.

Lemma next_window_quiet ws w ws' c devs :
  Forall window_quiet ws -> next_window ws = (w, ws') ->
  window_step w c devs = (c, devs) /\ Forall window_quiet ws'.
Proof.
  intros Hq [= <- <-]. destruct ws as [|w ws]; simpl.
  - split; [|done]. unfold window_step. simpl. by rewrite imap_same.
  - apply Forall_cons in Hq as [[H1 H2] Hq]. split; [|done].
    unfold window_step. rewrite H1. f_equal.
    rewrite <- (imap_same devs) at 2. apply imap_ext. intros k s _. apply H2.
Qed.

Lemma window_step_length w c devs c' devs' :
  window_step w c devs = (c', devs') -> length devs' = length devs.
Proof. intros [= _ <-]. by rewrite length_imap. Qed.

(** With nothing happening in the windows, a pass reports distinct streams
    and clears their marks. *)
Lemma pending_pass_quiet BPL adj env n :
  forall i pending ws c devs c' devs' l pending' ws',
    Forall window_quiet ws ->
    pending_pass BPL adj env n i pending ws c devs
    = Some (c', devs', l, pending', ws') ->
    reports_rel l devs devs' /\ (exists pf, c' = set_position_fix pf c) /\
    Forall window_quiet ws'.
Proof.
  assert (Hid : forall c, exists pf, c = set_position_fix pf c).
  { intros c. exists (position_fix c). by rewrite set_position_fix_id. }
  induction n as [|n IH]; intros i pending ws c devs c' devs' l pending' ws'
    Hq H; cbn [pending_pass] in H.
  { injection H as <- <- <- <- <-. split; [apply reports_rel_refl|]. by split. }
  destruct (devs !! i) as [s|] eqn:Hi.
  2:{ injection H as <- <- <- <- <-. split; [apply reports_rel_refl|].
      by split. }
  destruct (negb (irq_pending (sdev s))
            || negb (bool_decide (is_Some (substream (sdev s))))
            || negb (running (sdev s))) eqn:Eskip.
  { by apply IH in H. }
  apply orb_false_iff in Eskip as [Eskip E3].
  apply orb_false_iff in Eskip as [E1 E2].
  apply negb_false_iff in E1, E2, E3. apply bool_decide_eq_true in E2.
  destruct (azx_position_ok BPL adj c (sdev s) (env (Z.of_nat i)))
    as [[[ok c1] d1]|] eqn:Eok; [|done].
  apply position_ok_frame in Eok as (Hok & Hpf1 & Hsd & Hip).
  destruct (0 <? ok).
  - destruct (next_window ws) as [w ws1] eqn:Ew.
    destruct (window_step w c1 _) as [c2 devs2] eqn:Es.
    destruct (next_window_quiet ws w ws1 c1
                (<[i := set_sdev (set_irq_pending false d1) s]> devs) Hq Ew)
      as [Es' Hq1].
    rewrite Es' in Es. injection Es as <- <-.
    destruct (pending_pass BPL adj env n (S i) pending ws1 c1 _)
      as [[[[[c3 devs3] l3] p3] ws3]|] eqn:Er; [|done].
    injection H as <- <- <- <- <-.
    destruct (IH _ _ _ _ _ _ _ _ _ _ Hq1 Er) as (Hrel & Hpf & Hq3).
    split; [|split; [|done]].
    + change (Z.of_nat i :: l3) with ([Z.of_nat i] ++ l3).
      eapply reports_rel_trans; [|exact Hrel].
      apply (reports_rel_exam devs i s (set_irq_pending false d1) true Hi).
      * eapply same_dev_trans; [exact Hsd|]. by repeat split.
      * done.
    + destruct Hpf1 as [pf1 ->], Hpf as [pf ->]. by eexists.
  - destruct (IH _ _ _ _ _ _ _ _ _ _ Hq H) as (Hrel & Hpf & Hq3).
    split; [|split; [|done]].
    + change l with ([] ++ l). eapply reports_rel_trans; [|exact Hrel].
      by apply (reports_rel_exam devs i s d1 false Hi).
    + destruct Hpf1 as [pf1 ->], Hpf as [pf ->]. by eexists.
Qed.

Lemma pending_loop_quiet BPL adj envs :
  forall ws c devs c' devs' l,
    Forall window_quiet ws ->
    pending_loop BPL adj envs ws c devs = Some (Some (c', devs', l)) ->
    reports_rel l devs devs' /\ (exists pf, c' = set_position_fix pf c).
Proof.
  induction envs as [|env envs IH]; intros ws c devs c' devs' l Hq H; [done|].
  cbn [pending_loop] in H.
  destruct (pending_pass BPL adj env (length devs) 0 0 ws c devs)
    as [[[[[c1 devs1] l1] p1] ws1]|] eqn:Ep; [|done].
  apply pending_pass_quiet in Ep as (Hrel & Hpf & Hq1); [|done].
  destruct (p1 =? 0).
  { injection H as <- <- <-. by split. }
  destruct (next_window ws1) as [w ws2] eqn:Ew.
  destruct (window_step w c1 devs1) as [c2 devs2] eqn:Es.
  destruct (next_window_quiet ws1 w ws2 c1 devs1 Hq1 Ew) as [Es' Hq2].
  rewrite Es' in Es. injection Es as <- <-.
  destruct (pending_loop BPL adj envs ws2 c1 devs1)
    as [[[[c3 devs3] l3]|]|] eqn:El; [|done|done].
  injection H as <- <- <-.
  destruct (IH _ _ _ _ _ _ Hq2 El) as (Hrel2 & Hpf2).
  split; [by eapply reports_rel_trans|].
  destruct Hpf as [pf ->], Hpf2 as [pf2 ->]. by eexists.
Qed.

(** Whatever happens in the windows, the array keeps its length and the
    streams reported are streams of the array. *)
Lemma pending_pass_range BPL adj env n :
  forall i pending ws c devs c' devs' l pending' ws',
    pending_pass BPL adj env n i pending ws c devs
    = Some (c', devs', l, pending', ws') ->
    length devs' = length devs /\
    (forall j, j ∈ l -> 0 <= j < Z.of_nat (length devs)).
Proof.
  induction n as [|n IH]; intros i pending ws c devs c' devs' l pending' ws' H;
    cbn [pending_pass] in H.
  { injection H as <- <- <- <- <-. split; [done|]. by intros j ?%elem_of_nil. }
  destruct (devs !! i) as [s|] eqn:Hi.
  2:{ injection H as <- <- <- <- <-. split; [done|].
      by intros j ?%elem_of_nil. }
  pose proof (lookup_lt_Some _ _ _ Hi) as Hlt.
  destruct (_ || _).
  { by apply IH in H. }
  destruct (azx_position_ok BPL adj c (sdev s) (env (Z.of_nat i)))
    as [[[ok c1] d1]|]; [|done].
  destruct (0 <? ok).
  - destruct (next_window ws) as [w ws1].
    destruct (window_step w c1 _) as [c2 devs2] eqn:Es.
    apply window_step_length in Es. rewrite length_insert in Es.
    destruct (pending_pass BPL adj env n (S i) pending ws1 c2 devs2)
      as [[[[[c3 devs3] l3] p3] ws3]|] eqn:Er; [|done].
    injection H as <- <- <- <- <-.
    destruct (IH _ _ _ _ _ _ _ _ _ _ Er) as [H1 H2].
    split; [congruence|]. intros j Hj. apply elem_of_cons in Hj as [->|Hj].
    + lia.
    + apply H2 in Hj. lia.
  - apply IH in H as [H1 H2]. rewrite length_insert in H1, H2. by split.
Qed.

Lemma pending_loop_range BPL adj envs :
  forall ws c devs c' devs' l,
    pending_loop BPL adj envs ws c devs = Some (Some (c', devs', l)) ->
    length devs' = length devs /\
    (forall j, j ∈ l -> 0 <= j < Z.of_nat (length devs)).
Proof.
  induction envs as [|env envs IH]; intros ws c devs c' devs' l H; [done|].
  cbn [pending_loop] in H.
  destruct (pending_pass BPL adj env (length devs) 0 0 ws c devs)
    as [[[[[c1 devs1] l1] p1] ws1]|] eqn:Ep; [|done].
  apply pending_pass_range in Ep as [H1 H2].
  destruct (p1 =? 0).
  { injection H as <- <- <-. by split. }
  destruct (next_window ws1) as [w ws2].
  destruct (window_step w c1 devs1) as [c2 devs2] eqn:Es.
  apply window_step_length in Es.
  destruct (pending_loop BPL adj envs ws2 c2 devs2)
    as [[[[c3 devs3] l3]|]|] eqn:El; [|done|done].
  injection H as <- <- <-.
  destruct (IH _ _ _ _ _ _ El) as [K1 K2].
  split; [congruence|]. intros j Hj. apply elem_of_app in Hj as [Hj|Hj].
  - by apply H2.
  - apply K2 in Hj. lia.
Qed.

Lemma pending_pass_idle BPL adj env n :
  forall i p ws c devs,
    (forall s, s ∈ devs -> irq_pending (sdev s) = false) ->
    pending_pass BPL adj env n i p ws c devs = Some (c, devs, [], p, ws).
Proof.
  induction n as [|n IH]; intros i p ws c devs Hno; [done|]. simpl.
  destruct (devs !! i) as [s|] eqn:Hi; [|done].
  rewrite (Hno s) by (by eapply list_elem_of_lookup_2). simpl.
  by apply IH.
Qed.

Lemma pending_loop_idle BPL adj env envs ws c devs :
  (forall s, s ∈ devs -> irq_pending (sdev s) = false) ->
  pending_loop BPL adj (env :: envs) ws c devs = Some (Some (c, devs, [])).
Proof. intros Hno. simpl. by rewrite pending_pass_idle. Qed.

(** X25. The work for the pending period updates, run among the other
    holders of the register lock: whatever they do to the chip and to the
    streams while the work has dropped the lock (around
    snd_pcm_period_elapsed and while it sleeps between two passes), when
    [azx_irq_pending_work] returns the array of streams has its length,
    every period reported is that of a stream of the array, the flag of
    the warning is set, and the warning is printed exactly when the flag
    was not set before. When nothing changes the chip and the streams in
    those windows, the periods reported are those of distinct streams, each
    of which was marked pending, had a substream and ran when the work
    began, and is unmarked afterwards; the mark of every other stream is as
    it was, so the work marks no stream; nothing else changes in the set-up
    of a stream, and in the chip the position fix at most. With no stream
    marked pending the work returns in its first pass, reports nothing and
    changes nothing, whatever the windows. *)
Theorem pending_work_reports_once (BPL adj : Z) (envs : list (Z -> hw_pos))
    (ws : list lock_window) (warned : bool) (c : azx)
    (devs : list azx_stream) :
  (forall printed warned' c' devs' l,
     azx_irq_pending_work BPL adj envs ws warned c devs
     = Some (Some (printed, warned', c', devs', l)) ->
     printed = negb warned /\ warned' = true /\
     length devs' = length devs /\
     (forall j, j ∈ l -> 0 <= j < Z.of_nat (length devs)) /\
     (Forall window_quiet ws ->
      (exists pf, c' = set_position_fix pf c) /\
      NoDup l /\
      forall k s, devs !! k = Some s ->
        exists s', devs' !! k = Some s' /\ same_setup s s' /\
          (Z.of_nat k ∈ l ->
           irq_pending (sdev s) = true /\ is_Some (substream (sdev s)) /\
           running (sdev s) = true /\ irq_pending (sdev s') = false) /\
          (Z.of_nat k ∉ l ->
           irq_pending (sdev s') = irq_pending (sdev s)))) /\
  (envs ≠ [] ->
   (forall s, s ∈ devs -> irq_pending (sdev s) = false) ->
   azx_irq_pending_work BPL adj envs ws warned c devs
   = Some (Some (negb warned, true, c, devs, []))) /\
  (envs ≠ [] ->
   azx_irq_pending_work BPL adj envs ws warned c (azx_clear_irq_pending devs)
   = Some (Some (negb warned, true, c, azx_clear_irq_pending devs, []))).
Proof.
  split_and!.
  - intros printed warned' c' devs' l H. unfold azx_irq_pending_work in H.
    destruct (pending_loop BPL adj envs ws c devs)
      as [[[[c2 devs2] l2]|]|] eqn:El; [|done|done].
    injection H as <- <- <- <- <-.
    destruct (pending_loop_range _ _ _ _ _ _ _ _ _ El) as [H1 H2].
    split; [done|]. split; [done|]. split; [done|]. split; [done|].
    intros Hq.
    destruct (pending_loop_quiet _ _ _ _ _ _ _ _ _ Hq El)
      as ((_ & Hnd & _ & Hall) & Hpf).
    by split.
  - intros Hne Hno. destruct envs as [|env envs]; [done|].
    unfold azx_irq_pending_work. by rewrite pending_loop_idle.
  - intros Hne. destruct envs as [|env envs]; [done|].
    unfold azx_irq_pending_work. rewrite pending_loop_idle; [done|].
    intros s Hs. unfold azx_clear_irq_pending in Hs.
    apply list_elem_of_fmap in Hs as (s0 & -> & _). done.
Qed.

Lemma pending_work_reports_once_witness :
  exists c' devs' l,
    azx_irq_pending_work 32 32 [fun _ => mk_hw_pos 100 100 0 1024000] []
      false chip_posbuf
      [mk_stream (set_irq_pending true dev_small) 0 1 0 0;
       mk_stream dev_small 1 2 0 0]
    = Some (Some (true, true, c', devs', l)) /\
    Forall window_quiet [] /\
    length devs' = 2%nat /\ NoDup l.
Proof.
  eexists _, _, _. split; [vm_compute; reflexivity|].
  split; [constructor|].
  destruct (proj1 (pending_work_reports_once 32 32
                     [fun _ => mk_hw_pos 100 100 0 1024000] [] false
                     chip_posbuf
                     [mk_stream (set_irq_pending true dev_small) 0 1 0 0;
                      mk_stream dev_small 1 2 0 0])
                  _ _ _ _ _ ltac:(vm_compute; reflexivity))
    as (_ & _ & Hlen & _ & Hq).
  split; [exact Hlen|]. destruct (Hq ltac:(constructor)) as (_ & Hnd & _).
  exact Hnd.
Defined.

(** The windows matter: when the interrupt handler marks stream 0 again
    after its period was reported, and stream 1 keeps the work going for a
    second pass, the period of stream 0 is reported twice in one run. *)
Lemma pending_work_window_reports_twice :
  exists c' devs',
    azx_irq_pending_work 32 32
      [ (fun i => if i =? 0 then mk_hw_pos 100 100 0 1024000 else hw_early);
        (fun _ => mk_hw_pos 100 100 0 2048000) ]
      [ mk_window (fun c => c)
          (fun i s => if i =? 0
                      then set_sdev (set_irq_pending true (sdev s)) s else s) ]
      false chip_posbuf
      [mk_stream (set_irq_pending true dev_small) 0 1 0 0;
       mk_stream (set_irq_pending true dev_small) 1 2 0 0]
    = Some (Some (true, true, c', devs', [0; 0; 1])).
Proof. eexists _, _. vm_compute. reflexivity. Qed.

(** * The platform clocks *)

Lemma clk_refs_app i l1 l2 :
  clk_refs i (l1 ++ l2) = clk_refs i l1 + clk_refs i l2.
Proof.
  induction l1 as [|e l1 IH]; [done|]. destruct e; simpl; rewrite ?IH; lia.
Qed.

Lemma gate_refs_app l1 l2 : gate_refs (l1 ++ l2) = gate_refs l1 + gate_refs l2.
Proof.
  induction l1 as [|e l1 IH]; [done|]. destruct e; simpl; rewrite ?IH; lia.
Qed.

Lemma clk_refs_enable i L :
  NoDup L ->
  clk_refs i (map ClkEnable L) = if bool_decide (i ∈ L) then 1 else 0.
Proof.
  induction 1 as [|x L Hx Hnd IH]; [done|]. simpl. rewrite IH.
  destruct (Z.eqb_spec x i) as [->|Hne].
  - rewrite bool_decide_eq_false_2 by done.
    rewrite bool_decide_eq_true_2; [done|]. apply elem_of_cons. by left.
  - destruct (bool_decide (i ∈ L)) eqn:E.
    + apply bool_decide_eq_true in E.
      rewrite bool_decide_eq_true_2; [done|]. apply elem_of_cons. by right.
    + apply bool_decide_eq_false in E. rewrite bool_decide_eq_false_2; [done|].
      intros [?|?]%elem_of_cons; [congruence|done].
Qed.

Lemma clk_refs_disable i L :
  NoDup L ->
  clk_refs i (map ClkDisable L) = if bool_decide (i ∈ L) then -1 else 0.
Proof.
  induction 1 as [|x L Hx Hnd IH]; [done|]. simpl. rewrite IH.
  destruct (Z.eqb_spec x i) as [->|Hne].
  - rewrite bool_decide_eq_false_2 by done.
    rewrite bool_decide_eq_true_2; [done|]. apply elem_of_cons. by left.
  - destruct (bool_decide (i ∈ L)) eqn:E.
    + apply bool_decide_eq_true in E.
      rewrite bool_decide_eq_true_2; [done|]. apply elem_of_cons. by right.
    + apply bool_decide_eq_false in E. rewrite bool_decide_eq_false_2; [lia|].
      intros [?|?]%elem_of_cons; [congruence|done].
Qed.

Lemma gate_refs_clk (f : Z -> clk_event) L :
  (forall x, f x = ClkEnable x) \/ (forall x, f x = ClkDisable x) ->
  gate_refs (map f L) = 0.
Proof.
  intros Hf. induction L as [|x L IH]; [done|]. simpl.
  by destruct Hf as [Hf|Hf]; rewrite Hf.
Qed.

Lemma clk_refs_gate i (b : bool) e :
  e = Unpowergate \/ e = Powergate ->
  clk_refs i (if b then [e] else []) = 0.
Proof. by intros [-> | ->]; destruct b. Qed.

Lemma enable_refs pg k k' l :
  azx_platform_enable_clocks pg k = (k', l) ->
  platform_clk_count k' = platform_clk_count k /\
  platform_clk_enable k' = as_int (platform_clk_enable k + 1) /\
  (forall i, clk_refs i l
             = if bool_decide (0 <= i < platform_clk_count k) then 1 else 0) /\
  gate_refs l = if pg then 1 else 0.
Proof.
  unfold azx_platform_enable_clocks. intros [= <- <-]. split_and!; try done.
  - intros i. rewrite clk_refs_app, clk_refs_gate by (by left).
    rewrite clk_refs_enable by apply NoDup_seqZ. simpl.
    apply (f_equal (fun b : bool => if b then 1 else 0)).
    apply bool_decide_ext. rewrite elem_of_seqZ. lia.
  - rewrite gate_refs_app, (gate_refs_clk ClkEnable) by (by left).
    destruct pg; simpl; lia.
Qed.

Lemma disable_refs pg k k' l :
  azx_platform_disable_clocks pg k = (k', l) ->
  platform_clk_count k' = platform_clk_count k /\
  (platform_clk_enable k = 0 -> k' = k /\ l = []) /\
  (platform_clk_enable k ≠ 0 ->
   platform_clk_enable k' = as_int (platform_clk_enable k - 1) /\
   (forall i, clk_refs i l
              = if bool_decide (0 <= i < platform_clk_count k) then -1 else 0)
   /\ gate_refs l = if pg then -1 else 0).
Proof.
  unfold azx_platform_disable_clocks.
  destruct (Z.eqb_spec (platform_clk_enable k) 0) as [E|E].
  { intros [= <- <-]. split_and!; done. }
  intros [= <- <-]. split_and!; try done. intros _. split_and!; try done.
  - intros i. rewrite clk_refs_app, clk_refs_gate by (by right).
    rewrite clk_refs_disable by apply NoDup_seqZ. rewrite Z.add_0_r.
    apply (f_equal (fun b : bool => if b then -1 else 0)).
    apply bool_decide_ext. rewrite elem_of_seqZ. lia.
  - rewrite gate_refs_app, (gate_refs_clk ClkDisable) by (by right).
    destruct pg; simpl; lia.
Qed.

Lemma clock_calls_inv pg calls :
  forall k k' l,
    0 <= platform_clk_enable k ->
    platform_clk_enable k + Z.of_nat (length calls) < 2 ^ 31 ->
    clock_calls pg calls k = (k', l) ->
    platform_clk_count k' = platform_clk_count k /\
    0 <= platform_clk_enable k'
      <= platform_clk_enable k + Z.of_nat (length calls) /\
    (forall i, clk_refs i l
               = if bool_decide (0 <= i < platform_clk_count k)
                 then platform_clk_enable k' - platform_clk_enable k else 0) /\
    gate_refs l
    = if pg then platform_clk_enable k' - platform_clk_enable k else 0.
Proof.
  induction calls as [|b calls IH]; intros k k' l H0 Hlen H.
  { simpl in *. injection H as <- <-. split_and!; try done; try lia.
    - intros i. destruct (bool_decide _); simpl; lia.
    - destruct pg; simpl; lia. }
  rewrite length_cons, Nat2Z.inj_succ in Hlen. simpl in H.
  change (2 ^ 31) with 2147483648 in *.
  destruct (if b then azx_platform_enable_clocks pg k
            else azx_platform_disable_clocks pg k) as [k1 l1] eqn:E1.
  destruct (clock_calls pg calls k1) as [k2 l2] eqn:E2.
  injection H as <- <-.
  assert (Hstep : platform_clk_count k1 = platform_clk_count k /\
            0 <= platform_clk_enable k1 <= platform_clk_enable k + 1 /\
            (forall i, clk_refs i l1
               = if bool_decide (0 <= i < platform_clk_count k)
                 then platform_clk_enable k1 - platform_clk_enable k else 0) /\
            gate_refs l1
            = if pg then platform_clk_enable k1 - platform_clk_enable k else 0).
  { destruct b.
    - apply enable_refs in E1 as (A1 & A2 & A3 & A4).
      assert (Ea : as_int (platform_clk_enable k + 1)
                   = platform_clk_enable k + 1) by (unfold as_int; zlia).
      rewrite Ea in A2. split_and!; try done; try lia.
      + intros i. rewrite A3, A2. destruct (bool_decide _); lia.
      + rewrite A4, A2. destruct pg; lia.
    - apply disable_refs in E1 as (A1 & A2 & A3).
      destruct (decide (platform_clk_enable k = 0)) as [Ez|Ez].
      + destruct (A2 Ez) as [-> ->]. split_and!; try done; try lia.
        * intros i. simpl. destruct (bool_decide _); lia.
        * simpl. destruct pg; lia.
      + destruct (A3 Ez) as (B1 & B2 & B3).
        assert (Ea : as_int (platform_clk_enable k - 1)
                     = platform_clk_enable k - 1) by (unfold as_int; zlia).
        rewrite Ea in B1. split_and!; try done; try lia.
        * intros i. rewrite B2, B1. destruct (bool_decide _); lia.
        * rewrite B3, B1. destruct pg; lia. }
  destruct Hstep as (S1 & S2 & S3 & S4).
  destruct (IH _ _ _ (proj1 S2) ltac:(lia) E2) as (I1 & I2 & I3 & I4).
  split_and!; try lia.
  - rewrite length_cons, Nat2Z.inj_succ. lia.
  - intros i. rewrite clk_refs_app, S3, I3, S1.
    destruct (bool_decide _); lia.
  - rewrite gate_refs_app, S4, I4. destruct pg; lia.
Qed.

Lemma disable_all_spec pg fuel :
  forall k,
    0 <= platform_clk_enable k < 2 ^ 31 ->
    (Z.to_nat (platform_clk_enable k) <= fuel)%nat ->
    exists l,
      disable_all_clocks fuel pg k = Some (mk_clk (platform_clk_count k) 0, l)
      /\
      (forall i, clk_refs i l
                 = if bool_decide (0 <= i < platform_clk_count k)
                   then - platform_clk_enable k else 0) /\
      gate_refs l = if pg then - platform_clk_enable k else 0.
Proof.
  change (2 ^ 31) with 2147483648.
  induction fuel as [|fuel IH]; intros k H0 Hf.
  - assert (E : platform_clk_enable k = 0) by lia. exists []. simpl.
    rewrite E. simpl. split_and!.
    + destruct k; simpl in *. by subst.
    + intros i. by destruct (bool_decide _).
    + by destruct pg.
  - simpl. destruct (Z.eqb_spec (platform_clk_enable k) 0) as [E|E].
    { exists []. rewrite E. split_and!.
      + destruct k; simpl in *. by subst.
      + intros i. by destruct (bool_decide _).
      + by destruct pg. }
    destruct (azx_platform_disable_clocks pg k) as [k1 l1] eqn:E1.
    apply disable_refs in E1 as (A1 & _ & A3).
    destruct (A3 E) as (B1 & B2 & B3).
    assert (Ea : as_int (platform_clk_enable k - 1)
                 = platform_clk_enable k - 1) by (unfold as_int; zlia).
    rewrite Ea in B1.
    destruct (IH k1) as (l2 & D1 & D2 & D3); [lia|lia|].
    rewrite D1. exists (l1 ++ l2). rewrite A1. split_and!; [done| |].
    + intros i. rewrite clk_refs_app, B2, D2, A1, B1.
      destruct (bool_decide _); lia.
    + rewrite gate_refs_app, B3, D3, B1. destruct pg; lia.
Qed.

(** X26. The clock references stay balanced. Start with no reference held
    and make any sequence of fewer than 2^31 calls of
    [azx_platform_enable_clocks] and [azx_platform_disable_clocks].
    Afterwards each of the platform clocks has been enabled exactly
    [platform_clk_enable] times more often than it has been disabled, and
    this count is not negative: a disable that has no enable to match is
    ignored. No other clock is touched, and on a chip with power gating the
    partition has been ungated as many times more as the count says. The
    loop of [azx_suspend] that then drops all references ends, leaves the
    count at 0 and every clock disabled as often as it was enabled. *)
Theorem clock_refs_balanced (powergate : bool) (calls : list bool)
    (k k' : azx_clk) (l : list clk_event) :
  platform_clk_enable k = 0 ->
  Z.of_nat (length calls) < 2 ^ 31 ->
  clock_calls powergate calls k = (k', l) ->
  platform_clk_count k' = platform_clk_count k /\
  0 <= platform_clk_enable k' <= Z.of_nat (length calls) /\
  (forall i, 0 <= i < platform_clk_count k ->
     clk_refs i l = platform_clk_enable k') /\
  (forall i, ~ 0 <= i < platform_clk_count k -> clk_refs i l = 0) /\
  gate_refs l = (if powergate then platform_clk_enable k' else 0) /\
  exists l',
    disable_all_clocks (Z.to_nat (platform_clk_enable k')) powergate k'
    = Some (mk_clk (platform_clk_count k) 0, l') /\
    (forall i, clk_refs i (l ++ l') = 0) /\
    gate_refs (l ++ l') = 0.
Proof.
  intros E0 Hlen H.
  destruct (clock_calls_inv powergate calls k k' l) as (I1 & I2 & I3 & I4);
    [lia|lia|done|].
  rewrite E0 in *. rewrite Z.sub_0_r in I4.
  split; [done|]. split; [lia|]. split.
  { intros i Hi. rewrite I3, bool_decide_eq_true_2 by done. lia. }
  split.
  { intros i Hi. by rewrite I3, bool_decide_eq_false_2. }
  split; [done|].
  destruct (disable_all_spec powergate (Z.to_nat (platform_clk_enable k')) k')
    as (l' & D1 & D2 & D3); [lia|lia|].
  exists l'. rewrite <- I1. split; [done|]. split.
  - intros i. rewrite clk_refs_app, I3, D2, I1. destruct (bool_decide _); lia.
  - rewrite gate_refs_app, I4, D3. destruct powergate; lia.
Qed.

Lemma clock_refs_balanced_witness :
  exists k' l,
    clock_calls true [true; false; false; true; true] (mk_clk 3 0) = (k', l) /\
    forall i, 0 <= i < platform_clk_count (mk_clk 3 0) ->
      clk_refs i l = platform_clk_enable k'.
Proof.
  eexists _, _. split; [vm_compute; reflexivity|].
  eapply (clock_refs_balanced true [true; false; false; true; true]
            (mk_clk 3 0)).
  - reflexivity.
  - simpl. lia.
  - vm_compute; reflexivity.
Defined.

(** * The streams of a new controller *)

Lemma land_15_range x : 0 <= Z.land x 15 <= 15.
Proof.
  change (Z.land x 15) with (Z.land x (Z.ones 4)). rewrite Z.land_ones by lia.
  change (2 ^ 4) with 16. zlia.
Qed.

Lemma stream_layout_counts gcap driver_type :
  let L := azx_stream_layout gcap driver_type in
  0 <= playback_streams L <= 15 /\ 0 <= capture_streams L <= 15 /\
  1 <= playback_streams L + capture_streams L /\
  capture_index_offset L = 0 /\
  playback_index_offset L = capture_streams L /\
  num_streams L = playback_streams L + capture_streams L.
Proof.
  unfold azx_stream_layout. cbv zeta.
  pose proof (land_15_range (Z.shiftr gcap 8)) as Hc.
  pose proof (land_15_range (Z.shiftr gcap 12)) as Hp.
  destruct (Z.eqb_spec (Z.land (Z.shiftr gcap 12) 15) 0) as [Ep|Ep];
    destruct (Z.eqb_spec (Z.land (Z.shiftr gcap 8) 15) 0) as [Ec|Ec];
    simpl; try (split_and!; simpl; lia).
  destruct (driver_type =? AZX_DRIVER_ULI); [simpl; lia|].
  destruct (_ || _); simpl; lia.
Qed.

(** X27. The streams of a new controller are well laid out, whatever GCAP
    reads and whatever the driver type. [azx_create] counts between 1 and
    30 streams, with the capture streams first and the playback streams
    after them, so that the two ranges lie within the array and do not
    overlap. After [azx_init_stream] the stream at position [i] has index
    [i], the non-zero tag [i + 1] and the bit [i] of INTSTS as its mask,
    and is neither opened nor running; with INTCTL reading 0 the interrupt
    enables agree with the running flags. *)
Theorem created_streams_well_formed (gcap driver_type : Z) :
  let L := azx_stream_layout gcap driver_type in
  let devs := fresh_streams L in
  1 <= num_streams L <= 30 /\
  Z.of_nat (length devs) = num_streams L /\
  range_ok L devs SNDRV_PCM_STREAM_PLAYBACK /\
  range_ok L devs SNDRV_PCM_STREAM_CAPTURE /\
  fst (dev_range L SNDRV_PCM_STREAM_CAPTURE)
  + snd (dev_range L SNDRV_PCM_STREAM_CAPTURE)
  <= fst (dev_range L SNDRV_PCM_STREAM_PLAYBACK) /\
  (forall i s, devs !! i = Some s ->
     index s = Z.of_nat i /\
     stream_tag (sdev s) = Z.of_nat i + 1 /\
     sd_int_sta_mask s = 2 ^ Z.of_nat i /\
     is_free devs (Z.of_nat i) = true /\
     running (sdev s) = false) /\
  (forall io, rd io ICH6_REG_INTCTL = 0 -> streams_coherent io devs).
Proof.
  intros L devs.
  destruct (stream_layout_counts gcap driver_type)
    as (Hp & Hc & H1 & Eco & Epo & En).
  fold L in Hp, Hc, H1, Eco, Epo, En.
  assert (Hlen : Z.of_nat (length devs) = num_streams L).
  { unfold devs, fresh_streams, azx_init_stream.
    rewrite length_imap, length_replicate. lia. }
  split; [lia|]. split; [done|]. split.
  { unfold range_ok. simpl. lia. }
  split.
  { unfold range_ok. simpl. lia. }
  split.
  { simpl. lia. }
  split.
  - intros i s Hs. pose proof (lookup_lt_Some _ _ _ Hs) as Hlt.
    assert (Hfree : is_free devs (Z.of_nat i) = true).
    { unfold is_free, dev_at. destruct (Z.ltb_spec (Z.of_nat i) 0); [lia|].
      rewrite Nat2Z.id, Hs. unfold devs, fresh_streams in Hs.
      apply init_stream_lookup in Hs as (s0 & H0 & ->).
      by apply lookup_replicate in H0 as [-> _]. }
    unfold devs, fresh_streams in Hs.
    apply init_stream_lookup in Hs as (s0 & H0 & ->).
    apply lookup_replicate in H0 as [-> _]. simpl.
    split_and!; try done.
    + unfold as_u8. rewrite Z.mod_small; lia.
    + unfold as_u8. rewrite Z.mod_small; lia.
    + rewrite Z.shiftl_1_l. unfold as_u32. rewrite Z.mod_small; [done|].
      split; [apply Z.pow_nonneg; lia|].
      change 4294967296 with (2 ^ 32). apply Z.pow_lt_mono_r; lia.
  - intros io Hio. apply fresh_streams_coherent; [lia|done].
Qed.

Lemma created_streams_well_formed_witness :
  rd ∅ ICH6_REG_INTCTL = 0 /\
  streams_coherent ∅ (fresh_streams (azx_stream_layout 17409 AZX_DRIVER_ICH)).
Proof.
  split; [reflexivity|].
  apply (created_streams_well_formed 17409 AZX_DRIVER_ICH). reflexivity.
Defined.

(** X28. The tag a stream is announced with to the codec. On a new
    controller the tag [azx_pcm_prepare] passes to the codec for the stream
    at position [i] is [i + 1], hence never 0. With the X-Fi workaround the
    playback streams are renumbered from 1: a capture stream keeps the tag
    [i + 1], the playback stream at position [i] gets [i + 1] less the
    number of capture streams, and every tag lies between 1 and 15, so it
    fits the four bits of the tag field. *)
Theorem prepare_tag_in_range (gcap driver_type driver_caps : Z) (i : nat)
    (s : azx_stream) :
  let L := azx_stream_layout gcap driver_type in
  fresh_streams L !! i = Some s ->
  let tag := prepare_stream_tag driver_caps L (sdev s) in
  1 <= tag <= 30 /\
  (Z.land driver_caps AZX_DCAPS_CTX_WORKAROUND = 0 -> tag = Z.of_nat i + 1) /\
  (Z.land driver_caps AZX_DCAPS_CTX_WORKAROUND ≠ 0 ->
   1 <= tag <= 15 /\
   (Z.of_nat i < capture_streams L -> tag = Z.of_nat i + 1) /\
   (capture_streams L <= Z.of_nat i ->
    tag = Z.of_nat i - capture_streams L + 1)).
Proof.
  intros L Hs tag.
  destruct (stream_layout_counts gcap driver_type)
    as (Hp & Hc & H1 & Eco & Epo & En).
  fold L in Hp, Hc, H1, Eco, Epo, En.
  pose proof (lookup_lt_Some _ _ _ Hs) as Hlt.
  unfold fresh_streams in Hs, Hlt.
  unfold azx_init_stream in Hlt. rewrite length_imap, length_replicate in Hlt.
  assert (Etag : stream_tag (sdev s) = Z.of_nat i + 1).
  { apply init_stream_lookup in Hs as (s0 & _ & ->). simpl.
    unfold as_u8. rewrite Z.mod_small; lia. }
  unfold tag, prepare_stream_tag. cbv zeta. rewrite Etag.
  assert (Ec : as_u32 (capture_streams L) = capture_streams L)
    by (unfold as_u32; rewrite Z.mod_small; lia).
  rewrite Ec.
  destruct (Z.eqb_spec (Z.land driver_caps AZX_DCAPS_CTX_WORKAROUND) 0)
    as [E|E]; simpl.
  { split; [lia|]. split; [done|]. by intros ?. }
  destruct (Z.ltb_spec (capture_streams L) (Z.of_nat i + 1)).
  - assert (Ea : as_u32 (Z.of_nat i + 1 - capture_streams L)
                 = Z.of_nat i + 1 - capture_streams L)
      by (unfold as_u32; rewrite Z.mod_small; lia).
    rewrite Ea. split; [lia|]. split; [done|]. intros _.
    split; [lia|]. split; lia.
  - split; [lia|]. split; [done|]. intros _. split; [lia|]. split; lia.
Qed.

Lemma prepare_tag_in_range_witness :
  exists s,
    fresh_streams (azx_stream_layout 17409 AZX_DRIVER_CTX) !! 5%nat = Some s /\
    1 <= prepare_stream_tag AZX_DCAPS_CTX_WORKAROUND
           (azx_stream_layout 17409 AZX_DRIVER_CTX) (sdev s) <= 30.
Proof.
  eexists. split; [vm_compute; reflexivity|].
  refine (proj1 (prepare_tag_in_range 17409 AZX_DRIVER_CTX
                   AZX_DCAPS_CTX_WORKAROUND 5 _ _)).
  vm_compute; reflexivity.
Defined.

(** ** The command ring as a queue *)

Lemma corb_backlog_length c lk :
  length (corb_backlog c lk)
  = Z.to_nat ((azx_readb (CORBWP (regs c)) - CORBRP lk) mod 256).
Proof. unfold corb_backlog. by rewrite length_map, length_seq. Qed.

(** Depends only on the write pointer register and the ring memory. *)
Lemma corb_backlog_ext c c' lk :
  CORBWP (regs c') = CORBWP (regs c) -> buf (corb c') = buf (corb c) ->
  corb_backlog c' lk = corb_backlog c lk.
Proof.
  intros H1 H2. unfold corb_backlog, corb_slot. by rewrite H1, H2.
Qed.

(** A command sent over the ring goes to the end of the words the engine
    has still to fetch, as long as the ring is not full. *)
Lemma corb_backlog_push irs ir c lk val :
  single_cmd c = false ->
  0 <= CORBRP lk < 256 ->
  (length (corb_backlog c lk) < 255)%nat ->
  corb_backlog (fst (azx_send_cmd irs ir c val)) lk
  = corb_backlog c lk ++ [val].
Proof.
  intros Hs Hrp Hlen. rewrite corb_backlog_length in Hlen.
  pose proof (azx_readb_range (CORBWP (regs c))) as Hw.
  unfold azx_send_cmd. cbn [single_cmd set_last_cmd]. rewrite Hs.
  unfold corb_backlog, azx_corb_send_cmd.
  cbn [fst regs corb upd_regs upd_corb upd_rirb set_last_cmd CORBWP
       set_CORBWP buf set_buf].
  set (w := azx_readb (CORBWP (regs c))) in *.
  unfold ICH6_MAX_CORB_ENTRIES in *.
  set (w' := (w + 1) mod 256).
  assert (Hw' : 0 <= w' < 256) by (unfold w'; zlia).
  rewrite (azx_readb_small w' Hw').
  set (n := Z.to_nat ((w - CORBRP lk) mod 256)) in *.
  assert (E : Z.to_nat ((w' - CORBRP lk) mod 256) = (n + 1)%nat)
    by (unfold w', n; zlia).
  rewrite E, seq_app, map_app.
  change (seq (1 + n) 1) with [(1 + n)%nat]. cbn [map]. f_equal.
  - apply map_ext_in. intros k Hk. apply in_seq in Hk.
    unfold corb_slot.
    assert (Hne : (CORBRP lk + Z.of_nat k) mod 256 ≠ w')
      by (unfold w', n in *; zlia).
    simpl. rewrite rd_wr_ne by lia. reflexivity.
  - f_equal. unfold corb_slot.
    assert (Heq : (CORBRP lk + Z.of_nat (1 + n)) mod 256 = w')
      by (unfold w', n in *; zlia).
    rewrite Heq. simpl. by rewrite rd_wr_eq.
Qed.

(** The word the engine fetches is the oldest of those still to fetch. *)
Lemma corb_backlog_fetch c lk cmd lk' :
  0 <= CORBRP lk < 256 ->
  link_fetch c lk = Some (cmd, lk') ->
  corb_backlog c lk = cmd :: corb_backlog c lk' /\
  fetched lk' = S (fetched lk) /\ 0 <= CORBRP lk' < 256.
Proof.
  intros Hrp. unfold link_fetch.
  destruct (Z.land _ _ =? 0); [done|]. cbn [orb].
  destruct (Z.eqb_spec (CORBRP lk) (azx_readb (CORBWP (regs c))))
    as [|Hne]; [done|].
  intros [= <- <-]. cbn [fetched CORBRP].
  pose proof (azx_readb_range (CORBWP (regs c))) as Hw.
  unfold ICH6_MAX_CORB_ENTRIES.
  split; [|split; [done|zlia]].
  unfold corb_backlog. cbn [CORBRP].
  set (w := azx_readb (CORBWP (regs c))) in *.
  unfold ICH6_MAX_CORB_ENTRIES.
  assert (E : Z.to_nat ((w - CORBRP lk) mod 256)
              = S (Z.to_nat ((w - (CORBRP lk + 1) mod 256) mod 256))) by zlia.
  rewrite E. simpl. f_equal.
  rewrite <- seq_shift, map_map. apply map_ext_in.
  intros k Hk.
  replace (((CORBRP lk + 1) mod 256 + Z.of_nat k) mod 256)
    with ((CORBRP lk + Z.of_nat (S k)) mod 256); [reflexivity|].
  rewrite Zplus_mod_idemp_l. f_equal. lia.
Qed.

(** ** Codec addresses of [u32] commands *)

Lemma command_addr_u32 cmd :
  0 <= cmd < 4294967296 ->
  azx_response_addr (Z.shiftr cmd 28) = azx_command_addr cmd /\
  Z.land (Z.shiftr cmd 28) ICH6_RIRB_EX_UNSOL_EV = 0 /\
  0 <= azx_command_addr cmd < 8.
Proof.
  intros H. unfold azx_response_addr, azx_command_addr, AZX_MAX_CODECS,
    ICH6_RIRB_EX_UNSOL_EV.
  assert (Ha : 0 <= Z.shiftr cmd 28 < 16).
  { rewrite Z.shiftr_div_pow2 by lia. change (2 ^ 28) with 268435456. zlia. }
  set (a := Z.shiftr cmd 28) in *.
  assert (E : Z.land a 15 = a).
  { change 15 with (Z.ones 4). rewrite Z.land_ones by lia.
    change (2 ^ 4) with 16. zlia. }
  assert (E16 : Z.land a 16 = 0).
  { destruct a as [|p|p]; [done| |lia].
    do 5 (destruct p as [p|p|]; try lia; try reflexivity). }
  rewrite E. split; [done|]. split; [done|].
  destruct (Z.leb_spec 8 a); lia.
Qed.

(** At most eight commands are in the ring when their addresses differ. *)
Lemma queue_bound (q : list Z) :
  Forall (fun v => 0 <= v < 4294967296) q ->
  NoDup (map azx_command_addr q) -> (length q <= 8)%nat.
Proof.
  intros Hu Hnd.
  assert (Hsub : map azx_command_addr q ⊆ Z.of_nat <$> seq 0 8).
  { intros a Ha. apply list_elem_of_fmap in Ha as (cmd & -> & Hin).
    rewrite Forall_forall in Hu.
    destruct (command_addr_u32 cmd (Hu _ Hin)) as (_ & _ & Hr).
    apply list_elem_of_fmap. exists (Z.to_nat (azx_command_addr cmd)).
    split; [lia|]. apply elem_of_seq. lia. }
  apply NoDup_submseteq in Hsub; [|done].
  apply submseteq_length in Hsub.
  by rewrite length_map, length_fmap, length_seq in Hsub.
Qed.

(** ** The books and the two sides of the CORB *)

Ltac split_link_rel :=
  unfold link_rel; cbn [fst snd];
  refine (conj _ (conj _ (conj _ (conj _ (conj _ (conj _ (conj _ _))))))).

Lemma link_rel_ext codec g q b c c' lk :
  CORBWP (regs c') = CORBWP (regs c) -> buf (corb c') = buf (corb c) ->
  link_rel codec g q b c lk -> link_rel codec g q b c' lk.
Proof.
  intros H1 H2 (R1 & R). split; [|exact R].
  by rewrite (corb_backlog_ext c c').
Qed.

Lemma link_rel_init codec c :
  link_rel codec ∅ [] (0%nat, ∅) (azx_init_cmd_io c) link0.
Proof.
  unfold link_rel. split_and!; try done. constructor.
Qed.

Lemma link_rel_send codec g q b c lk irs ir val :
  single_cmd c = false -> 0 <= val < 4294967296 ->
  link_rel codec g q b c lk -> exch g (azx_command_addr val) = Idle ->
  link_rel codec (track g (ObsSend val)) (q ++ [val])
    (book_step b (ObsSend val)) (fst (azx_send_cmd irs ir c val)) lk.
Proof.
  intros Hs Hv (R1 & R2 & R3 & R4 & R5 & R6 & R7 & R8) Ha.
  unfold ICH6_MAX_CORB_ENTRIES in R2.
  pose proof (queue_bound q R4 R5) as Hlen.
  unfold track, book_step. set (a := azx_command_addr val) in *.
  assert (Hnotin : a ∉ map azx_command_addr q).
  { intros H. apply list_elem_of_fmap in H as (cmd & E & Hin).
    apply list_elem_of_lookup in Hin as [i Hi].
    destruct (R6 i cmd Hi) as [_ H]. rewrite <- E in H. congruence. }
  cbn [fst snd]. split_link_rel.
  - rewrite corb_backlog_push; [by rewrite R1|done|done|rewrite R1; lia].
  - done.
  - rewrite length_app. simpl. lia.
  - apply Forall_app. split; [done|]. by constructor.
  - rewrite map_app. apply NoDup_app. split_and!; [done| |apply NoDup_singleton].
    intros x Hx Hx'. apply list_elem_of_singleton in Hx'. by subst.
  - intros i cmd Hi. apply lookup_app_Some in Hi as [Hi|[Hi1 Hi2]].
    + destruct (R6 i cmd Hi) as [H1 H2].
      assert (Hne : a ≠ azx_command_addr cmd).
      { intros E. apply Hnotin. rewrite E. apply list_elem_of_fmap.
        exists cmd. split; [done|]. by eapply list_elem_of_lookup_2. }
      rewrite lookup_insert_ne by done. by rewrite exch_insert_ne.
    + destruct (i - length q)%nat as [|k] eqn:Ek; [|by destruct k].
      simpl in Hi2. simplify_eq. fold a.
      rewrite lookup_insert_eq, exch_insert_eq. split; [|done].
      do 2 f_equal. lia.
  - intros x Hx. rewrite map_app. apply elem_of_app.
    destruct (decide (a = x)) as [<-|Hne].
    + right. by apply list_elem_of_singleton.
    + rewrite exch_insert_ne in Hx by done. left. by apply R7.
  - intros x r Hx. destruct (decide (a = x)) as [<-|Hne].
    + by rewrite exch_insert_eq in Hx.
    + rewrite exch_insert_ne in Hx by done. rewrite lookup_insert_ne by done.
      by apply R8.
Qed.

(** The link's answer to the command the engine fetches is a response the
    books expect, and it is for the oldest command in the ring. *)
Lemma link_rel_response codec g q b c lk cmd lk' :
  link_rel codec g q b c lk -> link_fetch c lk = Some (cmd, lk') ->
  let e := HwResponse (codec (fetched lk) cmd) (Z.shiftr cmd 28) in
  admissible g (ObsHw e) /\
  link_rel codec (track g (ObsHw e)) (tail q) b c lk'.
Proof.
  intros (R1 & R2 & R3 & R4 & R5 & R6 & R7 & R8) Hf. cbn zeta.
  destruct (corb_backlog_fetch c lk cmd lk' R2 Hf) as (Hq & Hn & Hrp).
  rewrite Hq in R1. subst q. cbn [tail].
  apply Forall_cons in R4 as [Hu R4].
  destruct (command_addr_u32 cmd Hu) as (Ea & Eu & _).
  simpl in R5. apply NoDup_cons in R5 as [Hnotin R5].
  destruct (R6 0%nat cmd eq_refl) as [Hb Haw].
  rewrite Nat.add_0_r in Hb.
  unfold admissible, track. rewrite Ea.
  set (a := azx_command_addr cmd) in *.
  split; [done|]. split_link_rel.
  - done.
  - exact Hrp.
  - rewrite R3, Hn. simpl. lia.
  - done.
  - done.
  - intros i cmd' Hi. destruct (R6 (S i) cmd' Hi) as [H1 H2].
    rewrite Hn. split; [rewrite H1; do 2 f_equal; lia|].
    rewrite exch_insert_ne; [done|].
    intros E. apply Hnotin. rewrite E. apply list_elem_of_fmap.
    exists cmd'. split; [done|]. by eapply list_elem_of_lookup_2.
  - intros x Hx. destruct (decide (a = x)) as [<-|Hne].
    + by rewrite exch_insert_eq in Hx.
    + rewrite exch_insert_ne in Hx by done. apply R7 in Hx. simpl in Hx.
      apply elem_of_cons in Hx as [Hx|Hx]; [by subst|done].
  - intros x r Hx. destruct (decide (a = x)) as [<-|Hne].
    + rewrite exch_insert_eq in Hx. simplify_eq. eauto.
    + rewrite exch_insert_ne in Hx by done. by apply R8.
Qed.

Lemma link_rel_events codec evs g q b c lk lk' :
  link_rel codec g q b c lk -> link_events codec c lk evs = Some lk' ->
  fault_free g (map ObsHw evs) /\
  link_rel codec (tracks g (map ObsHw evs))
    (unanswered q (map ObsHw evs)) b c lk'.
Proof.
  revert g q lk. induction evs as [|e evs IH]; intros g q lk Hrel Hev.
  - simpl in Hev. by simplify_eq.
  - destruct e as [r x|]; simpl in Hev.
    + destruct (link_fetch c lk) as [[cmd lk1]|] eqn:Ef; [|done].
      unfold link_answer in Hev.
      destruct (Z.eqb_spec r (codec (fetched lk) cmd)) as [->|]; [|done].
      destruct (Z.eqb_spec x (Z.shiftr cmd 28)) as [->|]; [|done].
      simpl in Hev.
      destruct (link_rel_response codec g q b c lk cmd lk1 Hrel Ef)
        as [Hadm Hrel1].
      destruct (IH _ _ _ Hrel1 Hev) as [H1 H2].
      split; [by split|done].
    + destruct (IH _ _ _ Hrel Hev) as [H1 H2].
      split; [by split|done].
Qed.

(** ** Runs driven by the CORB *)

Lemma hw_events_recv evs addr v :
  hw_events (map ObsHw evs ++ [ObsRecv addr v]) = evs.
Proof.
  induction evs as [|e evs IH]; [done|].
  change (hw_events (map ObsHw (e :: evs) ++ [ObsRecv addr v]))
    with (e :: hw_events (map ObsHw evs ++ [ObsRecv addr v])).
  by rewrite IH.
Qed.

Lemma orderly_app g l1 l2 :
  orderly g (l1 ++ l2) <-> orderly g l1 /\ orderly (tracks g l1) l2.
Proof.
  revert g. induction l1 as [|o l1 IH]; intros g; simpl.
  - tauto.
  - rewrite IH. unfold tracks. simpl. tauto.
Qed.

Lemma answers_sent_app codec b l1 l2 :
  answers_sent codec b (l1 ++ l2)
  <-> answers_sent codec b l1 /\ answers_sent codec (books b l1) l2.
Proof.
  revert b. induction l1 as [|o l1 IH]; intros b; simpl.
  - tauto.
  - rewrite IH. unfold books. simpl. tauto.
Qed.

Lemma answers_sent_hw codec b evs : answers_sent codec b (map ObsHw evs).
Proof. induction evs as [|e evs IH]; simpl; [done|]. auto. Qed.

Lemma books_hw b evs : books b (map ObsHw evs) = b.
Proof. unfold books. induction evs as [|e evs IH]; simpl; [done|]. done. Qed.

(** A hardware event and a receive leave the CORB and its write pointer as
    they were. *)
Lemma hw_step_corb c e :
  CORBWP (regs (hw_step c e)) = CORBWP (regs c) /\
  buf (corb (hw_step c e)) = buf (corb c).
Proof.
  destruct e as [r x|]; simpl; [done|].
  destruct (update_rirb_frame c) as (F1 & F2 & _). by rewrite F1, F2.
Qed.

Lemma get_response_corb fuel dp addr ok ts c c' ts' evs v :
  rirb_get_response_from fuel dp addr ok ts c = Some (c', ts', evs, v) ->
  CORBWP (regs c') = CORBWP (regs c) /\ buf (corb c') = buf (corb c).
Proof.
  apply (get_response_preserves
    (fun c' => CORBWP (regs c') = CORBWP (regs c) /\
               buf (corb c') = buf (corb c))).
  - intros c1 e [H1 H2]. destruct (hw_step_corb c1 e) as [E1 E2].
    by rewrite E1, E2.
  - intros c1 c2 Hcore [H1 H2]. unfold ring_core in Hcore.
    assert (E1 : CORBWP (regs c2) = CORBWP (regs c1)) by congruence.
    assert (E2 : corb c2 = corb c1) by congruence.
    by rewrite E1, E2.
  - done.
Qed.

Lemma run_op_link codec g q b c lk o c1 l1 lk1 :
  ring_inv g c -> link_rel codec g q b c lk -> send_is_u32 o ->
  run_op c o = Some (c1, l1) ->
  link_events codec c lk (hw_events l1) = Some lk1 ->
  orderly g l1 ->
  fault_free g l1 /\ answers_sent codec b l1 /\
  ring_inv (tracks g l1) c1 /\
  link_rel codec (tracks g l1) (unanswered q l1) (books b l1) c1 lk1.
Proof.
  intros Hinv Hrel Hu Hrun Hev Ho. destruct o as [val irs ir|addr ok ts|e].
  - simpl in Hrun.
    pose proof (ring_inv_send g irs ir c val Hinv) as Hsend.
    pose proof (link_rel_send codec g q b c lk irs ir val) as Hlink.
    destruct (azx_send_cmd irs ir c val) as [c2 e2]. simplify_eq.
    simpl in Hev. simplify_eq. destruct Ho as [Ha _]. simpl in Ha.
    split; [done|]. split; [done|]. split; [by apply Hsend|].
    apply Hlink; try done. by destruct Hinv.
  - simpl in Hrun. unfold azx_get_response in Hrun.
    destruct Hinv as [Hs Hinv']. rewrite Hs in Hrun.
    destruct (azx_rirb_get_response c addr ok ts)
      as [[[[c2 t2] e2] v2]|] eqn:E; [|done].
    simplify_eq. rewrite hw_events_recv in Hev.
    destruct (link_rel_events codec _ _ _ _ _ _ _ Hrel Hev) as [Hff Hrel2].
    apply orderly_app in Ho as [_ [Hr _]]. simpl in Hr.
    assert (Hff' : fault_free g (map ObsHw e2 ++ [ObsRecv addr v2])).
    { apply fault_free_app. split; [done|]. by split. }
    destruct (get_response_ring _ g _ _ _ _ _ _ _ _ _ (conj Hs Hinv') E Hff')
      as [H1 H2].
    destruct (get_response_corb _ _ _ _ _ _ _ _ _ _ E) as [F1 F2].
    destruct Hrel2 as (R1 & R2 & R3 & R4 & R5 & R6 & R7 & R8).
    split; [done|]. split.
    { apply answers_sent_app. split; [apply answers_sent_hw|].
      rewrite books_hw. split; [|done]. simpl. by apply (R8 _ _ H1). }
    split; [done|].
    unfold unanswered, books. rewrite !fold_left_app. cbn [fold_left].
    fold (unanswered q (map ObsHw e2)). fold (books b (map ObsHw e2)).
    rewrite books_hw, tracks_recv. cbn [queue_step book_step].
    set (g2 := tracks g (map ObsHw e2)) in *.
    split_link_rel; try done.
    + by rewrite (corb_backlog_ext c c1).
    + intros i cmd Hi. destruct (R6 i cmd Hi) as [Hb Haw].
      split; [done|]. rewrite exch_insert_ne; [done|]. congruence.
    + intros a Ha. destruct (decide (addr = a)) as [<-|Hne].
      * by rewrite exch_insert_eq in Ha.
      * rewrite exch_insert_ne in Ha by done. by apply R7.
    + intros a r Ha. destruct (decide (addr = a)) as [<-|Hne].
      * by rewrite exch_insert_eq in Ha.
      * rewrite exch_insert_ne in Ha by done. by apply R8.
  - simpl in Hrun. simplify_eq.
    change (hw_events [ObsHw e]) with [e] in Hev.
    destruct (link_rel_events codec [e] _ _ _ _ _ _ Hrel Hev) as [Hff Hrel2].
    split; [done|]. split; [done|].
    destruct Hff as [Ha _]. split; [by apply ring_inv_hw|].
    destruct (hw_step_corb c e) as [F1 F2].
    by eapply link_rel_ext.
Qed.

Lemma run_link codec ops g q b c lk c' l lk' :
  ring_inv g c -> link_rel codec g q b c lk -> Forall send_is_u32 ops ->
  run ops c = Some (c', l) ->
  link_driven codec ops c lk = Some lk' ->
  orderly g l ->
  fault_free g l /\ answers_sent codec b l /\
  corb_backlog c' lk' = unanswered q l.
Proof.
  revert g q b c lk l.
  induction ops as [|o ops IH]; intros g q b c lk l Hinv Hrel Hu Hrun Hd Ho.
  - simpl in Hrun, Hd. simplify_eq. split; [done|]. split; [done|].
    by destruct Hrel.
  - simpl in Hrun, Hd. apply Forall_cons in Hu as [Hu1 Hu].
    destruct (run_op c o) as [[c1 l1]|] eqn:E1; [|done].
    destruct (run ops c1) as [[c2 l2]|] eqn:E2; [|done].
    destruct (link_events codec c lk (hw_events l1)) as [lk1|] eqn:E3; [|done].
    simplify_eq. apply orderly_app in Ho as [Ho1 Ho2].
    destruct (run_op_link codec _ _ _ _ _ _ _ _ _ Hinv Hrel Hu1 E1 E3 Ho1)
      as (H1 & H2 & H3 & H4).
    destruct (IH _ _ _ _ _ _ H3 H4 Hu E2 Hd Ho2) as (K1 & K2 & K3).
    split; [by apply fault_free_app|].
    split; [by apply answers_sent_app|].
    unfold unanswered. rewrite fold_left_app. exact K3.
Qed.

(** C1. In ring mode, starting from the ring set-up, take any sequence of
    sends of 32-bit commands, receives and hardware events, those during
    the receives included. It always runs to its end. Let the hardware be
    driven by the CORB: every response is the answer of the codecs to the
    command the CORB engine finds at its read pointer, behind the write
    pointer the driver set, with the codec address of that command in its
    extended word; and let the callers keep order: a command goes only to
    an address with nothing outstanding, a receive comes only after the
    hardware delivered a response for its address. Then
    - each receive returns exactly the response the hardware produced for
      the outstanding command to its address;
    - that response is the codecs' answer to the most recent command sent
      to the address, the very word passed to the send;
    - at the end the words in the CORB between the engine's read pointer
      and the write pointer are the commands sent and not answered, in the
      order sent. *)
Theorem ring_round_trip (codec : nat -> Z -> Z) (c : azx) (ops : list op) :
  single_cmd c = false -> Forall send_is_u32 ops ->
  exists c' log,
    run ops (azx_init_cmd_io c) = Some (c', log) /\
    forall lk',
      link_driven codec ops (azx_init_cmd_io c) link0 = Some lk' ->
      orderly ∅ log ->
      round_trip ∅ log /\
      answers_sent codec (0%nat, ∅) log /\
      corb_backlog c' lk' = unanswered [] log.
Proof.
  intros Hs Hu. destruct (run_total ops (azx_init_cmd_io c)) as [[c' log] E].
  exists c', log. split; [done|]. intros lk' Hd Ho.
  pose proof (ring_inv_init c Hs) as Hinv.
  destruct (run_link codec ops _ _ _ _ _ _ _ _ Hinv (link_rel_init codec c)
              Hu E Hd Ho) as (H1 & H2 & H3).
  split; [|done]. by eapply run_ring.
Qed.

Lemma ring_round_trip_witness :
  exists c' lk',
    run link_trip_ops (azx_init_cmd_io chip0) = Some (c', link_trip_log) /\
    link_driven link_codec link_trip_ops (azx_init_cmd_io chip0) link0
      = Some lk' /\
    orderly ∅ link_trip_log /\
    round_trip ∅ link_trip_log /\
    answers_sent link_codec (0%nat, ∅) link_trip_log /\
    corb_backlog c' lk' = unanswered [] link_trip_log /\
    unanswered [] link_trip_log = [537853953].
Proof.
  assert (Hu : Forall send_is_u32 link_trip_ops).
  { unfold link_trip_ops. repeat constructor; simpl; lia. }
  destruct (ring_round_trip link_codec chip0 link_trip_ops eq_refl Hu)
    as (c' & log & Hrun & H).
  assert (El : log = link_trip_log).
  { assert (E : fmap snd (run link_trip_ops (azx_init_cmd_io chip0))
                = Some link_trip_log) by (vm_compute; reflexivity).
    rewrite Hrun in E. simpl in E. congruence. }
  subst log.
  assert (Ho : orderly ∅ link_trip_log).
  { unfold link_trip_log, orderly, in_order, track.
    repeat split; try reflexivity; eexists; reflexivity. }
  assert (Hd : exists lk',
    link_driven link_codec link_trip_ops (azx_init_cmd_io chip0) link0
    = Some lk') by (eexists; vm_compute; reflexivity).
  destruct Hd as [lk' Hd].
  exists c', lk'. destruct (H lk' Hd Ho) as (H1 & H2 & H3).
  split_and!; try done.
Defined.

(** ** The set-up fails exactly when the geometry takes too many entries *)












